(* ===== verification/_CoqProject ===== *)
-Q . S2P
Prelude.v
DList.v
Memory.v
Lifecycle.v
PageManager.v
Sv39.v
Vmm.v
Format.v
FormatSpec.v
Console.v
Bytes.v
Ffs.v
Fdt.v
KernelTypes.v
KernelInv.v
Trace.v
Demo.v
RunQueue.v
DelayQueue.v
Scheduler.v
TaskContext.v
TimeManager.v
Ipc.v
IpcProps.v
TaskManager.v
Trackers.v
Arch.v
Syscall.v
Frame.v
Lifetime.v
SyscallProps.v
Transition.v
Paging.v
SelfTests.v
System.v
Boot.v
Firmware.v
SmpTimer.v
Traps.v
Bringup.v
Affinity.v
Guarantees.v
HostIpc.v
HostFifo.v
HostOnce.v
HostRace.v
