(* ===== verification/Prelude.v ===== *)
(** * Verification of the Jixia microkernel firmware

    ** The program

    Jixia is a RISC-V firmware microkernel for the QEMU [virt] machine.  Its
    parts, bottom up: freestanding libraries ([lib/]: block memory operations,
    a formatter, a device tree parser); the flash partition table and image
    reader ([microkernel/firmware_store/], [memory/flash_provider.cpp]); the
    memory lifecycle that moves the firmware from a contained window to DDR, and
    a bump page allocator ([microkernel/memory/]); Sv39 page tables and the one
    shared boot address space ([arch/riscv/sv39.cpp], [core/vmm_manager.cpp]); a
    kernel log with a UART mirror ([microkernel/console/]); and the executive
    ([microkernel/core/]): a FIFO scheduler over a shared and per-hart run
    queues, per-hart delay queues and timer preemption, endpoint IPC with
    blocking receivers, a bounded task table with a tree of trackers for
    create, end, wait and detach, system calls, the trap dispatcher and the
    bootstrap sequence.  The executive is a set of singletons protected by
    spinlocks; one kernel entry of one hart runs to completion.

    The executive is modelled as the M00-08.01 build has it: that probe only
    makes [boot_main] end in [Kernel::bootstrap], and the later probes
    ([JIXIA_M00_08_02_PROBE] and on) and [JIXIA_VERIFICATION] are off.  Code of
    other builds that is modelled lives in files of its own: [Trace]
    (verification builds), [Transition] (M00-07.04), [Paging] (M00-07.03) and
    the supervisor-call validators of [SelfTests] (M00-06.03 and M00-06.04).

    ** The model

    A kernel operation is a function [M E S A] ([Prelude]): hart environment and
    state to an outcome, which is [Done], [Parked] (the fail-closed
    [hart::park]), [Undefined] (null or out-of-range access) or [Diverged] (a
    loop bound exhausted, or a spinlock taken twice).  [wp pk m Q e s] says that
    [m] returns and establishes [Q], or parks where [pk] holds; [wp False]
    excludes parking, undefined behaviour and non-termination.  Machine integers
    are [Z] with the wrap-around written out ([u64], [u32], ...).  Pointers to
    table slots are slot numbers; records have the source's fields and are
    updated one assignment at a time; memory is a function from addresses to
    bytes.

    Libraries and memory:

    - [Prelude]: record update, machine integers, the monad and its rules.
    - [DList]: intrusive doubly linked lists over a link map.
    - [Memory]: [lib/memory.cpp] over byte memory; 64-bit loads and stores.
    - [Lifecycle]: [memory/memory_lifecycle.cpp], with [platform/qemu_virt]'s
      DDR bring-up.
    - [PageManager]: [memory/page_manager.cpp].
    - [Sv39], [Vmm]: [arch/riscv/sv39.cpp] and [core/vmm_manager.cpp].
    - [Format], [Console]: [lib/format.cpp] and [console/].  [FormatSpec] is a
      specification of the formatter of its own: descriptions of format strings,
      their written form, and the text they denote.
    - [Bytes]: big-endian words and byte strings in memory.
    - [Ffs]: [firmware_store/ffs.cpp] and [memory/flash_provider.cpp].
    - [Fdt]: [lib/fdt.cpp], over a window of memory that bounds every read.

    The executive, one file per component of [microkernel/core/]:

    - [KernelTypes]: its structs and its state [KState].
    - [KernelInv]: the invariant.  The abstract state is a function [C] from
      queue names to lists of tasks; [Inv s C] says that links, headers and
      flags of [s] represent [C] and what the members of each queue look like;
      [Running] is about the tasks the harts execute; [lock_fits] and [ordered]
      give the lock order.  [Demo] is a concrete state that satisfies it.
    - [RunQueue], [DelayQueue], [Scheduler] ([scheduler.cpp],
      [time_manager.cpp]), [TaskContext] ([task_context.cpp]), [TimeManager]
      ([time_manager.cpp], [timer.cpp]), [Ipc] and [IpcProps]
      ([ipc_manager.cpp]), [TaskManager] ([task_manager.cpp]), [Arch]
      ([arch/riscv/]), [Syscall] ([task_syscall.cpp], [trap.cpp]).
    - [Trackers]: the forest of trackers that create, end, wait and detach keep.
    - [Frame], [Lifetime], [SyscallProps], [System]: what each system call
      leaves alone, the life of a task, and the specification of every call.
    - [Boot] ([kernel.cpp], [cpu_manager.cpp], [hart.cpp]), [Firmware]
      ([firmware_main.cpp] up to the population report), [Traps] (the machine:
      harts start and trap in any order), [Bringup] (the boot sequence on an
      arbitrary machine, and the predicate [boot_fits] that decides it),
      [Affinity] (no task of a reachable state is pinned to a hart) and
      [Guarantees] (the properties of the whole executive).

    Programs beside the executive:

    - [Trace]: [verify/trace.cpp], the bounded event log.
    - [Transition], [Paging]: [core/mainstore_transition_test.cpp] and
      [core/pre_ddr_paging_test.cpp].
    - [SmpTimer]: [core/smp_timer_test.cpp], the handshake of all harts as an
      interleaving of single actions and timer interrupts.  [wfi] is an action
      of its own that stalls the hart until an interrupt; a parameter says
      whether it may also end by itself, as the architecture allows.
    - [SelfTests]: [core/kernel_print_test.cpp], [core/trap_frame_test.cpp],
      [core/privilege_boundary_test.cpp] and the validator of [core/trap.cpp].
    - [HostIpc], [HostFifo], [HostOnce], [HostRace]: the threaded host test of
      the endpoint manager ([verification/host/ipc_torture.cpp]).  [HostIpc] has
      its helpers, a machine of interleaved threads and the sequential churn
      case; the other files have one threaded case each.

    ** What is shown

    - The executive: bring-up of one to four harts succeeds exactly on a machine
      that fits, whatever its numbering, linker layout and clock.  From then on
      the invariant holds between kernel entries whatever order harts start and
      trap in; every trap is answered or parks for a stated reason; a ready task
      runs after as many reschedules as tasks are served before it; each system
      call and the timer handler meet their specification ([Bringup],
      [Guarantees], [TimeManager]).
    - Queues: run queues are FIFOs, delay queues are sorted, endpoints are
      bounded FIFOs with blocking receivers, destroyed handles stay dead.
    - Memory: no page is handed out twice between resets, translations are exactly what was
      mapped, no user page is writable and executable, lifecycle steps follow
      their order, the mainstore transition runs to its end, a page fault before
      DDR brings in exactly the page of the image.
    - Parsers and text: the device tree and the flash table are read in bounds
      and correctly (for the tree, below the size at which its 32-bit cursor
      wraps); formatting produces exactly the text of [FormatSpec]; the self
      tests pass or refuse exactly when they should.
    - Interleaving: in the timer handshake every hart takes at most one
      interrupt, none fails, and the verdict comes after all have published;
      where [wfi] waits for an interrupt, completion stays reachable exactly
      until a hart takes its interrupt between the test and the [wfi].  In the
      host test no interleaving
      of producers, consumers and destruction loses, repeats, reorders or
      damages a message or lets a stale handle through; a case fails only when
      its deadline passes, and can complete until then.  After it the
      fan-in case may never return ([mpsc_fifo_can_hang]).

    ** Bounds

    Loops over linked structures have fuel: [task_fuel] (17, one more than the
    tasks a queue can hold), [tracker_fuel] (33, two visits of each of the 16
    trackers and one more) and [walk_fuel] (one more than the words of a device
    tree's structure block); the churn loop has one unit more than its
    iterations.  The specifications are [wp] statements, so each of
    them includes that the fuel is enough.

    ** Assumptions

    A kernel entry is one step: interleaving inside an entry is not modelled,
    and the lock discipline is recorded instead (every acquisition is logged
    with the locks held).  Likewise a thread of the host test makes one shared
    access per step, and a call of the endpoint manager is one access because
    its body holds the lock of its endpoint.  User code is arbitrary except that the idle task only
    yields.  Fences, TLB and cache maintenance have no effect on the model.
    Linker symbols, hart numbers and the clock are parameters.  The loop in which
    the boot hart waits for the others to come online is one look that diverges
    if some are not.  What an ending task owes a waiting parent ([joiner_of])
    follows the code, which owes nothing when the task has detached itself.

    ** Not modelled

    Assembly ([trap.S], reset vectors, user programs): register save and restore
    enter as the [TrapFrame].  The scenario code that probes M00-08.02 and later
    compile into the executive, the single-hart breakpoint and timer probes
    (inline assembly around handlers that are modelled), the host test's argument
    parsing and report, the build scripts, and the platform's UART set-up: test
    drivers, tooling and pure I/O. *)
From stdpp Require Import base tactics list gmap.
From Stdlib Require Import ZArith Lia.

Local Open Scope Z_scope.

(** ** Record update

    [r <| f := v |>] is the record [r] with field [f] replaced by [v].  A
    record type opts in with an [Eta] instance; the setter of a field is
    computed from it on demand. *)

Class Eta (R : Type) := eta : R -> R.
Class SetField {R E : Type} (proj : R -> E) := set_field : (E -> E) -> R -> R.
Arguments set_field {R E} proj {_} f r /.

Ltac derive_setter proj :=
  let R := lazymatch type of proj with ?R -> _ => R end in
  let e := eval hnf in (@eta R _) in
  lazymatch eval pattern proj in e with
  | ?k _ => let s := eval cbv beta in (fun f => k (fun r => f (proj r))) in exact s
  end.
#[export] Hint Extern 0 (SetField ?p) => derive_setter p : typeclass_instances.

Declare Scope jixia_scope.
Delimit Scope jixia_scope with jixia.
Notation "r <| p := v |>" := (set_field p (fun _ => v) r)
  (at level 1, left associativity, p at level 9, v at level 200,
   format "r  <|  p  :=  v  |>") : jixia_scope.
Notation "<| p := v |>" := (set_field p (fun _ => v))
  (at level 0, p at level 9, v at level 200, format "<|  p  :=  v  |>") : jixia_scope.
#[global] Open Scope jixia_scope.

(** ** Machine integers

    A w-bit unsigned value is a [Z]; every arithmetic operation that the
    source performs at a fixed width is wrapped explicitly. *)

Definition u8 (z : Z) : Z := z mod 2 ^ 8.
Definition u16 (z : Z) : Z := z mod 2 ^ 16.
Definition u32 (z : Z) : Z := z mod 2 ^ 32.
Definition u64 (z : Z) : Z := z mod 2 ^ 64.
Definition UINT64_MAX : Z := 2 ^ 64 - 1.

(** Two's complement reading of a w-bit pattern. *)
Definition sext (w z : Z) : Z :=
  let r := z mod 2 ^ w in if r <? 2 ^ (w - 1) then r else r - 2 ^ w.

Definition is_u8 (z : Z) : Prop := 0 <= z < 2 ^ 8.
Definition is_u16 (z : Z) : Prop := 0 <= z < 2 ^ 16.
Definition is_u32 (z : Z) : Prop := 0 <= z < 2 ^ 32.
Definition is_u64 (z : Z) : Prop := 0 <= z < 2 ^ 64.

(** Powers of two as numerals, so that [lia] sees them. *)
Ltac pow2_numerals :=
  repeat match goal with
  | H : context [2 ^ ?n] |- _ =>
      lazymatch n with Zpos _ => idtac | Z0 => idtac end;
      let v := eval vm_compute in (2 ^ n) in change (2 ^ n) with v in H
  | |- context [2 ^ ?n] =>
      lazymatch n with Zpos _ => idtac | Z0 => idtac end;
      let v := eval vm_compute in (2 ^ n) in change (2 ^ n) with v
  end.

Ltac word_unfold :=
  unfold is_u8, is_u16, is_u32, is_u64, u8, u16, u32, u64, UINT64_MAX in *;
  pow2_numerals.

(** Decides linear goals over wrapped machine arithmetic. *)
Ltac word_lia := word_unfold; Z.div_mod_to_equations; lia.

Lemma u64_small z : is_u64 z -> u64 z = z.
Proof. apply Z.mod_small. Qed.
Lemma u32_small z : is_u32 z -> u32 z = z.
Proof. apply Z.mod_small. Qed.
Lemma u64_range z : is_u64 (u64 z).
Proof. apply Z.mod_pos_bound. lia. Qed.
Lemma u32_range z : is_u32 (u32 z).
Proof. apply Z.mod_pos_bound. lia. Qed.
Lemma u64_u64 z : u64 (u64 z) = u64 z.
Proof. apply u64_small, u64_range. Qed.

Create HintDb jixia.
#[export] Hint Resolve u64_range u32_range : jixia.
#[export] Hint Rewrite u64_u64 : jixia.

(** ** Outcomes and the kernel monad

    A kernel operation runs on one hart against the shared kernel state.
    [Parked] is [hart::park()] (the fail-closed end of a hart), [Undefined]
    a null or out-of-range dereference, [Diverged] a loop that does not end
    (an exhausted iteration bound, or a spinlock the hart already holds). *)

Inductive outcome (S A : Type) : Type :=
| Done (a : A) (s : S)
| Parked
| Undefined
| Diverged.
Arguments Done {S A} a s.
Arguments Parked {S A}.
Arguments Undefined {S A}.
Arguments Diverged {S A}.

Definition M (E S A : Type) : Type := E -> S -> outcome S A.

Section monad.
Context {E S : Type}.

#[export] Instance M_ret : MRet (M E S) := fun _ a _ s => Done a s.
#[export] Instance M_bind : MBind (M E S) := fun _ _ k m e s =>
  match m e s with
  | Done a s' => k a e s'
  | Parked => Parked
  | Undefined => Undefined
  | Diverged => Diverged
  end.

Definition ask : M E S E := fun e s => Done e s.
Definition gets {A} (f : S -> A) : M E S A := fun _ s => Done (f s) s.
Definition modify (f : S -> S) : M E S unit := fun _ s => Done tt (f s).
Definition park {A} : M E S A := fun _ _ => Parked.
Definition undefined {A} : M E S A := fun _ _ => Undefined.
Definition diverge {A} : M E S A := fun _ _ => Diverged.
(** Dereference of a possibly-null value. *)
Definition deref {A} (o : option A) : M E S A :=
  match o with Some a => mret a | None => undefined end.
Definition when (b : bool) (m : M E S unit) : M E S unit :=
  if b then m else mret tt.

(** [wp pk m Q e s]: run on hart environment [e] from state [s], [m]
    returns and establishes [Q], or parks where [pk] admits it.  It never
    dereferences null, never runs off a table and never loops forever. *)
Definition wp {A} (pk : Prop) (m : M E S A) (Q : A -> S -> Prop) (e : E) (s : S) : Prop :=
  match m e s with
  | Done a s' => Q a s'
  | Parked => pk
  | Undefined | Diverged => False
  end.

Lemma wp_ret {A} pk (a : A) (Q : A -> S -> Prop) e s :
  Q a s -> wp pk (mret a) Q e s.
Proof. done. Qed.

Lemma wp_bind {A B} pk (m : M E S A) (k : A -> M E S B) (Q : B -> S -> Prop) e s :
  wp pk m (fun a s' => wp pk (k a) Q e s') e s -> wp pk (mbind k m) Q e s.
Proof. unfold wp, mbind, M_bind. by destruct (m e s). Qed.

Lemma wp_bind_inv {A B} pk (m : M E S A) (k : A -> M E S B) (Q : B -> S -> Prop) e s :
  wp pk (mbind k m) Q e s -> wp pk m (fun a s' => wp pk (k a) Q e s') e s.
Proof. unfold wp, mbind, M_bind. by destruct (m e s). Qed.

(** The first two steps of a sequence, taken together. *)
Lemma wp_bind_assoc {A B D} pk (m : M E S A) (k1 : A -> M E S B) (k2 : B -> M E S D) (Q : D -> S -> Prop) e s :
  wp pk (mbind k1 m) (fun b s' => wp pk (k2 b) Q e s') e s -> wp pk (mbind (fun a => mbind k2 (k1 a)) m) Q e s.
Proof.
  unfold wp, mbind, M_bind. destruct (m e s) as [a s'| | |]; [|done..]. by destruct (k1 a e s').
Qed.

Lemma wp_mono {A} (pk pk' : Prop) (m : M E S A) (Q Q' : A -> S -> Prop) e s :
  wp pk m Q e s -> (pk -> pk') -> (forall a s', Q a s' -> Q' a s') -> wp pk' m Q' e s.
Proof. unfold wp. destruct (m e s); eauto. Qed.

Lemma wp_ask pk (Q : E -> S -> Prop) e s : Q e s -> wp pk ask Q e s.
Proof. done. Qed.
Lemma wp_gets {A} pk (f : S -> A) (Q : A -> S -> Prop) e s :
  Q (f s) s -> wp pk (gets f) Q e s.
Proof. done. Qed.
Lemma wp_modify pk (f : S -> S) (Q : unit -> S -> Prop) e s :
  Q tt (f s) -> wp pk (modify f) Q e s.
Proof. done. Qed.
Lemma wp_park {A} (pk : Prop) (Q : A -> S -> Prop) e s : pk -> wp pk park Q e s.
Proof. done. Qed.
Lemma wp_deref {A} pk (o : option A) a (Q : A -> S -> Prop) e s :
  o = Some a -> Q a s -> wp pk (deref o) Q e s.
Proof. by intros ->. Qed.

(** A run that never parks satisfies any contract about parking. *)
Lemma wp_any {A} (pk : Prop) (m : M E S A) (Q : A -> S -> Prop) e s : wp False m Q e s -> wp pk m Q e s.
Proof. intros H. eapply wp_mono; [exact H|done|done]. Qed.

(** A run that satisfies [wp False] ends in [Done]. *)
Lemma wp_done {A} (m : M E S A) (Q : A -> S -> Prop) e s :
  wp False m Q e s -> exists a s', m e s = Done a s' /\ Q a s'.
Proof. unfold wp. destruct (m e s); naive_solver. Qed.

(** A run that satisfies [wp] ends in [Done], or parks for the reason given. *)
Lemma wp_cases {A} (pk : Prop) (m : M E S A) (Q : A -> S -> Prop) e s :
  wp pk m Q e s -> (exists a s', m e s = Done a s' /\ Q a s') \/ m e s = Parked /\ pk.
Proof. unfold wp. destruct (m e s); naive_solver. Qed.

(** The state a run ends in. *)
Definition state_after {A} (m : M E S A) (e : E) (s : S) : S :=
  match m e s with Done _ s' => s' | _ => s end.
Lemma wp_state_after {A} (m : M E S A) (Q : S -> Prop) e s :
  wp False m (fun _ s' => Q s') e s -> Q (state_after m e s).
Proof. unfold wp, state_after. by destruct (m e s). Qed.

Lemma wp_intro_done {A} pk (m : M E S A) (Q : A -> S -> Prop) e s a s' :
  m e s = Done a s' -> Q a s' -> wp pk m Q e s.
Proof. unfold wp. by intros ->. Qed.
End monad.

#[global] Arguments M_bind : simpl never.

(** A program on one component of a larger state. *)
Section zoom.
Context {E S T : Type} (get : T -> S) (put : S -> T -> T).

Definition zoom {A} (m : M E S A) : M E T A := fun e t =>
  match m e (get t) with
  | Done a s => Done a (put s t)
  | Parked => Parked
  | Undefined => Undefined
  | Diverged => Diverged
  end.

Lemma wp_zoom {A} pk (m : M E S A) (Q : A -> T -> Prop) e t :
  wp pk m (fun a s => Q a (put s t)) e (get t) -> wp pk (zoom m) Q e t.
Proof. unfold wp, zoom. by destruct (m e (get t)). Qed.
End zoom.

(** One symbolic step of a monadic program. *)
Ltac wp_step :=
  lazymatch goal with
  | |- wp _ (mbind _ _) _ _ _ => apply wp_bind
  | |- wp _ (mret _) _ _ _ => apply wp_ret
  | |- wp _ ask _ _ _ => apply wp_ask
  | |- wp _ (gets _) _ _ _ => apply wp_gets
  | |- wp _ (modify _) _ _ _ => apply wp_modify
  | |- wp _ (deref _) _ _ _ => eapply wp_deref; [eassumption || reflexivity|]
  | |- wp _ (when ?b _) _ _ _ => unfold when
  | |- wp _ (let _ := _ in _) _ _ _ => cbv zeta
  end.
Ltac wp_steps := repeat (wp_step; cbv beta).

(** ** Lists as arrays *)

Section arrays.
Context {A : Type}.
Implicit Types l : list A.

Lemma lookup_alter_Some l f i j x :
  alter f i l !! j = Some x ->
  (i = j /\ exists y, l !! j = Some y /\ x = f y) \/ (i <> j /\ l !! j = Some x).
Proof.
  destruct (decide (i = j)) as [->|Hne].
  - rewrite list_lookup_alter_eq. destruct (l !! j) eqn:E; simpl; naive_solver.
  - rewrite list_lookup_alter_ne by done. naive_solver.
Qed.

Lemma filter_all_out (P : A -> Prop) `{!forall x, Decision (P x)} l :
  (forall x, x ∈ l -> ~ P x) -> filter P l = [].
Proof.
  induction l as [|x l IH]; intros Hout; [done|].
  rewrite filter_cons, decide_False by (apply Hout; left).
  apply IH. intros y Hy. apply Hout. by right.
Qed.

Lemma filter_all_in (P : A -> Prop) `{!forall x, Decision (P x)} l :
  (forall x, x ∈ l -> P x) -> filter P l = l.
Proof.
  induction l as [|x l IH]; intros Hin; [done|].
  rewrite filter_cons, decide_True by (apply Hin; left).
  f_equal. apply IH. intros y Hy. apply Hin. by right.
Qed.

Lemma lookup_alter_is_Some l f i j : is_Some (alter f i l !! j) <-> is_Some (l !! j).
Proof. by rewrite !lookup_lt_is_Some, length_alter. Qed.
End arrays.

Lemma insert_cases {A} (l : list A) i j x y : <[i := x]> l !! j = Some y -> j = i /\ y = x \/ j <> i /\ l !! j = Some y.
Proof.
  destruct (decide (j = i)) as [->|Hne]; [|rewrite list_lookup_insert_ne by done; auto].
  intros H. left. split; [done|]. apply list_lookup_insert_Some in H. naive_solver.
Qed.

Lemma sum_imap_le {A} (f f' : nat -> A -> nat) (l : list A) :
  (forall j x, (f' j x <= f j x)%nat) -> (sum_list (imap f' l) <= sum_list (imap f l))%nat.
Proof.
  revert f f'. induction l as [|c l IH]; intros f f' H; simpl; [done|].
  apply Nat.add_le_mono; [apply H|]. apply IH. intros j x. apply H.
Qed.

(** A sum over a table in which one entry changed and the others did not grow. *)
Lemma sum_imap_change {A} (f f' : nat -> A -> nat) (l : list A) h a b :
  l !! h = Some a -> (forall j x, j <> h -> (f' j x <= f j x)%nat) ->
  (sum_list (imap f' (<[h := b]> l)) + f h a <= sum_list (imap f l) + f' h b)%nat.
Proof.
  revert f f' h. induction l as [|c l IH]; intros f f' [|h] Hl Hle; simplify_eq/=.
  - assert (sum_list (imap (f' ∘ S) l) <= sum_list (imap (f ∘ S) l))%nat; [|lia]. apply sum_imap_le. intros j x. by apply Hle.
  - pose proof (Hle 0%nat c ltac:(done)). specialize (IH (f ∘ S) (f' ∘ S) h Hl ltac:(intros j x Hj; apply Hle; lia)). cbn in *. lia.
Qed.

Lemma sum_imap_update {A} (f f' : nat -> A -> nat) (l : list A) h a b :
  l !! h = Some a -> (forall j x, j <> h -> (f' j x <= f j x)%nat) -> (f' h b < f h a)%nat ->
  (sum_list (imap f' (<[h := b]> l)) < sum_list (imap f l))%nat.
Proof. intros Hl Hle Hlt. pose proof (sum_imap_change f f' l h a b Hl Hle). lia. Qed.
