(* ===== verification/DList.v ===== *)
(** * Intrusive doubly linked lists

    The run queues, the delay queues, the endpoint waiting FIFOs and the
    tracker sibling lists of the kernel are all doubly linked lists threaded
    through fields of table entries.  This file holds their common theory: a
    store is seen through a function [lk] that gives the (previous, next) pair
    of a node, and [dlist lk hd tl l] says that the cells reached from [hd] and
    [tl] spell out exactly the list [l]. *)
From stdpp Require Import base tactics list sets.
From S2P Require Import Prelude.

Abbreviation links := (nat -> option (option nat * option nat)).

(** [chain lk pp l qn]: the nodes of [l] are linked in order, the first one
    pointing back to [pp] and the last one forward to [qn]. *)
Fixpoint chain (lk : links) (pp : option nat) (l : list nat) (qn : option nat) : Prop :=
  match l with
  | [] => True
  | x :: l' =>
      lk x = Some (pp, match head l' with Some y => Some y | None => qn end) /\
      chain lk (Some x) l' qn
  end.

Definition dlist (lk : links) (hd tl : option nat) (l : list nat) : Prop :=
  hd = head l /\ tl = last l /\ chain lk None l None.

(** First element of a list, or a default. *)
Definition head_or (d : option nat) (l : list nat) : option nat :=
  match head l with Some y => Some y | None => d end.
Definition last_or (d : option nat) (l : list nat) : option nat :=
  match last l with Some y => Some y | None => d end.

Lemma last_or_cons d x l : last_or d (x :: l) = last_or (Some x) l.
Proof. unfold last_or. rewrite last_cons. by destruct (last l). Qed.

Lemma last_or_snoc d x l : last_or d (l ++ [x]) = Some x.
Proof. unfold last_or. by rewrite last_snoc. Qed.

Lemma chain_app lk pp l1 l2 qn :
  chain lk pp (l1 ++ l2) qn <->
  chain lk pp l1 (head_or qn l2) /\ chain lk (last_or pp l1) l2 qn.
Proof.
  revert pp. induction l1 as [|x l1 IH]; intros pp; [simpl; tauto|].
  cbn [app chain]. rewrite IH, last_or_cons. unfold head_or.
  destruct l1; simpl; tauto.
Qed.

Lemma chain_agree lk lk' pp l qn :
  (forall x, x ∈ l -> lk' x = lk x) -> chain lk pp l qn -> chain lk' pp l qn.
Proof.
  revert pp. induction l as [|x l IH]; intros pp Hag; [done|].
  cbn [chain]. intros [Hx Hl]. split.
  - rewrite Hag; [done|set_solver].
  - apply IH; [set_solver|done].
Qed.

(** Redirect the forward pointer of the last node. *)
Lemma chain_set_end lk lk' pp l qn qn' :
  NoDup l ->
  (forall x, x ∈ l -> lk' x =
     (if decide (last l = Some x) then (fun ab => (ab.1, qn')) else id) <$> lk x) ->
  chain lk pp l qn -> chain lk' pp l qn'.
Proof.
  revert pp. induction l as [|x l IH]; intros pp Hnd Hag; [done|].
  apply NoDup_cons in Hnd as [Hx Hnd].
  cbn [chain]. intros [Hlx Hl]. split.
  - rewrite Hag by set_solver. rewrite Hlx. destruct l as [|y l].
    + simpl. by rewrite decide_True.
    + rewrite decide_False; [done|]. rewrite last_cons_cons.
      intros Hlast. apply last_Some_elem_of in Hlast. done.
  - apply IH; [done| |done]. intros z Hz. rewrite Hag by set_solver.
    destruct l as [|y l]; [set_solver|]. by rewrite last_cons_cons.
Qed.

(** Redirect the backward pointer of the first node. *)
Lemma chain_set_start lk lk' pp pp' l qn :
  NoDup l ->
  (forall x, x ∈ l -> lk' x =
     (if decide (head l = Some x) then (fun ab => (pp', ab.2)) else id) <$> lk x) ->
  chain lk pp l qn -> chain lk' pp' l qn.
Proof.
  destruct l as [|x l]; [done|]. intros [Hx Hnd]%NoDup_cons Hag.
  cbn [chain]. intros [Hlx Hl]. split.
  - rewrite Hag by set_solver. rewrite Hlx. simpl. by rewrite decide_True.
  - eapply chain_agree; [|exact Hl]. intros y Hy.
    rewrite Hag by set_solver. simpl. rewrite decide_False by naive_solver.
    by destruct (lk y).
Qed.

Lemma chain_lookup lk pp l1 x l2 qn :
  chain lk pp (l1 ++ x :: l2) qn -> lk x = Some (last_or pp l1, head_or qn l2).
Proof. rewrite chain_app. cbn [chain]. unfold head_or. naive_solver. Qed.

(** Two chains that start at the same node and end in null spell the same list. *)
Lemma chain_functional lk l l' :
  forall pp pp', chain lk pp l None -> chain lk pp' l' None -> head l = head l' -> l = l'.
Proof.
  revert l'. induction l as [|x l IH]; intros [|x' l'] pp pp'; cbn [chain]; try done.
  intros [Hx Hl] [Hx' Hl'] Hhd. simpl in Hhd. simplify_eq. f_equal.
  eapply IH; [done..|]. destruct l, l'; naive_solver.
Qed.

Lemma dlist_functional lk hd tl tl' l l' : dlist lk hd tl l -> dlist lk hd tl' l' -> l = l'.
Proof. intros (->&->&?) (?&->&?). eapply chain_functional; eauto. Qed.

Lemma dlist_agree lk lk' hd tl l :
  (forall x, x ∈ l -> lk' x = lk x) -> dlist lk hd tl l -> dlist lk' hd tl l.
Proof. intros Hag (?&?&?). split_and!; [done..|]. by eapply chain_agree. Qed.

Lemma dlist_nil lk : dlist lk None None [].
Proof. done. Qed.

Lemma dlist_hd_None lk tl l : dlist lk None tl l -> l = [].
Proof. intros (H&_). by destruct l. Qed.
Lemma dlist_tl_None lk hd l : dlist lk hd None l -> l = [].
Proof. intros (_&H&_). symmetry in H. by apply last_None in H. Qed.
Lemma dlist_hd_Some lk x tl l : dlist lk (Some x) tl l -> exists l', l = x :: l'.
Proof. intros (H&_). destruct l; naive_solver. Qed.
Lemma dlist_tl_Some lk hd x l : dlist lk hd (Some x) l -> exists l', l = l' ++ [x].
Proof. intros (_&H&_). symmetry in H. by apply last_Some in H. Qed.

(** ** The two surgeries the kernel performs *)

(** Splice [t] between [l1] and [l2]. *)
Lemma dlist_insert lk lk' hd tl l1 l2 t :
  NoDup (l1 ++ l2) ->
  dlist lk hd tl (l1 ++ l2) ->
  lk' t = Some (last l1, head l2) ->
  (forall x, x ∈ l1 -> lk' x =
     (if decide (last l1 = Some x) then (fun ab => (ab.1, Some t)) else id) <$> lk x) ->
  (forall x, x ∈ l2 -> lk' x =
     (if decide (head l2 = Some x) then (fun ab => (Some t, ab.2)) else id) <$> lk x) ->
  dlist lk' (if l1 then Some t else hd) (if l2 then Some t else tl) (l1 ++ t :: l2).
Proof.
  intros (Hnd1&_&Hnd2)%NoDup_app (->&->&Hch) Ht H1 H2.
  apply chain_app in Hch as [Hc1 Hc2]. split_and!.
  - by destruct l1.
  - destruct l2; [by rewrite last_snoc|]. by rewrite !last_app_cons, last_cons_cons.
  - apply chain_app. split.
    + eapply chain_set_end; eauto.
    + cbn [chain]. split.
      * rewrite Ht. unfold last_or. destruct (last l1), l2; done.
      * eapply chain_set_start; eauto.
Qed.

(** Unlink [x]. *)
Lemma dlist_remove lk lk' hd tl l1 x l2 :
  NoDup (l1 ++ x :: l2) ->
  dlist lk hd tl (l1 ++ x :: l2) ->
  (forall y, y ∈ l1 -> lk' y =
     (if decide (last l1 = Some y) then (fun ab => (ab.1, head l2)) else id) <$> lk y) ->
  (forall y, y ∈ l2 -> lk' y =
     (if decide (head l2 = Some y) then (fun ab => (last l1, ab.2)) else id) <$> lk y) ->
  dlist lk' (if l1 then head l2 else hd) (if l2 then last l1 else tl) (l1 ++ l2).
Proof.
  intros (Hnd1&_&Hnd2)%NoDup_app (->&->&Hch) H1 H2.
  apply NoDup_cons in Hnd2 as [_ Hnd2].
  apply chain_app in Hch as [Hc1 Hc2]. cbn [chain] in Hc2. destruct Hc2 as [_ Hc2].
  split_and!.
  - destruct l1; [by destruct l2|done].
  - destruct l2; [by rewrite app_nil_r|]. rewrite last_app_cons. by rewrite last_app_cons, last_cons_cons.
  - apply chain_app. split.
    + eapply chain_set_end; [done| |done]. unfold head_or.
      by destruct l2.
    + eapply chain_set_start; [done| |done]. unfold last_or. by destruct (last l1).
Qed.
