(* ===== verification/Memory.v ===== *)
(** * Physical memory and the byte-block library

    Memory is a function from addresses to bytes; [put8] writes one byte and
    [load64]/[store64] access an aligned little-endian double word, as the RV64
    kernel does through [volatile uint64_t*].  The file models [lib/memory.cpp]
    ([memset], [memcpy], [memmove], [memcmp]) loop by loop and proves what each
    leaves in memory, overlapping blocks included. *)
From stdpp Require Import base tactics list.
From Stdlib Require Import ZArith Lia.
From S2P Require Import Prelude.
Local Open Scope Z_scope.

Definition Mem : Type := Z -> Z.

Definition put8 (m : Mem) (a v : Z) : Mem := fun x => if x =? a then v else m x.

(** Every byte of memory is a byte. *)
Definition mem_bytes (m : Mem) : Prop := forall a, is_u8 (m a).

(** ** lib/memory.cpp *)

(** [for (index = 0; index < count; ++index) output[index] = byte;] with [done]
    iterations behind and [count] ahead. *)
Fixpoint fill_loop (output byte : Z) (done count : nat) (m : Mem) : Mem :=
  match count with
  | O => m
  | S n => fill_loop output byte (S done) n (put8 m (output + Z.of_nat done) byte)
  end.

Definition memset (destination value : Z) (count : nat) (m : Mem) : Mem :=
  fill_loop destination (u8 value) 0 count m.

Fixpoint copy_up (output input : Z) (done count : nat) (m : Mem) : Mem :=
  match count with
  | O => m
  | S n =>
      copy_up output input (S done) n
        (put8 m (output + Z.of_nat done) (m (input + Z.of_nat done)))
  end.

(** [for (index = count; index > 0; --index)
       output[index - 1] = input[index - 1];] *)
Fixpoint copy_down (output input : Z) (index : nat) (m : Mem) : Mem :=
  match index with
  | O => m
  | S n => copy_down output input n (put8 m (output + Z.of_nat n) (m (input + Z.of_nat n)))
  end.

Definition memcpy (destination source : Z) (count : nat) (m : Mem) : Mem :=
  copy_up destination source 0 count m.

Definition memmove (destination source : Z) (count : nat) (m : Mem) : Mem :=
  if (destination <=? source) || (Z.of_nat count <=? u64 (destination - source))
  then copy_up destination source 0 count m
  else copy_down destination source count m.

Fixpoint compare_loop (left right : Z) (done count : nat) (m : Mem) : Z :=
  match count with
  | O => 0
  | S n =>
      let left_byte := m (left + Z.of_nat done) in
      let right_byte := m (right + Z.of_nat done) in
      if negb (left_byte =? right_byte) then left_byte - right_byte
      else compare_loop left right (S done) n m
  end.

Definition memcmp (left right : Z) (count : nat) (m : Mem) : Z :=
  compare_loop left right 0 count m.

(** ** Double words *)

Definition byte_of (v i : Z) : Z := (v / 2 ^ (8 * i)) mod 2 ^ 8.

Definition load64 (m : Mem) (a : Z) : Z :=
  m a + 2 ^ 8 * m (a + 1) + 2 ^ 16 * m (a + 2) + 2 ^ 24 * m (a + 3)
  + 2 ^ 32 * m (a + 4) + 2 ^ 40 * m (a + 5) + 2 ^ 48 * m (a + 6) + 2 ^ 56 * m (a + 7).

Definition store64 (m : Mem) (a v : Z) : Mem := fun x =>
  if (a <=? x) && (x <? a + 8) then byte_of v (x - a) else m x.

(** ** Lemmas *)

Lemma put8_same m a v : put8 m a v a = v.
Proof. unfold put8. by rewrite Z.eqb_refl. Qed.
Lemma put8_other m a v x : x <> a -> put8 m a v x = m x.
Proof. intros. unfold put8. by rewrite (proj2 (Z.eqb_neq x a)). Qed.

Lemma fill_loop_spec output byte i n m a :
  fill_loop output byte i n m a =
    if (output + Z.of_nat i <=? a) && (a <? output + Z.of_nat (i + n)) then byte else m a.
Proof.
  revert i m. induction n as [|n IH]; intros i m; cbn [fill_loop].
  - destruct (Z.leb_spec (output + Z.of_nat i) a), (Z.ltb_spec a (output + Z.of_nat (i + 0)));
      simpl; done || lia.
  - rewrite IH. unfold put8.
    destruct (Z.leb_spec (output + Z.of_nat (S i)) a),
      (Z.ltb_spec a (output + Z.of_nat (S i + n))), (Z.leb_spec (output + Z.of_nat i) a),
      (Z.ltb_spec a (output + Z.of_nat (i + S n))), (Z.eqb_spec a (output + Z.of_nat i));
      simpl; done || lia.
Qed.

(** A copy that runs upwards reads only bytes it has not overwritten yet, when
    the destination is below the source or the blocks are disjoint. *)
Lemma copy_up_spec output input total m0 i n m a :
  (output <= input \/ input + Z.of_nat total <= output) ->
  (i + n)%nat = total ->
  (forall x, (x < output \/ output + Z.of_nat i <= x) -> m x = m0 x) ->
  (forall x, output <= x < output + Z.of_nat i -> m x = m0 (input + (x - output))) ->
  copy_up output input i n m a =
    if (output <=? a) && (a <? output + Z.of_nat total) then m0 (input + (a - output)) else m0 a.
Proof.
  intros Hov. revert i m. induction n as [|n IH]; intros i m Htot Hout Hin; cbn [copy_up].
  - destruct (Z.leb_spec output a), (Z.ltb_spec a (output + Z.of_nat total)); simpl;
      [apply Hin; lia|apply Hout; lia..].
  - apply IH; [lia|..].
    + intros x Hx. rewrite put8_other by lia. apply Hout. lia.
    + intros x Hx. destruct (decide (x = output + Z.of_nat i)) as [->|Hne].
      * rewrite put8_same. rewrite Hout by lia. f_equal. lia.
      * rewrite put8_other by done. apply Hin. lia.
Qed.

Lemma copy_down_spec output input total m0 n m a :
  input < output ->
  (n <= total)%nat ->
  (forall x, x < output + Z.of_nat n \/ output + Z.of_nat total <= x -> m x = m0 x) ->
  (forall x, output + Z.of_nat n <= x < output + Z.of_nat total -> m x = m0 (input + (x - output))) ->
  copy_down output input n m a =
    if (output <=? a) && (a <? output + Z.of_nat total) then m0 (input + (a - output)) else m0 a.
Proof.
  intros Hlt. revert m. induction n as [|n IH]; intros m Htot Hout Hin; cbn [copy_down].
  - destruct (Z.leb_spec output a), (Z.ltb_spec a (output + Z.of_nat total)); simpl;
      [apply Hin; lia|apply Hout; lia..].
  - apply IH; [lia|..].
    + intros x Hx. rewrite put8_other by lia. apply Hout. lia.
    + intros x Hx. destruct (decide (x = output + Z.of_nat n)) as [->|Hne].
      * rewrite put8_same. rewrite Hout by lia. f_equal. lia.
      * rewrite put8_other by done. apply Hin. lia.
Qed.

Lemma compare_loop_spec left right i n m :
  mem_bytes m ->
  let r := compare_loop left right i n m in
  (r = 0 /\ forall k, (i <= k < i + n)%nat -> m (left + Z.of_nat k) = m (right + Z.of_nat k)) \/
  (exists k, (i <= k < i + n)%nat /\
     (forall j, (i <= j < k)%nat -> m (left + Z.of_nat j) = m (right + Z.of_nat j)) /\
     r = m (left + Z.of_nat k) - m (right + Z.of_nat k) /\ r <> 0).
Proof.
  intros Hm. revert i. induction n as [|n IH]; intros i; cbn [compare_loop].
  - left. split; [done|]. intros; lia.
  - destruct (Z.eqb_spec (m (left + Z.of_nat i)) (m (right + Z.of_nat i))) as [Heq|Hne]; simpl.
    + destruct (IH (S i)) as [[Hr Hall]|(k&Hk&Hpre&Hr&Hnz)].
      * left. split; [done|]. intros k Hk.
        destruct (decide (k = i)) as [->|]; [done|]. apply Hall. lia.
      * right. exists k. split_and!; [lia|lia| |done|done]. intros j Hj.
        destruct (decide (j = i)) as [->|]; [done|]. apply Hpre. lia.
    + right. exists i. split_and!; [lia|lia|intros; lia|done|lia].
Qed.

Lemma byte_of_range v i : is_u8 (byte_of v i).
Proof. apply Z.mod_pos_bound. lia. Qed.

Lemma byte_of_0 i : byte_of 0 i = 0.
Proof. unfold byte_of. by rewrite Zdiv.Zdiv_0_l. Qed.

Lemma load64_store64_same m a v : is_u64 v -> load64 (store64 m a v) a = v.
Proof.
  intros Hv. unfold load64, store64.
  repeat match goal with
  | |- context [(a <=? ?x) && (?x <? a + 8)] =>
      replace ((a <=? x) && (x <? a + 8)) with true by (symmetry; apply andb_true_iff; lia)
  end.
  cbv match. unfold byte_of.
  replace (a - a) with 0 by lia. replace (a + 1 - a) with 1 by lia.
  replace (a + 2 - a) with 2 by lia. replace (a + 3 - a) with 3 by lia.
  replace (a + 4 - a) with 4 by lia. replace (a + 5 - a) with 5 by lia.
  replace (a + 6 - a) with 6 by lia. replace (a + 7 - a) with 7 by lia.
  cbn [Z.mul Pos.mul]. unfold is_u64 in Hv. pow2_numerals.
  Z.div_mod_to_equations. lia.
Qed.

Lemma load64_agree m m' a :
  (forall x, a <= x < a + 8 -> m' x = m x) -> load64 m' a = load64 m a.
Proof. intros H. unfold load64. rewrite !H by lia. done. Qed.

Lemma load64_store64_other m a b v : b + 8 <= a \/ a + 8 <= b -> load64 (store64 m a v) b = load64 m b.
Proof.
  intros H. apply load64_agree. intros x Hx. unfold store64.
  destruct (Z.leb_spec a x), (Z.ltb_spec x (a + 8)); simpl; done || lia.
Qed.

Lemma load64_range m a : mem_bytes m -> is_u64 (load64 m a).
Proof.
  intros Hm. unfold load64.
  pose proof (Hm a). pose proof (Hm (a + 1)). pose proof (Hm (a + 2)). pose proof (Hm (a + 3)).
  pose proof (Hm (a + 4)). pose proof (Hm (a + 5)). pose proof (Hm (a + 6)). pose proof (Hm (a + 7)).
  unfold is_u64, is_u8 in *. pow2_numerals. lia.
Qed.

Lemma store64_bytes m a v : mem_bytes m -> mem_bytes (store64 m a v).
Proof. intros Hm x. unfold store64. case_match; [apply byte_of_range|apply Hm]. Qed.

(** ** Properties *)

(** [memmove] copies the block as it was on entry, whether or not source
    and destination overlap and in either direction, and touches nothing
    else. *)
Lemma memmove_correct destination source count m a :
  is_u64 destination -> is_u64 source ->
  memmove destination source count m a =
    if (destination <=? a) && (a <? destination + Z.of_nat count)
    then m (source + (a - destination)) else m a.
Proof.
  intros Hd Hs. unfold memmove.
  destruct (Z.leb_spec destination source) as [Hle|Hgt]; simpl.
  { apply copy_up_spec; auto; lia. }
  rewrite u64_small by (unfold is_u64 in *; lia).
  destruct (Z.leb_spec (Z.of_nat count) (destination - source)).
  - apply copy_up_spec; auto; lia.
  - apply copy_down_spec; auto; lia.
Qed.

Lemma memmove_correct_witness :
  let m := fun a => a mod 251 in
  memmove 1003 1000 8 m 1007 = 1004 mod 251 /\ memmove 1003 1000 8 m 1007 = 0.
Proof.
  split; [|reflexivity].
  apply (memmove_correct 1003 1000 8 (fun a => a mod 251) 1007); split; vm_compute; congruence.
Defined.

(** [memset] fills, and [memcpy] on blocks that do not overlap copies,
    exactly the named block; [memcmp] is zero exactly on equal blocks and
    otherwise is the difference of the first differing bytes. *)
Lemma block_operations_correct d s v count m a :
  mem_bytes m -> (d <= s \/ s + Z.of_nat count <= d) ->
  memset d v count m a =
    (if (d <=? a) && (a <? d + Z.of_nat count) then u8 v else m a) /\
  memcpy d s count m a =
    (if (d <=? a) && (a <? d + Z.of_nat count) then m (s + (a - d)) else m a) /\
  (memcmp d s count m = 0 <->
     forall k, (k < count)%nat -> m (d + Z.of_nat k) = m (s + Z.of_nat k)) /\
  (memcmp d s count m <> 0 -> exists k, (k < count)%nat /\
     (forall j, (j < k)%nat -> m (d + Z.of_nat j) = m (s + Z.of_nat j)) /\
     memcmp d s count m = m (d + Z.of_nat k) - m (s + Z.of_nat k)).
Proof.
  intros Hm Hov. split_and!.
  - unfold memset. rewrite fill_loop_spec. by rewrite Z.add_0_r.
  - apply copy_up_spec; auto; lia.
  - unfold memcmp. destruct (compare_loop_spec d s 0 count m Hm) as [[Hr Hall]|(k&Hk&_&Hr&Hnz)].
    + split; [|done]. intros _ k Hk. apply Hall. lia.
    + split; [congruence|]. intros Hall. specialize (Hall k). lia.
  - intros Hne. destruct (compare_loop_spec d s 0 count m Hm) as [[Hr _]|(k&Hk&Hpre&Hr&_)]; [done|].
    exists k. split_and!; [lia| |done]. intros j Hj. apply Hpre. lia.
Qed.

Lemma block_operations_correct_witness :
  memcpy 100 200 16 (fun a => a mod 256) 105 = 205.
Proof.
  apply (block_operations_correct 100 200 7 16 (fun a => a mod 256) 105).
  - intros a. apply Z.mod_pos_bound. lia.
  - lia.
Defined.
