(* ===== verification/Lifecycle.v ===== *)
(** * Memory-domain lifecycle

    Models [microkernel/memory/memory_lifecycle.{h,cpp}] (the global
    [g_state] and every transition on it) and the QEMU platform hooks that
    drive it, [platform/qemu_virt/ddr.cpp] and
    [platform/qemu_virt/contained_memory.cpp].  Each C++ function of [g_state]
    is a function from the state to its result and the next state; the linker
    symbol [__text_start] is an argument.  [reachable] closes the transitions,
    and the theorems are about every reachable state. *)
From stdpp Require Import base tactics list.
From Stdlib Require Import ZArith Lia String.
From S2P Require Import Prelude.
Local Open Scope Z_scope.

Module MemoryDomain.
Inductive t := uninitialized | contained | transitioning | mainstore.
#[export] Instance eq_dec : EqDecision t.
Proof. solve_decision. Defined.
End MemoryDomain.

Module DdrState.
Inductive t :=
| offline | discovered | training | trained | address_map_ready | decode_committed | online.
#[export] Instance eq_dec : EqDecision t.
Proof. solve_decision. Defined.
End DdrState.

Module BackingKind.
Inductive t := unavailable | contained | ddr.
#[export] Instance eq_dec : EqDecision t.
Proof. solve_decision. Defined.
End BackingKind.
#[export] Existing Instances MemoryDomain.eq_dec DdrState.eq_dec BackingKind.eq_dec.

Record PhysicalRange := mkPhysicalRange { pr_base : Z; pr_size : Z }.

Record LifecycleState := mkLifecycle {
  domain : MemoryDomain.t;
  ddr : DdrState.t;
  contained : PhysicalRange;
  ddr_range : PhysicalRange;
  contained_flush_complete : bool;
  ddr_allocation_enabled : bool
}.
#[export] Instance Lifecycle_eta : Eta LifecycleState := fun s =>
  mkLifecycle (domain s) (ddr s) (contained s) (ddr_range s)
    (contained_flush_complete s) (ddr_allocation_enabled s).

Definition kQemuContainedWindowSize : Z := 8 * 1024 * 1024.

Definition initial_state : LifecycleState :=
  mkLifecycle MemoryDomain.uninitialized DdrState.offline
    (mkPhysicalRange 0 0) (mkPhysicalRange 0 0) false false.

(** Ranges; additions are at the width of [uintptr_t]. *)
Definition valid_range (range : PhysicalRange) : bool :=
  if pr_size range =? 0 then false
  else pr_base range <? u64 (pr_base range + pr_size range).

Definition contains (range : PhysicalRange) (address : Z) : bool :=
  if negb (valid_range range) || (address <? pr_base range) then false
  else u64 (address - pr_base range) <? pr_size range.

Definition contains_range (outer inner : PhysicalRange) : bool :=
  if negb (valid_range outer) || negb (valid_range inner) || (pr_base inner <? pr_base outer)
  then false
  else u64 (pr_base inner + pr_size inner) <=? u64 (pr_base outer + pr_size outer).

Definition initialize_contained (text_start : Z) (g : LifecycleState) : LifecycleState :=
  g <| domain := MemoryDomain.contained |>
    <| ddr := DdrState.offline |>
    <| contained := mkPhysicalRange text_start kQemuContainedWindowSize |>
    <| ddr_range := mkPhysicalRange 0 0 |>
    <| contained_flush_complete := false |>
    <| ddr_allocation_enabled := false |>.

Definition backing_for (g : LifecycleState) (physical_address : Z) : BackingKind.t :=
  if bool_decide (domain g = MemoryDomain.mainstore) && bool_decide (ddr g = DdrState.online)
     && contains (ddr_range g) physical_address
  then BackingKind.ddr
  else if (bool_decide (domain g = MemoryDomain.contained)
           || bool_decide (domain g = MemoryDomain.transitioning))
          && contains (contained g) physical_address
  then BackingKind.contained
  else BackingKind.unavailable.

Definition validate_contained_invariants (text_start : Z) (g : LifecycleState) : bool :=
  if bool_decide (domain g <> MemoryDomain.contained) || bool_decide (ddr g <> DdrState.offline)
  then false
  else if negb (pr_base (contained g) =? text_start)
          || negb (pr_size (contained g) =? kQemuContainedWindowSize)
  then false
  else if valid_range (ddr_range g) || contained_flush_complete g || ddr_allocation_enabled g
  then false
  else if bool_decide (backing_for g (pr_base (contained g)) <> BackingKind.contained)
  then false
  else
    let first_address_after_contained :=
      u64 (pr_base (contained g) + pr_size (contained g)) in
    if first_address_after_contained <? pr_base (contained g) then false
    else bool_decide (backing_for g first_address_after_contained = BackingKind.unavailable).

(** The one-way DDR bring-up transitions. *)
Definition ddr_mark_discovered (range : PhysicalRange) (g : LifecycleState)
  : bool * LifecycleState :=
  if bool_decide (domain g <> MemoryDomain.contained) || bool_decide (ddr g <> DdrState.offline)
     || negb (contains_range range (contained g))
  then (false, g)
  else (true, g <| ddr_range := range |> <| ddr := DdrState.discovered |>).

(** The four middle steps share their shape: guarded on the domain and on the
    exact predecessor state. *)
Definition ddr_advance (from to : DdrState.t) (g : LifecycleState) : bool * LifecycleState :=
  if bool_decide (domain g <> MemoryDomain.contained) || bool_decide (ddr g <> from)
  then (false, g)
  else (true, g <| ddr := to |>).

Definition ddr_begin_training := ddr_advance DdrState.discovered DdrState.training.
Definition ddr_mark_trained := ddr_advance DdrState.training DdrState.trained.
Definition ddr_mark_address_map_ready := ddr_advance DdrState.trained DdrState.address_map_ready.
Definition ddr_mark_decode_committed :=
  ddr_advance DdrState.address_map_ready DdrState.decode_committed.

Definition ddr_mark_online (g : LifecycleState) : bool * LifecycleState :=
  if bool_decide (domain g <> MemoryDomain.contained)
     || bool_decide (ddr g <> DdrState.decode_committed)
     || negb (contains_range (ddr_range g) (contained g))
  then (false, g)
  else (true, g <| ddr := DdrState.online |>).

Definition begin_mainstore_transition (g : LifecycleState) : bool * LifecycleState :=
  if bool_decide (domain g <> MemoryDomain.contained) || bool_decide (ddr g <> DdrState.online)
     || contained_flush_complete g || ddr_allocation_enabled g
  then (false, g)
  else (true, g <| domain := MemoryDomain.transitioning |>).

Definition mark_contained_flush_complete (g : LifecycleState) : bool * LifecycleState :=
  if bool_decide (domain g <> MemoryDomain.transitioning)
     || bool_decide (ddr g <> DdrState.online) || contained_flush_complete g
  then (false, g)
  else (true, g <| contained_flush_complete := true |>).

Definition complete_mainstore_transition (g : LifecycleState) : bool * LifecycleState :=
  if bool_decide (domain g <> MemoryDomain.transitioning)
     || bool_decide (ddr g <> DdrState.online)
     || negb (contained_flush_complete g) || ddr_allocation_enabled g
  then (false, g)
  else (true, g <| domain := MemoryDomain.mainstore |>).

Definition enable_mainstore_allocation (g : LifecycleState) : bool * LifecycleState :=
  if bool_decide (domain g <> MemoryDomain.mainstore)
     || bool_decide (ddr g <> DdrState.online)
     || negb (contained_flush_complete g) || ddr_allocation_enabled g
  then (false, g)
  else (true, g <| ddr_allocation_enabled := true |>).

Definition validate_mainstore_invariants (g : LifecycleState) : bool :=
  if bool_decide (domain g <> MemoryDomain.mainstore)
     || bool_decide (ddr g <> DdrState.online)
     || negb (contained_flush_complete g) || negb (ddr_allocation_enabled g)
     || negb (contains_range (ddr_range g) (contained g))
  then false
  else if bool_decide (backing_for g (pr_base (contained g)) <> BackingKind.ddr)
  then false
  else
    let last_contained_address := u64 (pr_base (contained g) + pr_size (contained g) - 1) in
    if bool_decide (backing_for g last_contained_address <> BackingKind.ddr) then false
    else
      let last_ddr_address := u64 (pr_base (ddr_range g) + pr_size (ddr_range g) - 1) in
      bool_decide (backing_for g last_ddr_address = BackingKind.ddr).

Definition domain_name (d : MemoryDomain.t) : string :=
  match d with
  | MemoryDomain.uninitialized => "UNINITIALIZED"
  | MemoryDomain.contained => "CONTAINED"
  | MemoryDomain.transitioning => "TRANSITIONING"
  | MemoryDomain.mainstore => "MAINSTORE"
  end.

Definition ddr_state_name (s : DdrState.t) : string :=
  match s with
  | DdrState.offline => "OFFLINE"
  | DdrState.discovered => "DISCOVERED"
  | DdrState.training => "TRAINING"
  | DdrState.trained => "TRAINED"
  | DdrState.address_map_ready => "ADDRESS_MAP_READY"
  | DdrState.decode_committed => "DECODE_COMMITTED"
  | DdrState.online => "ONLINE"
  end.

(** ** The QEMU platform hooks *)

Definition configured_range : PhysicalRange := mkPhysicalRange (2 ^ 31) (128 * 1024 * 1024).

Definition discover := ddr_mark_discovered configured_range.
Definition start_training := ddr_begin_training.
Definition finish_training := ddr_mark_trained.
Definition build_topology (g : LifecycleState) : bool :=
  bool_decide (domain g = MemoryDomain.contained) && bool_decide (ddr g = DdrState.trained).
Definition build_address_map := ddr_mark_address_map_ready.
Definition program_decode := ddr_mark_decode_committed.
Definition online := ddr_mark_online.

Definition flush_to_mainstore (g : LifecycleState) : bool * LifecycleState :=
  if bool_decide (domain g <> MemoryDomain.transitioning)
     || bool_decide (ddr g <> DdrState.online) || contained_flush_complete g
  then (false, g)
  else mark_contained_flush_complete g.

(** ** Transitions and reachable states *)

Inductive op :=
| OpDiscovered (range : PhysicalRange) | OpBeginTraining | OpTrained | OpAddressMapReady
| OpDecodeCommitted | OpOnline | OpBeginTransition | OpFlushComplete
| OpCompleteTransition | OpEnableAllocation.

Definition run (o : op) : LifecycleState -> bool * LifecycleState :=
  match o with
  | OpDiscovered range => ddr_mark_discovered range
  | OpBeginTraining => ddr_begin_training
  | OpTrained => ddr_mark_trained
  | OpAddressMapReady => ddr_mark_address_map_ready
  | OpDecodeCommitted => ddr_mark_decode_committed
  | OpOnline => ddr_mark_online
  | OpBeginTransition => begin_mainstore_transition
  | OpFlushComplete => mark_contained_flush_complete
  | OpCompleteTransition => complete_mainstore_transition
  | OpEnableAllocation => enable_mainstore_allocation
  end.

(** Runs a sequence of requests, collecting the ones that were granted. *)
Fixpoint run_all (os : list op) (g : LifecycleState) : list op * LifecycleState :=
  match os with
  | [] => ([], g)
  | o :: os' =>
      let '(ok, g1) := run o g in
      let '(done, g2) := run_all os' g1 in
      (if ok then o :: done else done, g2)
  end.

Inductive reachable (text_start : Z) : LifecycleState -> Prop :=
| reach_boot g : reachable text_start (initialize_contained text_start g)
| reach_run g o : reachable text_start g -> reachable text_start (run o g).2.

(** The position of a state on the single path from contained boot to
    published mainstore, and the position at which each request is legal. *)
Definition ddr_stage (s : DdrState.t) : nat :=
  match s with
  | DdrState.offline => 0 | DdrState.discovered => 1 | DdrState.training => 2
  | DdrState.trained => 3 | DdrState.address_map_ready => 4
  | DdrState.decode_committed => 5 | DdrState.online => 6
  end.
Definition stage (g : LifecycleState) : nat :=
  match domain g with
  | MemoryDomain.mainstore => if ddr_allocation_enabled g then 10 else 9
  | MemoryDomain.transitioning => if contained_flush_complete g then 8 else 7
  | _ => ddr_stage (ddr g)
  end.
Definition op_stage (o : op) : nat :=
  match o with
  | OpDiscovered _ => 0 | OpBeginTraining => 1 | OpTrained => 2 | OpAddressMapReady => 3
  | OpDecodeCommitted => 4 | OpOnline => 5 | OpBeginTransition => 6 | OpFlushComplete => 7
  | OpCompleteTransition => 8 | OpEnableAllocation => 9
  end.

Definition window (text_start : Z) : PhysicalRange :=
  mkPhysicalRange text_start kQemuContainedWindowSize.

Record lifecycle_inv (text_start : Z) (g : LifecycleState) : Prop := {
  li_window : contained g = window text_start;
  li_contained : domain g = MemoryDomain.contained ->
    contained_flush_complete g = false /\ ddr_allocation_enabled g = false;
  li_transitioning : domain g = MemoryDomain.transitioning ->
    ddr g = DdrState.online /\ ddr_allocation_enabled g = false;
  li_mainstore : domain g = MemoryDomain.mainstore ->
    ddr g = DdrState.online /\ contained_flush_complete g = true;
  li_booted : domain g <> MemoryDomain.uninitialized;
  li_cover : ddr g <> DdrState.offline ->
    contains_range (ddr_range g) (contained g) = true;
}.

Ltac bdestruct_all :=
  repeat match goal with
  | H : context [bool_decide ?P] |- _ => destruct (bool_decide_reflect P)
  | |- context [bool_decide ?P] => destruct (bool_decide_reflect P)
  end.

Lemma initialize_contained_inv text_start g :
  lifecycle_inv text_start (initialize_contained text_start g).
Proof. split; simpl; naive_solver. Qed.

(** A refused request changes nothing; a granted one was asked for at its own
    stage, advances by exactly one stage and keeps the invariant. *)
Lemma run_spec text_start g o :
  lifecycle_inv text_start g ->
  let '(ok, g') := run o g in
  lifecycle_inv text_start g' /\
  if ok then stage g = op_stage o /\ stage g' = S (op_stage o) else g' = g.
Proof.
  intros Hinv. destruct Hinv as [Hw Hc Ht Hm Hu Hcov].
  destruct g as [dom dd con rng fl al]. simpl in *.
  destruct o; simpl;
    unfold ddr_mark_discovered, ddr_begin_training, ddr_mark_trained,
      ddr_mark_address_map_ready, ddr_mark_decode_committed, ddr_advance,
      ddr_mark_online, begin_mainstore_transition, mark_contained_flush_complete,
      complete_mainstore_transition, enable_mainstore_allocation; simpl;
    repeat case_match; simplify_eq/=; bdestruct_all; simplify_eq/=;
    repeat match goal with
    | H : _ || _ = true |- _ => apply orb_prop in H as [H|H]
    | H : _ || _ = false |- _ => apply orb_false_elim in H as [??]
    | H : negb _ = false |- _ => apply negb_false_iff in H
    | H : ¬ (?x <> ?y) |- _ => apply dec_stable in H
    end; simplify_eq/=;
    (split; [split; simpl; intros; simplify_eq; auto|]); unfold stage; simpl; auto;
    try destruct (Hc eq_refl); try destruct (Ht eq_refl); simplify_eq; auto.
Qed.

Lemma reachable_inv text_start g : reachable text_start g -> lifecycle_inv text_start g.
Proof.
  induction 1 as [g|g o _ IH]; [apply initialize_contained_inv|].
  pose proof (run_spec text_start g o IH) as Hs. destruct (run o g); naive_solver.
Qed.

Lemma run_all_stages text_start os g :
  lifecycle_inv text_start g ->
  op_stage <$> (run_all os g).1 = seq (stage g) (stage (run_all os g).2 - stage g) /\
  (stage g <= stage (run_all os g).2)%nat.
Proof.
  revert g. induction os as [|o os IH]; intros g Hg; simpl.
  { by rewrite Nat.sub_diag. }
  pose proof (run_spec text_start g o Hg) as Hs. destruct (run o g) as [ok g1].
  destruct Hs as [Hg1 Hs]. specialize (IH g1 Hg1). destruct (run_all os g1) as [done g2].
  simpl in *. destruct ok; [|by subst].
  destruct Hs as [Hst Hst1], IH as [IH Hle]. split; [|lia].
  rewrite fmap_cons, IH, Hst1, Hst.
  replace (stage g2 - op_stage o)%nat with (S (stage g2 - S (op_stage o))) by lia. done.
Qed.

(** Ranges inside the address space. *)
Lemma contains_true r a :
  0 <= pr_base r -> 0 < pr_size r -> pr_base r + pr_size r < 2 ^ 64 -> is_u64 a ->
  contains r a = true <-> pr_base r <= a < pr_base r + pr_size r.
Proof.
  intros Hb Hs He Ha. unfold contains, valid_range.
  rewrite (proj2 (Z.eqb_neq _ _)) by lia.
  rewrite u64_small by (unfold is_u64; lia).
  destruct (Z.ltb_spec (pr_base r) (pr_base r + pr_size r)); [|lia]. simpl.
  destruct (Z.ltb_spec a (pr_base r)); [split; [done|lia]|].
  rewrite u64_small by (unfold is_u64 in *; lia). rewrite Z.ltb_lt. lia.
Qed.

Lemma contains_range_window r text_start a :
  is_u64 (pr_base r) -> is_u64 (pr_size r) -> 0 <= text_start ->
  text_start + kQemuContainedWindowSize < 2 ^ 64 ->
  contains_range r (window text_start) = true ->
  text_start <= a < text_start + kQemuContainedWindowSize -> contains r a = true.
Proof.
  unfold kQemuContainedWindowSize. intros Hb Hs Ht Hend Hcr Ha.
  unfold contains_range in Hcr. simpl in Hcr. unfold kQemuContainedWindowSize in Hcr.
  destruct (valid_range r) eqn:Hv; [|done].
  destruct (valid_range (window text_start)); [|done]. simpl in Hcr.
  destruct (Z.ltb_spec text_start (pr_base r)); [done|].
  apply Z.leb_le in Hcr. unfold contains. rewrite Hv. simpl.
  unfold valid_range in Hv. destruct (Z.eqb_spec (pr_size r) 0); [done|].
  apply Z.ltb_lt in Hv. destruct (Z.ltb_spec a (pr_base r)); [lia|].
  apply Z.ltb_lt. word_lia.
Qed.

(** ** Properties *)

(** the requests granted by the lifecycle, whatever is asked in whatever
    order, are exactly the prefix of the one legal bring-up sequence (discover,
    begin training, trained, address map, decode, online, begin transition,
    flush, complete, enable allocation): no stage is skipped, repeated or
    undone. *)
Lemma lifecycle_order text_start os g0 :
  op_stage <$> (run_all os (initialize_contained text_start g0)).1
  = seq 0 (stage (run_all os (initialize_contained text_start g0)).2).
Proof.
  pose proof (run_all_stages text_start os _ (initialize_contained_inv text_start g0)) as [H _].
  rewrite H. f_equal. unfold stage at 2. simpl. lia.
Qed.

(** in every reachable state, and so also while the backing store is
    switched, every address of the contained window is backed: by the
    contained store before mainstore, by DDR from then on. *)
Lemma contained_window_always_backed text_start g a :
  0 <= text_start -> text_start + kQemuContainedWindowSize < 2 ^ 64 ->
  reachable text_start g ->
  is_u64 (pr_base (ddr_range g)) -> is_u64 (pr_size (ddr_range g)) ->
  text_start <= a < text_start + kQemuContainedWindowSize ->
  backing_for g a =
    if decide (domain g = MemoryDomain.mainstore) then BackingKind.ddr else BackingKind.contained.
Proof.
  intros Ht Hend Hr Hb Hs Ha. destruct (reachable_inv _ _ Hr) as [Hw _ _ Hm Hu Hcov].
  assert (contains (window text_start) a = true) as Hin.
  { apply contains_true; simpl; unfold is_u64, kQemuContainedWindowSize in *; lia. }
  unfold backing_for. rewrite Hw, Hin. case_decide as Hd.
  - destruct (Hm Hd) as [Hon _]. rewrite !bool_decide_true by done. simpl.
    rewrite Hw in Hcov. erewrite contains_range_window; eauto. apply Hcov. by rewrite Hon.
  - rewrite (bool_decide_false (domain g = MemoryDomain.mainstore)) by done. simpl.
    by destruct (domain g).
Qed.

Lemma contained_window_always_backed_witness :
  backing_for (run OpBeginTraining (initialize_contained (2 ^ 31) initial_state)).2 (2 ^ 31 + 4096)
  = BackingKind.contained.
Proof.
  apply (contained_window_always_backed (2 ^ 31)
           (run OpBeginTraining (initialize_contained (2 ^ 31) initial_state)).2 (2 ^ 31 + 4096)).
  - lia.
  - vm_compute; reflexivity.
  - apply reach_run, reach_boot.
  - vm_compute; split; congruence.
  - vm_compute; split; congruence.
  - vm_compute; split; congruence.
Defined.

(** DDR is never a backing store, and never open to the page allocator,
    before it is online, the contained store is flushed and mainstore has
    been entered. *)
Lemma ddr_hidden_until_mainstore text_start g a :
  reachable text_start g ->
  (backing_for g a = BackingKind.ddr \/ ddr_allocation_enabled g = true) ->
  domain g = MemoryDomain.mainstore /\ ddr g = DdrState.online /\ contained_flush_complete g = true.
Proof.
  intros Hr Hb. destruct (reachable_inv _ _ Hr) as [Hw Hc Ht Hm Hu _].
  assert (domain g = MemoryDomain.mainstore) as Hd.
  { destruct Hb as [Hb|Hb].
    - unfold backing_for in Hb. destruct (decide (domain g = MemoryDomain.mainstore)); [done|].
      rewrite (bool_decide_false (domain g = MemoryDomain.mainstore)) in Hb by done.
      simpl in Hb. by case_match.
    - destruct (domain g); [done| | |done]; [destruct (Hc eq_refl)|destruct (Ht eq_refl)]; congruence. }
  split; auto.
Qed.

Definition qemu_bringup : list op :=
  [OpDiscovered configured_range; OpBeginTraining; OpTrained; OpAddressMapReady;
   OpDecodeCommitted; OpOnline; OpBeginTransition; OpFlushComplete;
   OpCompleteTransition; OpEnableAllocation].

Lemma run_all_reachable text_start os g :
  reachable text_start g -> reachable text_start (run_all os g).2.
Proof.
  revert g. induction os as [|o os IH]; intros g Hr; simpl; [done|].
  pose proof (reach_run _ g o Hr) as Hr1. destruct (run o g) as [ok g1].
  specialize (IH g1 Hr1). by destruct (run_all os g1).
Qed.

Lemma ddr_hidden_until_mainstore_witness :
  ddr_allocation_enabled (run_all qemu_bringup (initialize_contained (2 ^ 31) initial_state)).2 = true
  /\ domain (run_all qemu_bringup (initialize_contained (2 ^ 31) initial_state)).2
     = MemoryDomain.mainstore.
Proof.
  split; [vm_compute; reflexivity|].
  apply (ddr_hidden_until_mainstore (2 ^ 31)
     (run_all qemu_bringup (initialize_contained (2 ^ 31) initial_state)).2 0).
  - apply run_all_reachable, reach_boot.
  - right; vm_compute; reflexivity.
Defined.

(** the run-time checker [validate_mainstore_invariants] accepts exactly
    the reachable states in which mainstore allocation has been published,
    and [validate_contained_invariants] accepts every freshly booted state. *)
Lemma validators_agree_with_lifecycle text_start g g0 :
  0 <= text_start -> text_start + kQemuContainedWindowSize < 2 ^ 64 ->
  reachable text_start g ->
  is_u64 (pr_base (ddr_range g)) -> is_u64 (pr_size (ddr_range g)) ->
  validate_mainstore_invariants g = ddr_allocation_enabled g /\
  validate_contained_invariants text_start (initialize_contained text_start g0) = true.
Proof.
  intros Ht Hend Hr Hb Hs. split.
  - unfold validate_mainstore_invariants.
    destruct (reachable_inv _ _ Hr) as [Hw Hc Htr Hm Hu Hcov].
    destruct (ddr_allocation_enabled g) eqn:Hal; [|by rewrite !orb_true_r].
    assert (domain g = MemoryDomain.mainstore) as Hd.
    { destruct (domain g); [done| | |done]; [destruct (Hc eq_refl)|destruct (Htr eq_refl)]; congruence. }
    destruct (Hm Hd) as [Hon Hfl]. specialize (Hcov ltac:(by rewrite Hon)).
    rewrite Hfl, Hcov. rewrite (bool_decide_false (domain g <> _)) by tauto.
    rewrite (bool_decide_false (ddr g <> _)) by tauto. simpl.
    assert (forall a, contains (ddr_range g) a = true -> backing_for g a = BackingKind.ddr) as Hbk.
    { intros a Ha. unfold backing_for. rewrite Ha.
      rewrite (bool_decide_true (domain g = MemoryDomain.mainstore)) by done.
      by rewrite (bool_decide_true (ddr g = DdrState.online)). }
    assert (forall a, text_start <= a < text_start + kQemuContainedWindowSize ->
                      backing_for g a = BackingKind.ddr) as Hwin.
    { intros a Ha. apply Hbk. rewrite Hw in Hcov. eapply contains_range_window; eauto. }
    assert (0 < kQemuContainedWindowSize) as Hpos by (vm_compute; reflexivity).
    rewrite Hw. simpl. rewrite Hwin by lia. rewrite bool_decide_false by tauto.
    rewrite u64_small by (unfold is_u64; lia). rewrite Hwin by lia.
    rewrite (bool_decide_false (BackingKind.ddr <> _)) by tauto. apply bool_decide_true, Hbk.
    unfold contains_range in Hcov. destruct (valid_range (ddr_range g)) eqn:Hv; [|done].
    unfold contains. rewrite Hv. simpl. unfold valid_range in Hv.
    destruct (Z.eqb_spec (pr_size (ddr_range g)) 0); [done|]. apply Z.ltb_lt in Hv.
    destruct (Z.ltb_spec (u64 (pr_base (ddr_range g) + pr_size (ddr_range g) - 1))
                (pr_base (ddr_range g))); [word_lia|]. apply Z.ltb_lt. word_lia.
  - unfold validate_contained_invariants, backing_for. simpl.
    rewrite !Z.eqb_refl. simpl. fold (window text_start).
    assert (0 < kQemuContainedWindowSize) as Hpos by (vm_compute; reflexivity).
    rewrite u64_small by (unfold is_u64; lia).
    assert (contains (window text_start) text_start = true) as ->
      by (apply contains_true; simpl; unfold is_u64; lia). simpl.
    destruct (Z.ltb_spec (text_start + kQemuContainedWindowSize) text_start); [lia|].
    destruct (contains (window text_start) (text_start + kQemuContainedWindowSize)) eqn:Hc; [|done].
    apply contains_true in Hc; simpl in *; unfold is_u64; lia.
Qed.

Lemma validators_agree_with_lifecycle_witness :
  validate_mainstore_invariants
    (run_all qemu_bringup (initialize_contained (2 ^ 31) initial_state)).2 = true.
Proof.
  pose proof (validators_agree_with_lifecycle (2 ^ 31)
    (run_all qemu_bringup (initialize_contained (2 ^ 31) initial_state)).2 initial_state) as H.
  destruct H as [H _].
  - lia.
  - vm_compute; reflexivity.
  - apply run_all_reachable, reach_boot.
  - vm_compute; split; congruence.
  - vm_compute; split; congruence.
  - rewrite H. vm_compute. reflexivity.
Defined.
