(* ===== verification/PageManager.v ===== *)
(** * Page manager

    Models [microkernel/memory/page_manager.{h,cpp}]: the table of up to four
    managed ranges, [add_range] with every guard, the bump allocation of
    zeroed pages, [promote_backing] and [remaining_pages], over the lifecycle
    state of [Lifecycle] and physical memory.  The linker symbols of the
    bootstrap pool are arguments. *)
From stdpp Require Import base tactics list sets.
From Stdlib Require Import ZArith Lia.
From S2P Require Import Prelude Memory Lifecycle.
Local Open Scope Z_scope.

Definition kPageSize : Z := 4096.
Definition kMaxRanges : nat := 4.

Record ManagedRange := mkRange {
  mr_base : Z; mr_next : Z; mr_end : Z; mr_backing : BackingKind.t
}.
#[export] Instance ManagedRange_eta : Eta ManagedRange := fun r =>
  mkRange (mr_base r) (mr_next r) (mr_end r) (mr_backing r).

Definition empty_range : ManagedRange := mkRange 0 0 0 BackingKind.unavailable.

Record Allocation := mkAllocation { physical_address : Z; backing : BackingKind.t }.

Definition allocation_valid (a : Allocation) : bool :=
  negb (physical_address a =? 0) && bool_decide (backing a <> BackingKind.unavailable).

(** The memory system: lifecycle, allocator globals, physical memory. *)
Record MemSys := mkMemSys {
  ms_lifecycle : LifecycleState;
  g_ranges : list ManagedRange;
  g_range_count : nat;
  ms_mem : Mem
}.
#[export] Instance MemSys_eta : Eta MemSys := fun s =>
  mkMemSys (ms_lifecycle s) (g_ranges s) (g_range_count s) (ms_mem s).

Definition is_page_aligned (value : Z) : bool := Z.land value (kPageSize - 1) =? 0.

Definition overlaps (base end_ : Z) (range : ManagedRange) : bool :=
  (base <? mr_end range) && (mr_base range <? end_).

Fixpoint zero_words (words : Z) (index count : nat) (m : Mem) : Mem :=
  match count with
  | O => m
  | S n => zero_words words (S index) n (store64 m (words + 8 * Z.of_nat index) 0)
  end.

Definition zero_page (physical_address : Z) (m : Mem) : Mem :=
  zero_words physical_address 0 512 m.

(** The ranges in use, [g_ranges[0 .. g_range_count)]. *)
Definition live_ranges (st : MemSys) : list ManagedRange := take (g_range_count st) (g_ranges st).

(** First index whose range has the backing and a page left. *)
Fixpoint first_usable (bk : BackingKind.t) (index : nat) (rs : list ManagedRange)
  : option (nat * ManagedRange) :=
  match rs with
  | [] => None
  | range :: rs' =>
      if bool_decide (mr_backing range <> bk) || (mr_end range <=? mr_next range)
      then first_usable bk (S index) rs'
      else Some (index, range)
  end.

Definition allocate_from (bk : BackingKind.t) (st : MemSys) : Allocation * MemSys :=
  match first_usable bk 0 (live_ranges st) with
  | Some (index, range) =>
      let pa := mr_next range in
      (mkAllocation pa bk,
       st <| g_ranges := <[index := range <| mr_next := u64 (mr_next range + kPageSize) |>]> (g_ranges st) |>
          <| ms_mem := zero_page pa (ms_mem st) |>)
  | None => (mkAllocation 0 BackingKind.unavailable, st)
  end.

Definition reset (st : MemSys) : MemSys :=
  st <| g_ranges := replicate kMaxRanges empty_range |> <| g_range_count := 0%nat |>.

Definition add_range (base size : Z) (bk : BackingKind.t) (st : MemSys) : bool * MemSys :=
  if (kMaxRanges <=? g_range_count st)%nat || bool_decide (bk = BackingKind.unavailable)
     || (size =? 0) || negb (is_page_aligned base) || negb (size mod kPageSize =? 0)
  then (false, st)
  else
    let end_ := u64 (base + size) in
    if end_ <=? base then (false, st)
    else if existsb (overlaps base end_) (live_ranges st) then (false, st)
    else if bool_decide (bk = BackingKind.contained)
            && (bool_decide (backing_for (ms_lifecycle st) base <> BackingKind.contained)
                || bool_decide (backing_for (ms_lifecycle st) (u64 (end_ - 1)) <> BackingKind.contained))
    then (false, st)
    else if bool_decide (bk = BackingKind.ddr)
            && (bool_decide (backing_for (ms_lifecycle st) base <> BackingKind.ddr)
                || bool_decide (backing_for (ms_lifecycle st) (u64 (end_ - 1)) <> BackingKind.ddr))
    then (false, st)
    else
      (true,
       st <| g_ranges := <[g_range_count st := mkRange base base end_ bk]> (g_ranges st) |>
          <| g_range_count := S (g_range_count st) |>).

Definition add_contained_bootstrap_pool (pool_start pool_end : Z) (st : MemSys) : bool * MemSys :=
  if pool_end <=? pool_start then (false, st)
  else add_range pool_start (u64 (pool_end - pool_start)) BackingKind.contained st.

(** The validation pass of [promote_backing]: [None] when a range that would
    be promoted does not have the new backing, else the number to promote. *)
Fixpoint count_promotable (g : LifecycleState) (from to : BackingKind.t)
    (rs : list ManagedRange) (n : nat) : option nat :=
  match rs with
  | [] => Some n
  | range :: rs' =>
      if bool_decide (mr_backing range <> from) then count_promotable g from to rs' n
      else if bool_decide (backing_for g (mr_base range) <> to)
              || bool_decide (backing_for g (u64 (mr_end range - 1)) <> to)
      then None
      else count_promotable g from to rs' (S n)
  end.

Definition promote_range (from to : BackingKind.t) (range : ManagedRange) : ManagedRange :=
  if bool_decide (mr_backing range = from) then range <| mr_backing := to |> else range.

Definition promote_backing (from to : BackingKind.t) (st : MemSys) : nat * MemSys :=
  if bool_decide (from = to) || bool_decide (from = BackingKind.unavailable)
     || bool_decide (to = BackingKind.unavailable)
  then (0%nat, st)
  else
    match count_promotable (ms_lifecycle st) from to (live_ranges st) 0 with
    | None => (0%nat, st)
    | Some O => (0%nat, st)
    | Some n =>
        (n, st <| g_ranges := (promote_range from to <$> live_ranges st)
                              ++ drop (g_range_count st) (g_ranges st) |>)
    end.

Definition allocate_page (st : MemSys) : Allocation * MemSys :=
  if ddr_allocation_enabled (ms_lifecycle st) then allocate_from BackingKind.ddr st
  else if bool_decide (domain (ms_lifecycle st) = MemoryDomain.contained)
  then allocate_from BackingKind.contained st
  else (mkAllocation 0 BackingKind.unavailable, st).

Fixpoint count_pages (bk : BackingKind.t) (rs : list ManagedRange) (count : Z) : Z :=
  match rs with
  | [] => count
  | range :: rs' =>
      count_pages bk rs'
        (if bool_decide (mr_backing range = bk) && (mr_next range <? mr_end range)
         then u64 (count + (mr_end range - mr_next range) / kPageSize) else count)
  end.

Definition remaining_pages (bk : BackingKind.t) (st : MemSys) : Z :=
  count_pages bk (live_ranges st) 0.

(** ** Invariant *)

Record range_wf (r : ManagedRange) : Prop := {
  rw_base : 0 <= mr_base r;
  rw_base_aligned : mr_base r mod kPageSize = 0;
  rw_next_aligned : mr_next r mod kPageSize = 0;
  rw_end_aligned : mr_end r mod kPageSize = 0;
  rw_order : mr_base r <= mr_next r <= mr_end r;
  rw_nonempty : mr_base r < mr_end r;
  rw_end : mr_end r < 2 ^ 64;
  rw_backing : mr_backing r <> BackingKind.unavailable;
}.

Definition ranges_disjoint (rs : list ManagedRange) : Prop :=
  forall i j r r', i <> j -> rs !! i = Some r -> rs !! j = Some r' ->
    mr_end r <= mr_base r' \/ mr_end r' <= mr_base r.

Record pm_inv (st : MemSys) : Prop := {
  pi_table : length (g_ranges st) = kMaxRanges;
  pi_count : (g_range_count st <= kMaxRanges)%nat;
  pi_wf : Forall range_wf (live_ranges st);
  pi_disjoint : ranges_disjoint (live_ranges st);
}.

(** The addresses already handed out to callers. *)
Definition handed_out (st : MemSys) (a : Z) : Prop :=
  exists r, r ∈ live_ranges st /\ mr_base r <= a < mr_next r.

(** ** Lemmas *)

Lemma is_page_aligned_spec value : is_page_aligned value = true <-> value mod kPageSize = 0.
Proof.
  unfold is_page_aligned, kPageSize. rewrite Z.eqb_eq.
  change (4096 - 1) with (Z.ones 12). rewrite Z.land_ones by lia. done.
Qed.

Lemma zero_words_spec words i n m a :
  zero_words words i n m a =
    if (words + 8 * Z.of_nat i <=? a) && (a <? words + 8 * Z.of_nat (i + n)) then 0 else m a.
Proof.
  revert i m. induction n as [|n IH]; intros i m; cbn [zero_words].
  - destruct (Z.leb_spec (words + 8 * Z.of_nat i) a), (Z.ltb_spec a (words + 8 * Z.of_nat (i + 0)));
      simpl; done || lia.
  - rewrite IH. unfold store64. rewrite byte_of_0.
    destruct (Z.leb_spec (words + 8 * Z.of_nat (S i)) a),
      (Z.ltb_spec a (words + 8 * Z.of_nat (S i + n))), (Z.leb_spec (words + 8 * Z.of_nat i) a),
      (Z.ltb_spec a (words + 8 * Z.of_nat (i + S n))), (Z.ltb_spec a (words + 8 * Z.of_nat i + 8));
      simpl; done || lia.
Qed.

Lemma zero_page_spec pa m a :
  zero_page pa m a = if (pa <=? a) && (a <? pa + kPageSize) then 0 else m a.
Proof. unfold zero_page. rewrite zero_words_spec. unfold kPageSize. by rewrite Z.add_0_r. Qed.

Lemma first_usable_Some bk k rs i r :
  first_usable bk k rs = Some (i, r) ->
  exists i', i = (k + i')%nat /\ rs !! i' = Some r /\ mr_backing r = bk /\ mr_next r < mr_end r.
Proof.
  revert k. induction rs as [|r0 rs IH]; intros k; simpl; [done|].
  destruct (bool_decide_reflect (mr_backing r0 <> bk)) as [?|Hb]; simpl;
    [|destruct (Z.leb_spec (mr_end r0) (mr_next r0)); simpl].
  3: { intros ?; simplify_eq. apply dec_stable in Hb. exists 0%nat. split_and!; auto; lia. }
  all: intros (i'&->&?)%IH; exists (S i'); split; [lia|done].
Qed.

Lemma first_usable_None bk k rs :
  first_usable bk k rs = None ->
  Forall (fun r => mr_backing r = bk -> mr_end r <= mr_next r) rs.
Proof.
  revert k. induction rs as [|r0 rs IH]; intros k; simpl; [constructor|].
  destruct (bool_decide_reflect (mr_backing r0 <> bk)) as [?|Hb]; simpl;
    [|destruct (Z.leb_spec (mr_end r0) (mr_next r0)); simpl; [|done]].
  all: intros ?%IH; constructor; [|done]; done || intros; congruence || lia.
Qed.

Definition bump (r : ManagedRange) : ManagedRange := r <| mr_next := mr_next r + kPageSize |>.

Lemma range_room r : range_wf r -> mr_next r < mr_end r -> mr_next r + kPageSize <= mr_end r.
Proof.
  intros [_ _ Hn He _ _ _ _]. unfold kPageSize in *. intros.
  Z.div_mod_to_equations. lia.
Qed.

Lemma bump_wf r : range_wf r -> mr_next r < mr_end r -> range_wf (bump r).
Proof.
  intros Hr Hlt. pose proof (range_room r Hr Hlt). unfold kPageSize in *. destruct Hr.
  split; simpl; auto; unfold kPageSize in *; [|lia]. Z.div_mod_to_equations. lia.
Qed.

(** What [allocate_from] does on each branch. *)
Lemma allocate_from_spec bk st a st' :
  pm_inv st -> allocate_from bk st = (a, st') ->
  (exists i r, live_ranges st !! i = Some r /\ mr_backing r = bk /\ mr_next r < mr_end r /\
     a = mkAllocation (mr_next r) bk /\
     live_ranges st' = <[i := bump r]> (live_ranges st) /\
     g_range_count st' = g_range_count st /\ length (g_ranges st') = length (g_ranges st) /\
     ms_lifecycle st' = ms_lifecycle st /\ ms_mem st' = zero_page (mr_next r) (ms_mem st)) \/
  (a = mkAllocation 0 BackingKind.unavailable /\ st' = st /\
   Forall (fun r => mr_backing r = bk -> mr_end r <= mr_next r) (live_ranges st)).
Proof.
  intros Hinv. unfold allocate_from.
  destruct (first_usable bk 0 (live_ranges st)) as [[i r]|] eqn:Hf.
  - intros ?; simplify_eq. left. apply first_usable_Some in Hf as (i'&->&Hi&Hb&Hlt). simpl in *.
    pose proof (Forall_lookup_1 _ _ _ _ (pi_wf _ Hinv) Hi) as Hwf.
    exists i', r. unfold live_ranges in *. simpl.
    pose proof (lookup_lt_Some _ _ _ Hi) as Hlen. rewrite length_take in Hlen.
    assert (range_wf r -> u64 (mr_next r + kPageSize) = mr_next r + kPageSize) as Hu.
    { intros Hr. pose proof (range_room r Hr Hlt). destruct Hr.
      apply u64_small. unfold is_u64, kPageSize in *. lia. }
    split_and!; auto; [|by rewrite length_insert].
    rewrite take_insert_lt by lia. unfold bump. by rewrite Hu.
  - intros ?; simplify_eq. right. split_and!; auto. eapply first_usable_None; eauto.
Qed.

Lemma insert_bump_inv st st' i r :
  pm_inv st -> live_ranges st !! i = Some r -> mr_next r < mr_end r ->
  live_ranges st' = <[i := bump r]> (live_ranges st) ->
  g_range_count st' = g_range_count st -> length (g_ranges st') = length (g_ranges st) ->
  pm_inv st'.
Proof.
  intros [Ht Hc Hwf Hd] Hi Hlt Hlive Hcnt Hlen. split; rewrite ?Hlive, ?Hcnt, ?Hlen; auto.
  - apply Forall_insert; [done|]. apply bump_wf; [|done]. by eapply Forall_lookup_1.
  - intros j k rj rk Hjk Hj Hk.
    assert (forall n x, <[i:=bump r]> (live_ranges st) !! n = Some x ->
      exists y, live_ranges st !! n = Some y /\ mr_base x = mr_base y /\ mr_end x = mr_end y) as Hsame.
    { intros n x Hn. destruct (decide (i = n)) as [<-|Hne].
      - rewrite list_lookup_insert_eq in Hn by (by eapply lookup_lt_Some). simplify_eq. eauto.
      - rewrite list_lookup_insert_ne in Hn by done. eauto. }
    apply Hsame in Hj as (yj&Hj&->&->). apply Hsame in Hk as (yk&Hk&->&->). eauto.
Qed.

Lemma allocate_from_inv bk st : pm_inv st -> pm_inv (allocate_from bk st).2.
Proof.
  intros Hinv. destruct (allocate_from bk st) as [a st'] eqn:Ha.
  apply allocate_from_spec in Ha as [(i&r&?&?&?&->&?&?&?&?&?)|(->&->&_)]; simpl; auto.
  eapply insert_bump_inv; eauto.
Qed.

Lemma allocate_page_inv st : pm_inv st -> pm_inv (allocate_page st).2.
Proof. intros. unfold allocate_page. repeat case_match; auto using allocate_from_inv. Qed.

Lemma reset_inv st : pm_inv (reset st).
Proof.
  split; simpl; [done|lia|constructor|]. by intros [|?] ?????.
Qed.

Lemma add_range_spec base size bk st st' :
  pm_inv st -> 0 <= base -> is_u64 size -> add_range base size bk st = (true, st') ->
  let r := mkRange base base (base + size) bk in
  range_wf r /\ pm_inv st' /\ live_ranges st' = live_ranges st ++ [r] /\
  ms_lifecycle st' = ms_lifecycle st /\ ms_mem st' = ms_mem st.
Proof.
  intros [Ht Hc Hwf Hd] Hb Hs. unfold add_range.
  destruct (Nat.leb_spec kMaxRanges (g_range_count st)); [done|].
  destruct (bool_decide_reflect (bk = BackingKind.unavailable)); [done|].
  destruct (Z.eqb_spec size 0); [done|].
  destruct (is_page_aligned base) eqn:Hal; [|done]. apply is_page_aligned_spec in Hal.
  destruct (Z.eqb_spec (size mod kPageSize) 0) as [Hsz|]; [|done]. simpl.
  destruct (Z.leb_spec (u64 (base + size)) base) as [|Hend]; [done|].
  assert (u64 (base + size) = base + size) as He by word_lia.
  rewrite He in *.
  destruct (existsb _ _) eqn:Hov; [done|].
  repeat case_match; try done. intros ?; simplify_eq. simpl.
  assert (range_wf (mkRange base base (base + size) bk)) as Hr.
  { split; simpl; auto; try lia; [|unfold u64 in He; pose proof (Z.mod_pos_bound (base + size) (2 ^ 64)); lia].
    unfold kPageSize in *. clear He Hend. Z.div_mod_to_equations. lia. }
  assert (live_ranges (st <| g_ranges := <[g_range_count st := mkRange base base (base + size) bk]> (g_ranges st) |>
            <| g_range_count := S (g_range_count st) |>)
          = live_ranges st ++ [mkRange base base (base + size) bk]) as Hlive.
  { unfold live_ranges. simpl.
    rewrite (take_S_r _ _ (mkRange base base (base + size) bk))
      by (apply list_lookup_insert_eq; lia).
    by rewrite take_insert_ge by lia. }
  split_and!; auto. split; simpl in *; auto.
  - by rewrite length_insert.
  - rewrite Hlive. apply Forall_app. split; [done|]. by constructor.
  - rewrite Hlive. intros i j ri rj Hij Hi Hj.
    assert (forall n x, (live_ranges st ++ [mkRange base base (base + size) bk]) !! n = Some x ->
      (n < length (live_ranges st))%nat /\ live_ranges st !! n = Some x \/
      n = length (live_ranges st) /\ x = mkRange base base (base + size) bk) as Hcase.
    { intros ? x Hn. apply lookup_app_Some in Hn as [Hn|[Hn Hn']].
      - left. split; [by eapply lookup_lt_Some|done].
      - right. apply list_lookup_singleton_Some in Hn' as [? <-]. split; [lia|done]. }
    assert (forall r, r ∈ live_ranges st -> mr_end r <= base \/ base + size <= mr_base r) as Hno.
    { intros r Hin. destruct (overlaps base (base + size) r) eqn:Ho.
      - exfalso. assert (existsb (overlaps base (base + size)) (live_ranges st) = true) as Hx;
          [|congruence]. apply existsb_exists. exists r. by rewrite <- list_elem_of_In.
      - unfold overlaps in Ho. apply andb_false_iff in Ho as [Ho|Ho]; apply Z.ltb_ge in Ho; lia. }
    apply Hcase in Hi as [[_ Hi]|[-> ->]]; apply Hcase in Hj as [[_ Hj]|[-> ->]]; simpl.
    + eauto.
    + apply Hno. by eapply list_elem_of_lookup_2.
    + apply or_comm, Hno. by eapply list_elem_of_lookup_2.
    + lia.
Qed.

Lemma add_range_refused base size bk st st' : add_range base size bk st = (false, st') -> st' = st.
Proof. unfold add_range. intros H. repeat case_match; by simplify_eq. Qed.

(** [promote_backing] relabels, it does not move: base, next and end of every
    range are untouched. *)
Definition same_extent (r r' : ManagedRange) : Prop :=
  mr_base r' = mr_base r /\ mr_next r' = mr_next r /\ mr_end r' = mr_end r.

Lemma promote_range_extent from to r : same_extent r (promote_range from to r).
Proof. unfold promote_range. by case_match. Qed.

Lemma count_promotable_spec g from to rs n :
  match count_promotable g from to rs n with
  | None => Exists (fun r => mr_backing r = from /\
      (backing_for g (mr_base r) <> to \/ backing_for g (u64 (mr_end r - 1)) <> to)) rs
  | Some k =>
      k = (n + length (filter (fun r => mr_backing r = from) rs))%nat /\
      Forall (fun r => mr_backing r = from ->
        backing_for g (mr_base r) = to /\ backing_for g (u64 (mr_end r - 1)) = to) rs
  end.
Proof.
  revert n. induction rs as [|r rs IH]; intros n; cbn [count_promotable].
  { split; [simpl; lia|constructor]. }
  rewrite filter_cons.
  destruct (bool_decide_reflect (mr_backing r <> from)) as [Hne|Heq].
  - specialize (IH n). rewrite decide_False by done.
    destruct (count_promotable _ _ _ _ _); [|by right].
    destruct IH as [-> ?]. split; [done|]. by constructor.
  - apply dec_stable in Heq. rewrite decide_True by done.
    destruct (bool_decide_reflect (backing_for g (mr_base r) <> to)) as [|Hb];
      [simpl; left; naive_solver|].
    destruct (bool_decide_reflect (backing_for g (u64 (mr_end r - 1)) <> to)) as [|He]; simpl;
      [left; naive_solver|].
    apply dec_stable in Hb. apply dec_stable in He. specialize (IH (S n)).
    destruct (count_promotable _ _ _ _ _); [|by right].
    destruct IH as [-> ?]. split; [simpl; lia|]. by constructor.
Qed.

Lemma promote_backing_cases from to st n st' :
  pm_inv st -> promote_backing from to st = (n, st') ->
  (n = 0%nat /\ st' = st) \/
  (n <> 0%nat /\ from <> to /\ to <> BackingKind.unavailable /\
   live_ranges st' = promote_range from to <$> live_ranges st /\
   g_range_count st' = g_range_count st /\ length (g_ranges st') = length (g_ranges st) /\
   ms_mem st' = ms_mem st /\
   n = length (filter (fun r => mr_backing r = from) (live_ranges st)) /\
   Forall (fun r => mr_backing r = from ->
     backing_for (ms_lifecycle st) (mr_base r) = to /\
     backing_for (ms_lifecycle st) (u64 (mr_end r - 1)) = to) (live_ranges st)).
Proof.
  intros [Ht Hc _ _]. unfold promote_backing.
  destruct (bool_decide_reflect (from = to)); simpl; [intros; simplify_eq; by auto|].
  destruct (bool_decide_reflect (from = BackingKind.unavailable)); simpl; [intros; simplify_eq; by auto|].
  destruct (bool_decide_reflect (to = BackingKind.unavailable)); simpl; [intros; simplify_eq; by auto|].
  pose proof (count_promotable_spec (ms_lifecycle st) from to (live_ranges st) 0) as Hp.
  destruct (count_promotable _ _ _ _ _) as [[|k]|]; intros; simplify_eq; [by auto| |by auto].
  right. destruct Hp as [Hk Hall]. split_and!; auto.
  - unfold live_ranges. simpl.
    rewrite take_app_le by (rewrite length_fmap, length_take; lia).
    rewrite take_ge; [done|]. rewrite length_fmap, length_take. lia.
  - simpl. unfold live_ranges. rewrite length_app, length_fmap, length_take, length_drop. lia.
Qed.

Lemma promote_backing_extent from to st n st' :
  pm_inv st -> promote_backing from to st = (n, st') ->
  Forall2 same_extent (live_ranges st) (live_ranges st').
Proof.
  intros Hinv [[_ ->]|(_&_&_&->&_)]%promote_backing_cases; [..|done].
  - apply Forall_Forall2_diag, Forall_forall. by intros.
  - apply Forall2_fmap_r, Forall_Forall2_diag, Forall_forall. intros r _. apply promote_range_extent.
Qed.

Lemma handed_out_same_extent st st' a :
  Forall2 same_extent (live_ranges st) (live_ranges st') -> handed_out st' a <-> handed_out st a.
Proof.
  intros Hext. unfold handed_out. setoid_rewrite list_elem_of_lookup. split.
  - intros (r&(i&Hi)&Ha). destruct (Forall2_lookup_r _ _ _ _ _ Hext Hi) as (r'&Hi'&(E1&E2&E3)).
    exists r'. rewrite <- E1, <- E2. eauto.
  - intros (r&(i&Hi)&Ha). destruct (Forall2_lookup_l _ _ _ _ _ Hext Hi) as (r'&Hi'&(E1&E2&E3)).
    exists r'. rewrite E1, E2. eauto.
Qed.

Lemma promote_backing_inv from to st : pm_inv st -> pm_inv (promote_backing from to st).2.
Proof.
  intros Hinv. destruct (promote_backing from to st) as [n st'] eqn:Hp. simpl.
  apply promote_backing_cases in Hp as [[_ ->]|(_&Hft&Hto&Hl&Hc&Hg&_)]; [done| |done].
  destruct Hinv as [Ht Hcn Hwf Hd]; split; rewrite ?Hl, ?Hc, ?Hg; auto.
  - apply Forall_fmap. eapply Forall_impl; [exact Hwf|]. intros r [].
    unfold promote_range. split; simpl; case_match; simpl; auto.
  - intros i j ri rj Hij Hi Hj. rewrite list_lookup_fmap in Hi, Hj.
    apply fmap_Some in Hi as (yi&Hi&->). apply fmap_Some in Hj as (yj&Hj&->).
    destruct (promote_range_extent from to yi) as (->&_&->).
    destruct (promote_range_extent from to yj) as (->&_&->). eauto.
Qed.

(** The backing [allocate_page] serves from in the current lifecycle state. *)
Definition serving (g : LifecycleState) : BackingKind.t :=
  if ddr_allocation_enabled g then BackingKind.ddr
  else if bool_decide (domain g = MemoryDomain.contained) then BackingKind.contained
  else BackingKind.unavailable.

Lemma allocate_page_spec st a st' :
  pm_inv st -> allocate_page st = (a, st') ->
  (exists i r, live_ranges st !! i = Some r /\ mr_backing r = serving (ms_lifecycle st) /\
     mr_next r < mr_end r /\ a = mkAllocation (mr_next r) (serving (ms_lifecycle st)) /\
     live_ranges st' = <[i := bump r]> (live_ranges st) /\
     ms_lifecycle st' = ms_lifecycle st /\ ms_mem st' = zero_page (mr_next r) (ms_mem st)) \/
  (a = mkAllocation 0 BackingKind.unavailable /\ st' = st /\
   Forall (fun r => mr_backing r = serving (ms_lifecycle st) -> mr_end r <= mr_next r) (live_ranges st)).
Proof.
  intros Hinv. unfold allocate_page, serving.
  destruct (ddr_allocation_enabled _); [|case_match].
  1,2: intros [(i&r&?)|?]%allocate_from_spec; [left|by right|done];
    exists i, r; destruct_and!; split_and!; auto.
  intros ?; simplify_eq. right. split_and!; auto. apply Forall_forall. intros r Hr Hb.
  apply list_elem_of_lookup in Hr as [i Hi].
  by destruct (rw_backing _ (Forall_lookup_1 _ _ _ _ (pi_wf _ Hinv) Hi)).
Qed.

Lemma handed_out_bump st st' i r a :
  live_ranges st !! i = Some r -> live_ranges st' = <[i := bump r]> (live_ranges st) ->
  mr_base r <= mr_next r ->
  handed_out st' a <-> handed_out st a \/ mr_next r <= a < mr_next r + kPageSize.
Proof.
  intros Hi Hl Hle. pose proof (lookup_lt_Some _ _ _ Hi) as Hlt. unfold handed_out. rewrite Hl.
  setoid_rewrite list_elem_of_lookup. split.
  - intros (r'&(j&Hj)&Ha). destruct (decide (i = j)) as [<-|Hne].
    + rewrite list_lookup_insert_eq in Hj by done. simplify_eq. simpl in Ha.
      destruct (decide (a < mr_next r)); [left; exists r|right]; eauto with lia.
    + rewrite list_lookup_insert_ne in Hj by done. left. eauto.
  - intros [(r'&(j&Hj)&Ha)|Ha].
    + destruct (decide (i = j)) as [<-|Hne].
      * exists (bump r). split; [exists i; by apply list_lookup_insert_eq|].
        simplify_eq. simpl. unfold kPageSize. lia.
      * exists r'. split; [exists j; by rewrite list_lookup_insert_ne|done].
    + exists (bump r). split; [exists i; by apply list_lookup_insert_eq|]. simpl. lia.
Qed.

Lemma next_page_fresh st i r a :
  pm_inv st -> live_ranges st !! i = Some r -> mr_next r < mr_end r ->
  mr_next r <= a < mr_next r + kPageSize -> ~ handed_out st a.
Proof.
  intros Hinv Hi Hlt Ha (r'&Hin&Hr'). apply list_elem_of_lookup in Hin as [j Hj].
  pose proof (Forall_lookup_1 _ _ _ _ (pi_wf _ Hinv) Hi) as Hwf.
  pose proof (Forall_lookup_1 _ _ _ _ (pi_wf _ Hinv) Hj) as Hwf'.
  pose proof (range_room r Hwf Hlt).
  destruct (decide (i = j)) as [<-|Hne]; [simplify_eq; lia|].
  pose proof (pi_disjoint _ Hinv i j r r' Hne Hi Hj). destruct Hwf, Hwf'. lia.
Qed.

(** ** Histories of the allocator *)

Inductive pm_op :=
| PReset
| PAllocate
| PAddRange (base size : Z) (bk : BackingKind.t)
| PPromote (from to : BackingKind.t)
| PLifecycle (o : op).

Definition op_args_ok (o : pm_op) : Prop :=
  match o with PAddRange base size _ => is_u64 base /\ is_u64 size | _ => True end.

(** One step, with the address it hands out, if any. *)
Definition pm_step (o : pm_op) (st : MemSys) : option Z * MemSys :=
  match o with
  | PReset => (None, reset st)
  | PAllocate =>
      let '(a, st') := allocate_page st in
      (if bool_decide (backing a = BackingKind.unavailable) then None
       else Some (physical_address a), st')
  | PAddRange base size bk => (None, (add_range base size bk st).2)
  | PPromote from to => (None, (promote_backing from to st).2)
  | PLifecycle o => (None, st <| ms_lifecycle := (run o (ms_lifecycle st)).2 |>)
  end.

Fixpoint pm_run (os : list pm_op) (st : MemSys) : list Z * MemSys :=
  match os with
  | [] => ([], st)
  | o :: os' =>
      let '(r, st1) := pm_step o st in
      let '(rs, st2) := pm_run os' st1 in
      (match r with Some a => a :: rs | None => rs end, st2)
  end.

Lemma pm_step_spec o st :
  pm_inv st -> op_args_ok o ->
  let '(r, st') := pm_step o st in
  pm_inv st' /\ (o <> PReset -> forall a, handed_out st a -> handed_out st' a) /\
  match r with
  | Some p => ~ handed_out st p /\ handed_out st' p /\ p mod kPageSize = 0
  | None => True
  end.
Proof.
  intros Hinv Harg. destruct o as [| |base size bk|from to|o]; simpl.
  - split_and!; [apply reset_inv|done|done].
  - pose proof (allocate_page_inv st Hinv) as Hinv'.
    destruct (allocate_page st) as [a st'] eqn:Ha. simpl in Hinv'. split; [done|].
    apply allocate_page_spec in Ha as [(i&r&Hi&Hb&Hlt&->&Hl&_&_)|(->&->&_)]; [..|done].
    + pose proof (Forall_lookup_1 _ _ _ _ (pi_wf _ Hinv) Hi) as Hwf.
      pose proof (handed_out_bump st st' i r) as Hho.
      pose proof (rw_order _ Hwf). split.
      * intros _ a Ha. apply Hho; auto. lia.
      * simpl. rewrite bool_decide_false by (rewrite <- Hb; apply Hwf). unfold kPageSize in Hho.
        split_and!; [eapply next_page_fresh; eauto; unfold kPageSize; lia|apply Hho; auto; lia|].
        by destruct Hwf.
    + by split.
  - destruct Harg as [[Hb _] Hs]. destruct (add_range base size bk st) as [[] st'] eqn:Ha; simpl.
    + apply add_range_spec in Ha as (Hr&Hinv'&Hl&_); auto. split_and!; [done| |done].
      intros _ a (r&Hin&Hx). exists r. split; [|done]. rewrite Hl. apply elem_of_app. by left.
    + apply add_range_refused in Ha as ->. done.
  - pose proof (promote_backing_inv from to st Hinv) as Hinv'.
    destruct (promote_backing from to st) as [n st'] eqn:Hp. simpl in *.
    split_and!; [done| |done]. intros _ a. eapply handed_out_same_extent, promote_backing_extent; eauto.
  - split_and!; [by destruct Hinv; split|done|done].
Qed.

Lemma pm_run_inv os st : pm_inv st -> Forall op_args_ok os -> pm_inv (pm_run os st).2.
Proof.
  revert st. induction os as [|o os IH]; intros st Hinv Hargs; simpl; [done|].
  apply Forall_cons in Hargs as [Ho Hos].
  pose proof (pm_step_spec o st Hinv Ho) as Hs. destruct (pm_step o st) as [r st1].
  destruct Hs as [Hinv1 _]. specialize (IH st1 Hinv1 Hos). by destruct (pm_run os st1).
Qed.

Lemma pm_run_fresh os st :
  pm_inv st -> Forall op_args_ok os -> Forall (fun o => o <> PReset) os ->
  let '(ps, st') := pm_run os st in
  NoDup ps /\ Forall (fun p => p mod kPageSize = 0 /\ ~ handed_out st p) ps /\ pm_inv st'.
Proof.
  revert st. induction os as [|o os IH]; intros st Hinv Hargs Hnr; simpl.
  { split_and!; [constructor|constructor|done]. }
  apply Forall_cons in Hargs as [Ho Hos]. apply Forall_cons in Hnr as [Hno Hnr].
  pose proof (pm_step_spec o st Hinv Ho) as Hs. destruct (pm_step o st) as [r st1].
  destruct Hs as (Hinv1&Hmono&Hr). specialize (IH st1 Hinv1 Hos Hnr). specialize (Hmono Hno).
  destruct (pm_run os st1) as [ps st2]. destruct IH as (Hnd&Hall&Hinv2).
  assert (Forall (fun p => p mod kPageSize = 0 /\ ~ handed_out st p) ps) as Hall'.
  { eapply Forall_impl; [exact Hall|]. naive_solver. }
  destruct r as [p|]; [|done]. destruct Hr as (Hf&Ho1&Hal). split_and!; [|by constructor|done].
  apply NoDup_cons. split; [|done]. intros Hin. rewrite Forall_forall in Hall.
  by apply Hall in Hin as [_ ?].
Qed.

(** ** Properties *)

Lemma allocate_page_facts st a st' :
  pm_inv st -> allocate_page st = (a, st') ->
  pm_inv st' /\
  if decide (backing a = BackingKind.unavailable)
  then st' = st /\ Forall (fun r => mr_backing r = serving (ms_lifecycle st) ->
                                    mr_end r <= mr_next r) (live_ranges st)
  else
    let page := physical_address a in
    backing a = serving (ms_lifecycle st) /\ page mod kPageSize = 0 /\
    (exists r, r ∈ live_ranges st /\ mr_base r <= page /\ page + kPageSize <= mr_end r) /\
    (forall x, handed_out st' x <-> handed_out st x \/ page <= x < page + kPageSize) /\
    (forall x, page <= x < page + kPageSize -> ~ handed_out st x) /\
    (forall x, ms_mem st' x = if (page <=? x) && (x <? page + kPageSize) then 0 else ms_mem st x).
Proof.
  intros Hinv Ha. pose proof (allocate_page_inv st Hinv) as Hinv'. rewrite Ha in Hinv'.
  split; [done|].
  apply allocate_page_spec in Ha as [(i&r&Hi&Hb&Hlt&->&Hl&_&Hm)|(->&->&Hn)]; [|..|done]; simpl.
  - pose proof (Forall_lookup_1 _ _ _ _ (pi_wf _ Hinv) Hi) as Hwf.
    pose proof (range_room r Hwf Hlt). rewrite decide_False by (rewrite <- Hb; apply Hwf).
    split_and!; [done|by apply Hwf| | | |].
    + exists r. split_and!; [by eapply list_elem_of_lookup_2|apply Hwf|done].
    + intros x. eapply handed_out_bump; eauto. apply Hwf.
    + intros x Hx. by eapply next_page_fresh.
    + intros x. rewrite Hm. apply zero_page_spec.
  - done.
Qed.

(** [allocate_page] hands out a page-aligned, fully zeroed page of the
    backing the lifecycle currently serves, which was not handed out before
    and lies inside one managed range; nothing else in memory changes. When it
    fails nothing changes and no range of that backing has a page left. *)
Lemma allocate_page_correct st a st' :
  pm_inv st -> allocate_page st = (a, st') ->
  pm_inv st' /\
  if decide (backing a = BackingKind.unavailable)
  then st' = st /\ Forall (fun r => mr_backing r = serving (ms_lifecycle st) ->
                                    mr_end r <= mr_next r) (live_ranges st)
  else
    let page := physical_address a in
    backing a = serving (ms_lifecycle st) /\ page mod kPageSize = 0 /\
    (exists r, r ∈ live_ranges st /\ mr_base r <= page /\ page + kPageSize <= mr_end r) /\
    (forall x, handed_out st' x <-> handed_out st x \/ page <= x < page + kPageSize) /\
    (forall x, page <= x < page + kPageSize -> ~ handed_out st x) /\
    (forall x, ms_mem st' x = if (page <=? x) && (x <? page + kPageSize) then 0 else ms_mem st x).
Proof. apply allocate_page_facts. Qed.

(** A booted system with a two-page contained pool, for the witnesses. *)
Definition demo_sys : MemSys :=
  (add_range (2 ^ 31) (2 * kPageSize) BackingKind.contained
     (reset (mkMemSys (initialize_contained (2 ^ 31) initial_state) [] 0 (fun _ => 7)))).2.

Lemma demo_sys_inv : pm_inv demo_sys.
Proof.
  unfold demo_sys.
  destruct (add_range _ _ _ _) as [b st] eqn:Ha.
  assert (b = true) as -> by (apply (f_equal fst) in Ha; vm_compute in Ha; congruence).
  apply add_range_spec in Ha as (_&Hinv&_); [done|apply reset_inv|lia|vm_compute; split; congruence].
Qed.

Lemma allocate_page_correct_witness :
  physical_address (allocate_page demo_sys).1 mod kPageSize = 0.
Proof.
  pose proof (allocate_page_correct demo_sys (allocate_page demo_sys).1
                (allocate_page demo_sys).2 demo_sys_inv) as H.
  destruct H as [_ H]; [by destruct (allocate_page demo_sys)|].
  rewrite decide_False in H by (vm_compute; congruence). exact (proj1 (proj2 H)).
Defined.

(** C19: no page is handed out twice between two resets.  Take any history of
    resets, allocations, range registrations, backing promotions and lifecycle
    transitions, then any continuation of it in which [reset] is not called:
    the pages the continuation hands out are pairwise different, page aligned,
    and none of them lies in a page that the ranges still registered had
    already given away.  ([reset] forgets every range, so after it a range can
    be registered and its pages handed out anew: [reset_forgets].) *)
Theorem no_double_allocation before os st :
  pm_inv st -> Forall op_args_ok before -> Forall op_args_ok os -> Forall (fun o => o <> PReset) os ->
  let mid := (pm_run before st).2 in
  NoDup (pm_run os mid).1 /\
  Forall (fun p => p mod kPageSize = 0 /\ ~ handed_out mid p) (pm_run os mid).1.
Proof.
  intros Hinv Hb Hargs Hnr mid.
  pose proof (pm_run_fresh os mid (pm_run_inv before st Hinv Hb) Hargs Hnr) as H.
  destruct (pm_run os mid). naive_solver.
Qed.

Lemma no_double_allocation_witness :
  let mid := (pm_run [PAllocate; PReset; PAddRange (2 ^ 31) (2 * kPageSize) BackingKind.contained] demo_sys).2 in
  (pm_run [PAllocate; PAllocate; PAllocate] mid).1 = [2 ^ 31; 2 ^ 31 + 4096] /\
  NoDup (pm_run [PAllocate; PAllocate; PAllocate] mid).1.
Proof.
  split; [vm_compute; reflexivity|].
  apply (no_double_allocation [PAllocate; PReset; PAddRange (2 ^ 31) (2 * kPageSize) BackingKind.contained]
           [PAllocate; PAllocate; PAllocate] demo_sys demo_sys_inv).
  - repeat constructor; vm_compute; congruence.
  - repeat constructor.
  - by repeat constructor.
Defined.

(** Across a reset the same page is handed out again. *)
Example reset_forgets :
  (pm_run [PAllocate; PReset; PAddRange (2 ^ 31) (2 * kPageSize) BackingKind.contained; PAllocate] demo_sys).1
    = [2 ^ 31; 2 ^ 31].
Proof. vm_compute. reflexivity. Qed.

(** [promote_backing] is all or nothing. It either changes nothing and
    reports zero, or it relabels every range of the old backing - each of
    which the lifecycle already backs with the new kind at both ends - reports
    how many, and leaves every base, bump pointer and end where it was. *)
Lemma promote_backing_all_or_nothing from to st n st' :
  pm_inv st -> promote_backing from to st = (n, st') ->
  pm_inv st' /\ ms_mem st' = ms_mem st /\
  (forall a, handed_out st' a <-> handed_out st a) /\
  if decide (n = 0%nat) then st' = st
  else n = length (filter (fun r => mr_backing r = from) (live_ranges st)) /\
       filter (fun r => mr_backing r = from) (live_ranges st') = [] /\
       Forall2 same_extent (live_ranges st) (live_ranges st') /\
       Forall (fun r => mr_backing r = from ->
         backing_for (ms_lifecycle st) (mr_base r) = to /\
         backing_for (ms_lifecycle st) (u64 (mr_end r - 1)) = to) (live_ranges st).
Proof.
  intros Hinv Hp. pose proof (promote_backing_inv from to st Hinv) as Hinv'.
  rewrite Hp in Hinv'. pose proof (promote_backing_extent _ _ _ _ _ Hinv Hp) as Hext.
  apply promote_backing_cases in Hp as [[-> ->]|(Hn&Hft&Hto&Hl&_&_&Hm&Hk&Hall)]; [done| |done].
  rewrite decide_False by done. split_and!; auto.
  - intros a. by apply handed_out_same_extent.
  - rewrite Hl. apply filter_all_out. intros r Hin Hr.
    apply list_elem_of_fmap in Hin as (y&->&_). unfold promote_range in Hr.
    case_bool_decide; simpl in Hr; congruence.
Qed.

(** [demo_sys] after the whole bring-up: the contained pool is now in DDR. *)
Definition demo_mainstore : MemSys :=
  demo_sys <| ms_lifecycle := (run_all qemu_bringup (ms_lifecycle demo_sys)).2 |>.

Lemma promote_backing_all_or_nothing_witness :
  (promote_backing BackingKind.contained BackingKind.ddr demo_mainstore).1 = 1%nat /\
  pm_inv (promote_backing BackingKind.contained BackingKind.ddr demo_mainstore).2.
Proof.
  split; [vm_compute; reflexivity|].
  apply (promote_backing_all_or_nothing BackingKind.contained BackingKind.ddr demo_mainstore 1
           (promote_backing BackingKind.contained BackingKind.ddr demo_mainstore).2).
  - destruct demo_sys_inv. by split.
  - vm_compute. reflexivity.
Defined.
