(* ===== verification/Sv39.v ===== *)
(** * Sv39 page tables

    Models [microkernel/arch/riscv/sv39.{h,cpp}]: page-table entries, the
    three-level table in physical memory, [map_page_4k] and [map_range_4k]
    with their allocations, and [satp_value].  The specification is the
    translation a Sv39 hart performs, [walk]; the theorems say that mapping
    adds exactly the requested pages to it.  [table_at] is the identity (a
    table is the address of its first entry), and the fences have no effect
    on memory. *)
From stdpp Require Import base tactics list sets.
From Stdlib Require Import ZArith Lia.
From S2P Require Import Prelude Memory Lifecycle PageManager.
Local Open Scope Z_scope.

(** ** Definitions *)

Module PteFlag.
Definition valid : Z := 1.
Definition read : Z := 2.
Definition write : Z := 4.
Definition execute : Z := 8.
Definition user : Z := 16.
Definition global : Z := 32.
Definition accessed : Z := 64.
Definition dirty : Z := 128.
End PteFlag.

Definition kSatpModeSv39 : Z := Z.shiftl 8 60.
Definition kPpnMask : Z := Z.shiftl 1 44 - 1.
Definition kLeafMask : Z := Z.lor (Z.lor PteFlag.read PteFlag.write) PteFlag.execute.

Record AddressSpace := mkAddressSpace { root_physical_address : Z }.
Definition as_valid (a : AddressSpace) : bool := negb (root_physical_address a =? 0).

Definition vpn_index (virtual_address level : Z) : Z :=
  Z.land (Z.shiftr virtual_address (12 + 9 * level)) 0x1ff.

Definition make_pte (physical_address flags : Z) : Z :=
  Z.lor (u64 (Z.shiftl (Z.shiftr physical_address 12) 10)) flags.

Definition pte_physical_address (pte : Z) : Z :=
  u64 (Z.shiftl (Z.land (Z.shiftr pte 10) kPpnMask) 12).

Definition is_valid (pte : Z) : bool := negb (Z.land pte PteFlag.valid =? 0).
Definition is_leaf (pte : Z) : bool := negb (Z.land pte kLeafMask =? 0).

(** Address of entry [index] of the table at [table]. *)
Definition entry_address (table index : Z) : Z := table + 8 * index.

Definition ensure_child_table (parent_pte : Z) (st : MemSys) : Z * MemSys :=
  let pte := load64 (ms_mem st) parent_pte in
  if is_valid pte then
    if is_leaf pte then (0, st) else (pte_physical_address pte, st)
  else
    let '(allocation, st1) := allocate_page st in
    if negb (allocation_valid allocation) then (0, st1)
    else (physical_address allocation,
          st1 <| ms_mem := store64 (ms_mem st1) parent_pte
                             (make_pte (physical_address allocation) PteFlag.valid) |>).

Definition create_address_space (st : MemSys) : AddressSpace * MemSys :=
  let '(allocation, st1) := allocate_page st in
  if negb (allocation_valid allocation) then (mkAddressSpace 0, st1)
  else (mkAddressSpace (physical_address allocation), st1).

Definition map_page_4k (address_space : AddressSpace) (virtual_address physical_address flags : Z)
    (st : MemSys) : bool * MemSys :=
  if negb (as_valid address_space) || negb (is_page_aligned virtual_address)
     || negb (is_page_aligned physical_address)
  then (false, st)
  else if negb (Z.land flags PteFlag.write =? 0) && (Z.land flags PteFlag.read =? 0)
  then (false, st)
  else
    let level2 := root_physical_address address_space in
    let '(level1, st1) := ensure_child_table (entry_address level2 (vpn_index virtual_address 2)) st in
    if level1 =? 0 then (false, st1)
    else
      let '(level0, st2) := ensure_child_table (entry_address level1 (vpn_index virtual_address 1)) st1 in
      if level0 =? 0 then (false, st2)
      else
        let leaf := entry_address level0 (vpn_index virtual_address 0) in
        if is_valid (load64 (ms_mem st2) leaf) then (false, st2)
        else (true, st2 <| ms_mem := store64 (ms_mem st2) leaf
                                       (make_pte physical_address (Z.lor flags PteFlag.valid)) |>).

(** The loop of [map_range_4k]: [offset] runs from 0 to [size] by pages. *)
Fixpoint map_pages (address_space : AddressSpace) (virtual_base physical_base flags offset : Z)
    (count : nat) (st : MemSys) : bool * MemSys :=
  match count with
  | O => (true, st)
  | S n =>
      let '(ok, st1) := map_page_4k address_space (u64 (virtual_base + offset))
                          (u64 (physical_base + offset)) flags st in
      if ok then map_pages address_space virtual_base physical_base flags (offset + kPageSize) n st1
      else (false, st1)
  end.

Definition map_range_4k (address_space : AddressSpace) (virtual_base physical_base size flags : Z)
    (st : MemSys) : bool * MemSys :=
  if (size =? 0) || negb (is_page_aligned virtual_base) || negb (is_page_aligned physical_base)
     || negb (size mod kPageSize =? 0)
  then (false, st)
  else
    let virtual_end := u64 (virtual_base + size) in
    let physical_end := u64 (physical_base + size) in
    if (virtual_end <=? virtual_base) || (physical_end <=? physical_base) then (false, st)
    else map_pages address_space virtual_base physical_base flags 0
           (Z.to_nat (size / kPageSize)) st.

Definition satp_value (address_space : AddressSpace) : Z :=
  if negb (as_valid address_space) then 0
  else Z.lor kSatpModeSv39 (Z.shiftr (root_physical_address address_space) 12).

(** ** The translation performed by the hardware

    The Sv39 algorithm of the privileged specification: an entry that is
    invalid, or writable but not readable, faults; an entry with R or X is a
    leaf (a superpage above level 0, which must be aligned); anything else
    points to the next table.  The result is the physical address and the low
    ten bits of the leaf. *)
Fixpoint walk (m : Mem) (table va : Z) (level : nat) : option (Z * Z) :=
  let pte := load64 m (entry_address table (vpn_index va (Z.of_nat level))) in
  if negb (is_valid pte) || (negb (Z.land pte PteFlag.write =? 0) && (Z.land pte PteFlag.read =? 0))
  then None
  else if is_leaf pte then
    let span := 2 ^ (12 + 9 * Z.of_nat level) in
    if pte_physical_address pte mod span =? 0
    then Some (pte_physical_address pte + va mod span, pte mod 1024)
    else None
  else match level with
       | O => None
       | S l => walk m (pte_physical_address pte) va l
       end.

(** Sv39 addresses are 39 bits, sign-extended; the firmware maps the lower half. *)
Definition translate (m : Mem) (root va : Z) : option (Z * Z) :=
  if (0 <=? va) && (va <? 2 ^ 38) then walk m root va 2 else None.

(** ** The table tree *)

(** Non-leaf child of entry [i]. *)
Definition child (m : Mem) (t i : Z) : option Z :=
  let pte := load64 m (entry_address t i) in
  if is_valid pte && negb (is_leaf pte) then Some (pte_physical_address pte) else None.

Definition idx_ok (i : Z) : Prop := 0 <= i < 512.

(** Table reached from the root along a path of indices. *)
Definition table_path (m : Mem) (root : Z) (p : list Z) : option Z :=
  foldl (fun ot i => t ← ot; child m t i) (Some root) p.

Record table_page (st : MemSys) (t : Z) : Prop := {
  tp_pos : 0 < t;
  tp_top : t + kPageSize <= 2 ^ 56;
  tp_aligned : t mod kPageSize = 0;
  tp_owned : forall a, t <= a < t + kPageSize -> handed_out st a;
}.

Record pt_inv (st : MemSys) (root : Z) : Prop := {
  pt_phys : Forall (fun r => mr_end r <= 2 ^ 56) (live_ranges st);
  pt_pages : forall p t, (length p <= 2)%nat -> Forall idx_ok p ->
    table_path (ms_mem st) root p = Some t -> table_page st t;
  pt_inj : forall p p' t, (length p <= 2)%nat -> (length p' <= 2)%nat ->
    Forall idx_ok p -> Forall idx_ok p' ->
    table_path (ms_mem st) root p = Some t -> table_path (ms_mem st) root p' = Some t -> p = p';
  pt_nonleaf : forall p t i, (length p <= 1)%nat -> Forall idx_ok p -> idx_ok i ->
    table_path (ms_mem st) root p = Some t ->
    is_valid (load64 (ms_mem st) (entry_address t i)) = true ->
    is_leaf (load64 (ms_mem st) (entry_address t i)) = false;
}.

(** ** Entries *)

Lemma land_low pte k : 0 <= k < 1024 -> Z.land pte k = Z.land (pte mod 1024) k.
Proof.
  intros Hk. change 1024 with (2 ^ 10) at 1. rewrite <- Z.land_ones by lia.
  rewrite <- Z.land_assoc. f_equal. rewrite Z.land_comm, Z.land_ones by lia.
  symmetry. apply Z.mod_small. done.
Qed.

Lemma lor_shifted_add x f k : 0 <= k -> 0 <= f < 2 ^ k -> Z.lor (x * 2 ^ k) f = x * 2 ^ k + f.
Proof.
  intros Hk Hf. enough (Z.land (x * 2 ^ k) f = 0) as H0.
  { pose proof (Z.add_lor_land (x * 2 ^ k) f). lia. }
  apply Z.bits_inj'. intros n Hn. rewrite Z.land_spec, Z.bits_0.
  destruct (decide (n < k)).
  - rewrite Z.mul_pow2_bits_low by lia. done.
  - rewrite <- (Z.mod_small f (2 ^ k)) by lia.
    rewrite Z.mod_pow2_bits_high by lia. apply andb_false_r.
Qed.

Lemma make_pte_value pa flags :
  0 <= pa < 2 ^ 56 -> 0 <= flags < 1024 -> make_pte pa flags = (pa / 4096) * 1024 + flags.
Proof.
  intros Hpa Hf. unfold make_pte. rewrite Z.shiftr_div_pow2, Z.shiftl_mul_pow2 by lia.
  rewrite u64_small.
  - change 1024 with (2 ^ 10). rewrite lor_shifted_add by lia. done.
  - change (2 ^ 12) with 4096. change (2 ^ 10) with 1024. unfold is_u64. pow2_numerals.
    Z.div_mod_to_equations. lia.
Qed.

Lemma make_pte_pa pa flags :
  0 <= pa < 2 ^ 56 -> pa mod kPageSize = 0 -> 0 <= flags < 1024 ->
  pte_physical_address (make_pte pa flags) = pa.
Proof.
  intros Hpa Hal Hf. rewrite make_pte_value by done. unfold pte_physical_address, kPpnMask.
  rewrite Z.shiftr_div_pow2 by lia.
  change (Z.shiftl 1 44 - 1) with (Z.ones 44). rewrite Z.land_ones, Z.shiftl_mul_pow2 by lia.
  change (2 ^ 10) with 1024. rewrite Z.div_add_l, (Z.div_small flags), Z.add_0_r by lia.
  unfold kPageSize in Hal. change (2 ^ 12) with 4096.
  rewrite (Z.mod_small (pa / 4096)); [rewrite u64_small|]; unfold is_u64; pow2_numerals;
    Z.div_mod_to_equations; lia.
Qed.

Lemma make_pte_low pa flags :
  0 <= pa < 2 ^ 56 -> 0 <= flags < 1024 -> make_pte pa flags mod 1024 = flags.
Proof.
  intros Hpa Hf. rewrite make_pte_value by done.
  rewrite Z.add_comm, Z.mod_add by lia. by apply Z.mod_small.
Qed.

Lemma make_pte_u64 pa flags : 0 <= pa < 2 ^ 56 -> 0 <= flags < 1024 -> is_u64 (make_pte pa flags).
Proof.
  intros. rewrite make_pte_value by done. unfold is_u64. pow2_numerals. Z.div_mod_to_equations. lia.
Qed.

Lemma make_pte_bits pa flags k :
  0 <= pa < 2 ^ 56 -> 0 <= flags < 1024 -> 0 <= k < 1024 ->
  Z.land (make_pte pa flags) k = Z.land flags k.
Proof. intros. rewrite land_low by done. by rewrite make_pte_low. Qed.

Lemma vpn_index_ok va level : idx_ok (vpn_index va level).
Proof.
  unfold idx_ok, vpn_index. change 0x1ff with (Z.ones 9). rewrite Z.land_ones by lia.
  apply Z.mod_pos_bound. lia.
Qed.

(** The three indices and the offset determine an address of the lower half. *)
Lemma vpn_index_inj va va' :
  0 <= va < 2 ^ 38 -> 0 <= va' < 2 ^ 38 ->
  vpn_index va 2 = vpn_index va' 2 -> vpn_index va 1 = vpn_index va' 1 ->
  vpn_index va 0 = vpn_index va' 0 -> va / 4096 = va' / 4096.
Proof.
  unfold vpn_index. change 0x1ff with (Z.ones 9).
  rewrite !Z.land_ones, !Z.shiftr_div_pow2 by lia. cbn [Z.mul Z.add Pos.mul Pos.add]. pow2_numerals.
  intros. Z.div_mod_to_equations. lia.
Qed.

Lemma vpn_index_page va off level :
  (0 <= level)%Z -> va mod 4096 = 0 -> 0 <= off < 4096 -> vpn_index (va + off) level = vpn_index va level.
Proof.
  intros Hl Ha Ho. unfold vpn_index. f_equal. rewrite !Z.shiftr_div_pow2 by lia.
  rewrite Z.pow_add_r by lia. change (2 ^ 12) with 4096.
  rewrite <- !Z.div_div by lia. f_equal. Z.div_mod_to_equations. lia.
Qed.

Lemma vpn_path_ok va : Forall idx_ok [vpn_index va 2; vpn_index va 1].
Proof. repeat constructor; apply vpn_index_ok. Qed.

#[export] Hint Resolve vpn_index_ok vpn_path_ok : jixia.

(** ** Memory frames *)

Lemma table_path_snoc m root p i :
  table_path m root (p ++ [i]) = t ← table_path m root p; child m t i.
Proof. unfold table_path. by rewrite foldl_app. Qed.

Lemma table_path_nil m root : table_path m root [] = Some root.
Proof. done. Qed.

Lemma child_agree m m' t i :
  load64 m' (entry_address t i) = load64 m (entry_address t i) -> child m' t i = child m t i.
Proof. unfold child. by intros ->. Qed.

Lemma entry_in_page t i x :
  idx_ok i -> entry_address t i <= x < entry_address t i + 8 -> t <= x < t + kPageSize.
Proof. unfold idx_ok, entry_address, kPageSize. lia. Qed.

Lemma load_entry_agree st m' t i :
  table_page st t -> idx_ok i -> (forall x, handed_out st x -> m' x = ms_mem st x) ->
  load64 m' (entry_address t i) = load64 (ms_mem st) (entry_address t i).
Proof.
  intros Ht Hi Hag. apply load64_agree. intros x Hx. apply Hag, (tp_owned _ _ Ht).
  by eapply entry_in_page.
Qed.

(** Distinct page-aligned pages do not overlap. *)
Lemma pages_apart t t' x x' :
  t mod kPageSize = 0 -> t' mod kPageSize = 0 -> t <> t' ->
  t <= x < t + kPageSize -> t' <= x' < t' + kPageSize -> x <> x'.
Proof. unfold kPageSize. intros. Z.div_mod_to_equations. lia. Qed.

Lemma entries_apart t i t' i' :
  t mod kPageSize = 0 -> t' mod kPageSize = 0 -> idx_ok i -> idx_ok i' -> (t, i) <> (t', i') ->
  entry_address t' i' + 8 <= entry_address t i \/ entry_address t i + 8 <= entry_address t' i'.
Proof.
  unfold idx_ok, entry_address. intros Ht Ht' Hi Hi' Hne.
  destruct (decide (t = t')) as [->|Hnt].
  - assert (i <> i') by naive_solver. lia.
  - unfold kPageSize in *. Z.div_mod_to_equations. lia.
Qed.

(** Storing an entry of one table leaves every other entry alone. *)
Lemma store_entry_other m t i t' i' v :
  t mod kPageSize = 0 -> t' mod kPageSize = 0 -> idx_ok i -> idx_ok i' -> (t, i) <> (t', i') ->
  load64 (store64 m (entry_address t i) v) (entry_address t' i') = load64 m (entry_address t' i').
Proof. intros. apply load64_store64_other. by eapply entries_apart. Qed.

Lemma idx_app p i : Forall idx_ok p -> idx_ok i -> Forall idx_ok (p ++ [i]).
Proof. intros. apply Forall_app. split; [done|]. by constructor. Qed.
Lemma idx_app_inv p i : Forall idx_ok (p ++ [i]) -> Forall idx_ok p /\ idx_ok i.
Proof. rewrite Forall_app, Forall_singleton. done. Qed.

#[export] Hint Resolve idx_app : jixia.

Section tree.
Context (st : MemSys) (root : Z) (Hpt : pt_inv st root).
Abbreviation m := (ms_mem st).

(** Changing memory only outside what was handed out keeps every path. *)
Lemma table_path_frame m' p :
  (length p <= 2)%nat -> Forall idx_ok p ->
  (forall x, handed_out st x -> m' x = m x) ->
  table_path m' root p = table_path m root p.
Proof.
  intros Hlen Hidx Hag. revert Hlen Hidx. induction p as [|i p IH] using rev_ind; [done|].
  rewrite length_app. simpl. intros Hlen [Hp Hi]%idx_app_inv.
  rewrite !table_path_snoc, IH by (done || lia).
  destruct (table_path m root p) as [t|] eqn:Ht; [|done]. simpl. apply child_agree.
  eapply load_entry_agree; eauto. eapply (pt_pages _ _ Hpt p); eauto. lia.
Qed.

(** The leaf entry a walk ends in. *)
Definition leaf_pte (m' : Mem) (va : Z) : option Z :=
  t ← table_path m' root [vpn_index va 2; vpn_index va 1];
  Some (load64 m' (entry_address t (vpn_index va 0))).

Definition decode_leaf (pte va : Z) : option (Z * Z) :=
  if negb (is_valid pte) || (negb (Z.land pte PteFlag.write =? 0) && (Z.land pte PteFlag.read =? 0))
  then None
  else if is_leaf pte then
    if pte_physical_address pte mod 4096 =? 0
    then Some (pte_physical_address pte + va mod 4096, pte mod 1024) else None
  else None.

Lemma nonleaf_no_reserved pte :
  is_leaf pte = false -> negb (Z.land pte PteFlag.write =? 0) = false.
Proof.
  unfold is_leaf. rewrite negb_false_iff, Z.eqb_eq. intros H.
  apply negb_false_iff, Z.eqb_eq.
  change PteFlag.write with (Z.land kLeafMask PteFlag.write).
  by rewrite Z.land_assoc, H.
Qed.

Lemma walk_step p t va l :
  (length p <= 1)%nat -> Forall idx_ok p -> table_path m root p = Some t ->
  walk m t va (S l) =
    match child m t (vpn_index va (Z.of_nat (S l))) with
    | Some t' => walk m t' va l | None => None
    end.
Proof.
  intros Hlen Hp Ht. cbn [walk]. unfold child.
  set (pte := load64 m _).
  destruct (is_valid pte) eqn:Hv; [|done]. cbn [negb orb andb].
  assert (is_leaf pte = false) as Hl by (eapply (pt_nonleaf _ _ Hpt p); eauto with jixia).
  rewrite (nonleaf_no_reserved _ Hl), Hl. done.
Qed.

Lemma walk_leaf va :
  walk m root va 2 = match leaf_pte m va with Some pte => decode_leaf pte va | None => None end.
Proof.
  unfold leaf_pte. change [vpn_index va 2; vpn_index va 1]
    with (([] ++ [vpn_index va 2]) ++ [vpn_index va 1]).
  rewrite (walk_step [] root) by (simpl; try done; lia).
  rewrite !table_path_snoc, table_path_nil. cbn [mbind option_bind].
  change (Z.of_nat 2) with 2.
  destruct (child m root (vpn_index va 2)) as [t|] eqn:Hc; [|done]. cbn [mbind option_bind].
  rewrite (walk_step [vpn_index va 2] t); [|simpl; lia|by repeat constructor; apply vpn_index_ok|done].
  change (Z.of_nat 1) with 1.
  destruct (child m t (vpn_index va 1)); [|done]. cbn [mbind option_bind walk].
  unfold decode_leaf. change (Z.of_nat 0) with 0. done.
Qed.
End tree.

(** ** What one table operation may do

    Translations are untouched, handed-out memory outside the tables is
    untouched, and every table is an old one or made of fresh memory. *)
Record pt_step (root : Z) (st st' : MemSys) : Prop := {
  ps_pm : pm_inv st';
  ps_pt : pt_inv st' root;
  ps_mono : forall x, handed_out st x -> handed_out st' x;
  ps_tables : forall p t, (length p <= 2)%nat -> Forall idx_ok p ->
    table_path (ms_mem st') root p = Some t ->
    table_path (ms_mem st) root p = Some t \/ (forall x, t <= x < t + kPageSize -> ~ handed_out st x);
  ps_keep : forall p t, (length p <= 2)%nat -> Forall idx_ok p ->
    table_path (ms_mem st) root p = Some t -> table_path (ms_mem st') root p = Some t;
  ps_others : forall x, handed_out st x ->
    (forall p t, (length p <= 2)%nat -> Forall idx_ok p ->
       table_path (ms_mem st) root p = Some t -> ~ (t <= x < t + kPageSize)) ->
    ms_mem st' x = ms_mem st x;
}.

Lemma pt_step_trans root st1 st2 st3 :
  pt_step root st1 st2 -> pt_step root st2 st3 -> pt_step root st1 st3.
Proof.
  intros [P1 I1 M1 T1 K1 O1] [P2 I2 M2 T2 K2 O2]. split; auto.
  - intros p t Hl Hp Ht. destruct (T2 p t Hl Hp Ht) as [Ht2|Hf]; [by apply T1|].
    right. intros x Hx ?%M1. by eapply Hf.
  - intros x Hx Hout. rewrite O2; [by apply O1|by apply M1|].
    intros p t Hl Hp Ht Hin. destruct (T1 p t Hl Hp Ht) as [Ht1|Hf]; [by eapply Hout|by eapply Hf].
Qed.

(** Changes that stay away from everything handed out. *)
Lemma pt_step_frame root st st' :
  pm_inv st -> pt_inv st root -> pm_inv st' ->
  Forall (fun r => mr_end r <= 2 ^ 56) (live_ranges st') ->
  (forall x, handed_out st x -> handed_out st' x) ->
  (forall x, handed_out st x -> ms_mem st' x = ms_mem st x) ->
  pt_step root st st' /\ (forall va, walk (ms_mem st') root va 2 = walk (ms_mem st) root va 2).
Proof.
  intros Hpm Hpt Hpm' Hphys Hmono Hag.
  assert (forall p, (length p <= 2)%nat -> Forall idx_ok p ->
    table_path (ms_mem st') root p = table_path (ms_mem st) root p) as Hpath
    by (intros; by eapply table_path_frame).
  assert (forall p t i, (length p <= 2)%nat -> Forall idx_ok p -> idx_ok i ->
    table_path (ms_mem st) root p = Some t ->
    load64 (ms_mem st') (entry_address t i) = load64 (ms_mem st) (entry_address t i)) as Hload.
  { intros. eapply load_entry_agree; eauto. eapply pt_pages; eauto. }
  assert (pt_inv st' root) as Hpt'.
  { split; [done|..].
    - intros p t Hl Hp. rewrite Hpath by done. intros Ht.
      destruct (pt_pages _ _ Hpt p t Hl Hp Ht). split; auto.
    - intros p p' t Hl Hl' Hp Hp'. rewrite !Hpath by done. by apply (pt_inj _ _ Hpt).
    - intros p t i Hl Hp Hi. rewrite Hpath by (done || lia). intros Ht.
      rewrite (Hload p) by (done || lia). by apply (pt_nonleaf _ _ Hpt p). }
  split; [split; auto|].
  - intros p t Hl Hp. rewrite Hpath by done. by left.
  - intros p t Hl Hp. by rewrite Hpath.
  - intros va. rewrite !walk_leaf by done. unfold leaf_pte.
    rewrite Hpath by (apply vpn_path_ok || done).
    destruct (table_path _ _ _) eqn:Ht; [|done]. simpl.
    rewrite (Hload [vpn_index va 2; vpn_index va 1] _ _ (le_n 2) (vpn_path_ok va) (vpn_index_ok va 0) Ht). done.
Qed.

(** ** Grafting a fresh, empty table *)
Section graft.
Context (st st' : MemSys) (root : Z) (p0 : list Z) (t0 i0 f : Z).
Context (Hpm : pm_inv st) (Hpt : pt_inv st root) (Hpm' : pm_inv st').
Context (Hl0 : (length p0 <= 1)%nat) (Hp0 : Forall idx_ok p0) (Hi0 : idx_ok i0).
Context (Ht0 : table_path (ms_mem st) root p0 = Some t0).
Context (Hinvalid : is_valid (load64 (ms_mem st) (entry_address t0 i0)) = false).
Context (Hphys : Forall (fun r => mr_end r <= 2 ^ 56) (live_ranges st')).
Context (Hf : table_page st' f).
Context (Hfresh : forall x, f <= x < f + kPageSize -> ~ handed_out st x).
Context (Hmono : forall x, handed_out st x -> handed_out st' x).
Context (Hmem : ms_mem st' = store64 (zero_page f (ms_mem st)) (entry_address t0 i0)
                               (make_pte f PteFlag.valid)).

Let Hpage0 : table_page st t0.
Proof. eapply pt_pages; eauto. Qed.

Lemma graft_not_f t : table_page st t -> t <> f.
Proof.
  intros Ht ->. apply (Hfresh f); [unfold kPageSize; lia|].
  apply (tp_owned _ _ Ht). unfold kPageSize. lia.
Qed.

Lemma graft_f_range : 0 <= f < 2 ^ 56.
Proof. destruct Hf. unfold kPageSize in *. lia. Qed.

Lemma graft_load_new i : idx_ok i -> load64 (ms_mem st') (entry_address f i) = 0.
Proof.
  intros Hi. rewrite Hmem.
  rewrite store_entry_other; [|apply Hpage0|apply Hf|done|done|].
  - apply (load64_agree (fun _ => 0)). intros x Hx. rewrite zero_page_spec.
    apply entry_in_page in Hx; [|done].
    destruct (Z.leb_spec f x), (Z.ltb_spec x (f + kPageSize)); simpl; done || lia.
  - intros [= Heq _]. by apply (graft_not_f t0).
Qed.

Lemma graft_load_old t i :
  table_page st t -> idx_ok i -> (t, i) <> (t0, i0) ->
  load64 (ms_mem st') (entry_address t i) = load64 (ms_mem st) (entry_address t i).
Proof.
  intros Ht Hi Hne. rewrite Hmem.
  rewrite store_entry_other; [|apply Hpage0|apply Ht|done|done|congruence].
  apply load64_agree. intros x Hx. apply entry_in_page in Hx; [|done]. rewrite zero_page_spec.
  assert (~ (f <= x < f + kPageSize)) as Hn.
  { intros Hin. eapply (pages_apart t f x x); eauto; [apply Ht|apply Hf|by apply graft_not_f]. }
  destruct (Z.leb_spec f x), (Z.ltb_spec x (f + kPageSize)); simpl; done || lia.
Qed.

Lemma graft_load_entry :
  load64 (ms_mem st') (entry_address t0 i0) = make_pte f PteFlag.valid.
Proof.
  rewrite Hmem. apply load64_store64_same, make_pte_u64; [apply graft_f_range|].
  unfold PteFlag.valid. lia.
Qed.

Lemma graft_entry_nonleaf :
  is_valid (make_pte f PteFlag.valid) = true /\ is_leaf (make_pte f PteFlag.valid) = false.
Proof.
  pose proof graft_f_range. unfold is_valid, is_leaf.
  change kLeafMask with 14. change PteFlag.valid with 1. rewrite !make_pte_bits by lia.
  done.
Qed.

Lemma graft_path p :
  (length p <= 2)%nat -> Forall idx_ok p ->
  table_path (ms_mem st') root p =
    if decide (p = p0 ++ [i0]) then Some f else table_path (ms_mem st) root p.
Proof.
  induction p as [|j q IH] using rev_ind; intros Hl Hp.
  { rewrite decide_False by (by destruct p0). done. }
  rewrite length_app in Hl. simpl in Hl. apply idx_app_inv in Hp as [Hq Hj].
  rewrite table_path_snoc, IH by (done || lia).
  destruct (decide (q = p0 ++ [i0])) as [->|Hqne].
  - rewrite decide_False by (intros [? _]%app_inj_2; [|done]; apply (f_equal length) in H;
      rewrite length_app in H; simpl in H; lia).
    cbn [mbind option_bind]. unfold child at 1. rewrite graft_load_new by done.
    rewrite !table_path_snoc, Ht0. cbn [mbind option_bind].
    unfold child at 2. rewrite Hinvalid. done.
  - destruct (table_path (ms_mem st) root q) as [t|] eqn:Ht; cbn [mbind option_bind].
    + assert (table_page st t) as Htp by (eapply (pt_pages _ _ Hpt q); eauto; lia).
      destruct (decide (q ++ [j] = p0 ++ [i0])) as [Heq|Hne].
      * apply app_inj_2 in Heq as [-> [= ->]]; [|done]. simplify_eq.
        unfold child. rewrite graft_load_entry.
        destruct graft_entry_nonleaf as [-> ->]. simpl. f_equal.
        apply make_pte_pa; [apply graft_f_range|apply Hf|unfold PteFlag.valid; lia].
      * rewrite table_path_snoc, Ht. cbn [mbind option_bind].
        apply child_agree, graft_load_old; [done..|]. intros [= -> ->]. apply Hne.
        f_equal. eapply (pt_inj _ _ Hpt q p0); eauto; lia.
    + rewrite decide_False.
      * by rewrite table_path_snoc, Ht.
      * intros [-> _]%app_inj_2; [|done]. congruence.
Qed.

Lemma graft_old_page p t :
  (length p <= 2)%nat -> Forall idx_ok p -> table_path (ms_mem st) root p = Some t -> table_page st t.
Proof. eapply (pt_pages _ _ Hpt). Qed.

Lemma graft_new_path_absent : table_path (ms_mem st) root (p0 ++ [i0]) = None.
Proof. rewrite table_path_snoc, Ht0. cbn [mbind option_bind]. unfold child. by rewrite Hinvalid. Qed.

Lemma graft_pt_inv : pt_inv st' root.
Proof.
  split; [done|..].
  - intros p t Hl Hp. rewrite graft_path by done. case_decide; [by intros [= <-]|].
    intros Ht. destruct (graft_old_page p t Hl Hp Ht). split; auto.
  - intros p p' t Hl Hl' Hp Hp'. rewrite !graft_path by done.
    do 2 case_decide; subst; [done|intros [= <-] Ht|intros Ht [= <-]|by apply (pt_inj _ _ Hpt)];
      (destruct (graft_not_f f); [|done]).
    + by apply (graft_old_page p').
    + by apply (graft_old_page p).
  - intros p t i Hl Hp Hi. rewrite graft_path by (done || lia).
    case_decide as Hd; [intros [= <-]|intros Ht].
    { by rewrite graft_load_new. }
    destruct (decide ((t, i) = (t0, i0))) as [[= -> ->]|Hne].
    { rewrite graft_load_entry. by destruct graft_entry_nonleaf as [_ ->]. }
    rewrite graft_load_old; [|eapply (graft_old_page p); eauto|done..].
    by apply (pt_nonleaf _ _ Hpt p).
Qed.

Lemma graft_walk va : walk (ms_mem st') root va 2 = walk (ms_mem st) root va 2.
Proof.
  rewrite !walk_leaf by (done || apply graft_pt_inv). unfold leaf_pte.
  rewrite graft_path by (apply vpn_path_ok || done).
  case_decide as Hd.
  - rewrite Hd, graft_new_path_absent. cbn [mbind option_bind].
    rewrite graft_load_new by apply vpn_index_ok. done.
  - destruct (table_path (ms_mem st) root [vpn_index va 2; vpn_index va 1]) as [t|] eqn:Ht; [|done].
    cbn [mbind option_bind].
    rewrite graft_load_old; [done| |apply vpn_index_ok|].
    + eapply graft_old_page; [|apply vpn_path_ok|done]. done.
    + intros [= -> _]. assert ([vpn_index va 2; vpn_index va 1] = p0) as <-.
      { eapply (pt_inj _ _ Hpt); eauto with jixia. }
      simpl in Hl0. lia.
Qed.

Lemma graft_step : pt_step root st st'.
Proof.
  split; auto using graft_pt_inv.
  - intros p t Hl Hp. rewrite graft_path by done. case_decide; [intros [= <-]; by right|by left].
  - intros p t Hl Hp Ht. rewrite graft_path by done. case_decide as Hd; [|done].
    subst p. by rewrite graft_new_path_absent in Ht.
  - intros x Hx Hout. rewrite Hmem. unfold store64.
    pose proof (Hout p0 t0 ltac:(lia) Hp0 Ht0) as Hn.
    assert (~ (f <= x < f + kPageSize)) as Hnf by (intros ?; by eapply Hfresh).
    destruct (Z.leb_spec (entry_address t0 i0) x), (Z.ltb_spec x (entry_address t0 i0 + 8)); simpl.
    { exfalso. apply Hn, (entry_in_page t0 i0); done. }
    all: rewrite zero_page_spec;
      destruct (Z.leb_spec f x), (Z.ltb_spec x (f + kPageSize)); simpl; done || lia.
Qed.
End graft.

(** ** Allocation as seen by the tables *)
Lemma allocate_table_spec st root a st' :
  pm_inv st -> pt_inv st root -> allocate_page st = (a, st') ->
  pm_inv st' /\ Forall (fun r => mr_end r <= 2 ^ 56) (live_ranges st') /\
  (forall x, handed_out st x -> handed_out st' x) /\
  (forall x, handed_out st x -> ms_mem st' x = ms_mem st x) /\
  (allocation_valid a = true ->
     table_page st' (physical_address a) /\
     (forall x, physical_address a <= x < physical_address a + kPageSize -> ~ handed_out st x) /\
     ms_mem st' = zero_page (physical_address a) (ms_mem st)).
Proof.
  intros Hpm Hpt Ha. pose proof (allocate_page_inv st Hpm) as Hpm'. rewrite Ha in Hpm'. simpl in Hpm'.
  pose proof (pt_phys _ _ Hpt) as Hphys.
  apply allocate_page_spec in Ha as [(i&r&Hi&Hb&Hlt&->&Hl&_&Hmem)|(->&->&_)]; [..|done].
  2: split_and!; auto; intros Hv; vm_compute in Hv; done.
  pose proof (Forall_lookup_1 _ _ _ _ (pi_wf _ Hpm) Hi) as Hwf.
  pose proof (Forall_lookup_1 _ _ _ _ Hphys Hi) as Hr. simpl in Hr.
  pose proof (handed_out_bump st st' i r) as Hho. pose proof (rw_order _ Hwf) as Hord.
  pose proof (range_room r Hwf Hlt) as Hroom.
  assert (forall x, mr_next r <= x < mr_next r + kPageSize -> ~ handed_out st x) as Hfresh
    by (intros x; by eapply next_page_fresh).
  split_and!; [done| | | |].
  - rewrite Hl. by apply Forall_insert.
  - intros x Hx. apply Hho; auto. lia.
  - intros x Hx. rewrite Hmem, zero_page_spec. simpl.
    destruct (Z.leb_spec (mr_next r) x), (Z.ltb_spec x (mr_next r + kPageSize)); simpl; try done.
    exfalso. eapply (Hfresh x); eauto.
  - intros Hv. simpl in *. split_and!; auto. split; try lia.
    + unfold allocation_valid in Hv. simpl in Hv. apply andb_true_iff in Hv as [Hv _].
      destruct (Z.eqb_spec (mr_next r) 0); [done|]. pose proof (rw_base _ Hwf). lia.
    + by destruct Hwf.
    + intros a Ha. apply Hho; auto. lia.
Qed.

Lemma ensure_child_spec st root p t i c st' :
  pm_inv st -> pt_inv st root -> (length p <= 1)%nat -> Forall idx_ok p -> idx_ok i ->
  table_path (ms_mem st) root p = Some t ->
  ensure_child_table (entry_address t i) st = (c, st') ->
  pt_step root st st' /\ (forall va, walk (ms_mem st') root va 2 = walk (ms_mem st) root va 2) /\
  (c <> 0 -> table_path (ms_mem st') root (p ++ [i]) = Some c).
Proof.
  intros Hpm Hpt Hl Hp Hi Ht. unfold ensure_child_table.
  assert (pt_step root st st /\ forall va, walk (ms_mem st) root va 2 = walk (ms_mem st) root va 2)
    as [Hrefl _] by (apply pt_step_frame; auto; apply Hpt).
  destruct (is_valid _) eqn:Hv.
  { rewrite (pt_nonleaf _ _ Hpt p t i) by done. intros [= <- <-]. split_and!; auto. intros _.
    rewrite table_path_snoc, Ht. cbn [mbind option_bind]. unfold child.
    rewrite Hv, (pt_nonleaf _ _ Hpt p t i) by done. done. }
  destruct (allocate_page st) as [a st1] eqn:Ha.
  destruct (allocate_table_spec st root a st1 Hpm Hpt Ha) as (Hpm1&Hphys1&Hmono&Hag&Hok).
  destruct (allocation_valid a) eqn:Hval; cbn [negb]; intros [<- <-]%pair_equal_spec.
  2: { split_and!; [apply pt_step_frame; auto..|done]. }
  destruct (Hok eq_refl) as (Hpage&Hfresh&Hmem).
  set (st2 := st1 <| ms_mem := _ |>).
  assert (pm_inv st2) as Hpm2 by (destruct Hpm1; split; done).
  assert (table_page st2 (physical_address a)) as Hpage2 by (destruct Hpage; split; done).
  assert (ms_mem st2 = store64 (zero_page (physical_address a) (ms_mem st)) (entry_address t i)
            (make_pte (physical_address a) PteFlag.valid)) as Hmem2 by (unfold st2; cbn; by rewrite Hmem).
  split_and!.
  - by eapply (graft_step st st2 root p t i (physical_address a)).
  - by eapply (graft_walk st st2 root p t i (physical_address a)).
  - intros _. rewrite (graft_path st st2 root p t i (physical_address a)); auto with jixia.
    + by rewrite decide_True.
    + rewrite length_app. simpl. lia.
Qed.

(** ** Writing a leaf *)
Section leaf.
Context (st : MemSys) (root t i pte : Z) (p0 : list Z).
Context (Hpm : pm_inv st) (Hpt : pt_inv st root).
Context (Hl0 : length p0 = 2%nat) (Hp0 : Forall idx_ok p0) (Hi : idx_ok i).
Context (Ht : table_path (ms_mem st) root p0 = Some t).
Let st' := st <| ms_mem := store64 (ms_mem st) (entry_address t i) pte |>.

Lemma leaf_page : table_page st t.
Proof. eapply pt_pages; eauto. lia. Qed.

Lemma leaf_load q t' j :
  (length q <= 2)%nat -> Forall idx_ok q -> idx_ok j -> table_path (ms_mem st) root q = Some t' ->
  (q, j) <> (p0, i) ->
  load64 (ms_mem st') (entry_address t' j) = load64 (ms_mem st) (entry_address t' j).
Proof.
  intros Hl Hq Hj Ht' Hne. apply store_entry_other; auto.
  - apply leaf_page.
  - by apply (pt_pages _ _ Hpt q).
  - intros [= <- <-]. apply Hne. f_equal. eapply (pt_inj _ _ Hpt); eauto. lia.
Qed.

Lemma leaf_path q :
  (length q <= 2)%nat -> Forall idx_ok q -> table_path (ms_mem st') root q = table_path (ms_mem st) root q.
Proof.
  induction q as [|j q IH] using rev_ind; intros Hl Hq; [done|].
  rewrite length_app in Hl. simpl in Hl. apply idx_app_inv in Hq as [Hq Hj].
  rewrite !table_path_snoc, IH by (done || lia).
  destruct (table_path (ms_mem st) root q) as [t'|] eqn:Ht'; [|done].
  cbn [mbind option_bind]. apply child_agree, (leaf_load q); auto; [lia|].
  intros [= -> _]. lia.
Qed.

Lemma leaf_step : pt_step root st st'.
Proof.
  assert (pt_inv st' root) as Hpt'.
  { split.
    - apply Hpt.
    - intros q t' Hl Hq. rewrite leaf_path by done. intros Ht'.
      destruct (pt_pages _ _ Hpt q t' Hl Hq Ht'). by split.
    - intros q q' t' Hl Hl' Hq Hq'. rewrite !leaf_path by done. by apply (pt_inj _ _ Hpt).
    - intros q t' j Hl Hq Hj. rewrite leaf_path by (done || lia). intros Ht'.
      rewrite (leaf_load q); auto; [by apply (pt_nonleaf _ _ Hpt q)|intros [= -> _]; lia]. }
  split; auto.
  - by destruct Hpm; split.
  - intros q t' Hl Hq. rewrite leaf_path by done. by left.
  - intros q t' Hl Hq. by rewrite leaf_path.
  - intros x Hx Hout. cbn. unfold store64.
    pose proof (Hout p0 t ltac:(lia) Hp0 Ht) as Hn.
    destruct (Z.leb_spec (entry_address t i) x), (Z.ltb_spec x (entry_address t i + 8)); simpl; try done.
    exfalso. apply Hn, (entry_in_page t i); done.
Qed.

Lemma leaf_walk va :
  is_u64 pte ->
  walk (ms_mem st') root va 2 =
    if decide ([vpn_index va 2; vpn_index va 1] = p0 /\ vpn_index va 0 = i)
    then decode_leaf pte va else walk (ms_mem st) root va 2.
Proof.
  intros Hu. rewrite !walk_leaf by (done || apply leaf_step). unfold leaf_pte.
  rewrite leaf_path by (apply vpn_path_ok || done).
  case_decide as Hd.
  - destruct Hd as [-> <-]. rewrite Ht. cbn [mbind option_bind].
    unfold st'. cbn [ms_mem set_field]. by rewrite (load64_store64_same _ _ _ Hu).
  - destruct (table_path (ms_mem st) root [vpn_index va 2; vpn_index va 1]) as [t'|] eqn:Ht'; [|done].
    cbn [mbind option_bind].
    rewrite (leaf_load [vpn_index va 2; vpn_index va 1]); auto with jixia.
    intros [= ? ?]. by apply Hd.
Qed.
End leaf.

Lemma lor_valid_range flags : 0 <= flags < 1024 -> 0 <= Z.lor flags PteFlag.valid < 1024.
Proof.
  intros Hf. unfold PteFlag.valid. split; [apply Z.lor_nonneg; lia|].
  apply (Z.log2_lt_cancel _ (2 ^ 10)). rewrite Z.log2_lor by lia.
  change (Z.log2 (2 ^ 10)) with 10. apply Z.max_lub_lt; [|done].
  destruct (decide (flags = 0)) as [->|]; [done|]. apply Z.log2_lt_pow2; lia.
Qed.

Lemma decode_make_pte pa flags va :
  0 <= pa < 2 ^ 56 -> pa mod kPageSize = 0 -> 0 <= flags < 1024 ->
  Z.land flags kLeafMask <> 0 ->
  (negb (Z.land flags PteFlag.write =? 0) && (Z.land flags PteFlag.read =? 0)) = false ->
  decode_leaf (make_pte pa (Z.lor flags PteFlag.valid)) va
    = Some (pa + va mod 4096, Z.lor flags PteFlag.valid).
Proof.
  intros Hpa Hal Hf Hleaf Hwr.
  pose proof (lor_valid_range flags Hf) as Hf'.
  unfold decode_leaf, is_valid, is_leaf.
  rewrite !make_pte_bits by (done || (change kLeafMask with 14;
    change PteFlag.valid with 1; change PteFlag.write with 4; change PteFlag.read with 2; lia)).
  rewrite make_pte_pa, make_pte_low by done. unfold kPageSize in Hal. rewrite Hal.
  rewrite !Z.land_lor_distr_l.
  change (Z.land PteFlag.valid PteFlag.write) with 0. change (Z.land PteFlag.valid PteFlag.read) with 0.
  change (Z.land PteFlag.valid kLeafMask) with 0. rewrite !Z.lor_0_r, Hwr.
  destruct (Z.eqb_spec (Z.land flags kLeafMask) 0); [done|].
  destruct (Z.eqb_spec (Z.lor (Z.land flags PteFlag.valid) (Z.land PteFlag.valid PteFlag.valid)) 0) as [H0|]; [|done].
  apply Z.lor_eq_0_iff in H0 as [_ H0]. done.
Qed.

Lemma pt_step_refl root st : pm_inv st -> pt_inv st root -> pt_step root st st.
Proof. intros. apply pt_step_frame; auto. by apply (pt_phys _ root). Qed.

Lemma decode_leaf_invalid pte va : is_valid pte = false -> decode_leaf pte va = None.
Proof. unfold decode_leaf. by intros ->. Qed.

(** Which address a page-table entry position serves. *)
Lemma same_leaf va va' :
  0 <= va < 2 ^ 38 -> 0 <= va' < 2 ^ 38 -> va mod kPageSize = 0 ->
  ([vpn_index va' 2; vpn_index va' 1] = [vpn_index va 2; vpn_index va 1] /\ vpn_index va' 0 = vpn_index va 0)
  <-> va' / kPageSize = va / kPageSize.
Proof.
  intros Hva Hva' Hal. unfold kPageSize in *. split.
  - intros [[= H2 H1] H0]. by apply vpn_index_inj.
  - intros Hq. assert (exists off, 0 <= off < 4096 /\ va' = va + off) as (off&Hoff&->).
    { exists (va' mod 4096). Z.div_mod_to_equations. lia. }
    by rewrite !vpn_index_page by lia.
Qed.

Lemma map_page_spec st root va pa flags ok st' :
  pm_inv st -> pt_inv st root ->
  0 <= va < 2 ^ 38 -> 0 <= pa < 2 ^ 56 -> 0 <= flags < 1024 -> Z.land flags kLeafMask <> 0 ->
  map_page_4k (mkAddressSpace root) va pa flags st = (ok, st') ->
  pt_step root st st' /\
  (ok = true -> va mod kPageSize = 0 /\
     walk (ms_mem st) root va 2 = None /\
     forall va', 0 <= va' < 2 ^ 38 ->
       walk (ms_mem st') root va' 2 =
         if decide (va' / kPageSize = va / kPageSize)
         then Some (pa + va' mod kPageSize, Z.lor flags PteFlag.valid)
         else walk (ms_mem st) root va' 2) /\
  (ok = false -> forall va', walk (ms_mem st') root va' 2 = walk (ms_mem st) root va' 2).
Proof.
  intros Hpm Hpt Hva Hpa Hf Hleaf. unfold map_page_4k. cbn [root_physical_address].
  destruct (_ || _ || _) eqn:Hguard;
    [intros [<- <-]%pair_equal_spec; split; [by apply pt_step_refl|done]|].
  destruct (_ && _) eqn:Hwr;
    [intros [<- <-]%pair_equal_spec; split; [by apply pt_step_refl|done]|].
  apply orb_false_iff in Hguard as [[_ Hav]%orb_false_iff Hap].
  apply negb_false_iff, is_page_aligned_spec in Hav, Hap.
  destruct (ensure_child_table _ st) as [l1 st1] eqn:E1.
  apply (ensure_child_spec st root [] root) in E1 as (S1&W1&C1); auto with jixia.
  destruct (Z.eqb_spec l1 0) as [->|Hl1]; [intros [<- <-]%pair_equal_spec; by auto|].
  specialize (C1 Hl1). simpl in C1.
  destruct (ensure_child_table _ st1) as [l0 st2] eqn:E2.
  apply (ensure_child_spec st1 root [vpn_index va 2] l1) in E2 as (S2&W2&C2);
    [|apply S1|apply S1|simpl; lia|repeat constructor; apply vpn_index_ok|apply vpn_index_ok|done].
  pose proof (pt_step_trans _ _ _ _ S1 S2) as S12.
  assert (forall va', walk (ms_mem st2) root va' 2 = walk (ms_mem st) root va' 2) as W12
    by (intros; by rewrite W2).
  destruct (Z.eqb_spec l0 0) as [->|Hl0]; [intros [<- <-]%pair_equal_spec; by auto|].
  specialize (C2 Hl0). simpl in C2.
  destruct (is_valid _) eqn:Hv; intros [<- <-]%pair_equal_spec; [by auto|].
  set (pte := make_pte _ _).
  pose proof (leaf_step st2 root l0 (vpn_index va 0) pte [vpn_index va 2; vpn_index va 1]
    (ps_pm _ _ _ S2) (ps_pt _ _ _ S2) eq_refl (vpn_path_ok va) (vpn_index_ok va 0) C2) as S3.
  split_and!; [by eapply pt_step_trans| |done]. intros _. split_and!; [done|..].
  - rewrite <- W12, walk_leaf by apply S2. unfold leaf_pte. rewrite C2. cbn [mbind option_bind].
    by apply decode_leaf_invalid.
  - intros va' Hva'.
    erewrite (leaf_walk st2 root l0 (vpn_index va 0) pte [vpn_index va 2; vpn_index va 1]);
      [|apply S2|apply S2|done|apply vpn_path_ok|apply vpn_index_ok|done|].
    + rewrite W12. destruct (decide (va' / kPageSize = va / kPageSize)) as [Hs|Hs].
      * rewrite decide_True by (by apply same_leaf). by apply decode_make_pte.
      * rewrite decide_False; [done|]. by rewrite same_leaf.
    + apply make_pte_u64; [done|]. by apply lor_valid_range.
Qed.

(** [translate] is [walk] below 2^38 and a fault elsewhere. *)
Lemma translate_walk m root va : 0 <= va < 2 ^ 38 -> translate m root va = walk m root va 2.
Proof. intros. unfold translate. by rewrite (proj2 (Z.leb_le _ _)), (proj2 (Z.ltb_lt _ _)) by lia. Qed.
Lemma translate_out m root va : ~ (0 <= va < 2 ^ 38) -> translate m root va = None.
Proof. intros. unfold translate. destruct (Z.leb_spec 0 va), (Z.ltb_spec va (2 ^ 38)); cbv [andb]; try reflexivity; lia. Qed.

Lemma walk_page_None st root va off :
  pt_inv st root -> va mod kPageSize = 0 -> 0 <= off < kPageSize ->
  walk (ms_mem st) root va 2 = None -> walk (ms_mem st) root (va + off) 2 = None.
Proof.
  unfold kPageSize. intros Hpt Ha Ho. rewrite !walk_leaf by done. unfold leaf_pte.
  rewrite !vpn_index_page by (done || lia).
  destruct (table_path _ _ _); [|done]. cbn [mbind option_bind]. unfold decode_leaf.
  by repeat case_match.
Qed.

Lemma map_pages_spec root vb pb flags n : forall off st ok st',
  pm_inv st -> pt_inv st root -> 0 <= off -> off mod kPageSize = 0 ->
  0 <= vb -> vb mod kPageSize = 0 -> vb + off + Z.of_nat n * kPageSize <= 2 ^ 38 ->
  0 <= pb -> pb mod kPageSize = 0 -> pb + off + Z.of_nat n * kPageSize <= 2 ^ 56 ->
  0 <= flags < 1024 -> Z.land flags kLeafMask <> 0 ->
  map_pages (mkAddressSpace root) vb pb flags off n st = (ok, st') ->
  pt_step root st st' /\
  (forall va', 0 <= va' < 2 ^ 38 -> ~ (vb + off <= va' < vb + off + Z.of_nat n * kPageSize) ->
     walk (ms_mem st') root va' 2 = walk (ms_mem st) root va' 2) /\
  (ok = true -> forall x, off <= x < off + Z.of_nat n * kPageSize ->
     walk (ms_mem st) root (vb + x) 2 = None /\
     walk (ms_mem st') root (vb + x) 2 = Some (pb + x, Z.lor flags PteFlag.valid)) /\
  (forall x, off <= x < off + Z.of_nat n * kPageSize ->
     walk (ms_mem st') root (vb + x) 2 = walk (ms_mem st) root (vb + x) 2 \/
     walk (ms_mem st) root (vb + x) 2 = None /\
     walk (ms_mem st') root (vb + x) 2 = Some (pb + x, Z.lor flags PteFlag.valid)).
Proof.
  induction n as [|n IH]; intros off st ok st' Hpm Hpt Hoff Hoa Hvb Hva Hvt Hpb Hpa Hpt2 Hf Hlf; cbn [map_pages].
  { intros [<- <-]%pair_equal_spec. split_and!; [by apply pt_step_refl|done|intros; lia..]. }
  assert (u64 (vb + off) = vb + off) as Hu1
    by (apply u64_small; unfold is_u64, kPageSize in *; pow2_numerals; lia).
  assert (u64 (pb + off) = pb + off) as Hu2
    by (apply u64_small; unfold is_u64, kPageSize in *; pow2_numerals; lia).
  rewrite Hu1, Hu2.
  destruct (map_page_4k _ _ _ _ st) as [ok1 st1] eqn:E.
  apply map_page_spec in E as (S1&T1&F1); auto; [|unfold kPageSize in *; lia..].
  destruct ok1; [|intros [<- <-]%pair_equal_spec; split_and!; [done|by auto|done|by auto]].
  destruct (T1 eq_refl) as (Hal&Hnone&Hw1). clear T1 F1. intros E.
  apply IH in E as (S2&O2&T2&P2); auto;
    [|apply S1|apply S1|unfold kPageSize in *; lia
     |unfold kPageSize in *; Z.div_mod_to_equations; lia|unfold kPageSize in *; lia..].
  assert (forall x, off <= x < off + kPageSize -> (vb + x) / kPageSize = (vb + off) / kPageSize) as Hpage
    by (intros x Hx; unfold kPageSize in *; clear - Hx Hal; Z.div_mod_to_equations; lia).
  assert (forall va', ~ (vb + off <= va' < vb + off + kPageSize) ->
    va' / kPageSize <> (vb + off) / kPageSize) as Hnpage
    by (intros x Hx; unfold kPageSize in *; clear - Hx Hal; Z.div_mod_to_equations; lia).
  assert (forall x, off <= x < off + kPageSize ->
    walk (ms_mem st) root (vb + x) 2 = None /\
    walk (ms_mem st') root (vb + x) 2 = Some (pb + x, Z.lor flags PteFlag.valid)) as Hfirst.
  { intros x Hin. assert (0 <= vb + x < 2 ^ 38) by (unfold kPageSize in *; lia).
    rewrite O2 by (unfold kPageSize in *; lia). rewrite Hw1 by done.
    rewrite decide_True by (apply Hpage; lia). split.
    - replace (vb + x) with ((vb + off) + (x - off)) by lia.
      eapply walk_page_None; eauto. unfold kPageSize in *. lia.
    - f_equal. f_equal. assert ((vb + x) mod kPageSize = x - off) as ->; [|lia].
      unfold kPageSize in *. clear - Hin Hal. Z.div_mod_to_equations. lia. }
  assert (forall x, off + kPageSize <= x < off + Z.of_nat (S n) * kPageSize ->
    walk (ms_mem st1) root (vb + x) 2 = walk (ms_mem st) root (vb + x) 2) as Hrest.
  { intros x Hx. rewrite Hw1 by (unfold kPageSize in *; lia). rewrite decide_False; [done|].
    apply Hnpage. unfold kPageSize in *. lia. }
  split_and!; [by eapply pt_step_trans|..].
  - intros va' Hv' Hout. rewrite O2 by (unfold kPageSize in *; lia). rewrite Hw1 by done.
    rewrite decide_False; [done|]. apply Hnpage. unfold kPageSize in *. lia.
  - intros -> x Hx. destruct (decide (x < off + kPageSize)); [apply Hfirst; lia|].
    rewrite <- Hrest by lia. apply T2; [done|unfold kPageSize in *; lia].
  - intros x Hx. destruct (decide (x < off + kPageSize)); [right; apply Hfirst; lia|].
    rewrite <- Hrest by lia. apply P2. unfold kPageSize in *; lia.
Qed.

(** A fresh root is a table tree without children. *)
Lemma create_address_space_inv st a st' :
  pm_inv st -> Forall (fun r => mr_end r <= 2 ^ 56) (live_ranges st) ->
  create_address_space st = (a, st') -> as_valid a = true ->
  pm_inv st' /\ pt_inv st' (root_physical_address a) /\
  (forall va, walk (ms_mem st') (root_physical_address a) va 2 = None) /\
  (forall x, handed_out st x -> handed_out st' x /\ ms_mem st' x = ms_mem st x).
Proof.
  intros Hpm Hphys. unfold create_address_space.
  destruct (allocate_page st) as [al st1] eqn:Ha.
  pose proof (allocate_page_inv st Hpm) as Hpm1. rewrite Ha in Hpm1. cbn [snd] in Hpm1.
  destruct (allocation_valid al) eqn:Hval; cbn [negb]; intros [<- <-]%pair_equal_spec Hv; [|done].
  apply allocate_page_spec in Ha as [(i&r&Hi&Hb&Hlt&->&Hl&_&Hmem)|(->&_)]; [|by vm_compute in Hval|done].
  cbn [physical_address root_physical_address] in *.
  pose proof (Forall_lookup_1 _ _ _ _ (pi_wf _ Hpm) Hi) as Hwf.
  pose proof (Forall_lookup_1 _ _ _ _ Hphys Hi) as Hr. cbn beta in Hr.
  pose proof (handed_out_bump st st1 i r) as Hho. pose proof (rw_order _ Hwf) as Hord.
  pose proof (range_room r Hwf Hlt) as Hroom. pose proof (rw_base _ Hwf) as Hb0.
  assert (forall j, idx_ok j -> load64 (ms_mem st1) (entry_address (mr_next r) j) = 0) as Hzero.
  { intros j Hj. apply (load64_agree (fun _ => 0)). intros x Hx. rewrite Hmem, zero_page_spec.
    apply entry_in_page in Hx; [|done].
    destruct (Z.leb_spec (mr_next r) x), (Z.ltb_spec x (mr_next r + kPageSize)); simpl; done || lia. }
  assert (forall p t, Forall idx_ok p -> table_path (ms_mem st1) (mr_next r) p = Some t ->
    p = [] /\ t = mr_next r) as Honly.
  { intros [|j p] t Hp; [by intros [= <-]|]. apply Forall_cons in Hp as [Hj _].
    unfold table_path. cbn [foldl mbind option_bind]. unfold child at 2. rewrite Hzero by done.
    intros Ht. exfalso. clear -Ht. change (is_valid 0 && negb (is_leaf 0)) with false in Ht. cbn in Ht.
    induction p; simpl in Ht; [done|auto]. }
  assert (pt_inv st1 (mr_next r)) as Hpt.
  { split.
    - rewrite Hl. by apply Forall_insert.
    - intros p t _ Hp [_ ->]%Honly; [|done]. split; try lia.
      + unfold as_valid in Hv. cbn in Hv. destruct (Z.eqb_spec (mr_next r) 0); [done|lia].
      + by destruct Hwf.
      + intros a Hin. apply Hho; auto. lia.
    - intros p p' t _ _ Hp Hp' [-> _]%Honly [-> _]%Honly; done.
    - intros p t j _ Hp Hj [_ ->]%Honly; [|done]. by rewrite Hzero. }
  split_and!; auto.
  - intros va. rewrite walk_leaf by done. unfold leaf_pte.
    destruct (table_path _ _ _) eqn:Ht; [|done]. by apply Honly in Ht as [? _]; [|apply vpn_path_ok].
  - intros x Hx. split; [apply Hho; auto; lia|]. rewrite Hmem, zero_page_spec.
    destruct (Z.leb_spec (mr_next r) x), (Z.ltb_spec x (mr_next r + kPageSize)); simpl; try done.
    exfalso. by eapply (next_page_fresh st i r x).
Qed.

(** ** Properties *)

(** a new address space is a well-formed, empty table tree made of memory
    nobody else owns: no address translates, and memory handed out earlier
    keeps its contents. *)
Lemma create_address_space_correct st a st' :
  pm_inv st -> Forall (fun r => mr_end r <= 2 ^ 56) (live_ranges st) ->
  create_address_space st = (a, st') -> as_valid a = true ->
  pm_inv st' /\ pt_inv st' (root_physical_address a) /\
  (forall va, translate (ms_mem st') (root_physical_address a) va = None) /\
  (forall x, handed_out st x -> ms_mem st' x = ms_mem st x).
Proof.
  intros Hpm Hphys Hc Hv. destruct (create_address_space_inv st a st' Hpm Hphys Hc Hv) as (?&?&Hw&Hm).
  split_and!; auto; [|intros x Hx; by apply Hm].
  intros va. unfold translate. case_match; auto.
Qed.

(** A system with an eight-page pool and its first address space. *)
Definition demo_pool : MemSys :=
  (add_range (2 ^ 31) (8 * kPageSize) BackingKind.contained
     (reset (mkMemSys (initialize_contained (2 ^ 31) initial_state) [] 0 (fun _ => 7)))).2.
Definition demo_space : AddressSpace := (create_address_space demo_pool).1.
Definition demo_mapped : MemSys := (create_address_space demo_pool).2.

Lemma demo_pool_inv :
  pm_inv demo_pool /\ Forall (fun r => mr_end r <= 2 ^ 56) (live_ranges demo_pool).
Proof.
  split; [|repeat constructor; vm_compute; congruence]. unfold demo_pool.
  destruct (add_range _ _ _ _) as [b st] eqn:Ha.
  assert (b = true) as -> by (apply (f_equal fst) in Ha; vm_compute in Ha; congruence).
  apply add_range_spec in Ha as (_&Hinv&_); [done|apply reset_inv|lia|vm_compute; split; congruence].
Qed.

Lemma demo_space_inv : pm_inv demo_mapped /\ pt_inv demo_mapped (2 ^ 31).
Proof.
  destruct demo_pool_inv as [Hpm Hphys].
  destruct (create_address_space_inv demo_pool demo_space demo_mapped Hpm Hphys) as (?&?&_).
  - apply surjective_pairing.
  - by vm_compute.
  - by split.
Qed.

Lemma create_address_space_correct_witness : translate (ms_mem demo_mapped) (2 ^ 31) 4096 = None.
Proof.
  exact (proj1 (proj2 (proj2 (create_address_space_correct demo_pool demo_space demo_mapped
    (proj1 demo_pool_inv) (proj2 demo_pool_inv) (surjective_pairing _)
    ltac:(vm_compute; reflexivity)))) 4096).
Defined.

Lemma map_page_translate st root va pa flags ok st' :
  pm_inv st -> pt_inv st root ->
  0 <= va < 2 ^ 38 -> 0 <= pa < 2 ^ 56 -> 0 <= flags < 1024 -> Z.land flags kLeafMask <> 0 ->
  map_page_4k (mkAddressSpace root) va pa flags st = (ok, st') ->
  pt_step root st st' /\
  (ok = true -> translate (ms_mem st) root va = None /\
     forall off, 0 <= off < kPageSize ->
       translate (ms_mem st') root (va + off) = Some (pa + off, Z.lor flags PteFlag.valid)) /\
  (forall va', ok = false \/ va' / kPageSize <> va / kPageSize ->
     translate (ms_mem st') root va' = translate (ms_mem st) root va').
Proof.
  intros Hpm Hpt Hva Hpa Hf Hlf E. apply map_page_spec in E as (S&T&F); auto.
  split_and!; [done|..].
  - intros Hok. destruct (T Hok) as (Hal&Hn&Hw). rewrite translate_walk by done. split; [done|].
    intros off Hoff.
    assert (0 <= va + off < 2 ^ 38) as Hvo.
    { unfold kPageSize in *. clear - Hal Hoff Hva. pow2_numerals. Z.div_mod_to_equations. lia. }
    rewrite translate_walk, Hw by done.
    assert ((va + off) / kPageSize = va / kPageSize /\ (va + off) mod kPageSize = off) as [Hd Hm].
    { unfold kPageSize in *. clear - Hal Hoff. Z.div_mod_to_equations. lia. }
    by rewrite decide_True, Hm.
  - intros va' Hor. destruct (decide (0 <= va' < 2 ^ 38)) as [Hv'|Hv']; [|by rewrite !translate_out].
    rewrite !translate_walk by done. destruct ok; [|by apply F].
    destruct (T eq_refl) as (_&_&Hw). rewrite Hw by done. rewrite decide_False; [done|].
    by destruct Hor.
Qed.



(** [map_range_4k] on success maps every address of the (until then
    unmapped) range to the frame at the same offset with the requested flags;
    when it stops half-way each page of the range is either untouched or
    mapped as requested; in either case no translation outside the range
    changes and the tables stay well formed. *)
Lemma map_range_spec st root vb pb size flags ok st' :
  pm_inv st -> pt_inv st root ->
  0 <= vb -> 0 <= pb -> 0 <= size -> vb + size <= 2 ^ 38 -> pb + size <= 2 ^ 56 ->
  0 <= flags < 1024 -> Z.land flags kLeafMask <> 0 ->
  map_range_4k (mkAddressSpace root) vb pb size flags st = (ok, st') ->
  pt_step root st st' /\
  (ok = true -> forall x, 0 <= x < size ->
     translate (ms_mem st) root (vb + x) = None /\
     translate (ms_mem st') root (vb + x) = Some (pb + x, Z.lor flags PteFlag.valid)) /\
  (forall va', ~ (vb <= va' < vb + size) ->
     translate (ms_mem st') root va' = translate (ms_mem st) root va') /\
  (forall x, 0 <= x < size ->
     translate (ms_mem st') root (vb + x) = translate (ms_mem st) root (vb + x) \/
     translate (ms_mem st) root (vb + x) = None /\
     translate (ms_mem st') root (vb + x) = Some (pb + x, Z.lor flags PteFlag.valid)).
Proof.
  intros Hpm Hpt Hvb Hpb Hsz Hv Hp Hf Hlf. unfold map_range_4k.
  destruct (_ || _ || _ || _) eqn:Hg.
  { intros [<- <-]%pair_equal_spec. split; [by apply pt_step_refl|]. split_and!; auto; done. }
  apply orb_false_iff in Hg as [[[_ Hva]%orb_false_iff Hpa]%orb_false_iff Hm].
  apply negb_false_iff, is_page_aligned_spec in Hva, Hpa. apply negb_false_iff, Z.eqb_eq in Hm.
  destruct (_ || _).
  { intros [<- <-]%pair_equal_spec. split; [by apply pt_step_refl|]. split_and!; auto; done. }
  assert (Z.of_nat (Z.to_nat (size / kPageSize)) * kPageSize = size) as Hn.
  { unfold kPageSize in *. rewrite Z2Nat.id by (apply Z.div_pos; lia).
    clear - Hm. Z.div_mod_to_equations. lia. }
  intros E. apply map_pages_spec in E as (S&O&T&P); auto; [|rewrite ?Hn; (done || lia)..].
  rewrite Hn in *. rewrite !Z.add_0_r in *. split_and!; [done|..].
  - intros -> x Hx. rewrite !translate_walk by lia. apply T; [done|lia].
  - intros va' Hout. destruct (decide (0 <= va' < 2 ^ 38)); [|by rewrite !translate_out].
    rewrite !translate_walk by done. by apply O.
  - intros x Hx. rewrite !translate_walk by lia. apply P. lia.
Qed.

Example map_range_example :
  translate (ms_mem (map_range_4k (mkAddressSpace (2 ^ 31)) 0x400000 0x80000000 8192 23 demo_mapped).2)
    (2 ^ 31) (0x400000 + 4100) = Some (0x80000000 + 4100, 23).
Proof.
  exact (proj2 (proj1 (proj2 (map_range_spec demo_mapped (2 ^ 31) 0x400000 0x80000000 8192 23
    (map_range_4k (mkAddressSpace (2 ^ 31)) 0x400000 0x80000000 8192 23 demo_mapped).1
    (map_range_4k (mkAddressSpace (2 ^ 31)) 0x400000 0x80000000 8192 23 demo_mapped).2
    (proj1 demo_space_inv) (proj2 demo_space_inv)
    ltac:(lia) ltac:(lia) ltac:(lia) ltac:(lia) ltac:(lia) ltac:(lia)
    ltac:(vm_compute; congruence) (surjective_pairing _)))
    ltac:(vm_compute; reflexivity) 4100 ltac:(lia))).
Qed.
