(* ===== verification/Vmm.v ===== *)
(** * Virtual memory manager

    Models [microkernel/core/vmm_manager.{h,cpp}]: the boot address space with
    the user text mapped read-execute, and the bounded table of task-stack
    mappings.  The fences of the source have no effect on the modelled memory;
    [prepare_first_user_dispatch] writes CSRs and is modelled with the harts. *)
From stdpp Require Import base tactics list sets.
From Stdlib Require Import ZArith Lia.
From S2P Require Import Prelude Memory Lifecycle PageManager Sv39.
Local Open Scope Z_scope.

Definition kMaxStackMappings : nat := 16.

Record VmmManager := mkVmm {
  boot_address_space : AddressSpace;
  mapped_stack_bases : list Z;
  mapped_stack_count : nat;
  user_text_start : Z;
  user_text_end : Z;
  vmm_initialized : bool
}.
#[export] Instance VmmManager_eta : Eta VmmManager := fun v =>
  mkVmm (boot_address_space v) (mapped_stack_bases v) (mapped_stack_count v)
    (user_text_start v) (user_text_end v) (vmm_initialized v).

Definition VmmManager_new : VmmManager :=
  mkVmm (mkAddressSpace 0) (replicate kMaxStackMappings 0) 0 0 0 false.

Definition kUserTextFlags : Z :=
  Z.lor (Z.lor (Z.lor PteFlag.read PteFlag.execute) PteFlag.user) PteFlag.accessed.
Definition kUserStackFlags : Z :=
  Z.lor (Z.lor (Z.lor (Z.lor PteFlag.read PteFlag.write) PteFlag.user) PteFlag.accessed) PteFlag.dirty.

(** [text_start] and [text_end] are the linker symbols of the user text. *)
Definition vmm_initialize (text_start text_end : Z) (vm : VmmManager) (st : MemSys)
  : bool * VmmManager * MemSys :=
  if vmm_initialized vm then (true, vm, st)
  else
    let vm1 := vm <| user_text_start := text_start |> <| user_text_end := text_end |> in
    if (text_end <=? text_start) || negb (text_start mod kPageSize =? 0)
       || negb (text_end mod kPageSize =? 0)
    then (false, vm1, st)
    else
      let '(space, st1) := create_address_space st in
      let vm2 := vm1 <| boot_address_space := space |> in
      if negb (as_valid space) then (false, vm2, st1)
      else
        let '(ok, st2) := map_range_4k space text_start text_start (text_end - text_start)
                            kUserTextFlags st1 in
        if negb ok then (false, vm2, st2)
        else (true, vm2 <| vmm_initialized := true |>, st2).

Definition map_boot_task_stack (physical_base size : Z) (vm : VmmManager) (st : MemSys)
  : bool * VmmManager * MemSys :=
  if negb (vmm_initialized vm) || (size =? 0) || negb (physical_base mod kPageSize =? 0)
     || negb (size mod kPageSize =? 0)
  then (false, vm, st)
  else if existsb (Z.eqb physical_base) (take (mapped_stack_count vm) (mapped_stack_bases vm))
  then (true, vm, st)
  else if (kMaxStackMappings <=? mapped_stack_count vm)%nat then (false, vm, st)
  else
    let '(ok, st1) := map_range_4k (boot_address_space vm) physical_base physical_base size
                        kUserStackFlags st in
    if negb ok then (false, vm, st1)
    else
      (true,
       vm <| mapped_stack_bases := <[mapped_stack_count vm := physical_base]> (mapped_stack_bases vm) |>
          <| mapped_stack_count := S (mapped_stack_count vm) |>,
       st1).

Definition is_boot_user_entry (address : Z) (vm : VmmManager) : bool :=
  vmm_initialized vm && (user_text_start vm <=? address) && (address <? user_text_end vm).

(** ** Invariant: what user mode can see *)

Definition stack_bases (vm : VmmManager) : list Z := take (mapped_stack_count vm) (mapped_stack_bases vm).
Definition root_of (vm : VmmManager) : Z := root_physical_address (boot_address_space vm).
Definition text_leaf : Z := Z.lor kUserTextFlags PteFlag.valid.
Definition stack_leaf : Z := Z.lor kUserStackFlags PteFlag.valid.

Record vmm_inv (vm : VmmManager) (st : MemSys) : Prop := {
  vi_pm : pm_inv st;
  vi_pt : pt_inv st (root_of vm);
  vi_table : length (mapped_stack_bases vm) = kMaxStackMappings;
  vi_count : (mapped_stack_count vm <= kMaxStackMappings)%nat;
  vi_text_mapped : forall va, user_text_start vm <= va < user_text_end vm ->
    translate (ms_mem st) (root_of vm) va = Some (va, text_leaf);
  vi_only : forall va pa flags, translate (ms_mem st) (root_of vm) va = Some (pa, flags) ->
    pa = va /\
    (flags = text_leaf /\ user_text_start vm <= va < user_text_end vm \/
     flags = stack_leaf /\ ~ (user_text_start vm <= va < user_text_end vm));
  vi_stacks : forall base off, base ∈ stack_bases vm -> 0 <= off < kPageSize ->
    translate (ms_mem st) (root_of vm) (base + off) = Some (base + off, stack_leaf);
}.

Lemma flags_ok :
  0 <= kUserTextFlags < 1024 /\ Z.land kUserTextFlags kLeafMask <> 0 /\
  0 <= kUserStackFlags < 1024 /\ Z.land kUserStackFlags kLeafMask <> 0.
Proof. vm_compute. repeat split; congruence. Qed.

Lemma AddressSpace_eta a : mkAddressSpace (root_physical_address a) = a.
Proof. by destruct a. Qed.

(** ** Lemmas *)

Lemma vmm_initialize_inv ts te vm st vm' st' :
  pm_inv st -> Forall (fun r => mr_end r <= 2 ^ 56) (live_ranges st) ->
  vm = VmmManager_new -> 0 <= ts -> te <= 2 ^ 38 ->
  vmm_initialize ts te vm st = (true, vm', st') ->
  vmm_inv vm' st' /\ vmm_initialized vm' = true /\ user_text_start vm' = ts /\ user_text_end vm' = te.
Proof.
  intros Hpm Hphys -> Hts Hte. unfold vmm_initialize. cbn [vmm_initialized VmmManager_new].
  destruct (_ || _ || _) eqn:Hg; [done|].
  apply orb_false_iff in Hg as [[Hlt _]%orb_false_iff _]. apply Z.leb_gt in Hlt.
  destruct (create_address_space st) as [space st1] eqn:Hc.
  destruct (as_valid space) eqn:Hv; cbn [negb]; [|done].
  destruct (create_address_space_inv st space st1 Hpm Hphys Hc Hv) as (Hpm1&Hpt1&Hw&_).
  destruct (map_range_4k _ _ _ _ _ _) as [[] st2] eqn:Hm; cbn [negb]; [|done].
  intros [= <- <-]. rewrite <- (AddressSpace_eta space) in Hm.
  destruct flags_ok as (Hf&Hl&_).
  apply map_range_spec in Hm as (HS&T&O&_); auto; [|lia..]. split; [|done].
  assert (forall va, translate (ms_mem st1) (root_physical_address space) va = None) as Hnone.
  { intros va. unfold translate. case_match; auto. }
  split; unfold stack_bases; cbn.
  - apply HS.
  - apply HS.
  - done.
  - lia.
  - intros va Hva. destruct (T eq_refl (va - ts)) as [_ HT]; [lia|].
    replace (ts + (va - ts)) with va in HT by lia. done.
  - intros va pa flags Htr. destruct (decide (ts <= va < te)) as [Hin|Hout].
    + destruct (T eq_refl (va - ts)) as [_ HT]; [lia|].
      replace (ts + (va - ts)) with va in HT by lia. unfold root_of in *. cbn in *.
      rewrite HT in Htr. simplify_eq. auto.
    + unfold root_of in *. cbn in *. rewrite O, Hnone in Htr by lia. done.
  - intros base off Hb. by apply elem_of_nil in Hb.
Qed.

Lemma map_boot_task_stack_inv base vm st ok vm' st' :
  vmm_inv vm st -> 0 <= base -> base + kPageSize <= 2 ^ 38 ->
  map_boot_task_stack base kPageSize vm st = (ok, vm', st') ->
  vmm_inv vm' st' /\
  (ok = true -> base ∈ stack_bases vm' /\ (forall b, b ∈ stack_bases vm -> b ∈ stack_bases vm')) /\
  (forall va pf, translate (ms_mem st) (root_of vm) va = Some pf ->
     translate (ms_mem st') (root_of vm') va = Some pf) /\
  vmm_initialized vm' = vmm_initialized vm /\
  user_text_start vm' = user_text_start vm /\ user_text_end vm' = user_text_end vm.
Proof.
  intros Hinv Hb Ht. unfold map_boot_task_stack.
  destruct (_ || _ || _ || _) eqn:Hg; [by intros [= <- <- <-]|].
  apply orb_false_iff in Hg as [[_ Hal]%orb_false_iff _]. apply negb_false_iff, Z.eqb_eq in Hal.
  destruct (existsb _ _) eqn:Hex.
  { intros [= <- <- <-]. split_and!; auto. intros _. split; [|done].
    apply existsb_exists in Hex as (x&Hx&->%Z.eqb_eq). by apply list_elem_of_In. }
  destruct (Nat.leb_spec kMaxStackMappings (mapped_stack_count vm)) as [|Hroom]; [by intros [= <- <- <-]|].
  destruct (map_range_4k _ _ _ _ _ _) as [ok1 st1] eqn:Hm.
  rewrite <- (AddressSpace_eta (boot_address_space vm)) in Hm.
  destruct flags_ok as (_&_&Hf&Hl). destruct Hinv as [Ipm Ipt Itb Icn Itx Ion Ist].
  apply map_range_spec in Hm as (HS&T&O&P); auto; [|unfold kPageSize in *; (pow2_numerals; lia)..].
  fold (root_of vm) in *.
  assert (forall va pf, translate (ms_mem st) (root_of vm) va = Some pf ->
    translate (ms_mem st1) (root_of vm) va = Some pf) as Hkeep.
  { intros va pf Htr. destruct (decide (base <= va < base + kPageSize)) as [Hin|Hout]; [|by rewrite O].
    destruct (P (va - base)) as [HP|[HP _]]; [lia|..];
      replace (base + (va - base)) with va in HP by lia; congruence. }
  assert (forall va pa flags, translate (ms_mem st1) (root_of vm) va = Some (pa, flags) ->
    pa = va /\
    (flags = text_leaf /\ user_text_start vm <= va < user_text_end vm \/
     flags = stack_leaf /\ ~ (user_text_start vm <= va < user_text_end vm))) as Honly.
  { intros va pa flags Htr. destruct (decide (base <= va < base + kPageSize)) as [Hin|Hout].
    2: { rewrite O in Htr by done. eauto. }
    destruct (P (va - base)) as [HP|[HP HP']]; [lia|..];
      replace (base + (va - base)) with va in * by lia.
    - rewrite HP in Htr. eauto.
    - rewrite HP' in Htr. simplify_eq. split; [done|]. right. split; [done|].
      intros Htxt. apply Itx in Htxt. congruence. }
  destruct ok1; cbn [negb]; intros [= <- <- <-].
  2: { split_and!; [split; eauto; apply HS|done|done..]. }
  set (vm' := vm <| mapped_stack_bases := <[mapped_stack_count vm := base]> (mapped_stack_bases vm) |>
                 <| mapped_stack_count := S (mapped_stack_count vm) |>).
  assert (stack_bases vm' = stack_bases vm ++ [base]) as Hbases.
  { unfold stack_bases. cbn.
    rewrite (take_S_r _ _ base) by (apply list_lookup_insert_eq; lia).
    by rewrite take_insert_ge by lia. }
  split_and!; auto.
  - split.
    + apply HS.
    + apply HS.
    + cbn. by rewrite length_insert.
    + cbn. lia.
    + intros va Hva. apply Hkeep. by apply Itx.
    + exact Honly.
    + intros b off. change (b ∈ stack_bases vm' -> 0 <= off < kPageSize ->
        translate (ms_mem st1) (root_of vm) (b + off) = Some (b + off, stack_leaf)).
      rewrite Hbases. intros [Hin| ->%list_elem_of_singleton]%elem_of_app Hoff.
      * apply Hkeep. by apply Ist.
      * by apply T.
  - intros _. change (base ∈ stack_bases vm' /\ forall b, b ∈ stack_bases vm -> b ∈ stack_bases vm').
    rewrite Hbases. split; [|intros b]; set_solver.
Qed.

(** ** Properties *)

(** A history of stack mappings after initialisation. *)
Fixpoint map_stacks (bases : list Z) (vm : VmmManager) (st : MemSys) : bool * VmmManager * MemSys :=
  match bases with
  | [] => (true, vm, st)
  | base :: bases' =>
      let '(ok, vm1, st1) := map_boot_task_stack base kPageSize vm st in
      let '(ok', vm2, st2) := map_stacks bases' vm1 st1 in (ok && ok', vm2, st2)
  end.

Lemma map_stacks_inv bases vm st ok vm' st' :
  vmm_inv vm st -> Forall (fun b => 0 <= b /\ b + kPageSize <= 2 ^ 38) bases ->
  map_stacks bases vm st = (ok, vm', st') ->
  vmm_inv vm' st' /\ (ok = true -> Forall (fun b => b ∈ stack_bases vm') bases) /\
  (ok = true -> forall b, b ∈ stack_bases vm -> b ∈ stack_bases vm') /\
  user_text_start vm' = user_text_start vm /\ user_text_end vm' = user_text_end vm.
Proof.
  revert vm st ok. induction bases as [|base bases IH]; intros vm st ok Hinv Hall; cbn [map_stacks].
  { intros [= <- <- <-]. by split_and!. }
  apply Forall_cons in Hall as [[Hb1 Hb2] Hall].
  destruct (map_boot_task_stack _ _ _ _) as [[ok1 vm1] st1] eqn:E1.
  destruct (map_stacks bases vm1 st1) as [[ok2 vm2] st2] eqn:E2. intros [= <- <- <-].
  apply map_boot_task_stack_inv in E1 as (I1&B1&_&_&Ets&Ete); auto.
  apply IH in E2 as (I2&B2&K2&Ets2&Ete2); auto.
  split_and!; try congruence; auto.
  - intros [-> ->]%andb_true_iff. destruct B1 as [? ?]; [done|]. constructor; auto.
  - intros [-> ->]%andb_true_iff b Hb. destruct B1 as [? ?]; [done|]. auto.
Qed.

(** C18: after initialisation and any sequence of task-stack mappings, whatever
    succeeded, user mode sees only identity mappings, and each is either user
    text (executable, never writable) or a stack page (writable, never
    executable); all of the user text and every stack reported as mapped are
    accessible. *)
Theorem boot_address_space_wx ts te st bases vm1 st1 ok vm2 st2 :
  pm_inv st -> Forall (fun r => mr_end r <= 2 ^ 56) (live_ranges st) ->
  0 <= ts -> te <= 2 ^ 38 -> Forall (fun b => 0 <= b /\ b + kPageSize <= 2 ^ 38) bases ->
  vmm_initialize ts te VmmManager_new st = (true, vm1, st1) ->
  map_stacks bases vm1 st1 = (ok, vm2, st2) ->
  (forall va pa flags, translate (ms_mem st2) (root_of vm2) va = Some (pa, flags) ->
     pa = va /\ Z.land flags PteFlag.user <> 0 /\
     (ts <= va < te /\ Z.land flags PteFlag.execute <> 0 /\ Z.land flags PteFlag.write = 0 \/
      ~ (ts <= va < te) /\ Z.land flags PteFlag.write <> 0 /\ Z.land flags PteFlag.execute = 0)) /\
  (forall va, ts <= va < te -> translate (ms_mem st2) (root_of vm2) va = Some (va, text_leaf)) /\
  (ok = true -> forall base off, base ∈ bases -> 0 <= off < kPageSize ->
     translate (ms_mem st2) (root_of vm2) (base + off) = Some (base + off, stack_leaf)).
Proof.
  intros Hpm Hphys Hts Hte Hall Hi Hs.
  apply vmm_initialize_inv in Hi as (I1&_&E1&E2); auto.
  apply map_stacks_inv in Hs as (I2&B2&_&E3&E4); auto.
  rewrite <- E1, <- E2, <- E3, <- E4. destruct I2 as [_ _ _ _ Itx Ion Ist]. split_and!; auto.
  - intros va pa flags Htr. destruct (Ion va pa flags Htr) as [-> [[-> Hin]|[-> Hout]]].
    + split; [done|]. split; [vm_compute; congruence|]. left.
      split; [done|]. split; [vm_compute; congruence|done].
    + split; [done|]. split; [vm_compute; congruence|]. right.
      split; [done|]. split; [vm_compute; congruence|done].
  - intros Hok base off Hin Hoff. apply Ist; [|done].
    specialize (B2 Hok). rewrite Forall_forall in B2. auto.
Qed.

Definition demo_boot : bool * VmmManager * MemSys := vmm_initialize 0x80010000 0x80012000 VmmManager_new demo_pool.

Definition demo_stacks : bool * VmmManager * MemSys :=
  map_stacks [0x80020000; 0x80021000; 0x80020000] demo_boot.1.2 demo_boot.2.

Lemma triple_intro {A B C} (x : A * B * C) a : x.1.1 = a -> x = (a, x.1.2, x.2).
Proof. destruct x as [[??]?]. by intros <-. Qed.

Lemma boot_address_space_wx_witness :
  translate (ms_mem demo_stacks.2) (root_of demo_stacks.1.2) (0x80021000 + 16)
    = Some (0x80021000 + 16, stack_leaf).
Proof.
  exact (proj2 (proj2 (boot_address_space_wx 0x80010000 0x80012000 demo_pool
    [0x80020000; 0x80021000; 0x80020000] demo_boot.1.2 demo_boot.2 true
    demo_stacks.1.2 demo_stacks.2
    (proj1 demo_pool_inv) (proj2 demo_pool_inv) ltac:(lia) ltac:(lia)
    ltac:(repeat constructor; unfold kPageSize; lia)
    (triple_intro _ _ ltac:(vm_compute; reflexivity))
    (triple_intro _ _ ltac:(vm_compute; reflexivity))))
    eq_refl 0x80021000 16 ltac:(set_solver) ltac:(unfold kPageSize; lia)).
Defined.
