(* ===== verification/Format.v ===== *)
(** * Text formatting

    Models [lib/format.{h,cpp}]: option parsing, the digit encoder with its
    bounded scratch array, [emit_number] with sign, prefix and padding, and the
    [vformat] loop, against an arbitrary character sink.  A format string is
    the list of its characters, the end of the list standing for the
    terminating NUL; an argument is a 64-bit slot or a (possibly null) C
    string, and reading past the arguments or a slot of the wrong kind is
    undefined. *)
From stdpp Require Import base tactics list sets strings.
From Stdlib Require Import ZArith Lia Ascii.
From S2P Require Import Prelude.
Local Open Scope char_scope.
Local Open Scope list_scope.
Local Open Scope Z_scope.

Definition NUL : ascii := "000".

(** A C string literal. *)
Definition text (s : String.string) : list ascii := String.list_ascii_of_string s.
Arguments text s%_string.

Module Length.
Inductive t := normal | char_width | short_width | long_width | long_long_width
             | size_width | ptrdiff_width.
End Length.

Record Options := mkOptions {
  alternate : bool; zero_pad : bool; left_align : bool; plus_sign : bool; space_sign : bool;
  uppercase : bool; width : Z; opt_length : Length.t; type : ascii
}.
#[export] Instance Options_eta : Eta Options := fun o =>
  mkOptions (alternate o) (zero_pad o) (left_align o) (plus_sign o) (space_sign o)
    (uppercase o) (width o) (opt_length o) (type o).

Definition default_options : Options :=
  mkOptions false false false false false false 0 Length.normal NUL.

(** The character under the cursor. *)
Definition peek (cursor : list ascii) : ascii := match cursor with [] => NUL | c :: _ => c end.

Definition code (c : ascii) : Z := Z.of_nat (nat_of_ascii c).
Definition char_of (z : Z) : ascii := ascii_of_nat (Z.to_nat (u8 z)).
Definition is_digit (ch : ascii) : bool := ((code "0" <=? code ch) && (code ch <=? code "9"))%Z.

(** ** Parsing *)

Fixpoint parse_flags (options : Options) (cursor : list ascii) : Options * list ascii :=
  match cursor with
  | [] => (options, [])
  | c :: rest =>
      if bool_decide (c = "#") then parse_flags (options <| alternate := true |>) rest
      else if bool_decide (c = "0") then parse_flags (options <| zero_pad := true |>) rest
      else if bool_decide (c = "-") then parse_flags (options <| left_align := true |>) rest
      else if bool_decide (c = "+") then parse_flags (options <| plus_sign := true |>) rest
      else if bool_decide (c = " ") then parse_flags (options <| space_sign := true |>) rest
      else (options, cursor)
  end.

Fixpoint parse_width (options : Options) (cursor : list ascii) : Options * list ascii :=
  match cursor with
  | [] => (options, [])
  | c :: rest =>
      if is_digit c
      then parse_width (options <| width := u64 (width options * 10 + (code c - code "0")) |>) rest
      else (options, cursor)
  end.

Definition parse_length (options : Options) (cursor : list ascii) : Options * list ascii :=
  let next := tail cursor in
  if bool_decide (peek cursor = "h") then
    if bool_decide (peek next = "h") then (options <| opt_length := Length.char_width |>, tail next)
    else (options <| opt_length := Length.short_width |>, next)
  else if bool_decide (peek cursor = "l") then
    if bool_decide (peek next = "l") then (options <| opt_length := Length.long_long_width |>, tail next)
    else (options <| opt_length := Length.long_width |>, next)
  else if bool_decide (peek cursor = "z") then (options <| opt_length := Length.size_width |>, next)
  else if bool_decide (peek cursor = "t") then (options <| opt_length := Length.ptrdiff_width |>, next)
  else (options, cursor).

Definition parse_options (cursor : list ascii) : Options * list ascii :=
  let '(o1, c1) := parse_flags default_options cursor in
  let '(o2, c2) := parse_width o1 c1 in
  let '(o3, c3) := parse_length o2 c2 in
  let o4 := o3 <| type := peek c3 |> in
  let c4 := if bool_decide (peek c3 = NUL) then c3 else tail c3 in
  ((if bool_decide (type o4 = "X") then o4 <| uppercase := true |> else o4), c4).

(** ** Digits *)

Definition lower_digits : list ascii := text "0123456789abcdef".
Definition upper_digits : list ascii := text "0123456789ABCDEF".

(** The [do .. while] loop: [room] is what is left of the scratch capacity;
    digits come out least significant first, as they lie in [scratch]. *)
Fixpoint encode_unsigned (room : nat) (value base : Z) (upper : bool) : list ascii :=
  match room with
  | O => []
  | S room' =>
      let digits := if upper then upper_digits else lower_digits in
      let d := nth (Z.to_nat (value mod base)) digits NUL in
      let value' := value / base in
      d :: (if value' =? 0 then [] else encode_unsigned room' value' base upper)
  end.

Definition scratch_capacity : nat := 64.

(** ** Output *)

Inductive arg := AWord (z : Z) | AText (t : option (list ascii)).

Section writer.
Context {W : Type} (put : W -> ascii -> W).

(** The sink and the running count. *)
Definition emit (ch : ascii) (s : W * Z) : W * Z := (put s.1 ch, u64 (s.2 + 1)).

Fixpoint emit_repeat (ch : ascii) (amount : nat) (s : W * Z) : W * Z :=
  match amount with O => s | S n => emit_repeat ch n (emit ch s) end.

Fixpoint emit_chars (cs : list ascii) (s : W * Z) : W * Z :=
  match cs with
  | [] => s
  | c :: cs' => if bool_decide (c = NUL) then s else emit_chars cs' (emit c s)
  end.

Definition emit_text (t : option (list ascii)) (s : W * Z) : W * Z :=
  emit_chars (default (text "(null)") t) s.

Fixpoint emit_digits (digits : list ascii) (s : W * Z) : W * Z :=
  match digits with [] => s | c :: ds => emit c (emit_digits ds s) end.

Definition sign_of (options : Options) (negative : bool) : ascii :=
  if negative then "-" else if plus_sign options then "+" else if space_sign options then " " else NUL.

Definition prefix_of (options : Options) (base : Z) (pointer : bool) : list ascii :=
  if pointer || alternate options then
    if base =? 16 then ["0"; if uppercase options then "X" else "x"]
    else if base =? 8 then ["0"]
    else if base =? 2 then ["0"; if uppercase options then "B" else "b"]
    else []
  else [].

Definition emit_number (options : Options) (magnitude : Z) (negative : bool) (base : Z)
    (pointer : bool) (s0 : W * Z) : W * Z :=
  let scratch := encode_unsigned scratch_capacity magnitude base (uppercase options) in
  let digits_length := Z.of_nat (length scratch) in
  let sign := sign_of options negative in
  let prefix := prefix_of options base pointer in
  let prefix_length := Z.of_nat (length prefix) in
  let minimum_digits := if pointer then 16 else digits_length in
  let total_length := minimum_digits + prefix_length + (if bool_decide (sign = NUL) then 0 else 1) in
  let pad := Z.to_nat (width options - total_length) in
  let s1 := if negb (left_align options) && negb (zero_pad options) && (total_length <? width options)
            then emit_repeat " " pad s0 else s0 in
  let s2 := if bool_decide (sign = NUL) then s1 else emit sign s1 in
  let s3 := if 1 <=? prefix_length then emit (nth 0 prefix NUL) s2 else s2 in
  let s4 := if prefix_length =? 2 then emit (nth 1 prefix NUL) s3 else s3 in
  let s5 := if digits_length <? minimum_digits
            then emit_repeat "0" (Z.to_nat (minimum_digits - digits_length)) s4 else s4 in
  let s6 := if negb (left_align options) && zero_pad options && (total_length <? width options)
            then emit_repeat "0" pad s5 else s5 in
  let s7 := emit_digits scratch s6 in
  if left_align options && (total_length <? width options) then emit_repeat " " pad s7 else s7.

(** [va_arg] at each type; the head slot is consumed. *)
Definition va_word (args : list arg) : option (Z * list arg) :=
  match args with AWord z :: rest => Some (z, rest) | _ => None end.
Definition va_text (args : list arg) : option (option (list ascii) * list arg) :=
  match args with AText t :: rest => Some (t, rest) | _ => None end.

Definition read_unsigned (l : Length.t) (args : list arg) : option (Z * list arg) :=
  '(z, rest) ← va_word args;
  Some (match l with
        | Length.char_width => u8 (u32 z)
        | Length.short_width => u16 (u32 z)
        | Length.normal => u32 z
        | _ => u64 z
        end, rest).

Definition read_signed (l : Length.t) (args : list arg) : option (Z * list arg) :=
  '(z, rest) ← va_word args;
  Some (match l with
        | Length.char_width => sext 8 z
        | Length.short_width => sext 16 z
        | Length.normal => sext 32 z
        | _ => sext 64 z
        end, rest).

(** One conversion: the new state and the remaining arguments. *)
Definition convert (options : Options) (args : list arg) (s : W * Z) : option (W * Z * list arg) :=
  let ty := type options in
  if bool_decide (ty = "c") then
    '(z, rest) ← va_word args; Some (emit (char_of z) s, rest)
  else if bool_decide (ty = "s") then
    '(t, rest) ← va_text args; Some (emit_text t s, rest)
  else if bool_decide (ty = "d") || bool_decide (ty = "i") then
    '(value, rest) ← read_signed (opt_length options) args;
    let negative := value <? 0 in
    let magnitude := if negative then u64 (0 - u64 value) else u64 value in
    Some (emit_number options magnitude negative 10 false s, rest)
  else if bool_decide (ty = "u") then
    '(value, rest) ← read_unsigned (opt_length options) args;
    Some (emit_number options value false 10 false s, rest)
  else if bool_decide (ty = "o") then
    '(value, rest) ← read_unsigned (opt_length options) args;
    Some (emit_number options value false 8 false s, rest)
  else if bool_decide (ty = "x") || bool_decide (ty = "X") then
    '(value, rest) ← read_unsigned (opt_length options) args;
    Some (emit_number options value false 16 false s, rest)
  else if bool_decide (ty = "b") || bool_decide (ty = "B") then
    '(value, rest) ← read_unsigned (opt_length options) args;
    Some (emit_number (options <| uppercase := bool_decide (ty = "B") |>) value false 2 false s, rest)
  else if bool_decide (ty = "p") then
    '(value, rest) ← va_word args;
    Some (emit_number (options <| alternate := true |>) (u64 value) false 16 true s, rest)
  else
    Some (emit ty (emit "%" s), args).

(** The scanning loop.  [fuel] bounds the iterations; [Diverged] would be a
    loop that outlives it. *)
Fixpoint vformat_loop (fuel : nat) (cursor : list ascii) (args : list arg) (s : W * Z)
  : outcome (W * Z) unit :=
  match fuel with
  | O => Diverged
  | S fuel' =>
      if bool_decide (peek cursor = NUL) then Done tt s
      else if bool_decide (peek cursor <> "%") then
        vformat_loop fuel' (tail cursor) args (emit (peek cursor) s)
      else
        let c1 := tail cursor in
        if bool_decide (peek c1 = "%") then vformat_loop fuel' (tail c1) args (emit "%" s)
        else
          let '(options, c2) := parse_options c1 in
          if bool_decide (type options = NUL) then Done tt (emit "%" s)
          else match convert options args s with
               | Some (s', args') => vformat_loop fuel' c2 args' s'
               | None => Undefined
               end
  end.

(** [vformat] on a valid writer; a null format is [None]. *)
Definition vformat (format : option (list ascii)) (args : list arg) (w : W) : outcome W Z :=
  match format with
  | None => Done 0 w
  | Some f =>
      match vformat_loop (S (length f)) f args (w, 0) with
      | Done _ (w', count) => Done count w'
      | Parked => Parked
      | Undefined => Undefined
      | Diverged => Diverged
      end
  end.
End writer.

(** ** The text a run produces

    [push] collects the output; any other sink receives the same characters. *)

Definition push (w : list ascii) (c : ascii) : list ascii := w ++ [c].

Lemma u64_add_l a b : u64 (u64 a + b) = u64 (a + b).
Proof. unfold u64. by rewrite Zplus_mod_idemp_l. Qed.

(** Counts are kept reduced; every state a run reaches has such a count. *)
Section output.
Context {W : Type} (put : W -> ascii -> W).
Implicit Types s : W * Z.

Definition out (t : list ascii) (s : W * Z) : W * Z :=
  (foldl put s.1 t, u64 (s.2 + Z.of_nat (length t))).

Lemma out_nil s : is_u64 s.2 -> out [] s = s.
Proof. intros H. destruct s. unfold out. simpl. by rewrite Z.add_0_r, u64_small. Qed.
Lemma out_app t1 t2 s : out t2 (out t1 s) = out (t1 ++ t2) s.
Proof.
  unfold out. simpl. rewrite foldl_app, u64_add_l, length_app. do 2 f_equal. lia.
Qed.
Lemma out_u64 t s : is_u64 (out t s).2.
Proof. apply u64_range. Qed.
Lemma emit_out ch s : emit put ch s = out [ch] s.
Proof. done. Qed.

Lemma emit_repeat_out ch n s : is_u64 s.2 -> emit_repeat put ch n s = out (replicate n ch) s.
Proof.
  revert s. induction n as [|n IH]; intros s Hs; cbn [emit_repeat].
  - by rewrite out_nil.
  - rewrite emit_out, IH by apply out_u64. by rewrite out_app.
Qed.

(** C strings stop at the first NUL. *)
Fixpoint c_text (cs : list ascii) : list ascii :=
  match cs with [] => [] | c :: cs' => if bool_decide (c = NUL) then [] else c :: c_text cs' end.

Lemma emit_chars_out cs s : is_u64 s.2 -> emit_chars put cs s = out (c_text cs) s.
Proof.
  revert s. induction cs as [|c cs IH]; intros s Hs; cbn [emit_chars c_text].
  - by rewrite out_nil.
  - case_bool_decide; [by rewrite out_nil|]. rewrite IH by apply u64_range.
    rewrite emit_out, out_app. done.
Qed.

Lemma emit_digits_out ds s : is_u64 s.2 -> emit_digits put ds s = out (reverse ds) s.
Proof.
  induction ds as [|d ds IH]; intros Hs; cbn [emit_digits]; [by rewrite out_nil|].
  rewrite IH by done. rewrite emit_out, out_app. by rewrite reverse_cons.
Qed.
End output.

(** The layout of a number. *)
Definition number_text (options : Options) (magnitude : Z) (negative : bool) (base : Z)
    (pointer : bool) : list ascii :=
  let digits := reverse (encode_unsigned scratch_capacity magnitude base (uppercase options)) in
  let sign := sign_of options negative in
  let lead := (if bool_decide (sign = NUL) then [] else [sign]) ++ prefix_of options base pointer in
  let body := (if pointer then replicate (16 - length digits) "0" else []) ++ digits in
  let minimum := if pointer then 16%nat else length digits in
  let pad := Z.to_nat (width options - Z.of_nat (minimum + length lead)) in
  if left_align options then lead ++ body ++ replicate pad " "
  else if zero_pad options then
    lead ++ (if pointer then replicate (16 - length digits) "0" else []) ++ replicate pad "0" ++ digits
  else replicate pad " " ++ lead ++ body.

Section numbers.
Context {W : Type} (put : W -> ascii -> W).

Lemma emit_if_out (b : bool) t1 t2 (f : W * Z -> W * Z) (s : W * Z) :
  is_u64 s.2 -> f s = out put t1 s -> t2 = (if b then t1 else []) ->
  (if b then f s else s) = out put t2 s.
Proof. intros Hs Hf ->. destruct b; [done|]. by rewrite out_nil. Qed.

Lemma prefix_length options base pointer : (length (prefix_of options base pointer) <= 2)%nat.
Proof. unfold prefix_of. repeat case_match; simpl; lia. Qed.

Lemma emit_prefix_out l (s : W * Z) :
  (length l <= 2)%nat -> is_u64 s.2 ->
  (let s3 := if 1 <=? Z.of_nat (length l) then emit put (nth 0 l NUL) s else s in
   if Z.of_nat (length l) =? 2 then emit put (nth 1 l NUL) s3 else s3) = out put l s.
Proof.
  intros Hl Hs. destruct l as [|a [|b [|c l]]]; simpl in Hl; try lia; simpl.
  - by rewrite out_nil.
  - done.
  - rewrite !emit_out, out_app. done.
Qed.

Lemma pad_replicate (b : bool) w t c :
  (if b && (t <? w) then replicate (Z.to_nat (w - t)) c else []) =
  (if b then replicate (Z.to_nat (w - t)) c else ([] : list ascii)).
Proof.
  destruct b; [|done]. simpl. destruct (Z.ltb_spec t w); [done|].
  by replace (Z.to_nat (w - t)) with 0%nat by lia.
Qed.

(** [emit_number] writes the layout [number_text]. *)
Lemma emit_number_out options magnitude negative base pointer (s : W * Z) :
  is_u64 s.2 ->
  emit_number put options magnitude negative base pointer s =
    out put (number_text options magnitude negative base pointer) s.
Proof.
  intros Hs. unfold emit_number, number_text.
  set (scratch := encode_unsigned _ _ _ _). set (sign := sign_of _ _).
  set (prefix := prefix_of _ _ _). rewrite length_reverse, length_app.
  assert (length prefix <= 2)%nat as Hpre by apply prefix_length.
  clearbody scratch sign prefix.
  set (total := (if pointer then 16 else Z.of_nat (length scratch)) + _ + _).
  replace (Z.of_nat ((if pointer then 16%nat else length scratch) + _)) with total.
  2: { unfold total. destruct pointer; case_bool_decide; simpl; lia. }
  set (pad := Z.to_nat _).
  rewrite (emit_if_out (negb (left_align options) && negb (zero_pad options) && (total <? width options))
    (replicate pad " ")
    (if negb (left_align options) && negb (zero_pad options) then replicate pad " " else [])
    (emit_repeat put " " pad) s); [|done|by apply emit_repeat_out|symmetry; apply pad_replicate].
  set (s1 := out put _ s).
  replace (if bool_decide (sign = NUL) then s1 else emit put sign s1)
    with (out put (if bool_decide (sign = NUL) then [] else [sign]) s1)
    by (case_bool_decide; [rewrite out_nil by apply out_u64|]; done).
  rewrite emit_prefix_out by (exact Hpre || apply out_u64).
  set (s4 := out put prefix _).
  rewrite (emit_if_out _ (replicate (Z.to_nat ((if pointer then 16 else Z.of_nat (length scratch)) - Z.of_nat (length scratch))) "0")
    (if pointer then replicate (16 - length scratch) "0" else [])
    (emit_repeat put "0" _) s4); [|apply out_u64|by apply emit_repeat_out, out_u64|].
  2: { destruct pointer.
       - destruct (Z.ltb_spec (Z.of_nat (length scratch)) 16).
         + f_equal. lia.
         + by replace (16 - length scratch)%nat with 0%nat by lia.
       - by rewrite Z.ltb_irrefl. }
  set (s5 := out put _ s4).
  rewrite (emit_if_out (negb (left_align options) && zero_pad options && (total <? width options))
    (replicate pad "0")
    (if negb (left_align options) && zero_pad options then replicate pad "0" else [])
    (emit_repeat put "0" pad) s5); [|apply out_u64|by apply emit_repeat_out, out_u64|symmetry; apply pad_replicate].
  rewrite emit_digits_out by apply out_u64.
  rewrite (emit_if_out (left_align options && (total <? width options)) (replicate pad " ")
    (if left_align options then replicate pad " " else [])
    (emit_repeat put " " pad)); [|apply out_u64|by apply emit_repeat_out, out_u64|symmetry; apply pad_replicate].
  unfold s5, s4, s1. rewrite !out_app. f_equal.
  destruct (left_align options), (zero_pad options); simpl; rewrite ?app_nil_r, <- ?app_assoc; done.
Qed.
End numbers.

(** ** The digit encoder *)

Definition digit_value (c : ascii) : Z :=
  if is_digit c then code c - code "0"
  else if (code "a" <=? code c) && (code c <=? code "f") then code c - code "a" + 10
  else code c - code "A" + 10.

(** Value of a numeral, most significant digit first. *)
Definition decode (base : Z) (ds : list ascii) : Z :=
  foldl (fun acc c => acc * base + digit_value c) 0 ds.

Lemma digit_value_nth n (upper : bool) :
  (n < 16)%nat -> digit_value (nth n (if upper then upper_digits else lower_digits) NUL) = Z.of_nat n.
Proof. intros Hn. do 16 (destruct n as [|n]; [by destruct upper|]). lia. Qed.

Lemma decode_snoc base ds d : decode base (ds ++ [d]) = decode base ds * base + digit_value d.
Proof. unfold decode. by rewrite foldl_app. Qed.

Lemma encode_unsigned_decode room value base upper :
  2 <= base <= 16 -> 0 <= value < base ^ Z.of_nat room -> (0 < room)%nat ->
  decode base (reverse (encode_unsigned room value base upper)) = value.
Proof.
  intros Hb. revert value. induction room as [|room IH]; intros value Hv Hr; [lia|].
  cbn [encode_unsigned]. rewrite reverse_cons, decode_snoc, digit_value_nth.
  2: { pose proof (Z.mod_pos_bound value base). lia. }
  rewrite Z2Nat.id by (apply Z.mod_pos_bound; lia).
  destruct (Z.eqb_spec (value / base) 0) as [H0|Hn].
  - change (decode base (reverse [])) with 0.
    pose proof (Z.div_mod value base ltac:(lia)) as E. rewrite H0 in E. lia.
  - rewrite Nat2Z.inj_succ, Z.pow_succ_r in Hv by lia.
    assert (value / base < base ^ Z.of_nat room) by (apply Z.div_lt_upper_bound; lia).
    pose proof (Z.div_pos value base). destruct room as [|room].
    { change (base ^ Z.of_nat 0) with 1 in *. lia. }
    rewrite IH by lia. pose proof (Z.div_mod value base ltac:(lia)). lia.
Qed.

Lemma encode_unsigned_length room value base upper n :
  2 <= base -> 0 <= value < base ^ Z.of_nat n -> (0 < n)%nat ->
  (length (encode_unsigned room value base upper) <= n)%nat.
Proof.
  intros Hb. revert value n. induction room as [|room IH]; intros value n Hv Hn; simpl; [lia|].
  destruct (Z.eqb_spec (value / base) 0) as [H0|Hne]; simpl; [lia|].
  destruct n as [|n]; [lia|]. rewrite Nat2Z.inj_succ, Z.pow_succ_r in Hv by lia.
  assert (value / base < base ^ Z.of_nat n) by (apply Z.div_lt_upper_bound; lia).
  pose proof (Z.div_pos value base). destruct n as [|n].
  { change (base ^ Z.of_nat 0) with 1 in *. lia. }
  apply le_n_S, IH; lia.
Qed.

Lemma encode_unsigned_nonempty room value base upper :
  (0 < room)%nat -> (0 < length (encode_unsigned room value base upper))%nat.
Proof. destruct room; simpl; lia. Qed.

Lemma encode_unsigned_canonical room value base upper :
  2 <= base <= 16 -> 0 < value < base ^ Z.of_nat room ->
  exists d ds, encode_unsigned room value base upper = ds ++ [d] /\ digit_value d <> 0.
Proof.
  intros Hb. revert value. induction room as [|room IH]; intros value Hv.
  { change (base ^ Z.of_nat 0) with 1 in Hv. lia. }
  cbn [encode_unsigned]. destruct (Z.eqb_spec (value / base) 0) as [H0|Hne].
  - eexists _, []. split; [done|]. pose proof (Z.mod_pos_bound value base).
    rewrite digit_value_nth by lia.
    pose proof (Z.div_mod value base ltac:(lia)) as E. rewrite H0 in E. lia.
  - rewrite Nat2Z.inj_succ, Z.pow_succ_r in Hv by lia.
    assert (value / base < base ^ Z.of_nat room) by (apply Z.div_lt_upper_bound; lia).
    pose proof (Z.div_pos value base). destruct (IH (value / base)) as (d&ds&->&Hd); [lia|].
    by eexists d, (_ :: ds).
Qed.

Lemma pow_base_64 base : 2 <= base -> 2 ^ 64 <= base ^ Z.of_nat scratch_capacity.
Proof. intros. apply Z.pow_le_mono_l. lia. Qed.

(** ** The scanning loop *)

Lemma parse_flags_length o c : (length (parse_flags o c).2 <= length c)%nat.
Proof.
  revert o. induction c as [|a c IH]; intros o; [done|]. cbn [parse_flags].
  repeat case_match; simpl; try (etrans; [apply IH|]); lia.
Qed.
Lemma parse_width_length o c : (length (parse_width o c).2 <= length c)%nat.
Proof.
  revert o. induction c as [|a c IH]; intros o; [done|]. cbn [parse_width].
  case_match; simpl; [etrans; [apply IH|]|]; lia.
Qed.
Lemma tail_length (c : list ascii) : (length (tail c) <= length c)%nat.
Proof. destruct c; simpl; lia. Qed.
Lemma parse_length_length o c : (length (parse_length o c).2 <= length c)%nat.
Proof.
  unfold parse_length. pose proof (tail_length c). pose proof (tail_length (tail c)).
  repeat case_match; simpl; lia.
Qed.
Lemma parse_options_length c : (length (parse_options c).2 <= length c)%nat.
Proof.
  unfold parse_options.
  pose proof (parse_flags_length default_options c). destruct (parse_flags default_options c) as [o1 c1].
  pose proof (parse_width_length o1 c1). destruct (parse_width o1 c1) as [o2 c2].
  pose proof (parse_length_length o2 c2). destruct (parse_length o2 c2) as [o3 c3].
  pose proof (tail_length c3). cbn [snd] in *. destruct (bool_decide (peek c3 = NUL)); lia.
Qed.

(** What a conversion consumes: nothing, a word, or a string. *)
Inductive kind := KNone | KWord | KText.
Definition kind_of (ty : ascii) : kind :=
  if bool_decide (ty = "s") then KText
  else if bool_decide (ty ∈ ["c"; "d"; "i"; "u"; "o"; "x"; "X"; "b"; "B"; "p"]) then KWord
  else KNone.

Fixpoint wanted (fuel : nat) (cursor : list ascii) : list kind :=
  match fuel with
  | O => []
  | S fuel' =>
      if bool_decide (peek cursor = NUL) then []
      else if bool_decide (peek cursor <> "%") then wanted fuel' (tail cursor)
      else if bool_decide (peek (tail cursor) = "%") then wanted fuel' (tail (tail cursor))
      else let '(options, c2) := parse_options (tail cursor) in
           if bool_decide (type options = NUL) then []
           else kind_of (type options) :: wanted fuel' c2
  end.

Fixpoint fits (ks : list kind) (args : list arg) : bool :=
  match ks, args with
  | [], _ => true
  | KNone :: ks', _ => fits ks' args
  | KWord :: ks', AWord _ :: args' => fits ks' args'
  | KText :: ks', AText _ :: args' => fits ks' args'
  | _, _ => false
  end.

Lemma convert_out options ks args :
  fits (kind_of (type options) :: ks) args = true ->
  exists t args', fits ks args' = true /\
    forall W (put : W -> ascii -> W) s, is_u64 s.2 -> convert put options args s = Some (out put t s, args').
Proof.
  unfold kind_of, convert. set (ty := type options).
  destruct (decide (ty = "s")) as [E|Ns].
  { rewrite E. destruct args as [|[z|t] args]; simpl; try done. intros Hf. eexists _, _. split; [done|].
    intros W put s Hs. unfold emit_text. by rewrite emit_chars_out. }
  rewrite (bool_decide_false (ty = "s")) by done.
  case_bool_decide as Hin.
  2: { intros Hf. exists (["%"; ty]), args. split; [done|]. intros W put s Hs.
       repeat rewrite bool_decide_false by (intros E; apply Hin; rewrite E; repeat constructor).
       simpl. rewrite !emit_out, out_app. done. }
  destruct args as [|[z|t] args]; simpl; try done. intros Hf.
  assert (forall (P : ascii -> Prop), Forall P ["c"; "d"; "i"; "u"; "o"; "x"; "X"; "b"; "B"; "p"] -> P ty)
    as Hcases by (intros P HP; rewrite Forall_forall in HP; auto).
  clearbody ty. clear Hin Ns. revert ty Hcases. intros ty Hcases. pattern ty. apply Hcases.
  repeat constructor; simpl; eexists _, args; (split; [done|]); intros W put s Hs;
    rewrite ?emit_number_out by done; try done; by rewrite emit_out.
Qed.

Lemma vformat_loop_out fuel cursor args :
  (length cursor < fuel)%nat -> fits (wanted fuel cursor) args = true ->
  exists t, forall W (put : W -> ascii -> W) s, is_u64 s.2 ->
    vformat_loop put fuel cursor args s = Done tt (out put t s).
Proof.
  revert cursor args. induction fuel as [|fuel IH]; intros cursor args Hlen; [lia|].
  cbn [wanted vformat_loop].
  case_bool_decide as Hnul.
  { intros _. exists []. intros W put s Hs. by rewrite out_nil. }
  destruct cursor as [|c rest]; [done|]. simpl in Hlen. cbn [peek tail] in *.
  case_bool_decide as Hpct.
  { intros Hf. destruct (IH rest args) as [t Ht]; [lia|done|]. exists (c :: t). intros W put s Hs.
    rewrite Ht by apply u64_range. by rewrite emit_out, out_app. }
  case_bool_decide as Hpp.
  { pose proof (tail_length rest). intros Hf. destruct (IH (tail rest) args) as [t Ht]; [lia|done|].
    exists ("%"%char :: t). intros W put s Hs. rewrite Ht by apply u64_range. by rewrite emit_out, out_app. }
  pose proof (parse_options_length rest) as Hl. destruct (parse_options rest) as [options c2].
  cbn [snd] in Hl. case_bool_decide as Hty.
  { intros _. exists ["%"%char]. intros W put s Hs. by rewrite emit_out. }
  intros Hf. apply convert_out in Hf as (t&args'&Hf&Hc).
  destruct (IH c2 args') as [t' Ht']; [lia|done|]. exists (t ++ t'). intros W put s Hs.
  rewrite Hc by done. rewrite Ht' by apply out_u64. by rewrite out_app.
Qed.

(** ** Properties *)

(** the digits printed for a 64-bit value in any base from 2 to 16 fit the
    scratch array, read back as the value, and have no leading zero. *)
Lemma encode_unsigned_roundtrip value base upper :
  2 <= base <= 16 -> is_u64 value ->
  let ds := encode_unsigned scratch_capacity value base upper in
  decode base (reverse ds) = value /\ (0 < length ds <= scratch_capacity)%nat /\
  (value <> 0 -> exists d rest, reverse ds = d :: rest /\ digit_value d <> 0).
Proof.
  intros Hb Hv ds. pose proof (pow_base_64 base ltac:(lia)) as Hp.
  assert (0 <= value < base ^ Z.of_nat scratch_capacity) as Hr by (unfold is_u64 in Hv; lia).
  split_and!.
  - apply encode_unsigned_decode; [done|done|unfold scratch_capacity; lia].
  - apply encode_unsigned_nonempty. unfold scratch_capacity. lia.
  - apply encode_unsigned_length; [lia|done|unfold scratch_capacity; lia].
  - intros Hn. destruct (encode_unsigned_canonical scratch_capacity value base upper)
      as (d&l&He&Hd); [done|lia|].
    exists d, (reverse l). split; [|done]. unfold ds. by rewrite He, reverse_snoc.
Qed.

Lemma encode_unsigned_roundtrip_witness :
  decode 16 (reverse (encode_unsigned scratch_capacity 0xdeadbeef 16 false)) = 0xdeadbeef.
Proof. apply (encode_unsigned_roundtrip 0xdeadbeef 16 false); [lia|split; lia]. Defined.

(** [emit_number] writes sign, radix prefix, digits and padding to any
    sink: the text is exactly as wide as requested or, when that is too
    narrow, exactly as wide as its sign, prefix and digits; unless it is
    left-aligned it ends in the digits of the value, else it ends in spaces
    after them. *)
Lemma emit_number_layout options magnitude negative base pointer :
  2 <= base <= 16 -> is_u64 magnitude -> (pointer = true -> base = 16) ->
  let ds := reverse (encode_unsigned scratch_capacity magnitude base (uppercase options)) in
  let lead := (if bool_decide (sign_of options negative = NUL) then 0 else 1)
              + Z.of_nat (length (prefix_of options base pointer)) in
  let least := (if pointer then 16 else Z.of_nat (length ds)) + lead in
  exists t, (forall W (put : W -> ascii -> W) s, is_u64 s.2 ->
      emit_number put options magnitude negative base pointer s = out put t s) /\
    Z.of_nat (length t) = Z.max least (width options) /\
    exists front, t = front ++ ds ++
      (if left_align options then replicate (Z.to_nat (width options - least)) " "%char else []).
Proof.
  intros Hb Hm Hp ds lead least.
  exists (number_text options magnitude negative base pointer).
  split; [intros; by apply emit_number_out|].
  assert (pointer = true -> (length ds <= 16)%nat) as Hds.
  { intros Hpt. unfold ds. rewrite length_reverse. rewrite (Hp Hpt) in *.
    apply encode_unsigned_length; [lia| |lia]. unfold is_u64 in Hm. change (16 ^ Z.of_nat 16) with (2 ^ 64). lia. }
  unfold number_text. fold ds. set (sign := sign_of _ _) in *. set (pre := prefix_of _ _ _) in *.
  clearbody ds sign pre. split.
  - unfold least, lead. destruct (left_align options), (zero_pad options), pointer, (bool_decide (sign = NUL));
      rewrite ?length_app, ?length_replicate; cbn [length app]; try specialize (Hds eq_refl); lia.
  - set (pad := Z.to_nat _). replace (Z.to_nat (width options - least)) with pad.
    2: { unfold pad, least, lead. do 2 f_equal. rewrite length_app. destruct pointer, (bool_decide _); simpl; lia. }
    destruct (left_align options), (zero_pad options); eexists; rewrite ?app_nil_r, ?app_assoc; reflexivity.
Qed.

Lemma emit_number_layout_witness :
  exists t, emit_number push (default_options <| width := 20 |> <| zero_pad := true |>) 4096 false 16 true ([], 0)
    = out push t ([], 0) /\ Z.of_nat (length t) = 20.
Proof.
  destruct (emit_number_layout (default_options <| width := 20 |> <| zero_pad := true |>) 4096 false 16 true)
    as (t&Ht&Hl&_); [lia|split; lia|reflexivity|].
  exists t. split; [apply Ht; split; simpl; lia|]. rewrite Hl. vm_compute. reflexivity.
Defined.
