(* ===== verification/FormatSpec.v ===== *)
(** * What a format string describes

    A specification of [lib/format.cpp] that does not mention its parser, its
    scratch array or its padding arithmetic.  A [description] is a format
    string with its arguments in structured form; [format_of] and [args_of]
    give the string and the arguments, [render] the text they denote.  Numbers
    are written by positional weights, arguments are reduced to the width of
    their length modifier.  The theorem at the end: [vformat] writes exactly
    [render], for every description, and every format string with fitting
    arguments has a description. *)
From stdpp Require Import base tactics list sets strings.
From Stdlib Require Import ZArith Lia Ascii.
From S2P Require Import Prelude Format.
Local Open Scope char_scope.
Local Open Scope list_scope.
Local Open Scope Z_scope.

(** ** Descriptions *)

Inductive flag := Alternate | Zero | Left | Plus | Space.
#[export] Instance flag_eq_dec : EqDecision flag.
Proof. solve_decision. Defined.

(** A conversion with its argument; [Signed true] is [%i].  [Other] is a letter
    that is no conversion. *)
Inductive conversion :=
  | Char (z : Z) | Str (t : option (list ascii)) | Signed (i : bool) (z : Z) | Unsigned (z : Z)
  | Octal (z : Z) | Hex (upper : bool) (z : Z) | Binary (upper : bool) (z : Z) | Pointer (z : Z)
  | Other (ty : ascii).

(** What stands between the percent sign and the conversion letter. *)
Record modifiers := Modifiers { flags : list flag; width_digits : list ascii; size : Length.t }.

Inductive item := Lit (c : ascii) | Percent | Conv (m : modifiers) (cv : conversion).

(** The items, and possibly an unfinished conversion at the end. *)
Record description := Description { items : list item; dangling : option modifiers }.

(** ** Their written form *)

Definition flag_char (f : flag) : ascii :=
  match f with Alternate => "#" | Zero => "0" | Left => "-" | Plus => "+" | Space => " " end.

Definition size_text (l : Length.t) : list ascii :=
  match l with
  | Length.normal => [] | Length.char_width => ["h"; "h"] | Length.short_width => ["h"]
  | Length.long_width => ["l"] | Length.long_long_width => ["l"; "l"]
  | Length.size_width => ["z"] | Length.ptrdiff_width => ["t"]
  end.

Definition letter (cv : conversion) : ascii :=
  match cv with
  | Char _ => "c" | Str _ => "s" | Signed i _ => if i then "i" else "d" | Unsigned _ => "u"
  | Octal _ => "o" | Hex up _ => if up then "X" else "x" | Binary up _ => if up then "B" else "b"
  | Pointer _ => "p" | Other ty => ty
  end.

Definition modifiers_text (m : modifiers) : list ascii :=
  (flag_char <$> flags m) ++ width_digits m ++ size_text (size m).

Definition item_text (i : item) : list ascii :=
  match i with
  | Lit c => [c] | Percent => ["%"; "%"]
  | Conv m cv => "%" :: modifiers_text m ++ [letter cv]
  end.

Definition dangling_text (o : option modifiers) : list ascii :=
  match o with None => [] | Some m => "%" :: modifiers_text m end.

Definition format_of (d : description) : list ascii :=
  (items d ≫= item_text) ++ dangling_text (dangling d).

Definition conversion_args (cv : conversion) : list arg :=
  match cv with
  | Char z | Signed _ z | Unsigned z | Octal z | Hex _ z | Binary _ z | Pointer z => [AWord z]
  | Str t => [AText t]
  | Other _ => []
  end.

Definition item_args (i : item) : list arg :=
  match i with Conv _ cv => conversion_args cv | _ => [] end.

Definition args_of (d : description) : list arg := items d ≫= item_args.

(** ** The text they denote *)

(** Number of digits of [v]: one, and one more for each power it reaches. *)
Definition digit_count (base v : Z) : nat :=
  S (length (filter (fun i : nat => base ^ Z.of_nat i <= v) (seq 1 63))).

Definition digit_char (upper : bool) (d : Z) : ascii :=
  ascii_of_nat (Z.to_nat (if d <? 10 then 48 + d else (if upper then 65 else 97) + (d - 10))).

(** The numeral of [v]: the digit of weight [base ^ i] for each [i], from the
    left. *)
Definition numeral (base : Z) (upper : bool) (v : Z) : list ascii :=
  (fun i : nat => digit_char upper (v / base ^ Z.of_nat i mod base)) <$> reverse (seq 0 (digit_count base v)).

Definition bits (l : Length.t) : Z :=
  match l with
  | Length.char_width => 8 | Length.short_width => 16 | Length.normal => 32 | _ => 64
  end.

Definition unsigned_value (l : Length.t) (z : Z) : Z := z mod 2 ^ bits l.
Definition signed_value (l : Length.t) (z : Z) : Z :=
  let v := unsigned_value l z in if v <? 2 ^ (bits l - 1) then v else v - 2 ^ bits l.

Definition has (m : modifiers) (f : flag) : bool := bool_decide (f ∈ flags m).

(** A field at least as wide as asked for. *)
Definition field (m : modifiers) (lead body : list ascii) : list ascii :=
  let pad := Z.to_nat (decode 10 (width_digits m) mod 2 ^ 64 - Z.of_nat (length (lead ++ body))) in
  if has m Left then lead ++ body ++ replicate pad " "
  else if has m Zero then lead ++ replicate pad "0" ++ body
  else replicate pad " " ++ lead ++ body.

Definition sign_text (m : modifiers) (negative : bool) : list ascii :=
  if negative then ["-"] else if has m Plus then ["+"] else if has m Space then [" "] else [].

Definition radix_text (m : modifiers) (prefix : list ascii) : list ascii :=
  if has m Alternate then prefix else [].

Definition render_conversion (m : modifiers) (cv : conversion) : list ascii :=
  let unsigned base upper prefix z :=
    field m (sign_text m false ++ radix_text m prefix) (numeral base upper (unsigned_value (size m) z)) in
  match cv with
  | Char z => [ascii_of_nat (Z.to_nat (z mod 256))]
  | Str t => c_text (default (text "(null)") t)
  | Signed _ z =>
      let v := signed_value (size m) z in field m (sign_text m (v <? 0)) (numeral 10 false (Z.abs v))
  | Unsigned z => unsigned 10 false [] z
  | Octal z => unsigned 8 false ["0"] z
  | Hex up z => unsigned 16 up ["0"; if up then "X" else "x"] z
  | Binary up z => unsigned 2 up ["0"; if up then "B" else "b"] z
  | Pointer z =>
      let digits := numeral 16 false (z mod 2 ^ 64) in
      field m (sign_text m false ++ ["0"; "x"]) (replicate (16 - length digits) "0" ++ digits)
  | Other ty => ["%"; ty]
  end.

Definition render_item (i : item) : list ascii :=
  match i with Lit c => [c] | Percent => ["%"] | Conv m cv => render_conversion m cv end.

Definition render (d : description) : list ascii :=
  (items d ≫= render_item) ++ match dangling d with Some _ => ["%"] | None => [] end.

(** ** Well-formed descriptions

    The written form must be read back the way it was meant: a letter does not
    continue the modifiers before it. *)

Definition flag_chars : list ascii := ["#"; "0"; "-"; "+"; " "].
Definition letters : list ascii := ["c"; "s"; "d"; "i"; "u"; "o"; "x"; "X"; "b"; "B"; "p"].

Definition continues (m : modifiers) (ty : ascii) : bool :=
  match size m with
  | Length.normal =>
      bool_decide (ty ∈ ["h"; "l"; "z"; "t"]) || is_digit ty
      || match width_digits m with
         | [] => bool_decide (ty ∈ flag_chars) || match flags m with [] => bool_decide (ty = "%") | _ => false end
         | _ => false
         end
  | Length.short_width => bool_decide (ty = "h")
  | Length.long_width => bool_decide (ty = "l")
  | _ => false
  end.

(** A width is decimal digits; a leading zero would be a flag. *)
Definition modifiers_ok (m : modifiers) : bool :=
  forallb is_digit (width_digits m) && bool_decide (head (width_digits m) <> Some "0"%char).

Definition item_ok (i : item) : bool :=
  match i with
  | Lit c => bool_decide (c ∉ [NUL; "%"])
  | Percent => true
  | Conv m cv =>
      modifiers_ok m && negb (continues m (letter cv))
      && match cv with Other ty => bool_decide (ty ∉ NUL :: letters) | _ => true end
  end.

Definition description_ok (d : description) : bool :=
  forallb item_ok (items d) && match dangling d with Some m => modifiers_ok m | None => true end.

(** ** Numerals *)

Section numerals.
Context (base : Z) (upper : bool) (base_range : 2 <= base <= 16).

Lemma digit_char_nth n :
  (n < 16)%nat -> nth n (if upper then upper_digits else lower_digits) NUL = digit_char upper (Z.of_nat n).
Proof using. intros Hn. do 16 (destruct n as [|n]; [by destruct upper|]). lia. Qed.

(** [v] has exactly [n] digits. *)
Definition spans (n : nat) (v : Z) : Prop :=
  (0 < n)%nat /\ v < base ^ Z.of_nat n /\ (n = 1%nat \/ base ^ Z.of_nat (n - 1) <= v).

Lemma spans_exists room v :
  (0 < room)%nat -> 0 <= v < base ^ Z.of_nat room -> exists n, (n <= room)%nat /\ spans n v.
Proof using.
  intros Hr. induction room as [|room IH]; [exfalso; clear -Hr; lia|]. intros Hv. destruct room as [|room].
  { exists 1%nat. unfold spans. split_and!; [lia|lia|apply Hv|by left]. }
  destruct (decide (v < base ^ Z.of_nat (S room))) as [Hlt|Hge].
  - destruct IH as (n&Hn&Hs); [clear; lia|split; [apply Hv|exact Hlt]|]. exists n. split; [clear -Hn; lia|done].
  - exists (S (S room)). split; [done|]. unfold spans. split_and!; [clear; lia|apply Hv|right].
    rewrite Nat.sub_1_r. cbn [Nat.pred]. by apply Z.nlt_ge.
Qed.

Lemma spans_count n v : (n <= 64)%nat -> spans n v -> digit_count base v = n.
Proof using base_range.
  intros Hn (Hpos&Hlt&Hge). unfold digit_count.
  replace (seq 1 63) with (seq 1 (n - 1) ++ seq n (64 - n)).
  2: { replace 63%nat with ((n - 1) + (64 - n))%nat by lia. rewrite seq_app. do 2 f_equal; lia. }
  rewrite filter_app, length_app.
  rewrite (filter_all_in _ (seq 1 (n - 1))), (filter_all_out _ (seq n (64 - n))).
  - rewrite length_seq. simpl. lia.
  - intros i Hi%elem_of_seq. apply Z.nle_gt.
    eapply Z.lt_le_trans; [exact Hlt|]. apply Z.pow_le_mono_r; lia.
  - intros i Hi%elem_of_seq. destruct Hge as [->|Hge]; [lia|].
    etrans; [|exact Hge]. apply Z.pow_le_mono_r; lia.
Qed.

(** The encoder's loop writes the digits by weight, least significant first. *)
Lemma encode_unsigned_weights room n v :
  (n <= room)%nat -> 0 <= v -> spans n v ->
  encode_unsigned room v base upper =
    (fun i : nat => digit_char upper (v / base ^ Z.of_nat i mod base)) <$> seq 0 n.
Proof using base_range.
  revert n v. induction room as [|room IH]; intros n v Hn Hv (Hpos&Hlt&Hge); [lia|].
  cbn [encode_unsigned]. destruct n as [|n]; [lia|]. cbn [seq fmap list_fmap].
  pose proof (Z.mod_pos_bound v base ltac:(lia)) as Hm.
  rewrite digit_char_nth, Z2Nat.id, Z.div_1_r by (simpl; lia). f_equal.
  rewrite <- fmap_S_seq, <- list_fmap_compose.
  destruct n as [|n].
  { rewrite (Z.div_small v base); [done|]. rewrite Z.pow_1_r in Hlt. lia. }
  destruct Hge as [?|Hge]; [done|]. rewrite Nat.sub_1_r in Hge. cbn [Nat.pred] in Hge.
  rewrite Nat2Z.inj_succ, Z.pow_succ_r in Hlt, Hge by lia.
  assert (base ^ Z.of_nat n <= v / base) as Hq by (apply Z.div_le_lower_bound; lia).
  assert (0 < base ^ Z.of_nat n) by (apply Z.pow_pos_nonneg; lia).
  destruct (Z.eqb_spec (v / base) 0); [lia|].
  rewrite (IH (S n)).
  - apply list_fmap_ext. intros _ i _. cbn. rewrite Z.div_div by (try apply Z.pow_nonzero; lia).
    do 3 f_equal. rewrite Nat2Z.inj_succ, Z.pow_succ_r by lia. done.
  - lia.
  - lia.
  - split_and!; [lia|apply Z.div_lt_upper_bound; lia|right]. by rewrite Nat.sub_1_r.
Qed.

Lemma numeral_encode v : is_u64 v -> reverse (encode_unsigned scratch_capacity v base upper) = numeral base upper v.
Proof using base_range.
  intros Hv. pose proof (pow_base_64 base ltac:(lia)) as Hp. unfold is_u64 in Hv.
  destruct (spans_exists scratch_capacity v) as (n&Hn&Hs); [unfold scratch_capacity; lia|lia|].
  unfold numeral. rewrite (spans_count n v), (encode_unsigned_weights _ n v) by (try apply Hs; done || lia).
  by rewrite fmap_reverse.
Qed.
End numerals.

(** ** Reading the modifiers *)

(** The options [parse_options] has to find. *)
Definition options_of (m : modifiers) (ty : ascii) : Options :=
  mkOptions (has m Alternate) (has m Zero) (has m Left) (has m Plus) (has m Space)
    (bool_decide (ty = "X"%char)) (u64 (decode 10 (width_digits m))) (size m) ty.

Definition add_flags (fs : list flag) (o : Options) : Options :=
  let on f := bool_decide (f ∈ fs) in
  mkOptions (on Alternate || alternate o) (on Zero || zero_pad o) (on Left || left_align o)
    (on Plus || plus_sign o) (on Space || space_sign o) (uppercase o) (width o) (opt_length o) (type o).

Lemma on_cons (f g : flag) fs : bool_decide (f ∈ g :: fs) = bool_decide (f = g) || bool_decide (f ∈ fs).
Proof. rewrite <- bool_decide_or. apply bool_decide_ext, elem_of_cons. Qed.

Lemma add_flags_cons f fs o : add_flags (f :: fs) o = add_flags fs (add_flags [f] o).
Proof.
  unfold add_flags. destruct o; simpl.
  rewrite !on_cons, !(bool_decide_false (_ ∈ [])) by apply not_elem_of_nil.
  destruct f; cbn; repeat (destruct (bool_decide (_ ∈ fs)); simpl); done.
Qed.

Lemma parse_flags_written fs rest o :
  peek rest ∉ flag_chars -> parse_flags o ((flag_char <$> fs) ++ rest) = (add_flags fs o, rest).
Proof.
  intros Hr. revert o. induction fs as [|f fs IH]; intros o.
  - assert (add_flags [] o = o) as -> by (by destruct o).
    destruct rest as [|c rest]; [done|]. cbn [peek] in Hr. cbn [fmap list_fmap app parse_flags].
    repeat rewrite bool_decide_false by (intros ->; apply Hr; repeat constructor). done.
  - rewrite add_flags_cons, <- IH. destruct o, f; done.
Qed.

Lemma digit_decimal c : is_digit c = true -> digit_value c = code c - code "0".
Proof. unfold digit_value. by intros ->. Qed.

Lemma parse_width_written ds rest o :
  forallb is_digit ds = true -> is_digit (peek rest) = false -> is_u64 (width o) ->
  parse_width o (ds ++ rest) =
    (o <| width := u64 (foldl (fun acc c => acc * 10 + digit_value c) (width o) ds) |>, rest).
Proof.
  intros Hds Hr. revert o. induction ds as [|d ds IH]; intros o Ho; cbn [forallb app foldl parse_width] in *.
  - rewrite u64_small by done. assert (o <| width := width o |> = o) as -> by (by destruct o).
    destruct rest as [|c rest]; [done|]. cbn [peek parse_width] in *. by rewrite Hr.
  - apply andb_true_iff in Hds as [Hd Hds]. rewrite Hd, IH by (done || apply u64_range).
    destruct o; simpl. do 2 f_equal. rewrite (digit_decimal d) by done.
    clear IH Ho. set (x := width * 10 + _). clearbody x. clear Hd width.
    revert x. induction ds as [|d' ds IH]; intros x; simpl; [apply u64_u64|].
    apply andb_true_iff in Hds as [_ Hds]. rewrite <- IH by done. rewrite <- (IH Hds (x * 10 + _)).
    do 2 f_equal. unfold u64. rewrite <- Zplus_mod_idemp_l, Zmult_mod_idemp_l, Zplus_mod_idemp_l. done.
Qed.

Lemma parse_length_written m rest o :
  size m = Length.normal -> opt_length o = Length.normal -> continues m (peek rest) = false ->
  parse_length o rest = (o, rest).
Proof.
  intros Hs Ho. unfold continues. rewrite Hs. rewrite !orb_false_iff. intros [[H _] _].
  apply bool_decide_eq_false in H. unfold parse_length.
  repeat rewrite bool_decide_false by (intros E; apply H; rewrite E; repeat constructor). done.
Qed.

Lemma parse_size_written m rest o :
  opt_length o = Length.normal -> continues m (peek rest) = false ->
  parse_length o (size_text (size m) ++ rest) = (o <| opt_length := size m |>, rest).
Proof.
  intros Ho Hc. destruct (size m) eqn:E; cbn [size_text app].
  1: { rewrite (parse_length_written m) by done. f_equal. by destruct o; simpl in *; subst. }
  all: unfold parse_length; simpl; try done.
  all: unfold continues in Hc; rewrite E in Hc; apply bool_decide_eq_false in Hc; by rewrite bool_decide_false.
Qed.

Lemma not_flag_char c : is_digit c = true -> c <> "0" -> c ∉ flag_chars.
Proof.
  intros Hd H0 Hin. unfold flag_chars in Hin.
  repeat (apply elem_of_cons in Hin as [->|Hin]; [done|]). by apply elem_of_nil in Hin.
Qed.

(** The character after the flags, and the one after the width. *)
Lemma after_flags m rest :
  modifiers_ok m = true -> continues m (peek rest) = false ->
  peek (width_digits m ++ size_text (size m) ++ rest) ∉ flag_chars.
Proof.
  unfold modifiers_ok. intros [Hd H0]%andb_true_iff Hc. apply bool_decide_eq_true in H0.
  unfold continues in Hc.
  destruct (width_digits m) as [|d ds]; simpl in *.
  - destruct (size m); simpl in *; try (by apply (bool_decide_unpack _)).
    rewrite !orb_false_iff in Hc. destruct Hc as (_&Hc&_). by apply bool_decide_eq_false in Hc.
  - apply andb_true_iff in Hd as [Hd _]. apply not_flag_char; [done|congruence].
Qed.

Lemma after_width m rest :
  continues m (peek rest) = false -> is_digit (peek (size_text (size m) ++ rest)) = false.
Proof.
  unfold continues. destruct (size m); simpl; try done.
  rewrite !orb_false_iff. tauto.
Qed.

Lemma parse_options_written m rest :
  modifiers_ok m = true -> continues m (peek rest) = false ->
  parse_options (modifiers_text m ++ rest) =
    (options_of m (peek rest), if bool_decide (peek rest = NUL) then rest else tail rest).
Proof.
  intros Hm Hc. unfold parse_options, modifiers_text. rewrite <- !app_assoc.
  rewrite parse_flags_written by by apply after_flags.
  pose proof (proj1 (proj1 (andb_true_iff _ _) Hm)) as Hd.
  rewrite parse_width_written by (exact Hd || by apply after_width || (split; simpl; lia)).
  rewrite parse_size_written by done. unfold options_of, has, decode. simpl.
  rewrite !orb_false_r. case_bool_decide; done.
Qed.

(** ** Writing a conversion *)

(** The layout [emit_number] produces is a field. *)
Lemma number_text_field m ty alt up magnitude negative base pointer :
  2 <= base <= 16 -> is_u64 magnitude -> (pointer = true -> base = 16) ->
  let o := (options_of m ty) <| alternate := alt |> <| uppercase := up |> in
  number_text o magnitude negative base pointer =
    field m (sign_text m negative ++ prefix_of o base pointer)
      ((if pointer then replicate (16 - length (numeral base up magnitude)) "0"%char else [])
       ++ numeral base up magnitude).
Proof.
  intros Hb Hm Hp o. unfold number_text. change (uppercase o) with up.
  rewrite numeral_encode by done.
  assert (pointer = true -> (length (numeral base up magnitude) <= 16)%nat) as Hlen.
  { intros E. rewrite <- numeral_encode, length_reverse by done. rewrite (Hp E) in *.
    apply encode_unsigned_length; [lia| |lia]. exact Hm. }
  set (ds := numeral _ _ _) in *. clearbody ds.
  replace (if bool_decide (sign_of o negative = NUL) then [] else [sign_of o negative])
    with (sign_text m negative).
  2: { unfold sign_text, sign_of, o, options_of; simpl. destruct negative, (has m Plus), (has m Space); done. }
  set (lead := sign_text _ _ ++ _). clearbody lead. unfold field.
  change (left_align o) with (has m Left). change (zero_pad o) with (has m Zero).
  change (width o) with (u64 (decode 10 (width_digits m))).
  set (zeros := if pointer then _ else _).
  replace ((if pointer then 16%nat else length ds) + length lead)%nat with (length (lead ++ zeros ++ ds)).
  2: { unfold zeros. rewrite !length_app. destruct pointer; simpl; [|lia].
       rewrite length_replicate. specialize (Hlen eq_refl). lia. }
  fold (u64 (decode 10 (width_digits m))). set (pad := Z.to_nat _). clearbody pad.
  destruct (has m Left), (has m Zero); rewrite <- ?app_assoc; try done.
  f_equal. rewrite !app_assoc. f_equal. unfold zeros. destruct pointer; [|by rewrite app_nil_r].
  by rewrite <- !replicate_add, Nat.add_comm.
Qed.

Lemma prefix_of_radix m ty up base :
  prefix_of ((options_of m ty) <| alternate := has m Alternate |> <| uppercase := up |>) base false =
  radix_text m (if base =? 16 then ["0"; if up then "X" else "x"]
                else if base =? 8 then ["0"] else if base =? 2 then ["0"; if up then "B" else "b"] else []).
Proof. done. Qed.

Lemma unsigned_value_u64 l z : is_u64 (unsigned_value l z).
Proof.
  unfold unsigned_value, is_u64. pose proof (Z.mod_pos_bound z (2 ^ bits l)).
  destruct l; simpl in *; lia.
Qed.

Lemma read_unsigned_value l z args : read_unsigned l (AWord z :: args) = Some (unsigned_value l z, args).
Proof. unfold read_unsigned, unsigned_value. simpl. do 2 f_equal. destruct l; simpl; word_lia. Qed.

Lemma read_signed_value l z args : read_signed l (AWord z :: args) = Some (signed_value l z, args).
Proof. by destruct l. Qed.

Lemma signed_value_range l z : - 2 ^ 63 <= signed_value l z < 2 ^ 63.
Proof.
  unfold signed_value, unsigned_value. pose proof (Z.mod_pos_bound z (2 ^ bits l)).
  case_match; destruct l; simpl in *; lia.
Qed.

Lemma magnitude_abs v :
  - 2 ^ 63 <= v < 2 ^ 63 -> (if v <? 0 then u64 (0 - u64 v) else u64 v) = Z.abs v.
Proof. intros Hv. destruct (Z.ltb_spec v 0); word_lia. Qed.

Section writing.
Context {W : Type} (put : W -> ascii -> W).

Lemma emit_number_field m ty alt up v negative base pointer (s : W * Z) :
  2 <= base <= 16 -> is_u64 v -> (pointer = true -> base = 16) -> is_u64 s.2 ->
  let o := (options_of m ty) <| alternate := alt |> <| uppercase := up |> in
  emit_number put o v negative base pointer s =
    out put (field m (sign_text m negative ++ prefix_of o base pointer)
      ((if pointer then replicate (16 - length (numeral base up v)) "0"%char else []) ++ numeral base up v)) s.
Proof. intros. rewrite emit_number_out by done. unfold o. by rewrite number_text_field. Qed.

Lemma convert_unsigned m ty up base z args (s : W * Z) :
  2 <= base <= 16 -> is_u64 s.2 ->
  ('(value, rest) ← read_unsigned (size m) (AWord z :: args);
   Some (emit_number put ((options_of m ty) <| uppercase := up |>) value false base false s, rest)) =
  Some (out put (field m (sign_text m false ++ prefix_of ((options_of m ty) <| uppercase := up |>) base false)
    (numeral base up (unsigned_value (size m) z))) s, args).
Proof.
  intros Hb Hs. rewrite read_unsigned_value. simpl. do 2 f_equal.
  apply (emit_number_field m ty (has m Alternate) up); [done|apply unsigned_value_u64|done|done].
Qed.

Lemma convert_signed m ty i z args (s : W * Z) :
  ty <> "X" -> is_u64 s.2 ->
  ('(value, rest) ← read_signed (size m) (AWord z :: args);
   let negative := value <? 0 in
   let magnitude := if negative then u64 (0 - u64 value) else u64 value in
   Some (emit_number put (options_of m ty) magnitude negative 10 false s, rest)) =
  Some (out put (render_conversion m (Signed i z)) s, args).
Proof.
  intros Hty Hs. rewrite read_signed_value. simpl. pose proof (signed_value_range (size m) z) as Hr.
  rewrite magnitude_abs by done. do 2 f_equal.
  pose proof (emit_number_field m ty (has m Alternate) false (Z.abs (signed_value (size m) z))
    (signed_value (size m) z <? 0) 10 false s ltac:(lia) ltac:(word_lia) ltac:(done) Hs) as He.
  unfold options_of at 1. rewrite (bool_decide_false (ty = _)) by done. etrans; [exact He|].
  do 2 f_equal. unfold prefix_of. simpl. destruct (has m Alternate); apply app_nil_r.
Qed.

(** Converts and consumes one conversion's arguments. *)
Lemma convert_written m cv args (s : W * Z) :
  (forall ty, cv = Other ty -> ty ∉ NUL :: letters) -> is_u64 s.2 ->
  convert put (options_of m (letter cv)) (conversion_args cv ++ args) s =
    Some (out put (render_conversion m cv) s, args).
Proof.
  intros Hother Hs.
  destruct cv as [z|t|i z|z|z|up z|up z|z|ty]; cbn [conversion_args app].
  9: { specialize (Hother ty eq_refl). unfold convert. cbn [letter type options_of].
       repeat rewrite bool_decide_false by (intros E; apply Hother; rewrite E; repeat constructor).
       simpl. by rewrite !emit_out, out_app. }
  - done.
  - unfold convert. simpl. unfold emit_text. by rewrite emit_chars_out.
  - destruct i; by apply convert_signed.
  - apply (convert_unsigned m "u" false 10); [lia|done].
  - apply (convert_unsigned m "o" false 8); [lia|done].
  - destruct up; [apply (convert_unsigned m "X" true 16)|apply (convert_unsigned m "x" false 16)]; (lia || done).
  - destruct up; [apply (convert_unsigned m "B" true 2)|apply (convert_unsigned m "b" false 2)]; (lia || done).
  - apply (f_equal (fun x => Some (x, args))).
    apply (emit_number_field m "p" true false (u64 z) false 16 true); [lia|apply u64_range|done|done].
Qed.
End writing.

(** ** The scanning loop *)

Lemma modifiers_not_percent m rest :
  modifiers_ok m = true -> continues m (peek rest) = false -> peek (modifiers_text m ++ rest) <> "%".
Proof.
  unfold modifiers_ok, continues, modifiers_text. destruct m as [fs ds l]; cbn [flags width_digits size].
  intros [Hd _]%andb_true_iff Hc. destruct fs as [|f fs]; [|by destruct f].
  destruct ds as [|d ds]; simpl in *.
  - destruct l; try done. rewrite !orb_false_iff in Hc. destruct Hc as (_&_&Hc).
    by apply bool_decide_eq_false in Hc.
  - apply andb_true_iff in Hd as [Hd _]. intros ->. done.
Qed.

Lemma continues_end m : continues m NUL = false.
Proof. unfold continues. by destruct (size m), (width_digits m), (flags m). Qed.

Lemma letter_not_nul m cv : item_ok (Conv m cv) = true -> letter cv <> NUL.
Proof.
  intros [_ Ho]%andb_true_iff. destruct cv as [| |[]| | |[]|[]| |]; try done.
  apply bool_decide_eq_true in Ho. intros E. apply Ho. simpl in E. rewrite E. left.
Qed.

Section scanning.
Context {W : Type} (put : W -> ascii -> W).
Implicit Types s : W * Z.

Lemma vformat_loop_conversion m cv rest args fuel s :
  item_ok (Conv m cv) = true -> is_u64 s.2 ->
  vformat_loop put (S fuel) (item_text (Conv m cv) ++ rest) (conversion_args cv ++ args) s =
    vformat_loop put fuel rest args (out put (render_conversion m cv) s).
Proof.
  intros Hok Hs. pose proof (letter_not_nul m cv Hok) as Hnul.
  apply andb_true_iff in Hok as [[Hm Hc%negb_true_iff]%andb_true_iff Ho].
  cbn [item_text]. rewrite <- app_comm_cons, <- app_assoc. cbn [app vformat_loop peek tail].
  rewrite bool_decide_false, (bool_decide_false (_ <> _)) by (intros E; (done || by apply E)).
  rewrite bool_decide_false by by apply modifiers_not_percent.
  rewrite parse_options_written by done. cbn [peek tail].
  rewrite (bool_decide_false (letter cv = NUL)) by done. simpl.
  rewrite (bool_decide_false (letter cv = NUL)) by done.
  rewrite convert_written; [done| |done].
  intros ty ->. by apply bool_decide_eq_true in Ho.
Qed.

Lemma vformat_loop_item i rest args fuel s :
  item_ok i = true -> is_u64 s.2 ->
  vformat_loop put (S fuel) (item_text i ++ rest) (item_args i ++ args) s =
    vformat_loop put fuel rest args (out put (render_item i) s).
Proof.
  intros Hi Hs. destruct i as [c| |m cv]; [|done|by apply vformat_loop_conversion].
  apply bool_decide_eq_true in Hi. simpl.
  rewrite bool_decide_false, bool_decide_true by (intros ->; apply Hi; repeat constructor). done.
Qed.

Lemma vformat_loop_dangling o args fuel s :
  match o with Some m => modifiers_ok m | None => true end = true -> is_u64 s.2 ->
  vformat_loop put (S fuel) (dangling_text o) args s =
    Done tt (out put (match o with Some _ => ["%"%char] | None => [] end) s).
Proof.
  intros Ho Hs. destruct o as [m|]; [|simpl; by rewrite out_nil].
  cbn [dangling_text vformat_loop peek tail].
  rewrite bool_decide_false, (bool_decide_false (_ <> _)) by (intros E; (done || by apply E)).
  pose proof (continues_end m) as Hc. rewrite <- (app_nil_r (modifiers_text m)).
  rewrite bool_decide_false by by apply modifiers_not_percent.
  by rewrite parse_options_written.
Qed.

Lemma item_text_length i : (0 < length (item_text i))%nat.
Proof. destruct i; simpl; lia. Qed.

Lemma vformat_loop_renders d extra fuel s :
  description_ok d = true -> is_u64 s.2 -> (length (format_of d) < fuel)%nat ->
  vformat_loop put fuel (format_of d) (args_of d ++ extra) s = Done tt (out put (render d) s).
Proof.
  destruct d as [its o]. unfold description_ok, format_of, args_of, render. simpl.
  intros [Hok Ho]%andb_true_iff. revert fuel s. induction its as [|i its IH]; intros fuel s Hs Hf; csimpl in *.
  - destruct fuel; [lia|]. by apply vformat_loop_dangling.
  - apply andb_true_iff in Hok as [Hi Hok]. rewrite <- !app_assoc in *. rewrite length_app in Hf.
    pose proof (item_text_length i). destruct fuel as [|fuel]; [lia|].
    rewrite vformat_loop_item by done. rewrite IH by (done || apply out_u64 || lia). by rewrite out_app.
Qed.
End scanning.

(** ** Every format string has a description *)

Lemma flags_split c : exists fs rest, c = (flag_char <$> fs) ++ rest /\ peek rest ∉ flag_chars.
Proof.
  induction c as [|a c (fs&rest&->&Hr)].
  { exists [], []. split; [done|]. by apply (bool_decide_unpack _). }
  destruct (decide (a ∈ flag_chars)) as [Ha|]; [|by exists [], (a :: (flag_char <$> fs) ++ rest)].
  assert (exists f, a = flag_char f) as [f ->].
  { unfold flag_chars in Ha. set_unfold.
    destruct_or! Ha; [by exists Alternate|by exists Zero|by exists Left|by exists Plus|by exists Space]. }
  by exists (f :: fs), rest.
Qed.

Lemma width_split c :
  exists ds rest, c = ds ++ rest /\ forallb is_digit ds = true /\ is_digit (peek rest) = false.
Proof.
  induction c as [|a c (ds&rest&->&Hd&Hr)]; [by exists [], []|].
  destruct (is_digit a) eqn:Ha; [|by exists [], (a :: ds ++ rest)].
  exists (a :: ds), rest. simpl. by rewrite Ha.
Qed.

Lemma size_split c :
  exists l rest, c = size_text l ++ rest /\
    match l with
    | Length.normal => peek rest ∉ ["h"; "l"; "z"; "t"]
    | Length.short_width => peek rest <> "h"
    | Length.long_width => peek rest <> "l"
    | _ => True
    end.
Proof.
  destruct (decide (peek c ∈ ["h"; "l"; "z"; "t"])) as [Hin|]; [|by exists Length.normal, c].
  destruct c as [|a c]; [by apply (bool_decide_pack _) in Hin|]. cbn [peek] in Hin. set_unfold in Hin.
  destruct_or! Hin; subst; try done.
  - destruct (decide (peek c = "h")); [|by exists Length.short_width, c].
    destruct c as [|b c]; [done|]. simpl in *. subst. by exists Length.char_width, c.
  - destruct (decide (peek c = "l")); [|by exists Length.long_width, c].
    destruct c as [|b c]; [done|]. simpl in *. subst. by exists Length.long_long_width, c.
  - by exists Length.size_width, c.
  - by exists Length.ptrdiff_width, c.
Qed.

Lemma modifiers_split c :
  peek c <> "%" ->
  exists m rest, c = modifiers_text m ++ rest /\ modifiers_ok m = true /\ continues m (peek rest) = false.
Proof.
  intros Hpct. destruct (flags_split c) as (fs&c1&->&Hfs).
  destruct (width_split c1) as (ds&c2&->&Hds&Hd). destruct (size_split c2) as (l&rest&->&Hl).
  exists (Modifiers fs ds l), rest. unfold modifiers_text, modifiers_ok, continues. simpl.
  split_and!; [by rewrite <- !app_assoc| |].
  - rewrite Hds. apply bool_decide_eq_true. destruct ds as [|d ds]; [done|]. intros [= ->].
    apply Hfs. right. left.
  - destruct l; try done; [|by apply bool_decide_eq_false..]. simpl in *.
    rewrite Hd, (bool_decide_false (peek rest ∈ _)) by done. simpl. destruct ds; [|done].
    rewrite bool_decide_false by done. simpl. destruct fs; [|done]. by apply bool_decide_eq_false.
Qed.

(** The conversion a letter asks for, given fitting arguments. *)
Lemma conversion_of m ty ks args :
  ty <> NUL -> modifiers_ok m = true -> continues m ty = false -> fits (kind_of ty :: ks) args = true ->
  exists cv args', letter cv = ty /\ item_ok (Conv m cv) = true /\
    args = conversion_args cv ++ args' /\ fits ks args' = true.
Proof.
  intros Hnul Hm Hc. unfold kind_of.
  destruct (decide (ty = "s")) as [->|Hs].
  { destruct args as [|[z|t] args]; try done. intros Hf. exists (Str t), args.
    cbn [item_ok letter]. by rewrite Hm, Hc. }
  rewrite (bool_decide_false (ty = "s")) by done. case_bool_decide as Hin.
  - destruct args as [|[z|t] args]; try done. intros Hf.
    assert (exists cv, letter cv = ty /\ conversion_args cv = [AWord z] /\
      match cv with Other _ => False | _ => True end) as (cv&Hl&Ha&Ho).
    { set_unfold in Hin. destruct_or! Hin; subst; try done.
      - by exists (Char z).
      - by exists (Signed false z).
      - by exists (Signed true z).
      - by exists (Unsigned z).
      - by exists (Octal z).
      - by exists (Hex false z).
      - by exists (Hex true z).
      - by exists (Binary false z).
      - by exists (Binary true z).
      - by exists (Pointer z). }
    exists cv, args. cbn [item_ok]. rewrite Ha, Hm, Hl, Hc. by destruct cv.
  - intros Hf. exists (Other ty), args. cbn [item_ok letter]. rewrite Hm, Hc.
    split_and!; [done| |done|done]. apply bool_decide_eq_true. unfold letters. set_unfold. tauto.
Qed.

Lemma description_exists fuel f args :
  NUL ∉ f -> (length f < fuel)%nat -> fits (wanted fuel f) args = true ->
  exists d extra, description_ok d = true /\ f = format_of d /\ args = args_of d ++ extra.
Proof.
  revert f args. induction fuel as [|fuel IH]; intros f args Hnul Hlen; [lia|]. cbn [wanted].
  destruct f as [|c f]; [by exists (Description [] None), args|]. cbn [peek tail].
  apply not_elem_of_cons in Hnul as [Hc Hnul]. simpl in Hlen.
  assert (forall i, item_ok i = true -> forall rest args', (length rest < fuel)%nat -> NUL ∉ rest ->
    fits (wanted fuel rest) args' = true -> exists d extra, description_ok d = true /\
      item_text i ++ rest = format_of d /\ item_args i ++ args' = args_of d ++ extra) as Hstep.
  { intros i Hi rest args' Hl Hn Hf. destruct (IH rest args') as ([its o]&extra&Hd&->&->); [done|lia|done|].
    exists (Description (i :: its) o), extra. unfold description_ok, format_of, args_of in *. csimpl in *.
    rewrite Hi, <- !app_assoc. done. }
  rewrite bool_decide_false by done. case_bool_decide as Hp.
  { intros Hf. apply (Hstep (Lit c)); [|lia|done|done]. apply bool_decide_eq_true. set_unfold. intros [->|[->|[]]]; done. }
  subst c. case_bool_decide as Hpp.
  { destruct f as [|c2 f]; [done|]. simpl in *. subst. intros Hf. apply (Hstep Percent); [done|lia|set_solver|done]. }
  destruct (modifiers_split f) as (m&rest&->&Hm&Hk); [done|].
  rewrite parse_options_written by done. cbn [options_of type]. case_bool_decide as Hty.
  - destruct rest as [|a rest]; [|exfalso; apply Hnul, elem_of_app; right; simpl in Hty; subst; left]. intros _. exists (Description [] (Some m)), args.
    unfold description_ok, format_of. simpl. by rewrite app_nil_r.
  - destruct rest as [|ty rest]; [done|]. cbn [peek tail] in *. intros Hf.
    apply (conversion_of m) in Hf as (cv&args'&<-&Hi&->&Hf); [|done..].
    rewrite length_app in Hlen. simpl in Hlen.
    destruct (Hstep (Conv m cv) Hi rest args') as (d&extra&?&Hfd&Ha); [lia|set_solver|done|].
    exists d, extra. split_and!; [done| |done]. rewrite <- Hfd. simpl. by rewrite <- app_assoc.
Qed.

(** ** Properties *)

(** C40: [vformat] writes exactly the text its format describes.  For every
    well-formed description, on the written format and its arguments (and any
    further ones), it returns the length of [render] and gives every sink those
    characters in that order; and every format string, with arguments that fit
    its conversions, is the written form of such a description. *)
Theorem vformat_correct :
  (forall d extra W (put : W -> ascii -> W) (w : W),
     description_ok d = true ->
     vformat put (Some (format_of d)) (args_of d ++ extra) w =
       Done (u64 (Z.of_nat (length (render d)))) (foldl put w (render d))) /\
  (forall f args,
     NUL ∉ f -> fits (wanted (S (length f)) f) args = true ->
     exists d extra, description_ok d = true /\ f = format_of d /\ args = args_of d ++ extra).
Proof.
  split.
  - intros d extra W put w Hd. unfold vformat. rewrite vformat_loop_renders by (done || lia || (split; simpl; lia)). done.
  - intros f args Hn Hf. by apply (description_exists (S (length f))); [|lia|].
Qed.

Definition plain : modifiers := Modifiers [] [] Length.normal.

Lemma vformat_correct_witness :
  vformat push (Some (text "id=%+5hhd [%s] %-#6x|%08lu %q%%"%string))
    [AWord 250; AText None; AWord 0xab; AWord (2 ^ 64 + 42); AWord 9] [] =
  Done 37 (text "id=   -6 [(null)] 0xab  |00000042 %q%"%string).
Proof.
  apply (proj1 vformat_correct
    (Description [Lit "i"; Lit "d"; Lit "="; Conv (Modifiers [Plus] ["5"] Length.char_width) (Signed false 250);
                  Lit " "; Lit "["; Conv plain (Str None); Lit "]"; Lit " ";
                  Conv (Modifiers [Left; Alternate] ["6"] Length.normal) (Hex false 0xab); Lit "|";
                  Conv (Modifiers [Zero] ["8"] Length.long_width) (Unsigned (2 ^ 64 + 42)); Lit " ";
                  Conv plain (Other "q"); Percent] None)
    [AWord 9] _ push []).
  reflexivity.
Defined.
