(* ===== verification/Console.v ===== *)
(** * Kernel console and printk

    Models [microkernel/console/kernel_console.cpp] (the bounded early log with
    its optional UART mirror) and [printk.cpp] ([vformat] into that log).  The
    UART is the sequence of characters passed to [uart_putc]. *)
From stdpp Require Import base tactics list strings.
From Stdlib Require Import ZArith Lia Ascii.
From S2P Require Import Prelude Format.
Local Open Scope char_scope.
Local Open Scope list_scope.
Local Open Scope Z_scope.

Definition buffer_capacity : Z := 36 * 1024.

Record Console := mkConsole {
  kernel_log_buffer : Z -> ascii;
  write_position : Z;
  was_truncated : bool;
  uart_mirror_enabled : bool;
  uart : list ascii
}.
#[export] Instance Console_eta : Eta Console := fun c =>
  mkConsole (kernel_log_buffer c) (write_position c) (was_truncated c)
    (uart_mirror_enabled c) (uart c).

(** Zero-initialised statics. *)
Definition Console_new : Console := mkConsole (fun _ => NUL) 0 false false [].

Definition uart_putc (c : Console) (ch : ascii) : Console := c <| uart := uart c ++ [ch] |>.

Definition newline : ascii := ascii_of_nat 10.
Definition carriage_return : ascii := ascii_of_nat 13.

Definition mirror_to_uart (ch : ascii) (c : Console) : Console :=
  if negb (uart_mirror_enabled c) then c
  else
    let c1 := if bool_decide (ch = newline) then uart_putc c carriage_return else c in
    uart_putc c1 ch.

Definition set_uart_mirror (enabled : bool) (c : Console) : Console :=
  c <| uart_mirror_enabled := enabled |>.

Definition console_put (c : Console) (ch : ascii) : Console :=
  let c1 :=
    if write_position c <? buffer_capacity then
      c <| kernel_log_buffer := fun i => if i =? write_position c then ch else kernel_log_buffer c i |>
        <| write_position := write_position c + 1 |>
    else c <| was_truncated := true |> in
  mirror_to_uart ch c1.

(** [write] of a C string: up to its NUL, or the text of a null pointer. *)
Definition console_write (t : option (list ascii)) (c : Console) : Console :=
  foldl console_put c (c_text (default (text "(null)") t)).

Definition console_size (c : Console) : Z := write_position c.
Definition console_truncated (c : Console) : bool := was_truncated c.

(** [printk]: the formatted text goes to the console; the result is the count
    as an [int]. *)
Definition printk (format : list ascii) (args : list arg) (c : Console) : outcome Console Z :=
  match vformat console_put (Some format) args c with
  | Done count c' => Done (sext 32 count) c'
  | Parked => Parked
  | Undefined => Undefined
  | Diverged => Diverged
  end.

(** A format whose directives fit its arguments is always rendered. *)
Lemma printk_returns format args c :
  fits (wanted (S (length format)) format) args = true -> exists n c', printk format args c = Done n c'.
Proof.
  intros Hf. destruct (vformat_loop_out (S (length format)) format args) as [t Ht]; [lia|done|].
  unfold printk, vformat. rewrite Ht by (split; simpl; lia). eauto.
Qed.

(** ** Specification: an append-only log *)

Definition uart_text (t : list ascii) : list ascii :=
  t ≫= fun ch => if bool_decide (ch = newline) then [carriage_return; ch] else [ch].

(** The console holds the first [buffer_capacity] characters of [t]. *)
Record console_shows (t : list ascii) (c : Console) : Prop := {
  cs_position : write_position c = Z.min (Z.of_nat (length t)) buffer_capacity;
  cs_buffer : forall i, (Z.of_nat i < write_position c)%Z -> kernel_log_buffer c (Z.of_nat i) = nth i t NUL;
  cs_truncated : was_truncated c = (buffer_capacity <? Z.of_nat (length t));
}.

Lemma console_put_shows t ch c : console_shows t c -> console_shows (t ++ [ch]) (console_put c ch).
Proof.
  intros [Hp Hb Ht]. unfold console_put, mirror_to_uart.
  set (c1 := if _ <? _ then _ else _).
  assert (console_shows (t ++ [ch]) c1) as H1.
  { unfold c1. destruct (Z.ltb_spec (write_position c) buffer_capacity) as [Hlt|Hge].
    - split; simpl.
      + rewrite length_app. simpl. lia.
      + intros i Hi. destruct (Z.eqb_spec (Z.of_nat i) (write_position c)) as [He|Hne].
        * rewrite app_nth2 by lia. replace (i - length t)%nat with 0%nat by lia. done.
        * rewrite app_nth1 by lia. apply Hb. lia.
      + rewrite Ht, length_app. simpl.
        destruct (Z.ltb_spec buffer_capacity (Z.of_nat (length t))),
          (Z.ltb_spec buffer_capacity (Z.of_nat (length t + 1))); try done; lia.
    - split; simpl.
      + rewrite length_app. simpl. lia.
      + intros i Hi. rewrite app_nth1 by lia. by apply Hb.
      + rewrite length_app. simpl. symmetry. apply Z.ltb_lt. lia. }
  clearbody c1. destruct (uart_mirror_enabled c1); simpl; [|done].
  destruct (bool_decide (ch = newline)); simpl; by destruct H1.
Qed.

Lemma console_put_uart ch c :
  uart_mirror_enabled (console_put c ch) = uart_mirror_enabled c /\
  uart (console_put c ch) = uart c ++ (if uart_mirror_enabled c then uart_text [ch] else []).
Proof.
  unfold console_put, mirror_to_uart, uart_text.
  assert (forall b : bool, uart_mirror_enabled
    (if b then c <| kernel_log_buffer := fun i => if i =? write_position c then ch else kernel_log_buffer c i |>
                   <| write_position := write_position c + 1 |>
     else c <| was_truncated := true |>) = uart_mirror_enabled c) as -> by (by intros []).
  destruct (_ <? _), (uart_mirror_enabled c) eqn:E; simpl; rewrite ?app_nil_r, ?E; try done;
    case_bool_decide; simpl; rewrite <- ?app_assoc; done.
Qed.

Lemma uart_text_cons ch t : uart_text (ch :: t) = uart_text [ch] ++ uart_text t.
Proof. unfold uart_text. cbn. by rewrite app_nil_r. Qed.

Lemma console_puts_shows t0 t c : console_shows t0 c -> console_shows (t0 ++ t) (foldl console_put c t).
Proof.
  revert t0 c. induction t as [|ch t IH]; intros t0 c Hc; simpl; [by rewrite app_nil_r|].
  rewrite (assoc (++) t0 [ch] t : t0 ++ ch :: t = (t0 ++ [ch]) ++ t).
  by apply IH, console_put_shows.
Qed.

Lemma console_puts_uart t c :
  uart_mirror_enabled (foldl console_put c t) = uart_mirror_enabled c /\
  uart (foldl console_put c t) = uart c ++ (if uart_mirror_enabled c then uart_text t else []).
Proof.
  revert c. induction t as [|ch t IH]; intros c; cbn [foldl].
  { split; [done|]. case_match; by rewrite app_nil_r. }
  destruct (IH (console_put c ch)) as [-> ->], (console_put_uart ch c) as [-> ->].
  split; [done|]. destruct (uart_mirror_enabled c); [|by rewrite !app_nil_r].
  by rewrite (uart_text_cons ch t), <- app_assoc.
Qed.

(** ** Properties *)

(** when its arguments fit the format, [printk] returns and appends one
    text to the kernel log: the log keeps the first 36 KiB ever printed, the
    truncation flag says exactly whether anything was dropped, the UART mirror
    receives the whole text with a carriage return before every newline when
    enabled and nothing otherwise, and the result is the length of the text
    (as an [int]). *)
Lemma printk_correct format args c t0 :
  fits (wanted (S (length format)) format) args = true -> console_shows t0 c ->
  exists t c', printk format args c = Done (sext 32 (u64 (Z.of_nat (length t)))) c' /\
    console_shows (t0 ++ t) c' /\
    uart c' = uart c ++ (if uart_mirror_enabled c then uart_text t else []).
Proof.
  intros Hf Hc.
  destruct (vformat_loop_out (S (length format)) format args) as [t Ht]; [lia|done|].
  exists t, (foldl console_put c t). split_and!.
  - unfold printk, vformat. rewrite Ht by (split; simpl; lia). done.
  - by apply console_puts_shows.
  - apply console_puts_uart.
Qed.

Lemma console_new_shows : console_shows [] Console_new.
Proof. split; simpl; [done| |done]. intros i Hi. lia. Qed.

Lemma printk_correct_witness :
  exists t c', printk (text "Invalid task syscall: %lu"%string) [AWord 77] Console_new
      = Done (sext 32 (u64 (Z.of_nat (length t)))) c' /\ console_shows ([] ++ t) c' /\
    uart c' = [] ++ (if false then uart_text t else []).
Proof.
  apply (printk_correct (text "Invalid task syscall: %lu"%string) [AWord 77] Console_new []).
  - reflexivity.
  - exact console_new_shows.
Defined.
