(* ===== verification/Bytes.v ===== *)
(** * Byte strings

    Big-endian words, as [lib/fdt.cpp] and [firmware_store/ffs.cpp] read them
    byte by byte, and byte strings stored in memory. *)
From stdpp Require Import base tactics list.
From Stdlib Require Import ZArith Lia.
From S2P Require Import Prelude Memory.
Local Open Scope Z_scope.

(** The expression [(b0 << 24) | (b1 << 16) | (b2 << 8) | b3] on 32 bits. *)
Definition be32_of (b0 b1 b2 b3 : Z) : Z :=
  Z.lor (Z.lor (Z.lor (u32 (Z.shiftl b0 24)) (u32 (Z.shiftl b1 16))) (u32 (Z.shiftl b2 8))) b3.

(** ** Bytes in memory *)

(** The bytes [l] are stored at [a]. *)
Definition at_mem (m : Mem) (a : Z) (l : list Z) : Prop :=
  forall i b, l !! i = Some b -> m (a + Z.of_nat i) = b.

Lemma at_mem_app m a l1 l2 :
  at_mem m a (l1 ++ l2) <-> at_mem m a l1 /\ at_mem m (a + Z.of_nat (length l1)) l2.
Proof.
  split.
  - intros H. split.
    + intros i b Hi. apply H. by apply lookup_app_l_Some.
    + intros i b Hi. rewrite <- Z.add_assoc, <- Nat2Z.inj_add. apply H.
      rewrite lookup_app_r by lia. by rewrite Nat.add_comm, Nat.add_sub.
  - intros [H1 H2] i b [Hi|[Hle Hi]]%lookup_app_Some; [by apply H1|].
    apply H2 in Hi. rewrite <- Hi. f_equal. lia.
Qed.

Lemma at_mem_nil m a : at_mem m a [].
Proof. intros i b H. by rewrite lookup_nil in H. Qed.

Lemma at_mem_cons m a b l : at_mem m a (b :: l) <-> m a = b /\ at_mem m (a + 1) l.
Proof.
  change (b :: l) with ([b] ++ l). rewrite at_mem_app. simpl. split; intros [H1 H2]; (split; [|done]).
  - specialize (H1 0%nat b eq_refl). by rewrite Z.add_0_r in H1.
  - intros [|i] x Hx; [|done]. injection Hx as <-. by rewrite Z.add_0_r.
Qed.

(** Big-endian encodings. *)
Definition be32_bytes (v : Z) : list Z := [byte_of v 3; byte_of v 2; byte_of v 1; byte_of v 0].
Definition be16_bytes (v : Z) : list Z := [byte_of v 1; byte_of v 0].

(** Disjoint bit fields add up. *)
Lemma lor_shift_add a b n : 0 <= n -> 0 <= b < 2 ^ n -> Z.lor (a * 2 ^ n) b = a * 2 ^ n + b.
Proof.
  intros Hn Hb. symmetry. apply Z.add_nocarry_lor. apply Z.bits_inj'. intros i Hi.
  rewrite Z.land_spec, Z.bits_0, <- Z.shiftl_mul_pow2 by lia. destruct (Z.ltb_spec i n).
  - by rewrite Z.shiftl_spec_low.
  - rewrite <- (Z.mod_small b (2 ^ n)), Z.mod_pow2_bits_high, andb_false_r by (done || lia). done.
Qed.

Lemma be32_of_sum b0 b1 b2 b3 : is_u8 b0 -> is_u8 b1 -> is_u8 b2 -> is_u8 b3 ->
  be32_of b0 b1 b2 b3 = b0 * 2 ^ 24 + b1 * 2 ^ 16 + b2 * 2 ^ 8 + b3.
Proof.
  intros H0 H1 H2 H3. unfold be32_of. rewrite !Z.shiftl_mul_pow2, !u32_small by (lia || word_lia).
  rewrite lor_shift_add by (lia || word_lia).
  replace (b0 * 2 ^ 24 + b1 * 2 ^ 16) with ((b0 * 2 ^ 8 + b1) * 2 ^ 16) by lia.
  rewrite lor_shift_add by (lia || word_lia).
  replace ((b0 * 2 ^ 8 + b1) * 2 ^ 16 + b2 * 2 ^ 8) with ((b0 * 2 ^ 16 + b1 * 2 ^ 8 + b2) * 2 ^ 8) by lia.
  rewrite lor_shift_add by (lia || word_lia). lia.
Qed.

Lemma be32_roundtrip v : is_u32 v -> be32_of (byte_of v 3) (byte_of v 2) (byte_of v 1) (byte_of v 0) = v.
Proof.
  intros Hv. rewrite be32_of_sum by apply byte_of_range. unfold byte_of. cbn [Z.mul Pos.mul]. word_lia.
Qed.

Definition bytes (l : list Z) : Prop := Forall is_u8 l.

Lemma bytes_cons b l : bytes (b :: l) <-> is_u8 b /\ bytes l.
Proof. apply Forall_cons. Qed.

Lemma bytes_app l1 l2 : bytes (l1 ++ l2) <-> bytes l1 /\ bytes l2.
Proof. apply Forall_app. Qed.
Lemma bytes_be32 v : bytes (be32_bytes v).
Proof. repeat constructor; apply byte_of_range. Qed.
Lemma bytes_be16 v : bytes (be16_bytes v).
Proof. repeat constructor; apply byte_of_range. Qed.
Lemma bytes_zeros n : bytes (replicate n 0).
Proof. by apply Forall_replicate. Qed.

Lemma at_mem_eq m a a' l : at_mem m a l -> a' = a -> at_mem m a' l.
Proof. by intros ? ->. Qed.

#[export] Hint Resolve bytes_be32 bytes_be16 bytes_zeros : jixia.

(** Memory that holds [l] at [base] and zero elsewhere. *)
Definition mem_of (base : Z) (l : list Z) : Mem := fun a => if a <? base then 0 else nth (Z.to_nat (a - base)) l 0.

Lemma mem_of_at base l : at_mem (mem_of base l) base l.
Proof.
  intros i b Hi. unfold mem_of. rewrite (proj2 (Z.ltb_ge _ _)) by lia.
  replace (Z.to_nat (base + Z.of_nat i - base)) with i by lia. by rewrite nth_lookup, Hi.
Qed.

Lemma mem_of_bytes base l : bytes l -> mem_bytes (mem_of base l).
Proof.
  intros Hl a. unfold mem_of. destruct (a <? base); [done|]. rewrite nth_lookup.
  destruct (l !! Z.to_nat (a - base)) as [b|] eqn:E; [|done]. eapply Forall_lookup_1 in Hl; [|exact E]. done.
Qed.

(** Checks for concrete contents. *)
Lemma bytes_check l : forallb (fun b => (0 <=? b) && (b <? 256)) l = true -> bytes l.
Proof.
  intros H. apply Forall_forall. intros x Hx. rewrite forallb_forall in H. apply list_elem_of_In, H in Hx.
  apply andb_true_iff in Hx as [?%Z.leb_le ?%Z.ltb_lt]. split; done.
Qed.

Lemma mem_of_check base l o l' :
  bool_decide (take (length l') (drop (Z.to_nat o) l) = l') && (0 <=? o) = true -> at_mem (mem_of base l) (base + o) l'.
Proof.
  intros [H%bool_decide_eq_true Ho%Z.leb_le]%andb_true_iff i b Hi.
  rewrite <- (mem_of_at base l (Z.to_nat o + i)%nat b); [f_equal; lia|].
  rewrite <- lookup_drop. rewrite <- H in Hi. by apply lookup_take_Some in Hi as [? _].
Qed.
