(* ===== verification/Ffs.v ===== *)
(** * Firmware partition table

    Models [microkernel/firmware_store/ffs.cpp] (the FFS v1 partition table in
    memory-mapped flash, with the on-flash layout of
    [boot/common/ffs_format.h] and the device constants of
    [boot/qemu_virt/pflash_layout.h]) and [microkernel/memory/flash_provider.cpp]
    on top of it.  Flash is part of the byte memory. *)
From stdpp Require Import base tactics list strings.
From Stdlib Require Import ZArith Lia Ascii.
From S2P Require Import Prelude Memory Bytes.
Local Open Scope Z_scope.

(** ** Layout *)

Definition JIXIA_FFS_MAGIC : Z := 0x50415254.
Definition JIXIA_FFS_VERSION : Z := 1.
Definition JIXIA_FFS_PART_NAME_MAX : nat := 15.
Definition JIXIA_FFS_HEADER_SIZE : Z := 48.
Definition JIXIA_FFS_ENTRY_SIZE : Z := 128.

Definition JIXIA_FFS_HDR_MAGIC_OFFSET : Z := 0.
Definition JIXIA_FFS_HDR_VERSION_OFFSET : Z := 4.
Definition JIXIA_FFS_HDR_SIZE_OFFSET : Z := 8.
Definition JIXIA_FFS_HDR_ENTRY_SIZE_OFFSET : Z := 12.
Definition JIXIA_FFS_HDR_ENTRY_COUNT_OFFSET : Z := 16.
Definition JIXIA_FFS_HDR_BLOCK_SIZE_OFFSET : Z := 20.
Definition JIXIA_FFS_HDR_BLOCK_COUNT_OFFSET : Z := 24.

Definition JIXIA_FFS_ENTRY_NAME_OFFSET : Z := 0.
Definition JIXIA_FFS_ENTRY_BASE_OFFSET : Z := 16.
Definition JIXIA_FFS_ENTRY_SIZE_OFFSET : Z := 20.
Definition JIXIA_FFS_ENTRY_FLAGS_OFFSET : Z := 36.
Definition JIXIA_FFS_ENTRY_ACTUAL_OFFSET : Z := 40.
Definition JIXIA_FFS_ENTRY_USER_OFFSET : Z := 60.

Definition JIXIA_QEMU_PFLASH_BASE : Z := 0x20000000.
Definition JIXIA_QEMU_PFLASH_SIZE : Z := 0x02000000.
Definition JIXIA_PFLASH_TOC_OFFSET : Z := 0x1000.
Definition JIXIA_PFLASH_TOC_SIZE : Z := 0x8000.
Definition JIXIA_PFLASH_BLOCK_SIZE : Z := 0x1000.
Definition JIXIA_PFLASH_BLOCK_COUNT : Z := 0x2000.
Definition JIXIA_PFLASH_MAX_FFS_ENTRIES : Z := 255.

(** ** Loads *)

Definition flash_at (offset : Z) : Z := JIXIA_QEMU_PFLASH_BASE + offset.

Definition load_be32 (m : Mem) (address : Z) : Z :=
  be32_of (m address) (m (address + 1)) (m (address + 2)) (m (address + 3)).
Definition load_be16 (m : Mem) (address : Z) : Z :=
  u16 (Z.lor (Z.shiftl (m address) 8) (m (address + 1))).

(** The loop of [checksum_is_zero]: [done] words behind, [count] ahead. *)
Fixpoint checksum_loop (m : Mem) (address checksum : Z) (done count : nat) : Z :=
  match count with
  | O => checksum
  | S n => checksum_loop m address (Z.lxor checksum (load_be32 m (address + 4 * Z.of_nat done))) (S done) n
  end.

Definition checksum_is_zero (m : Mem) (address size : Z) : bool :=
  if negb (size mod 4 =? 0) then false
  else checksum_loop m address 0 0 (Z.to_nat (size / 4)) =? 0.

(** [for (index = 0; index <= PART_NAME_MAX; ++index)]; [expected] is the
    characters of the C string, its terminator left out. *)
Fixpoint name_loop (m : Mem) (entry : Z) (expected : list Z) (index count : nat) : bool :=
  match count with
  | O => false
  | S n =>
      let actual := m (entry + JIXIA_FFS_ENTRY_NAME_OFFSET + Z.of_nat index) in
      let wanted := nth index expected 0 in
      if negb (actual =? wanted) then false
      else if wanted =? 0 then true
      else name_loop m entry expected (S index) n
  end.

Definition name_matches (m : Mem) (entry : Z) (expected : option (list Z)) : bool :=
  match expected with
  | None => false
  | Some name => name_loop m entry name 0 (S JIXIA_FFS_PART_NAME_MAX)
  end.

(** ** Header and entries *)

Record ParsedHeader := mkHeader {
  table_size : Z; entry_count : Z; block_size : Z; block_count : Z
}.

Record PartitionInfo := mkPartition {
  flash_offset : Z; flash_address : Z; allocated_size : Z; actual_size : Z;
  pi_flags : Z; data_integrity : Z; version_check : Z; misc_flags : Z
}.

Definition parse_header (m : Mem) : option ParsedHeader :=
  let header := flash_at JIXIA_PFLASH_TOC_OFFSET in
  if negb (checksum_is_zero m header JIXIA_FFS_HEADER_SIZE) then None
  else if negb (load_be32 m (header + JIXIA_FFS_HDR_MAGIC_OFFSET) =? JIXIA_FFS_MAGIC)
       || negb (load_be32 m (header + JIXIA_FFS_HDR_VERSION_OFFSET) =? JIXIA_FFS_VERSION)
       || negb (load_be32 m (header + JIXIA_FFS_HDR_ENTRY_SIZE_OFFSET) =? JIXIA_FFS_ENTRY_SIZE)
  then None
  else
    let table_blocks := load_be32 m (header + JIXIA_FFS_HDR_SIZE_OFFSET) in
    let count := load_be32 m (header + JIXIA_FFS_HDR_ENTRY_COUNT_OFFSET) in
    let bsize := load_be32 m (header + JIXIA_FFS_HDR_BLOCK_SIZE_OFFSET) in
    let bcount := load_be32 m (header + JIXIA_FFS_HDR_BLOCK_COUNT_OFFSET) in
    if (count =? 0) || (JIXIA_PFLASH_MAX_FFS_ENTRIES <? count)
       || negb (bsize =? JIXIA_PFLASH_BLOCK_SIZE) || negb (bcount =? JIXIA_PFLASH_BLOCK_COUNT)
    then None
    else
      let tsize := u64 (table_blocks * bsize) in
      let device_size := u64 (bcount * bsize) in
      let entries_end := u64 (JIXIA_FFS_HEADER_SIZE + u64 (count * JIXIA_FFS_ENTRY_SIZE)) in
      if negb (tsize =? JIXIA_PFLASH_TOC_SIZE) || negb (device_size =? JIXIA_QEMU_PFLASH_SIZE)
         || (tsize <? entries_end)
      then None
      else Some (mkHeader (u32 tsize) count bsize bcount).

Definition parse_partition (m : Mem) (entry : Z) (header : ParsedHeader) : option PartitionInfo :=
  if negb (checksum_is_zero m entry JIXIA_FFS_ENTRY_SIZE) then None
  else
    let base_blocks := load_be32 m (entry + JIXIA_FFS_ENTRY_BASE_OFFSET) in
    let size_blocks := load_be32 m (entry + JIXIA_FFS_ENTRY_SIZE_OFFSET) in
    let actual := load_be32 m (entry + JIXIA_FFS_ENTRY_ACTUAL_OFFSET) in
    let offset := u64 (base_blocks * block_size header) in
    let allocated := u64 (size_blocks * block_size header) in
    let flash_end := u64 (offset + allocated) in
    let device_size := u64 (block_count header * block_size header) in
    if (size_blocks =? 0) || (flash_end <=? offset) || (device_size <? flash_end) || (allocated <? actual)
    then None
    else Some (mkPartition (u32 offset) (u64 (JIXIA_QEMU_PFLASH_BASE + offset)) allocated actual
                 (load_be32 m (entry + JIXIA_FFS_ENTRY_FLAGS_OFFSET))
                 (load_be16 m (entry + JIXIA_FFS_ENTRY_USER_OFFSET + 2))
                 (m (entry + JIXIA_FFS_ENTRY_USER_OFFSET + 4))
                 (m (entry + JIXIA_FFS_ENTRY_USER_OFFSET + 5))).

Definition first_entry : Z := flash_at (JIXIA_PFLASH_TOC_OFFSET + JIXIA_FFS_HEADER_SIZE).

Fixpoint validate_loop (m : Mem) (entry : Z) (count : nat) : bool :=
  match count with
  | O => true
  | S n =>
      if negb (checksum_is_zero m entry JIXIA_FFS_ENTRY_SIZE) then false
      else validate_loop m (entry + JIXIA_FFS_ENTRY_SIZE) n
  end.

Definition validate (m : Mem) : bool :=
  match parse_header m with
  | None => false
  | Some header => validate_loop m first_entry (Z.to_nat (entry_count header))
  end.

Fixpoint find_loop (m : Mem) (header : ParsedHeader) (name : option (list Z)) (entry : Z) (count : nat) :
    option PartitionInfo :=
  match count with
  | O => None
  | S n =>
      if negb (checksum_is_zero m entry JIXIA_FFS_ENTRY_SIZE) then None
      else if name_matches m entry name then parse_partition m entry header
      else find_loop m header name (entry + JIXIA_FFS_ENTRY_SIZE) n
  end.

(** [None] is the result [false], in which case nothing is written to the
    output; [output] is whether the output pointer is non-null (the helpers get
    the address of a local or this pointer). *)
Definition find_partition (m : Mem) (name : option (list Z)) (output : bool) : option PartitionInfo :=
  if bool_decide (name = None) || negb output then None
  else
    match parse_header m with
    | None => None
    | Some header => find_loop m header name first_entry (Z.to_nat (entry_count header))
    end.

(** ** flash_provider.cpp *)

Definition chars (s : string) : list Z := map (fun c => Z.of_N (N_of_ascii c)) (String.list_ascii_of_string s).
Arguments chars s%_string.
Definition kBasePartition : list Z := chars "JXBASE".
Definition kExtendedPartition : list Z := chars "JXEXT".
Definition kFlashPageSize : Z := 4096.

Record ImageInfo := mkImage {
  base_flash_address : Z; base_size : Z; extended_flash_address : Z; extended_size : Z
}.

Definition copy_from_flash (flash_address destination : Z) (size : nat) (m : Mem) : Mem :=
  copy_up destination flash_address 0 size m.

(** [output]: the pointer is non-null. *)
Definition image_info (m : Mem) (output : bool) : option ImageInfo :=
  if negb output then None
  else
  match find_partition m (Some kBasePartition) true with
  | None => None
  | Some base =>
      if actual_size base =? 0 then None
      else
        match find_partition m (Some kExtendedPartition) true with
        | Some extended => Some (mkImage (flash_address base) (actual_size base)
                                   (flash_address extended) (actual_size extended))
        | None => Some (mkImage (flash_address base) (actual_size base) 0 0)
        end
  end.

Definition read_extended_page (page_index destination : Z) (m : Mem) : bool * Mem :=
  if negb (Z.land destination (kFlashPageSize - 1) =? 0) then (false, m)
  else
    match find_partition m (Some kExtendedPartition) true with
    | None => (false, m)
    | Some extended =>
        if actual_size extended <? kFlashPageSize then (false, m)
        else
          let page_offset := u64 (page_index * kFlashPageSize) in
          if negb (page_offset / kFlashPageSize =? page_index) || (actual_size extended <=? page_offset)
             || (u64 (actual_size extended - page_offset) <? kFlashPageSize)
          then (false, m)
          else
            let source := u64 (flash_address extended + page_offset) in
            (true, copy_from_flash source destination (Z.to_nat kFlashPageSize) m)
    end.

(** ** Words in flash *)

Lemma load_be32_at m a v : at_mem m a (be32_bytes v) -> is_u32 v -> load_be32 m a = v.
Proof.
  intros H Hv. pose proof (H 0%nat _ eq_refl) as H0. rewrite Z.add_0_r in H0. unfold load_be32.
  pose proof (H 1%nat _ eq_refl : m (a + 1) = _) as H1. pose proof (H 2%nat _ eq_refl : m (a + 2) = _) as H2.
  pose proof (H 3%nat _ eq_refl : m (a + 3) = _) as H3. rewrite H0, H1, H2, H3. by apply be32_roundtrip.
Qed.

Lemma load_be16_at m a v : at_mem m a (be16_bytes v) -> is_u16 v -> load_be16 m a = v.
Proof.
  unfold be16_bytes. rewrite !at_mem_cons. intros (H0&H1&_) Hv. unfold load_be16. rewrite H0, H1.
  rewrite Z.shiftl_mul_pow2, lor_shift_add by (lia || apply byte_of_range). unfold byte_of. cbn [Z.mul Pos.mul]. word_lia.
Qed.

(** ** Checksums *)

(** The exclusive or of the big-endian words of a byte string. *)
Fixpoint word_xor (l : list Z) : Z :=
  match l with
  | b0 :: b1 :: b2 :: b3 :: l' => Z.lxor (be32_of b0 b1 b2 b3) (word_xor l')
  | _ => 0
  end.

Lemma lxor_u32 a b : is_u32 a -> is_u32 b -> is_u32 (Z.lxor a b).
Proof.
  intros Ha Hb. enough (Z.lxor a b = Z.lxor a b mod 2 ^ 32) as -> by (apply Z.mod_pos_bound; lia).
  apply Z.bits_inj'. intros i Hi. destruct (Z.ltb_spec i 32); [by rewrite Z.mod_pow2_bits_low by lia|].
  rewrite Z.mod_pow2_bits_high by lia. rewrite Z.lxor_spec, <- (Z.mod_small a (2 ^ 32)), <- (Z.mod_small b (2 ^ 32)) by done.
  by rewrite !Z.mod_pow2_bits_high by lia.
Qed.

Lemma word_xor_app n l1 l2 : length l1 = (4 * n)%nat -> word_xor (l1 ++ l2) = Z.lxor (word_xor l1) (word_xor l2).
Proof.
  revert l1. induction n as [|n IH]; intros l1 Hl; [by destruct l1|].
  destruct l1 as [|b0 [|b1 [|b2 [|b3 l1]]]]; simpl in Hl; try lia. cbn [app word_xor].
  rewrite IH by lia. by rewrite Z.lxor_assoc.
Qed.

Lemma word_xor_range n l : length l = (4 * n)%nat -> bytes l -> is_u32 (word_xor l).
Proof.
  revert l. induction n as [|n IH]; intros l Hl Hb; [by destruct l|].
  destruct l as [|b0 [|b1 [|b2 [|b3 l]]]]; simpl in Hl; try lia.
  rewrite !bytes_cons in Hb. destruct Hb as (H0&H1&H2&H3&Hb). cbn [word_xor].
  apply lxor_u32; [|apply IH; [lia|done]]. rewrite be32_of_sum by done. word_lia.
Qed.

Lemma checksum_loop_spec m a acc done n l :
  at_mem m (a + 4 * Z.of_nat done) l -> length l = (4 * n)%nat -> checksum_loop m a acc done n = Z.lxor acc (word_xor l).
Proof.
  revert acc done l. induction n as [|n IH]; intros acc done l Hm Hl.
  { destruct l; [|done]. simpl. by rewrite Z.lxor_0_r. }
  destruct l as [|b0 [|b1 [|b2 [|b3 l]]]]; simpl in Hl; try lia.
  cbn [checksum_loop word_xor]. change (b0 :: b1 :: b2 :: b3 :: l) with ([b0; b1; b2; b3] ++ l) in Hm.
  apply at_mem_app in Hm as [H1 H2]. rewrite (IH _ _ l); [|replace (a + 4 * Z.of_nat (S done)) with (a + 4 * Z.of_nat done + 4) by lia; done|lia].
  rewrite <- Z.lxor_assoc. f_equal. f_equal. unfold load_be32. rewrite !at_mem_cons in H1.
  destruct H1 as (->&<-&<-&<-&_). by rewrite <- !Z.add_assoc.
Qed.

(** A body followed by the exclusive or of its words passes the check. *)
Definition sealed (body : list Z) : list Z := body ++ be32_bytes (word_xor body).

Lemma sealed_checksum m a n body :
  at_mem m a (sealed body) -> length body = (4 * n)%nat -> bytes body ->
  checksum_is_zero m a (Z.of_nat (4 * n + 4)) = true.
Proof.
  intros Hm Hl Hb. unfold checksum_is_zero. replace (Z.of_nat (4 * n + 4) mod 4) with 0 by word_lia.
  replace (Z.of_nat (4 * n + 4) / 4) with (Z.of_nat (S n)) by word_lia. cbn [Z.eqb negb]. rewrite Nat2Z.id.
  rewrite (checksum_loop_spec m a 0 0 (S n) (sealed body)).
  - unfold sealed. rewrite (word_xor_app n) by done. unfold be32_bytes. cbn [word_xor].
    rewrite be32_roundtrip by (by eapply word_xor_range). rewrite Z.lxor_0_r, Z.lxor_nilpotent. done.
  - by rewrite Z.mul_0_r, Z.add_0_r.
  - unfold sealed. rewrite length_app. simpl. lia.
Qed.

(** ** Flash images *)

(** A partition as an image builder describes it, in blocks and bytes. *)
Record Partition := mkPart {
  pt_name : list Z; pt_base : Z; pt_size : Z; pt_pid : Z; pt_id : Z; pt_type : Z; pt_flags : Z; pt_actual : Z;
  pt_integrity : Z; pt_version : Z; pt_misc : Z
}.

(** The characters of a C string. *)
Definition c_string (l : list Z) : Prop := Forall (fun c => is_u8 c /\ c <> 0) l.

Record valid_part (p : Partition) : Prop := {
  vp_name : c_string (pt_name p); vp_length : (length (pt_name p) <= JIXIA_FFS_PART_NAME_MAX)%nat;
  vp_base : 0 <= pt_base p; vp_size : 0 < pt_size p; vp_end : pt_base p + pt_size p <= JIXIA_PFLASH_BLOCK_COUNT;
  vp_actual : 0 <= pt_actual p <= pt_size p * JIXIA_PFLASH_BLOCK_SIZE;
  vp_flags : is_u32 (pt_flags p); vp_integrity : is_u16 (pt_integrity p); vp_version : is_u8 (pt_version p);
  vp_misc : is_u8 (pt_misc p);
}.

Definition pad_name (name : list Z) : list Z := name ++ replicate (16 - length name) 0.

Definition entry_body (p : Partition) : list Z :=
  pad_name (pt_name p) ++ be32_bytes (pt_base p) ++ be32_bytes (pt_size p) ++ be32_bytes (pt_pid p)
  ++ be32_bytes (pt_id p) ++ be32_bytes (pt_type p) ++ be32_bytes (pt_flags p) ++ be32_bytes (pt_actual p)
  ++ replicate 16 0 ++ [0; 0] ++ be16_bytes (pt_integrity p) ++ [pt_version p; pt_misc p] ++ replicate 58 0.

Definition header_body (count : Z) : list Z :=
  be32_bytes JIXIA_FFS_MAGIC ++ be32_bytes JIXIA_FFS_VERSION ++ be32_bytes 8 ++ be32_bytes JIXIA_FFS_ENTRY_SIZE
  ++ be32_bytes count ++ be32_bytes JIXIA_PFLASH_BLOCK_SIZE ++ be32_bytes JIXIA_PFLASH_BLOCK_COUNT ++ replicate 16 0.

Definition entries (ps : list Partition) : list Z := concat (map (fun p => sealed (entry_body p)) ps).
Definition table (ps : list Partition) : list Z := sealed (header_body (Z.of_nat (length ps))) ++ entries ps.

(** What the parser is to report for a partition. *)
Definition info_of (p : Partition) : PartitionInfo :=
  mkPartition (pt_base p * 4096) (JIXIA_QEMU_PFLASH_BASE + pt_base p * 4096) (pt_size p * 4096) (pt_actual p)
    (pt_flags p) (pt_integrity p) (pt_version p) (pt_misc p).

Lemma pad_length name : (length name <= 15)%nat -> length (pad_name name) = 16%nat.
Proof. intros H. unfold pad_name. rewrite length_app, length_replicate. lia. Qed.

Lemma pad_bytes name : c_string name -> bytes (pad_name name).
Proof.
  intros H. apply bytes_app. split; [|apply bytes_zeros]. eapply Forall_impl; [exact H|]. by intros x [? _].
Qed.

Lemma entry_body_ok p : valid_part p -> length (entry_body p) = 124%nat /\ bytes (entry_body p).
Proof.
  intros []. unfold JIXIA_FFS_PART_NAME_MAX in *. unfold entry_body. split.
  - rewrite !length_app, pad_length by done. done.
  - rewrite !bytes_app. split_and!; first [by auto with jixia | by apply pad_bytes | apply (bytes_zeros 16) | apply (bytes_zeros 58) | by apply (bytes_zeros 2) | by apply Forall_cons; split; [|by apply Forall_singleton]].
Qed.

Lemma header_body_ok count : length (header_body count) = 44%nat /\ bytes (header_body count).
Proof. split; [done|]. unfold header_body. rewrite !bytes_app. split_and!; first [by auto with jixia|apply (bytes_zeros 16)]. Qed.

(** ** Names *)

Lemma name_loop_spec m entry pre x y count :
  at_mem m (entry + Z.of_nat (length pre)) (y ++ [0]) -> c_string x -> c_string y -> (length y < count)%nat ->
  name_loop m entry (pre ++ x) (length pre) count = bool_decide (x = y).
Proof.
  revert pre x count. induction y as [|b y IH]; intros pre x count Hm Hx Hy Hc; destruct count as [|count]; try (simpl in Hc; lia).
  all: cbn [name_loop]; unfold JIXIA_FFS_ENTRY_NAME_OFFSET; rewrite Z.add_0_r; cbn [app] in Hm; apply at_mem_cons in Hm as [Hb Hm].
  all: rewrite Hb, app_nth2, Nat.sub_diag by lia; destruct x as [|c x]; cbn [nth].
  - done.
  - apply Forall_cons in Hx as [[_ Hc0] _]. rewrite (proj2 (Z.eqb_neq 0 c)) by done. cbn [negb]. by rewrite bool_decide_false.
  - apply Forall_cons in Hy as [[_ Hb0] _]. rewrite (proj2 (Z.eqb_neq b 0)) by done. cbn [negb]. by rewrite bool_decide_false.
  - apply Forall_cons in Hx as [[_ Hc0] Hx]. apply Forall_cons in Hy as [_ Hy].
    destruct (Z.eqb_spec b c) as [->|Hne]; cbn [negb].
    + rewrite (proj2 (Z.eqb_neq c 0)) by done. specialize (IH (pre ++ [c]) x count).
      rewrite length_app, <- app_assoc in IH. cbn [length app] in IH. rewrite Nat.add_1_r in IH. rewrite IH; try done.
      * apply bool_decide_ext. split; congruence.
      * eapply at_mem_eq; [exact Hm|lia].
      * simpl in Hc. lia.
    + rewrite bool_decide_false by congruence. done.
Qed.

Lemma name_matches_spec m entry name nm :
  at_mem m entry (pad_name nm) -> c_string name -> c_string nm -> (length nm <= 15)%nat ->
  name_matches m entry (Some name) = bool_decide (name = nm).
Proof.
  intros Hm Hx Hy Hl. apply (name_loop_spec m entry [] name nm); try done; [|unfold JIXIA_FFS_PART_NAME_MAX; lia].
  unfold pad_name in Hm. replace (16 - length nm)%nat with (S (15 - length nm)) in Hm by lia. cbn [replicate] in Hm.
  rewrite Z.add_0_r. change (0 :: replicate (15 - length nm) 0) with ([0] ++ replicate (15 - length nm) 0) in Hm.
  rewrite app_assoc in Hm. by apply at_mem_app in Hm as [? _].
Qed.

(** ** Parsing what was encoded *)

Definition good_header (count : Z) : ParsedHeader :=
  mkHeader JIXIA_PFLASH_TOC_SIZE count JIXIA_PFLASH_BLOCK_SIZE JIXIA_PFLASH_BLOCK_COUNT.

Ltac offsets := unfold JIXIA_FFS_HDR_MAGIC_OFFSET, JIXIA_FFS_HDR_VERSION_OFFSET, JIXIA_FFS_HDR_SIZE_OFFSET, JIXIA_FFS_HDR_ENTRY_SIZE_OFFSET,
  JIXIA_FFS_HDR_ENTRY_COUNT_OFFSET, JIXIA_FFS_HDR_BLOCK_SIZE_OFFSET, JIXIA_FFS_HDR_BLOCK_COUNT_OFFSET, JIXIA_FFS_ENTRY_NAME_OFFSET,
  JIXIA_FFS_ENTRY_BASE_OFFSET, JIXIA_FFS_ENTRY_SIZE_OFFSET, JIXIA_FFS_ENTRY_FLAGS_OFFSET,
  JIXIA_FFS_ENTRY_ACTUAL_OFFSET, JIXIA_FFS_ENTRY_USER_OFFSET.
Ltac at_addr H :=
  eapply at_mem_eq; [exact H|offsets; rewrite ?pad_length by done; cbn [length be32_bytes be16_bytes replicate]; lia].

Lemma parse_header_encoded m count :
  at_mem m (flash_at JIXIA_PFLASH_TOC_OFFSET) (sealed (header_body count)) -> 0 < count <= JIXIA_PFLASH_MAX_FFS_ENTRIES ->
  parse_header m = Some (good_header count).
Proof.
  intros Hm Hc. unfold JIXIA_PFLASH_MAX_FFS_ENTRIES in Hc. destruct (header_body_ok count) as [Hl Hb].
  unfold parse_header. cbv zeta. set (a := flash_at JIXIA_PFLASH_TOC_OFFSET) in *.
  rewrite (sealed_checksum m a 11 (header_body count) Hm Hl Hb : checksum_is_zero m a JIXIA_FFS_HEADER_SIZE = true). cbn [negb].
  unfold sealed, header_body in Hm. rewrite !at_mem_app in Hm. destruct Hm as ((H0&H1&H2&H3&H4&H5&H6&_)&_).
  rewrite (load_be32_at m (a + JIXIA_FFS_HDR_MAGIC_OFFSET) JIXIA_FFS_MAGIC) by (done || at_addr H0).
  rewrite (load_be32_at m (a + JIXIA_FFS_HDR_VERSION_OFFSET) JIXIA_FFS_VERSION) by (done || at_addr H1).
  rewrite (load_be32_at m (a + JIXIA_FFS_HDR_ENTRY_SIZE_OFFSET) JIXIA_FFS_ENTRY_SIZE) by (done || at_addr H3).
  rewrite (load_be32_at m (a + JIXIA_FFS_HDR_SIZE_OFFSET) 8) by (done || at_addr H2).
  rewrite (load_be32_at m (a + JIXIA_FFS_HDR_ENTRY_COUNT_OFFSET) count) by first [at_addr H4|unfold is_u32; lia].
  rewrite (load_be32_at m (a + JIXIA_FFS_HDR_BLOCK_SIZE_OFFSET) JIXIA_PFLASH_BLOCK_SIZE) by (done || at_addr H5).
  rewrite (load_be32_at m (a + JIXIA_FFS_HDR_BLOCK_COUNT_OFFSET) JIXIA_PFLASH_BLOCK_COUNT) by (done || at_addr H6).
  rewrite !Z.eqb_refl. cbn [negb orb].
  rewrite (proj2 (Z.eqb_neq count 0)), (proj2 (Z.ltb_ge JIXIA_PFLASH_MAX_FFS_ENTRIES count))
    by (unfold JIXIA_PFLASH_MAX_FFS_ENTRIES; lia). cbn [negb orb].
  rewrite (proj2 (Z.ltb_ge _ _)); [done|]. unfold JIXIA_FFS_HEADER_SIZE, JIXIA_FFS_ENTRY_SIZE, JIXIA_PFLASH_BLOCK_SIZE. word_lia.
Qed.

Lemma parse_partition_encoded m a p count :
  at_mem m a (sealed (entry_body p)) -> valid_part p -> parse_partition m a (good_header count) = Some (info_of p).
Proof.
  intros Hm Hv. destruct (entry_body_ok p Hv) as [Hl Hb]. pose proof Hv as [_ Hlen Hb0 Hs0 Hend Hact Hfl Hint _ _].
  unfold JIXIA_FFS_PART_NAME_MAX, JIXIA_PFLASH_BLOCK_COUNT, JIXIA_PFLASH_BLOCK_SIZE in *.
  unfold parse_partition. cbv zeta.
  rewrite (sealed_checksum m a 31 (entry_body p) Hm Hl Hb : checksum_is_zero m a JIXIA_FFS_ENTRY_SIZE = true). cbn [negb].
  unfold sealed, entry_body in Hm. rewrite !at_mem_app in Hm.
  destruct Hm as ((_&H0&H1&_&_&_&H5&H6&_&_&H9&H10&_)&_). apply at_mem_cons in H10 as [Hver H10]. apply at_mem_cons in H10 as [Hmisc _].
  rewrite (load_be32_at m (a + JIXIA_FFS_ENTRY_BASE_OFFSET) (pt_base p)) by first [at_addr H0|unfold is_u32; lia].
  rewrite (load_be32_at m (a + JIXIA_FFS_ENTRY_SIZE_OFFSET) (pt_size p)) by first [at_addr H1|unfold is_u32; lia].
  rewrite (load_be32_at m (a + JIXIA_FFS_ENTRY_ACTUAL_OFFSET) (pt_actual p)) by first [at_addr H6|unfold is_u32; lia].
  rewrite (load_be32_at m (a + JIXIA_FFS_ENTRY_FLAGS_OFFSET) (pt_flags p)) by (done || at_addr H5).
  rewrite (load_be16_at m (a + JIXIA_FFS_ENTRY_USER_OFFSET + 2) (pt_integrity p)) by (done || at_addr H9).
  assert (m (a + JIXIA_FFS_ENTRY_USER_OFFSET + 4) = pt_version p) as ->.
  { rewrite <- Hver. f_equal. offsets. rewrite ?pad_length by done. cbn [length be32_bytes be16_bytes replicate]. lia. }
  assert (m (a + JIXIA_FFS_ENTRY_USER_OFFSET + 5) = pt_misc p) as ->.
  { rewrite <- Hmisc. f_equal. offsets. rewrite ?pad_length by done. cbn [length be32_bytes be16_bytes replicate]. lia. }
  unfold good_header, JIXIA_PFLASH_BLOCK_COUNT, JIXIA_PFLASH_BLOCK_SIZE, JIXIA_QEMU_PFLASH_BASE, info_of. cbn [block_size block_count].
  rewrite (u64_small (pt_base p * 4096)), (u64_small (pt_size p * 4096)), !u64_small by (unfold is_u64; lia).
  rewrite (proj2 (Z.eqb_neq _ _)), (proj2 (Z.leb_gt _ _)), (proj2 (Z.ltb_ge _ _)), (proj2 (Z.ltb_ge _ _)) by lia.
  cbn [orb]. by rewrite u32_small by (unfold is_u32; lia).
Qed.

(** The search runs through the entries in order. *)
Lemma find_loop_encoded m ps a name count :
  at_mem m a (entries ps) -> Forall valid_part ps -> c_string name ->
  find_loop m (good_header count) (Some name) a (length ps)
    = info_of <$> head (filter (fun p => pt_name p = name) ps).
Proof.
  revert a. induction ps as [|p ps IH]; intros a Hm Hv Hn; [done|].
  apply Forall_cons in Hv as [Hp Hv]. cbn [find_loop length].
  change (entries (p :: ps)) with (sealed (entry_body p) ++ entries ps) in Hm.
  apply at_mem_app in Hm as [H1 H2]. destruct (entry_body_ok p Hp) as [Hl Hb].
  rewrite (sealed_checksum m a 31 (entry_body p) H1 Hl Hb : checksum_is_zero m a JIXIA_FFS_ENTRY_SIZE = true). cbn [negb].
  rewrite (name_matches_spec m a name (pt_name p)); [|..|done|apply Hp|apply Hp].
  2: { unfold sealed, entry_body in H1. rewrite !at_mem_app in H1. apply H1. }
  case_bool_decide as E.
  - rewrite filter_cons_True by done. by apply parse_partition_encoded.
  - rewrite filter_cons_False by congruence. apply IH; try done. eapply at_mem_eq; [exact H2|].
    unfold sealed. rewrite length_app, Hl. done.
Qed.

Lemma validate_encoded m ps a : at_mem m a (entries ps) -> Forall valid_part ps -> validate_loop m a (length ps) = true.
Proof.
  revert a. induction ps as [|p ps IH]; intros a Hm Hv; [done|].
  apply Forall_cons in Hv as [Hp Hv]. cbn [validate_loop length].
  change (entries (p :: ps)) with (sealed (entry_body p) ++ entries ps) in Hm.
  apply at_mem_app in Hm as [H1 H2]. destruct (entry_body_ok p Hp) as [Hl Hb].
  rewrite (sealed_checksum m a 31 (entry_body p) H1 Hl Hb : checksum_is_zero m a JIXIA_FFS_ENTRY_SIZE = true). cbn [negb].
  apply IH; [|done]. eapply at_mem_eq; [exact H2|]. unfold sealed. rewrite length_app, Hl. done.
Qed.

(** ** Bounds *)

Lemma load_be32_range m a : mem_bytes m -> is_u32 (load_be32 m a).
Proof.
  intros Hm. unfold load_be32. rewrite be32_of_sum by apply Hm.
  pose proof (Hm a). pose proof (Hm (a + 1)). pose proof (Hm (a + 2)). pose proof (Hm (a + 3)). word_lia.
Qed.

(** Turns the refused checks of the parser into facts. *)
Ltac checks :=
  repeat match goal with
  | E : _ || _ = false |- _ => apply orb_false_iff in E as [? ?]
  | E : negb (_ =? _) = false |- _ => apply negb_false_iff, Z.eqb_eq in E
  | E : (_ =? _) = false |- _ => apply Z.eqb_neq in E
  | E : (_ <? _) = false |- _ => apply Z.ltb_ge in E
  | E : (_ <=? _) = false |- _ => apply Z.leb_gt in E
  end.

Lemma parse_header_good m h : mem_bytes m -> parse_header m = Some h ->
  h = good_header (entry_count h) /\ 0 < entry_count h <= 255.
Proof.
  intros Hm. unfold parse_header. cbv zeta. intros H.
  pose proof (load_be32_range m (flash_at JIXIA_PFLASH_TOC_OFFSET + JIXIA_FFS_HDR_ENTRY_COUNT_OFFSET) Hm) as Hr.
  repeat case_match; try done. injection H as <-. checks. unfold good_header, JIXIA_PFLASH_MAX_FFS_ENTRIES in *.
  cbn [entry_count]. unfold is_u32 in Hr. split; [|lia]. f_equal; try done.
  match goal with E : u64 _ = JIXIA_PFLASH_TOC_SIZE |- _ => by rewrite E end.
Qed.

(** ** What a lookup reads *)

(** Agreement on the flash device. *)
Definition flash_agrees (m m' : Mem) : Prop :=
  forall a, JIXIA_QEMU_PFLASH_BASE <= a < JIXIA_QEMU_PFLASH_BASE + JIXIA_QEMU_PFLASH_SIZE -> m' a = m a.

Section agree.
Context (m m' : Mem) (Hag : flash_agrees m m').

Abbreviation in_device lo hi :=
  (JIXIA_QEMU_PFLASH_BASE <= lo /\ hi <= JIXIA_QEMU_PFLASH_BASE + JIXIA_QEMU_PFLASH_SIZE).

Lemma load_be32_agree a : in_device a (a + 4) -> load_be32 m' a = load_be32 m a.
Proof. intros. unfold load_be32. by rewrite !Hag by lia. Qed.

Lemma checksum_loop_agree a c d n : in_device (a + 4 * Z.of_nat d) (a + 4 * Z.of_nat (d + n)) ->
  checksum_loop m' a c d n = checksum_loop m a c d n.
Proof.
  revert c d. induction n as [|n IH]; intros c d Hd; [done|]. cbn [checksum_loop].
  rewrite load_be32_agree by lia. apply IH. lia.
Qed.

Lemma checksum_agree a size : 0 <= size -> in_device a (a + size) -> checksum_is_zero m' a size = checksum_is_zero m a size.
Proof.
  intros Hs Ha. unfold checksum_is_zero. rewrite checksum_loop_agree; [done|].
  assert (4 * Z.of_nat (0 + Z.to_nat (size / 4)) <= size) by (rewrite Nat2Z.inj_add, Z2Nat.id by (apply Z.div_pos; lia); Z.div_mod_to_equations; lia). lia.
Qed.

Lemma name_loop_agree a name i n : in_device (a + Z.of_nat i) (a + Z.of_nat (i + n)) -> name_loop m' a name i n = name_loop m a name i n.
Proof.
  revert i. induction n as [|n IH]; intros i Hi; [done|]. cbn [name_loop]. unfold JIXIA_FFS_ENTRY_NAME_OFFSET.
  rewrite Hag by lia. repeat case_match; try done. apply IH. lia.
Qed.

Lemma parse_header_agree : parse_header m' = parse_header m.
Proof. unfold parse_header. by rewrite checksum_agree, !load_be32_agree by (vm_compute; intuition congruence). Qed.

Lemma parse_partition_agree a h : in_device a (a + JIXIA_FFS_ENTRY_SIZE) -> parse_partition m' a h = parse_partition m a h.
Proof.
  intros Ha. unfold parse_partition, load_be16. rewrite checksum_agree by (done || (vm_compute; congruence)).
  unfold JIXIA_FFS_ENTRY_SIZE in Ha. rewrite !load_be32_agree, !Hag; [done|..]; unfold JIXIA_FFS_ENTRY_BASE_OFFSET,
    JIXIA_FFS_ENTRY_SIZE_OFFSET, JIXIA_FFS_ENTRY_ACTUAL_OFFSET, JIXIA_FFS_ENTRY_FLAGS_OFFSET, JIXIA_FFS_ENTRY_USER_OFFSET; lia.
Qed.

Lemma find_loop_agree h name a n : in_device a (a + JIXIA_FFS_ENTRY_SIZE * Z.of_nat n) ->
  find_loop m' h name a n = find_loop m h name a n.
Proof.
  revert a. induction n as [|n IH]; intros a Ha; [done|]. cbn [find_loop]. unfold JIXIA_FFS_ENTRY_SIZE in *.
  rewrite checksum_agree, parse_partition_agree, IH by (unfold JIXIA_FFS_ENTRY_SIZE; lia).
  destruct name as [name|]; cbn [name_matches]; [|done].
  rewrite name_loop_agree by (unfold JIXIA_FFS_PART_NAME_MAX; lia). done.
Qed.

(** The outcome of a lookup depends on the flash device alone. *)
Lemma find_partition_agree name output : find_partition m' name output = find_partition m name output.
Proof.
  unfold find_partition. rewrite parse_header_agree. destruct (_ || _); [done|].
  destruct (parse_header m) as [h|] eqn:Eh; [|done]. apply find_loop_agree.
  assert (entry_count h <= 255) as Hc.
  { revert Eh. unfold parse_header. cbv zeta. intros H. repeat case_match; try done. injection H as <-. checks. cbn. done. }
  unfold first_entry, flash_at, JIXIA_QEMU_PFLASH_BASE, JIXIA_QEMU_PFLASH_SIZE, JIXIA_PFLASH_TOC_OFFSET, JIXIA_FFS_HEADER_SIZE,
    JIXIA_FFS_ENTRY_SIZE. lia.
Qed.
End agree.

(** The window a partition describes lies in the flash device. *)
Definition in_flash (i : PartitionInfo) : Prop :=
  0 <= flash_offset i /\ flash_offset i + allocated_size i <= JIXIA_QEMU_PFLASH_SIZE /\ 0 < allocated_size i /\
  0 <= actual_size i <= allocated_size i /\ flash_address i = JIXIA_QEMU_PFLASH_BASE + flash_offset i.

Lemma parse_partition_bounds m a count i :
  mem_bytes m -> parse_partition m a (good_header count) = Some i -> in_flash i.
Proof.
  intros Hm. unfold parse_partition. cbv zeta. intros H.
  pose proof (load_be32_range m (a + JIXIA_FFS_ENTRY_BASE_OFFSET) Hm) as Hb.
  pose proof (load_be32_range m (a + JIXIA_FFS_ENTRY_SIZE_OFFSET) Hm) as Hs.
  pose proof (load_be32_range m (a + JIXIA_FFS_ENTRY_ACTUAL_OFFSET) Hm) as Ha.
  repeat case_match; try done. injection H as <-. checks.
  unfold in_flash, good_header, JIXIA_PFLASH_BLOCK_SIZE, JIXIA_PFLASH_BLOCK_COUNT, JIXIA_QEMU_PFLASH_SIZE,
    JIXIA_QEMU_PFLASH_BASE in *. cbn [block_size block_count flash_offset allocated_size actual_size flash_address] in *.
  set (b := load_be32 m (a + JIXIA_FFS_ENTRY_BASE_OFFSET)) in *. set (n := load_be32 m (a + JIXIA_FFS_ENTRY_SIZE_OFFSET)) in *.
  unfold is_u32 in *. rewrite (u64_small (b * 4096)), (u64_small (n * 4096)) in * by (unfold is_u64; lia).
  rewrite (u64_small (b * 4096 + n * 4096)) in * by (unfold is_u64; lia). change (u64 (8192 * 4096)) with 33554432 in *.
  rewrite u32_small, u64_small by (unfold is_u32, is_u64; lia). lia.
Qed.

Lemma find_loop_step m header name a n :
  find_loop m header name a (S n) =
    if checksum_is_zero m a JIXIA_FFS_ENTRY_SIZE then
      if name_matches m a name then parse_partition m a header
      else find_loop m header name (a + JIXIA_FFS_ENTRY_SIZE) n
    else None.
Proof. cbn [find_loop]. by destruct (checksum_is_zero m a JIXIA_FFS_ENTRY_SIZE). Qed.

Lemma find_loop_bounds m count name a n i :
  mem_bytes m -> find_loop m (good_header count) name a n = Some i -> in_flash i.
Proof.
  intros Hm. revert a. induction n as [|n IH]; intros a H; [discriminate H|].
  rewrite find_loop_step in H. destruct (checksum_is_zero m a JIXIA_FFS_ENTRY_SIZE); [|discriminate H].
  destruct (name_matches m a name); [exact (parse_partition_bounds m a count i Hm H)|exact (IH _ H)].
Qed.

Lemma find_partition_in_flash m name o i : mem_bytes m -> find_partition m name o = Some i -> in_flash i.
Proof.
  intros Hm. unfold find_partition. intros H. repeat case_match; try done.
  match goal with E : parse_header m = Some ?h |- _ => destruct (parse_header_good m h Hm E) as [Eh _] end.
  rewrite Eh in H. by eapply find_loop_bounds.
Qed.

(** ** A concrete image *)

Definition demo_parts : list Partition :=
  [mkPart kBasePartition 16 8 0xFFFFFFFF 1 1 0 30000 0 0 0; mkPart kExtendedPartition 24 4 0xFFFFFFFF 2 1 1 8192 0x8000 0 0x40].
Definition demo_flash : Mem := mem_of (flash_at JIXIA_PFLASH_TOC_OFFSET) (table demo_parts).

Lemma demo_flash_bytes : mem_bytes demo_flash.
Proof.
  apply mem_of_bytes, bytes_check. vm_compute. reflexivity.
Qed.

Lemma c_string_check l : forallb (fun c => (0 <? c) && (c <? 256)) l = true -> c_string l.
Proof.
  intros H. apply Forall_forall. intros x Hx. rewrite forallb_forall in H. apply list_elem_of_In, H in Hx.
  apply andb_true_iff in Hx as [?%Z.ltb_lt ?%Z.ltb_lt]. unfold is_u8. lia.
Qed.

Lemma demo_parts_valid : Forall valid_part demo_parts.
Proof.
  repeat constructor; simpl;
    try (vm_compute; congruence); try done; by apply Forall_forall, Forall_forall, c_string_check.
Qed.

(** ** Properties *)

(** C32: A partition table survives the round trip through flash.  When the
    table of contents holds the on-flash encoding of up to 255 partitions, with
    their checksums, looking up any name gives exactly the first partition of
    that name, every field as it was described, and nothing when there is none;
    [validate] accepts the table. *)
Theorem find_partition_roundtrip m ps name :
  at_mem m (flash_at JIXIA_PFLASH_TOC_OFFSET) (table ps) -> (0 < length ps <= 255)%nat -> Forall valid_part ps ->
  c_string name ->
  find_partition m (Some name) true = info_of <$> head (filter (fun p => pt_name p = name) ps) /\ validate m = true.
Proof.
  intros Hm Hn Hv Hc. apply at_mem_app in Hm as [Hh He].
  assert (parse_header m = Some (good_header (Z.of_nat (length ps)))) as Hp
    by (apply parse_header_encoded; [done|]; unfold JIXIA_PFLASH_MAX_FFS_ENTRIES; lia).
  unfold find_partition, validate. rewrite Hp. cbn [good_header entry_count]. rewrite Nat2Z.id.
  rewrite bool_decide_false by done. split; [by apply find_loop_encoded|by apply validate_encoded].
Qed.

Lemma find_partition_roundtrip_witness :
  find_partition demo_flash (Some kExtendedPartition) true
    = Some (mkPartition 98304 (0x20000000 + 98304) 16384 8192 1 0x8000 0 0x40) /\ validate demo_flash = true.
Proof.
  apply (find_partition_roundtrip demo_flash demo_parts kExtendedPartition).
  - apply mem_of_at.
  - simpl. lia.
  - apply demo_parts_valid.
  - apply c_string_check. vm_compute. reflexivity.
Defined.

(** C33: Whatever flash holds, a partition that is reported lies inside the
    flash device: its window ends within it, the bytes in use fit the window,
    and the address is the one of the window; no 32-bit field can make the
    64-bit computations wrap. *)
Theorem find_partition_bounds m name i :
  mem_bytes m -> find_partition m name true = Some i -> in_flash i.
Proof. apply find_partition_in_flash. Qed.

Lemma find_partition_bounds_witness : in_flash (mkPartition 98304 (0x20000000 + 98304) 16384 8192 1 0x8000 0 0x40).
Proof.
  apply (find_partition_bounds demo_flash (Some kExtendedPartition)).
  - exact demo_flash_bytes.
  - vm_compute. reflexivity.
Defined.

(** [read_extended_page] copies exactly one whole page of the extended
    image, or does nothing.  It succeeds iff the destination is page aligned and
    the page lies wholly within the bytes in use of the partition, also for page
    numbers whose offset overflows 64 bits; then the destination page holds the
    page of flash and every other byte of memory is unchanged. *)
Lemma read_extended_page_spec m page_index destination i a :
  mem_bytes m -> is_u64 page_index -> is_u64 destination ->
  destination + 4096 <= JIXIA_QEMU_PFLASH_BASE \/ JIXIA_QEMU_PFLASH_BASE + JIXIA_QEMU_PFLASH_SIZE <= destination ->
  find_partition m (Some kExtendedPartition) true = Some i ->
  let ok := (destination mod 4096 =? 0) && (page_index * 4096 + 4096 <=? actual_size i) in
  (read_extended_page page_index destination m).1 = ok /\
  (read_extended_page page_index destination m).2 a =
    if ok && (destination <=? a) && (a <? destination + 4096)
    then m (flash_address i + page_index * 4096 + (a - destination)) else m a.
Proof.
  intros Hm Hpi Hd Hdis Hf ok. pose proof (find_partition_in_flash m _ _ i Hm Hf) as (H1&H2&H3&H4&H5).
  unfold read_extended_page, kFlashPageSize. rewrite Hf.
  change (4096 - 1) with (Z.ones 12). rewrite Z.land_ones by lia. change (2 ^ 12) with 4096.
  unfold ok. destruct (Z.eqb_spec (destination mod 4096) 0) as [Hal|Hal]; cbn [negb andb]; [|done].
  destruct (Z.leb_spec (page_index * 4096 + 4096) (actual_size i)) as [Hin|Hout].
  - unfold JIXIA_QEMU_PFLASH_SIZE, JIXIA_QEMU_PFLASH_BASE, is_u64 in *.
    rewrite (proj2 (Z.ltb_ge _ _)), (u64_small (page_index * 4096)), Z.div_mul, Z.eqb_refl by (unfold is_u64; lia).
    rewrite (proj2 (Z.leb_gt _ _)), u64_small, (proj2 (Z.ltb_ge _ _)) by (unfold is_u64; lia). cbn [negb orb].
    split; [done|]. unfold copy_from_flash. cbn [snd]. rewrite u64_small by (unfold is_u64; lia).
    rewrite (copy_up_spec destination _ (Z.to_nat 4096) m) by (done || lia).
    rewrite Z2Nat.id by lia. destruct ((destination <=? a) && (a <? destination + 4096)) eqn:E; rewrite ?andb_assoc; cbn [andb]; by rewrite E.
  - cbn [andb]. assert (forall b : bool, b = true -> (if b then (false, m) else (true, copy_from_flash
      (u64 (flash_address i + u64 (page_index * 4096))) destination (Z.to_nat 4096) m)) = (false, m)) as Hb by (by intros ? ->).
    destruct (Z.ltb_spec (actual_size i) 4096) as [|Hbig]; [done|]. cbv zeta. rewrite Hb; [done|].
    rewrite !orb_true_iff, negb_true_iff, Z.eqb_neq, Z.leb_le, Z.ltb_lt.
    unfold JIXIA_QEMU_PFLASH_SIZE in *. word_lia.
Qed.

Example read_extended_page_example :
  (read_extended_page 1 0x80000000 demo_flash).1 = true /\
  (read_extended_page 1 0x80000000 demo_flash).2 0x80000010 = demo_flash (0x20000000 + 98304 + 4096 + 16).
Proof.
  destruct (read_extended_page_spec demo_flash 1 0x80000000
    (mkPartition 98304 (0x20000000 + 98304) 16384 8192 1 0x8000 0 0x40) 0x80000010) as [H1 H2].
  - exact demo_flash_bytes.
  - split; [vm_compute; discriminate|reflexivity].
  - split; [vm_compute; discriminate|reflexivity].
  - right. vm_compute. discriminate.
  - vm_compute. reflexivity.
  - split; [exact H1|exact H2].
Qed.
