(* ===== verification/Fdt.v ===== *)
(** * Flattened device tree

    Models [lib/fdt.cpp]: [cpu_count] walks the structure block of a device
    tree blob and counts the CPUs under [/cpus].  The blob is a window of
    memory: a read outside it is [Undefined].  [depth], an [int32_t], counts
    open nodes, of which a blob of less than 4 GiB has fewer than 2^30. *)
From stdpp Require Import base tactics sets list strings.
From Stdlib Require Import ZArith Lia Ascii.
From S2P Require Import Prelude Memory Bytes.
Local Open Scope Z_scope.

Definition kFdtMagic : Z := 0xd00dfeed.
Definition kFdtBeginNode : Z := 1.
Definition kFdtEndNode : Z := 2.
Definition kFdtProp : Z := 3.
Definition kFdtNop : Z := 4.
Definition kFdtEnd : Z := 9.
Definition kFdtHeaderSize : Z := 40.

(** The bytes from the start of the blob, and how many may be read. *)
Record Blob := mkBlob { blob_bytes : Mem; blob_limit : Z }.

Definition F (A : Type) : Type := M Blob unit A.

Definition read8 (address : Z) : F Z :=
  b ← ask;
  if (0 <=? address) && (address <? blob_limit b) then mret (blob_bytes b address) else undefined.

Definition read_be32 (address : Z) : F Z :=
  b0 ← read8 address; b1 ← read8 (address + 1); b2 ← read8 (address + 2); b3 ← read8 (address + 3);
  mret (be32_of b0 b1 b2 b3).

(** [None] is the result [false]. *)
Definition align4 (value limit : Z) : option Z :=
  if limit <? value then None
  else
    let padding := Z.land (u32 (4 - Z.land value 3)) 3 in
    if u32 (limit - value) <? padding then None else Some (u32 (value + padding)).

(** [right] is a literal; its characters are not NUL. *)
Fixpoint string_equals (left : Z) (right : list Z) : F bool :=
  l ← read8 left;
  match right with
  | [] => mret (l =? 0)
  | c :: right' => if negb (l =? c) then mret false else string_equals (left + 1) right'
  end.

Fixpoint string_scan (strings index : Z) (count : nat) : F bool :=
  match count with
  | O => mret false
  | S n =>
      c ← read8 (strings + index);
      if c =? 0 then mret true else string_scan strings (index + 1) n
  end.

Definition string_at (strings strings_size offset : Z) : F (option Z) :=
  if strings_size <=? offset then mret None
  else
    found ← string_scan strings offset (Z.to_nat (strings_size - offset));
    mret (if found : bool then Some (strings + offset) else None).

(** The loop of [property_string_equals] from [index] on. *)
Fixpoint property_scan (value length index : Z) (expected : list Z) : F bool :=
  match expected with
  | [] =>
      if length <=? index then mret false
      else
        c ← read8 (value + index);
        if negb (c =? 0) then mret false else mret (length =? u32 (index + 1))
  | e :: expected' =>
      if length <=? index then mret false
      else
        c ← read8 (value + index);
        if negb (c =? e) then mret false else property_scan value length (index + 1) expected'
  end.

Definition property_string_equals (value length : Z) (expected : list Z) : F bool :=
  property_scan value length 0 expected.

(** [while (cursor < structure_size && structure[cursor] != 0U) ++cursor;] *)
Fixpoint name_scan (structure cursor : Z) (count : nat) : F Z :=
  match count with
  | O => mret cursor
  | S n =>
      c ← read8 (structure + cursor);
      if c =? 0 then mret cursor else name_scan structure (cursor + 1) n
  end.

(** ** cpu_count *)

Definition ascii_bytes (s : string) : list Z := map (fun c => Z.of_N (N_of_ascii c)) (String.list_ascii_of_string s).
Arguments ascii_bytes s%_string.
Definition str_cpus : list Z := ascii_bytes "cpus".
Definition str_device_type : list Z := ascii_bytes "device_type".
Definition str_cpu : list Z := ascii_bytes "cpu".

Record CpuCountResult := mkCount { cc_count : Z; cc_valid : bool }.

Record Geometry := mkGeometry {
  structure : Z; structure_size : Z; strings : Z; strings_size : Z
}.

(** The locals of the loop. *)
Record Walk := mkWalk { cursor : Z; depth : Z; cpus_depth : Z; current_cpu_counted : bool; count : Z }.
#[export] Instance Walk_eta : Eta Walk := fun w =>
  mkWalk (cursor w) (depth w) (cpus_depth w) (current_cpu_counted w) (count w).

(** [inl]: a [return]; [inr]: the end of the loop body. *)
Definition stop (w : Walk) (valid : bool) : F (CpuCountResult + Walk) := mret (inl (mkCount (count w) valid)).

(** The cases of the [switch]; [cursor] is past the token. *)
Definition begin_node (g : Geometry) (w : Walk) : F (CpuCountResult + Walk) :=
  let name_offset := cursor w in
  c ← name_scan (structure g) (cursor w) (Z.to_nat (structure_size g - cursor w));
  if structure_size g <=? c then stop w false
  else
    match align4 (u32 (c + 1)) (structure_size g) with
    | None => stop w false
    | Some aligned =>
        let w := w <| cursor := aligned |> <| depth := depth w + 1 |> in
        named ← (if depth w =? 1 then string_equals (structure g + name_offset) str_cpus else mret false);
        let w := if named : bool then w <| cpus_depth := depth w |> else w in
        let w := if (0 <=? cpus_depth w) && (depth w =? cpus_depth w + 1)
                 then w <| current_cpu_counted := false |> else w in
        mret (inr w)
    end.

Definition end_node (w : Walk) : F (CpuCountResult + Walk) :=
  if depth w <? 0 then stop w false
  else
    let w := if depth w =? cpus_depth w then w <| cpus_depth := -1 |> else w in
    mret (inr (w <| depth := depth w - 1 |>)).

Definition property (g : Geometry) (w : Walk) : F (CpuCountResult + Walk) :=
  if u32 (structure_size g - cursor w) <? 8 then stop w false
  else
    length ← read_be32 (structure g + cursor w);
    name_offset ← read_be32 (structure g + cursor w + 4);
    let w := w <| cursor := u32 (cursor w + 8) |> in
    if u32 (structure_size g - cursor w) <? length then stop w false
    else
      let value := structure g + cursor w in
      name ← string_at (strings g) (strings_size g) name_offset;
      match name with
      | None => stop w false
      | Some property_name =>
          is_cpu ← (if (0 <=? cpus_depth w) && (depth w =? cpus_depth w + 1) && negb (current_cpu_counted w) then
                      dt ← string_equals property_name str_device_type;
                      if dt : bool then property_string_equals value length str_cpu else mret false
                    else mret false);
          let w := if is_cpu : bool then w <| count := u32 (count w + 1) |> <| current_cpu_counted := true |> else w in
          let w := w <| cursor := u32 (cursor w + length) |> in
          match align4 (cursor w) (structure_size g) with
          | None => stop w false
          | Some aligned => mret (inr (w <| cursor := aligned |>))
          end
      end.

(** One iteration. *)
Definition cpu_step (g : Geometry) (w : Walk) : F (CpuCountResult + Walk) :=
  token ← read_be32 (structure g + cursor w);
  let w := w <| cursor := u32 (cursor w + 4) |> in
  if token =? kFdtBeginNode then begin_node g w
  else if token =? kFdtEndNode then end_node w
  else if token =? kFdtProp then property g w
  else if token =? kFdtNop then mret (inr w)
  else if token =? kFdtEnd then if negb (depth w =? -1) then stop w false else stop w true
  else stop w false.

Fixpoint cpu_walk (fuel : nat) (g : Geometry) (w : Walk) : F CpuCountResult :=
  match fuel with
  | O => diverge
  | S fuel' =>
      if negb (u32 (cursor w + 4) <=? structure_size g) then mret (mkCount (count w) false)
      else
        r ← cpu_step g w;
        match r with
        | inl result => mret result
        | inr w' => cpu_walk fuel' g w'
        end
  end.

(** Every token takes four bytes. *)
Definition walk_fuel (g : Geometry) : nat := S (Z.to_nat (structure_size g / 4)).

Definition invalid : CpuCountResult := mkCount 0 false.

Definition cpu_count (dtb_address : Z) : F CpuCountResult :=
  if dtb_address =? 0 then mret invalid
  else
    magic ← read_be32 0;
    if negb (magic =? kFdtMagic) then mret invalid
    else
      total_size ← read_be32 4;
      structure_offset ← read_be32 8;
      strings_offset ← read_be32 12;
      strings_size ← read_be32 32;
      structure_size ← read_be32 36;
      if total_size <? kFdtHeaderSize then mret invalid
      else if total_size <? structure_offset then mret invalid
      else if u32 (total_size - structure_offset) <? structure_size then mret invalid
      else if total_size <? strings_offset then mret invalid
      else if u32 (total_size - strings_offset) <? strings_size then mret invalid
      else
        let g := mkGeometry structure_offset structure_size strings_offset strings_size in
        cpu_walk (walk_fuel g) g (mkWalk 0 (-1) (-1) false 0).

(** ** Reads *)

Section reads.
Context (b : Blob).
Abbreviation m := (blob_bytes b).
Abbreviation limit := (blob_limit b).

Lemma wp_read8 o (Q : Z -> unit -> Prop) s : 0 <= o < limit -> Q (m o) s -> wp False (read8 o) Q b s.
Proof.
  intros Ho HQ. unfold read8. apply wp_bind, wp_ask.
  rewrite (proj2 (Z.leb_le 0 o)), (proj2 (Z.ltb_lt o limit)) by lia. by apply wp_ret.
Qed.

(** The big-endian word at [o]. *)
Definition word_at (o : Z) : Z := be32_of (m o) (m (o + 1)) (m (o + 2)) (m (o + 3)).

Lemma wp_read_be32 o (Q : Z -> unit -> Prop) s : 0 <= o -> o + 4 <= limit -> Q (word_at o) s -> wp False (read_be32 o) Q b s.
Proof.
  intros H0 H1 HQ. unfold read_be32. do 4 (apply wp_bind, wp_read8; [lia|]). by apply wp_ret.
Qed.

Lemma word_at_range o : mem_bytes m -> is_u32 (word_at o).
Proof.
  intros Hm. unfold word_at. rewrite be32_of_sum by apply Hm.
  pose proof (Hm o). pose proof (Hm (o + 1)). pose proof (Hm (o + 2)). pose proof (Hm (o + 3)). word_lia.
Qed.

(** The string at [o] ends inside the blob. *)
Definition ends (o : Z) : Prop := 0 <= o /\ exists z, o <= z < limit /\ m z = 0.

Lemma string_equals_safe o right (Q : bool -> unit -> Prop) s :
  ends o -> Forall (fun c => c <> 0) right -> (forall r, Q r s) -> wp False (string_equals o right) Q b s.
Proof.
  revert o. induction right as [|c right IH]; intros o (H0&z&Hz&Hm) Hr HQ; cbn [string_equals];
    apply wp_bind, wp_read8; try lia; [by apply wp_ret|].
  apply Forall_cons in Hr as [Hc Hr]. destruct (Z.eqb_spec (m o) c) as [E|]; cbn [negb]; [|by apply wp_ret].
  apply IH; try done. split; [lia|]. exists z. split; [|done]. destruct (decide (z = o)) as [->|]; [congruence|lia].
Qed.

Lemma string_scan_spec base index n (Q : bool -> unit -> Prop) s :
  0 <= base + index -> base + index + Z.of_nat n <= limit ->
  (forall r, (r = true -> exists z, base + index <= z < base + index + Z.of_nat n /\ m z = 0) -> Q r s) ->
  wp False (string_scan base index n) Q b s.
Proof.
  revert index. induction n as [|n IH]; intros index H0 H1 HQ; cbn [string_scan]; [by apply wp_ret, HQ|].
  apply wp_bind, wp_read8; [lia|]. destruct (Z.eqb_spec (m (base + index)) 0) as [E|].
  - apply wp_ret, HQ. intros _. exists (base + index). split; [lia|done].
  - apply IH; [lia..|]. intros r Hr. apply HQ. intros Et. destruct (Hr Et) as (z&?&?). exists z. split; [lia|done].
Qed.

Lemma string_at_safe base size o (Q : option Z -> unit -> Prop) s :
  0 <= base -> 0 <= o -> base + size <= limit ->
  (forall r, (forall p, r = Some p -> ends p) -> Q r s) -> wp False (string_at base size o) Q b s.
Proof.
  intros Hb Ho Hl HQ. unfold string_at. destruct (Z.leb_spec size o); [by apply wp_ret, HQ|].
  apply wp_bind, string_scan_spec; [lia..|]. intros [] Hr; apply wp_ret, HQ; [|done].
  intros p [= <-]. destruct (Hr eq_refl) as (z&?&?). split; [lia|]. exists z. split; [lia|done].
Qed.

Lemma property_scan_safe v len i e (Q : bool -> unit -> Prop) s :
  0 <= v -> 0 <= i -> v + len <= limit -> (forall r, Q r s) -> wp False (property_scan v len i e) Q b s.
Proof.
  revert i. induction e as [|c e IH]; intros i Hv Hi Hl HQ; cbn [property_scan];
    (destruct (Z.leb_spec len i); [by apply wp_ret|]); apply wp_bind, wp_read8; try lia.
  - destruct (negb (m (v + i) =? 0)); by apply wp_ret.
  - destruct (negb (m (v + i) =? c)); [by apply wp_ret|]. apply IH; try done. lia.
Qed.

Lemma name_scan_spec base c n (Q : Z -> unit -> Prop) s :
  0 <= base + c -> base + c + Z.of_nat n <= limit ->
  (forall r, c <= r <= c + Z.of_nat n -> (r < c + Z.of_nat n -> m (base + r) = 0) -> Q r s) ->
  wp False (name_scan base c n) Q b s.
Proof.
  revert c. induction n as [|n IH]; intros c H0 H1 HQ; cbn [name_scan]; [apply wp_ret, HQ; lia|].
  apply wp_bind, wp_read8; [lia|]. destruct (Z.eqb_spec (m (base + c)) 0) as [E|].
  - apply wp_ret, HQ; [lia|done].
  - apply IH; [lia..|]. intros r Hr Hz. apply HQ; [lia|]. intros. apply Hz. lia.
Qed.
End reads.

Definition padding (v : Z) : Z := (4 - v mod 4) mod 4.

Lemma padding_spec v : 0 <= padding v < 4 /\ (v + padding v) mod 4 = 0.
Proof. unfold padding. Z.div_mod_to_equations. lia. Qed.

Lemma align4_spec v l : is_u32 v -> is_u32 l ->
  align4 v l = if v + padding v <=? l then Some (v + padding v) else None.
Proof.
  intros Hv Hl. unfold align4. change 3 with (Z.ones 2). rewrite !Z.land_ones by lia. change (2 ^ 2) with 4.
  assert (u32 (4 - v mod 4) mod 4 = padding v) as -> by (unfold padding; word_lia).
  pose proof (padding_spec v) as [Hp _]. destruct (Z.ltb_spec l v), (Z.leb_spec (v + padding v) l); try lia.
  - done.
  - rewrite (proj2 (Z.ltb_ge _ _)) by word_lia. f_equal. word_lia.
  - rewrite (proj2 (Z.ltb_lt _ _)) by word_lia. done.
Qed.

(** ** Any blob is walked safely *)

Record placed (b : Blob) (g : Geometry) : Prop := {
  pl_structure : 0 <= structure g; pl_size : 0 <= structure_size g <= 2 ^ 32 - 5;
  pl_end : structure g + structure_size g <= blob_limit b;
  pl_strings : 0 <= strings g; pl_strings_end : strings g + strings_size g <= blob_limit b;
}.

Lemma literal_nonzero : Forall (fun c => c <> 0) str_cpus /\ Forall (fun c => c <> 0) str_device_type.
Proof. split; repeat constructor; done. Qed.

(** An iteration returns, or moves the cursor forward within the block. *)
Definition advances (g : Geometry) (w : Walk) (r : CpuCountResult + Walk) : Prop :=
  match r with inl _ => True | inr w' => cursor w <= cursor w' <= structure_size g end.

Lemma begin_node_safe b g w (Q : CpuCountResult + Walk -> unit -> Prop) s :
  placed b g -> 0 <= cursor w <= structure_size g -> (forall r, advances g w r -> Q r s) ->
  wp False (begin_node g w) Q b s.
Proof.
  intros [] Hc HQ. unfold begin_node. cbv zeta. apply wp_bind, name_scan_spec; [lia..|]. intros c Hcr Hz.
  destruct (Z.leb_spec (structure_size g) c); [by apply wp_ret, HQ|].
  rewrite u32_small, align4_spec by (unfold is_u32; lia). pose proof (padding_spec (c + 1)) as [Hp _].
  destruct (Z.leb_spec (c + 1 + padding (c + 1)) (structure_size g)); [|by apply wp_ret, HQ].
  apply wp_bind. match goal with |- wp _ (if ?c then _ else _) _ _ _ => destruct c end.
  - apply string_equals_safe; [|apply literal_nonzero|].
    + split; [lia|]. exists (structure g + c). split; [lia|]. apply Hz. lia.
    + intros r. apply wp_ret, HQ. repeat case_match; simpl; lia.
  - apply wp_ret, wp_ret, HQ. repeat case_match; simpl; lia.
Qed.

Lemma property_safe b g w (Q : CpuCountResult + Walk -> unit -> Prop) s :
  mem_bytes (blob_bytes b) -> placed b g -> 0 <= cursor w <= structure_size g -> (forall r, advances g w r -> Q r s) ->
  wp False (property g w) Q b s.
Proof.
  intros Hm [] Hc HQ. unfold property. rewrite u32_small by (unfold is_u32; lia).
  destruct (Z.ltb_spec (structure_size g - cursor w) 8); [by apply wp_ret, HQ|].
  apply wp_bind, wp_read_be32; [lia..|]. apply wp_bind, wp_read_be32; [lia..|].
  pose proof (word_at_range b (structure g + cursor w) Hm) as Hlen. set (len := word_at b (structure g + cursor w)) in *.
  pose proof (word_at_range b (structure g + cursor w + 4) Hm) as Hno. set (no := word_at b (structure g + cursor w + 4)) in *.
  unfold is_u32 in *. cbv zeta. cbn [cursor set_field]. rewrite (u32_small (cursor w + 8)) by (unfold is_u32; lia).
  rewrite u32_small by (unfold is_u32; lia).
  destruct (Z.ltb_spec (structure_size g - (cursor w + 8)) len); [by apply wp_ret, HQ|].
  apply wp_bind, string_at_safe; [lia..|]. intros [p|] Hp; [|by apply wp_ret, HQ]. specialize (Hp p eq_refl).
  assert (forall w', cursor w' = cursor w + 8 ->
    wp False match align4 (u32 (cursor w' + len)) (structure_size g) with
             | Some aligned => mret (inr (w' <| cursor := u32 (cursor w' + len) |> <| cursor := aligned |>))
             | None => stop (w' <| cursor := u32 (cursor w' + len) |>) false
             end Q b s) as Hend.
  { intros w' ->. rewrite u32_small, align4_spec by (unfold is_u32; lia).
    pose proof (padding_spec (cursor w + 8 + len)) as [Hpad _].
    destruct (Z.leb_spec (cursor w + 8 + len + padding (cursor w + 8 + len)) (structure_size g)); apply wp_ret, HQ; simpl; [lia|done]. }
  apply wp_bind. match goal with |- wp _ (if ?c then _ else _) _ _ _ => destruct c end.
  - apply wp_bind, string_equals_safe; [done|apply literal_nonzero|]. intros [].
    + apply property_scan_safe; [lia..|]. intros []; by apply Hend.
    + apply wp_ret. by apply Hend.
  - apply wp_ret. by apply Hend.
Qed.

Lemma walk_step_safe b g w (Q : CpuCountResult + Walk -> unit -> Prop) s :
  mem_bytes (blob_bytes b) -> placed b g -> 0 <= cursor w -> cursor w + 4 <= structure_size g ->
  (forall r, advances g (w <| cursor := cursor w + 4 |>) r -> Q r s) -> wp False (cpu_step g w) Q b s.
Proof.
  intros Hm Hpl H0 H4 HQ. pose proof Hpl as []. unfold cpu_step. apply wp_bind, wp_read_be32; [lia..|]. cbv zeta.
  rewrite u32_small by (unfold is_u32; lia).
  repeat match goal with |- wp _ (if _ =? ?k then _ else _) _ _ _ => destruct (_ =? k) end.
  - apply begin_node_safe; [done|simpl; lia|done].
  - unfold end_node. repeat case_match; apply wp_ret, HQ; simpl; lia || done.
  - apply property_safe; [done|done|simpl; lia|done].
  - apply wp_ret, HQ. simpl. lia.
  - case_match; by apply wp_ret, HQ.
  - by apply wp_ret, HQ.
Qed.

Lemma walk_safe b g fuel w (Q : CpuCountResult -> unit -> Prop) s :
  mem_bytes (blob_bytes b) -> placed b g -> 0 <= cursor w <= structure_size g ->
  structure_size g - cursor w < 4 * Z.of_nat fuel -> (forall r, Q r s) -> wp False (cpu_walk fuel g w) Q b s.
Proof.
  intros Hm Hpl. pose proof Hpl as []. revert w. induction fuel as [|fuel IH]; intros w Hc Hf HQ; [lia|]. cbn [cpu_walk].
  rewrite u32_small by (unfold is_u32; lia).
  destruct (Z.leb_spec (cursor w + 4) (structure_size g)); cbn [negb]; [|by apply wp_ret].
  apply wp_bind, walk_step_safe; [done|done|lia|lia|]. intros [r|w'] Hr; [by apply wp_ret|]. simpl in Hr.
  apply IH; [lia|lia|done].
Qed.

Lemma cpu_count_safe_wp a b :
  mem_bytes (blob_bytes b) -> kFdtHeaderSize <= blob_limit b <= 2 ^ 32 - 5 -> word_at b 4 <= blob_limit b ->
  wp False (cpu_count a) (fun _ _ => True) b tt.
Proof.
  unfold kFdtHeaderSize. intros Hm Hl Ht. unfold cpu_count. destruct (a =? 0); [by apply wp_ret|].
  apply wp_bind, wp_read_be32; [lia..|]. case_match; [by apply wp_ret|].
  do 5 (apply wp_bind, wp_read_be32; [lia..|]).
  pose proof (word_at_range b 8 Hm) as H8. pose proof (word_at_range b 12 Hm) as H12.
  pose proof (word_at_range b 32 Hm) as H32. pose proof (word_at_range b 36 Hm) as H36. unfold is_u32 in *.
  destruct (Z.ltb_spec (word_at b 4) kFdtHeaderSize); [by apply wp_ret|]. unfold kFdtHeaderSize in *.
  destruct (Z.ltb_spec (word_at b 4) (word_at b 8)); [by apply wp_ret|].
  rewrite u32_small by (unfold is_u32; lia).
  destruct (Z.ltb_spec (word_at b 4 - word_at b 8) (word_at b 36)); [by apply wp_ret|].
  destruct (Z.ltb_spec (word_at b 4) (word_at b 12)); [by apply wp_ret|].
  rewrite u32_small by (unfold is_u32; lia).
  destruct (Z.ltb_spec (word_at b 4 - word_at b 12) (word_at b 32)); [by apply wp_ret|].
  cbv zeta. apply walk_safe; [done|split; simpl; lia|simpl; lia| |done].
  unfold walk_fuel. cbn [structure_size cursor]. Z.div_mod_to_equations. lia.
Qed.

(** ** Device trees and their encoding *)

Definition nonzero (l : list Z) : Prop := Forall (fun c => c <> 0) l.

(** What a structure block is made of; a property names itself by an offset
    into the strings block. *)
Inductive item :=
| INop
| IProp (nameoff : Z) (value : list Z)
| INode (name : list Z) (body : list item).

Section item_induction.
Context (P : item -> Prop) (Hnop : P INop) (Hprop : forall o v, P (IProp o v))
  (Hnode : forall name body, Forall P body -> P (INode name body)).
Fixpoint item_nested_ind (i : item) : P i :=
  match i with
  | INop => Hnop
  | IProp o v => Hprop o v
  | INode name body => Hnode name body
      ((fix go (l : list item) : Forall P l :=
          match l with [] => Forall_nil_2 _ | x :: l' => Forall_cons_2 _ _ _ (item_nested_ind x) (go l') end) body)
  end.
End item_induction.

Definition zeros (n : Z) : list Z := replicate (Z.to_nat (padding n)) 0.

Fixpoint encode (i : item) : list Z :=
  match i with
  | INop => be32_bytes kFdtNop
  | IProp o v => be32_bytes kFdtProp ++ be32_bytes (Z.of_nat (length v)) ++ be32_bytes o ++ v ++ zeros (Z.of_nat (length v))
  | INode name body =>
      be32_bytes kFdtBeginNode ++ (name ++ [0]) ++ zeros (Z.of_nat (length name) + 1)
      ++ concat (map encode body) ++ be32_bytes kFdtEndNode
  end.
Definition encode_items (l : list item) : list Z := concat (map encode l).

(** Iterations of the loop that an item takes. *)
Fixpoint tokens (i : item) : nat :=
  match i with INop | IProp _ _ => 1 | INode _ body => 2 + sum_list (map tokens body) end.
Definition tokens_items (l : list item) : nat := sum_list (map tokens l).

Section counting.
Context (strs : list Z).

(** The string at an offset of the strings block. *)
Fixpoint until_nul (l : list Z) : list Z :=
  match l with [] => [] | c :: l' => if c =? 0 then [] else c :: until_nul l' end.
Definition name_of (o : Z) : list Z := until_nul (drop (Z.to_nat o) strs).

Definition is_cpu_property (o : Z) (v : list Z) : bool :=
  bool_decide (name_of o = str_device_type) && bool_decide (v = str_cpu ++ [0]).

(** The reference: under every node [/cpus], the children that say
    [device_type = "cpu"]. *)
Definition is_cpu (i : item) : bool :=
  match i with
  | INode _ body => existsb (fun j => match j with IProp o v => is_cpu_property o v | _ => false end) body
  | _ => false
  end.
Definition cpus_of (i : item) : nat :=
  match i with
  | INode name body => if bool_decide (name = str_cpus) then length (filter (fun j => is_cpu j = true) body) else 0
  | _ => 0
  end.
Definition cpus_under (i : item) : nat :=
  match i with INode _ body => sum_list (map cpus_of body) | _ => 0 end.
Definition cpu_total (l : list item) : nat := sum_list (map cpus_under l).

(** Names are C strings, property names exist, lengths fit their field. *)
Fixpoint well_formed (i : item) : Prop :=
  match i with
  | INop => True
  | IProp o v => 0 <= o < Z.of_nat (length strs) /\ 0 ∈ drop (Z.to_nat o) strs /\ Z.of_nat (length v) < 2 ^ 32
  | INode name body => nonzero name /\ fold_right (fun j P => well_formed j /\ P) True body
  end.

(** The walk as a function on items: [d] open nodes, [c] the depth of
    [/cpus] or -1, and the flag and the count so far. *)
Fixpoint eval (d c : Z) (i : item) (s : bool * Z) : bool * Z :=
  match i with
  | INop => s
  | IProp o v =>
      if (0 <=? c) && (d =? c + 1) && negb s.1 && is_cpu_property o v then (true, u32 (s.2 + 1)) else s
  | INode name body =>
      let d' := d + 1 in
      let c' := if (d' =? 1) && bool_decide (name = str_cpus) then d' else c in
      let s' := if (0 <=? c') && (d' =? c' + 1) then (false, s.2) else s in
      fold_left (fun s j => eval d' c' j s) body s'
  end.
Definition eval_items (d c : Z) (l : list item) (s : bool * Z) : bool * Z := fold_left (fun s j => eval d c j s) l s.
End counting.

(** ** Exact reads *)

Section exact.
Context (b : Blob).
Abbreviation m := (blob_bytes b).

Lemma wp_read_be32_at o v (Q : Z -> unit -> Prop) s :
  at_mem m o (be32_bytes v) -> is_u32 v -> 0 <= o -> o + 4 <= blob_limit b -> Q v s -> wp False (read_be32 o) Q b s.
Proof.
  intros H Hv H0 H4 HQ. apply wp_read_be32; [done|done|]. unfold word_at.
  pose proof (H 0%nat _ eq_refl) as E0. rewrite Z.add_0_r in E0.
  pose proof (H 1%nat _ eq_refl : m (o + 1) = _) as E1. pose proof (H 2%nat _ eq_refl : m (o + 2) = _) as E2.
  pose proof (H 3%nat _ eq_refl : m (o + 3) = _) as E3. rewrite E0, E1, E2, E3. by rewrite be32_roundtrip.
Qed.

Lemma string_equals_exact o x right (Q : bool -> unit -> Prop) s :
  at_mem m o (x ++ [0]) -> nonzero x -> nonzero right -> 0 <= o -> o + Z.of_nat (length x) < blob_limit b ->
  Q (bool_decide (x = right)) s -> wp False (string_equals o right) Q b s.
Proof.
  revert o x. induction right as [|c right IH]; intros o x Hm Hx Hr H0 Hl HQ; cbn [string_equals];
    apply wp_bind, wp_read8; try lia; destruct x as [|a x]; cbn [app] in Hm; apply at_mem_cons in Hm as [Ha Hm];
    rewrite Ha.
  - by apply wp_ret.
  - apply Forall_cons in Hx as [Hx _]. rewrite (proj2 (Z.eqb_neq a 0)) by done. apply wp_ret.
    by rewrite bool_decide_false in HQ.
  - apply Forall_cons in Hr as [Hc _]. rewrite (proj2 (Z.eqb_neq 0 c)) by done. cbn [negb]. apply wp_ret.
    by rewrite bool_decide_false in HQ.
  - apply Forall_cons in Hx as [_ Hx]. apply Forall_cons in Hr as [_ Hr]. destruct (Z.eqb_spec a c) as [->|Hne]; cbn [negb].
    + apply (IH _ x); try done; [lia|simpl in Hl; lia|].
      rewrite (bool_decide_ext _ (c :: x = c :: right)); [done|]. split; congruence.
    + apply wp_ret. rewrite bool_decide_false in HQ by congruence. done.
Qed.

Lemma property_scan_exact v val i e (Q : bool -> unit -> Prop) s :
  at_mem m v val -> nonzero e -> 0 <= v -> v + Z.of_nat (length val) <= blob_limit b -> Z.of_nat (length val) < 2 ^ 32 ->
  (i <= length val)%nat -> Q (bool_decide (drop i val = e ++ [0])) s ->
  wp False (property_scan v (Z.of_nat (length val)) (Z.of_nat i) e) Q b s.
Proof.
  revert i. induction e as [|c e IH]; intros i Hm He Hv Hl Hlen Hi HQ; cbn [property_scan].
  all: destruct (Z.leb_spec (Z.of_nat (length val)) (Z.of_nat i)) as [Hend|Hin];
    [apply wp_ret; rewrite (drop_ge val i) in HQ by lia; by rewrite bool_decide_false in HQ by (by intros ?%symmetry)|].
  all: destruct (lookup_lt_is_Some_2 val i ltac:(lia)) as [x Hx]; rewrite (drop_S val x i Hx) in HQ.
  all: apply wp_bind, wp_read8; [lia|]; rewrite (Hm i x Hx).
  - destruct (Z.eqb_spec x 0) as [->|Hne]; cbn [negb]; apply wp_ret.
    + rewrite u32_small by (unfold is_u32; lia).
      destruct (Z.eqb_spec (Z.of_nat (length val)) (Z.of_nat i + 1)) as [E|E].
      * rewrite (drop_ge val (S i)) in HQ by lia. by rewrite bool_decide_true in HQ.
      * rewrite bool_decide_false in HQ; [done|]. cbn [app]. intros Heq. injection Heq as Heq.
        apply (f_equal length) in Heq. rewrite length_drop in Heq. simpl in Heq. lia.
    + rewrite bool_decide_false in HQ by (cbn [app]; congruence). done.
  - apply Forall_cons in He as [_ He]. destruct (Z.eqb_spec x c) as [->|Hne]; cbn [negb].
    + replace (Z.of_nat i + 1) with (Z.of_nat (S i)) by lia. apply IH; try done; [lia|].
      rewrite (bool_decide_ext _ (c :: drop (S i) val = (c :: e) ++ [0])); [done|]. cbn [app]. split; congruence.
    + apply wp_ret. rewrite bool_decide_false in HQ by (cbn [app]; congruence). done.
Qed.

Lemma name_scan_exact base c nm n (Q : Z -> unit -> Prop) s :
  at_mem m (base + c) (nm ++ [0]) -> nonzero nm -> 0 <= base + c -> base + c + Z.of_nat (length nm) < blob_limit b ->
  (length nm < n)%nat -> Q (c + Z.of_nat (length nm)) s -> wp False (name_scan base c n) Q b s.
Proof.
  revert c n. induction nm as [|a nm IH]; intros c n Hm Hx H0 Hl Hn HQ; (destruct n as [|n]; [simpl in Hn; lia|]);
    cbn [name_scan]; apply wp_bind, wp_read8; try lia; cbn [app] in Hm; apply at_mem_cons in Hm as [Ha Hm]; rewrite Ha.
  - apply wp_ret. by rewrite Z.add_0_r in HQ.
  - apply Forall_cons in Hx as [Hx0 Hx]. rewrite (proj2 (Z.eqb_neq a 0)) by done. simpl in Hn, Hl.
    apply IH; try done; [by rewrite Z.add_assoc|lia|lia|lia|].
    replace (c + 1 + Z.of_nat (length nm)) with (c + Z.of_nat (length (a :: nm))) by (simpl; lia). done.
Qed.

(** A name of the strings block. *)
Lemma until_nul_prefix l : 0 ∈ l -> exists rest, l = until_nul l ++ 0 :: rest.
Proof.
  induction l as [|c l IH]; intros H; [by apply elem_of_nil in H|]. cbn [until_nul].
  destruct (Z.eqb_spec c 0) as [->|Hne]; [by exists l|]. apply elem_of_cons in H as [?|H]; [done|].
  destruct (IH H) as [rest Hr]. exists rest. cbn [app]. by rewrite <- Hr.
Qed.
Lemma until_nul_nonzero l : nonzero (until_nul l).
Proof. induction l as [|c l IH]; [constructor|]. cbn [until_nul]. destruct (Z.eqb_spec c 0); [constructor|by constructor]. Qed.

Lemma string_scan_exact base index x n (Q : bool -> unit -> Prop) s :
  at_mem m (base + index) (x ++ [0]) -> nonzero x -> 0 <= base + index -> base + index + Z.of_nat n <= blob_limit b ->
  (length x < n)%nat -> Q true s -> wp False (string_scan base index n) Q b s.
Proof.
  revert index n. induction x as [|a x IH]; intros index n Hm Hx H0 Hl Hn HQ; (destruct n as [|n]; [simpl in Hn; lia|]);
    cbn [string_scan]; apply wp_bind, wp_read8; try lia; cbn [app] in Hm; apply at_mem_cons in Hm as [Ha Hm]; rewrite Ha.
  - by apply wp_ret.
  - apply Forall_cons in Hx as [Hx0 Hx]. rewrite (proj2 (Z.eqb_neq a 0)) by done. simpl in Hn.
    apply IH; try done; [by rewrite Z.add_assoc|lia..].
Qed.
End exact.

(** ** The walk follows the tree *)

Lemma padding_add a n : a mod 4 = 0 -> padding (a + n) = padding n.
Proof. intros H. unfold padding. Z.div_mod_to_equations. lia. Qed.

Lemma zeros_length n : Z.of_nat (length (zeros n)) = padding n.
Proof. unfold zeros. rewrite length_replicate. pose proof (padding_spec n). lia. Qed.

Definition zlen (l : list Z) : Z := Z.of_nat (length l).
Lemma zlen_app l1 l2 : zlen (l1 ++ l2) = zlen l1 + zlen l2.
Proof. unfold zlen. rewrite length_app. lia. Qed.
Lemma zlen_be32 v : zlen (be32_bytes v) = 4.
Proof. done. Qed.
Lemma zlen_zeros n : zlen (zeros n) = padding n.
Proof. apply zeros_length. Qed.
Lemma zlen_nonneg l : 0 <= zlen l.
Proof. unfold zlen. lia. Qed.
Lemma zlen_nul name : zlen (name ++ [0]) = zlen name + 1.
Proof. by rewrite zlen_app. Qed.

Lemma at_mem_split m a l1 l2 : at_mem m a (l1 ++ l2) -> at_mem m a l1 /\ at_mem m (a + zlen l1) l2.
Proof. apply at_mem_app. Qed.

Lemma encode_aligned i : zlen (encode i) mod 4 = 0.
Proof.
  induction i as [|o v|name body IH] using item_nested_ind; [done|..]; cbn [encode].
  - rewrite !zlen_app, !zlen_be32, zlen_zeros. fold (zlen v). pose proof (padding_spec (zlen v)) as [_ H]. Z.div_mod_to_equations. lia.
  - rewrite !zlen_app, !zlen_be32, zlen_zeros. fold (zlen name). change (zlen [0]) with 1.
    pose proof (padding_spec (zlen name + 1)) as [_ H].
    assert (zlen (concat (map encode body)) mod 4 = 0) as Hb.
    { induction IH as [|j l Hj Hl IHl]; [done|]. cbn [map concat]. rewrite zlen_app. Z.div_mod_to_equations. lia. }
    Z.div_mod_to_equations. lia.
Qed.

(** Below [/cpus] the depth is at least 1. *)
Definition good (d c : Z) : Prop := -1 <= d /\ (c = -1 \/ (c = 1 /\ 1 <= d)).

Section follow.
Context (b : Blob) (g : Geometry) (strs : list Z).
Abbreviation m := (blob_bytes b).
Context (Hpl : placed b g) (Hstrs : at_mem m (strings g) strs) (Hsize : strings_size g = zlen strs)
  (Hbound : zlen strs < 2 ^ 32).

(** One iteration, given the token. *)
Lemma walk_token fuel w tok (Q : CpuCountResult -> unit -> Prop) s :
  at_mem m (structure g + cursor w) (be32_bytes tok) -> is_u32 tok -> 0 <= cursor w -> cursor w + 4 <= structure_size g ->
  (let w' := w <| cursor := cursor w + 4 |> in
   wp False (if tok =? kFdtBeginNode then begin_node g w'
     else if tok =? kFdtEndNode then end_node w'
     else if tok =? kFdtProp then property g w'
     else if tok =? kFdtNop then mret (inr w')
     else if tok =? kFdtEnd then if negb (depth w' =? -1) then stop w' false else stop w' true
     else stop w' false)
     (fun r s => match r with inl x => Q x s | inr w' => wp False (cpu_walk fuel g w') Q b s end) b s) ->
  wp False (cpu_walk (S fuel) g w) Q b s.
Proof.
  intros Hm Ht H0 H4 Hs. pose proof Hpl as []. cbn [cpu_walk].
  rewrite u32_small, (proj2 (Z.leb_le _ _)) by (unfold is_u32; lia). cbn [negb]. apply wp_bind. unfold cpu_step.
  apply wp_bind. eapply wp_read_be32_at; [exact Hm|done|lia|lia|]. cbv zeta in *. rewrite u32_small by (unfold is_u32; lia).
  eapply wp_mono; [exact Hs|done|]. intros [x|w'] s' Hx; [by apply wp_ret|done].
Qed.

Lemma begin_node_exact cur d c bb n name (Q : CpuCountResult + Walk -> unit -> Prop) s :
  at_mem m (structure g + cur) (name ++ [0]) -> nonzero name -> 0 <= cur -> cur mod 4 = 0 ->
  cur + zlen name + 1 + padding (zlen name + 1) <= structure_size g ->
  (let c' := if (d + 1 =? 1) && bool_decide (name = str_cpus) then d + 1 else c in
   let bb' := if (0 <=? c') && (d + 1 =? c' + 1) then false else bb in
   Q (inr (mkWalk (cur + zlen name + 1 + padding (zlen name + 1)) (d + 1) c' bb' n)) s) ->
  wp False (begin_node g (mkWalk cur d c bb n)) Q b s.
Proof.
  intros Hm Hn H0 Ha Hl HQ. pose proof Hpl as []. pose proof (padding_spec (zlen name + 1)) as [Hp _].
  pose proof (zlen_nonneg name). unfold begin_node. cbn [cursor]. apply wp_bind.
  eapply (name_scan_exact b _ _ name); [exact Hm|done|lia|unfold zlen in *; lia|unfold zlen in *; lia|]. fold (zlen name).
  rewrite (proj2 (Z.leb_gt _ _)) by lia. rewrite u32_small, align4_spec by (unfold is_u32; lia).
  replace (cur + zlen name + 1) with (cur + (zlen name + 1)) in * by lia. rewrite (padding_add cur) by done.
  rewrite (proj2 (Z.leb_le _ _)) by lia. cbv zeta. cbn [depth set_field].
  apply wp_bind. destruct (d + 1 =? 1) eqn:E1; cbn [andb] in HQ.
  - eapply (string_equals_exact b _ name); [exact Hm|done|apply literal_nonzero|lia|unfold zlen in *; lia|].
    apply wp_ret. case_bool_decide; simpl in *; repeat case_match; done.
  - apply wp_ret, wp_ret. simpl in *. repeat case_match; done.
Qed.

Lemma end_node_exact cur d c bb n (Q : CpuCountResult + Walk -> unit -> Prop) s :
  0 <= d -> Q (inr (mkWalk cur (d - 1) (if d =? c then -1 else c) bb n)) s ->
  wp False (end_node (mkWalk cur d c bb n)) Q b s.
Proof.
  intros Hd HQ. unfold end_node. cbn [depth cpus_depth]. rewrite (proj2 (Z.ltb_ge _ _)) by done. apply wp_ret. by destruct (d =? c).
Qed.

Lemma name_stored o :
  0 <= o < zlen strs -> 0 ∈ drop (Z.to_nat o) strs ->
  at_mem m (strings g + o) (name_of strs o ++ [0]) /\ (length (name_of strs o) < Z.to_nat (zlen strs - o))%nat.
Proof.
  intros Ho Hz. destruct (until_nul_prefix _ Hz) as [rest Hr]. unfold name_of. split.
  - rewrite <- (take_drop (Z.to_nat o) strs) in Hstrs. apply at_mem_split in Hstrs as [_ Hd].
    unfold zlen in Hd, Ho. rewrite length_take, Nat.min_l, Z2Nat.id in Hd by lia. rewrite Hr in Hd.
    change (0 :: rest) with ([0] ++ rest) in Hd. rewrite app_assoc in Hd. by apply at_mem_split in Hd as [? _].
  - apply (f_equal length) in Hr. rewrite length_drop, length_app in Hr. simpl in Hr. unfold zlen in *. lia.
Qed.

Lemma string_at_exact o (Q : option Z -> unit -> Prop) s :
  0 <= o < zlen strs -> 0 ∈ drop (Z.to_nat o) strs -> Q (Some (strings g + o)) s ->
  wp False (string_at (strings g) (strings_size g) o) Q b s.
Proof.
  intros Ho Hz HQ. pose proof Hpl as []. unfold string_at. rewrite Hsize, (proj2 (Z.leb_gt _ _)) by lia. apply wp_bind.
  destruct (name_stored o Ho Hz) as [Hm Hl].
  eapply (string_scan_exact b _ _ _); [exact Hm|apply until_nul_nonzero|lia|unfold zlen in *; lia|done|]. by apply wp_ret.
Qed.

Lemma property_exact cur d c bb n o v (Q : CpuCountResult + Walk -> unit -> Prop) s :
  at_mem m (structure g + cur) (be32_bytes (zlen v) ++ be32_bytes o ++ v) -> zlen v < 2 ^ 32 ->
  0 <= o < zlen strs -> 0 ∈ drop (Z.to_nat o) strs -> 0 <= cur -> cur mod 4 = 0 ->
  cur + 8 + zlen v + padding (zlen v) <= structure_size g ->
  (let r := eval strs d c (IProp o v) (bb, n) in Q (inr (mkWalk (cur + 8 + zlen v + padding (zlen v)) d c r.1 r.2)) s) ->
  wp False (property g (mkWalk cur d c bb n)) Q b s.
Proof.
  intros Hm Hv Ho Hz H0 Ha Hl HQ. pose proof Hpl as []. pose proof (padding_spec (zlen v)) as [Hp _]. pose proof (zlen_nonneg v).
  apply at_mem_split in Hm as [Hm1 Hm]. apply at_mem_split in Hm as [Hm2 Hm3]. rewrite !zlen_be32 in *.
  unfold property. cbn [cursor]. rewrite u32_small, (proj2 (Z.ltb_ge _ _)) by (unfold is_u32; lia).
  apply wp_bind. eapply wp_read_be32_at; [exact Hm1|unfold is_u32; lia|lia|lia|].
  apply wp_bind. eapply wp_read_be32_at; [exact Hm2|unfold is_u32, zlen in *; lia|lia|lia|].
  cbv zeta. cbn [cursor set_field cpus_depth depth current_cpu_counted].
  rewrite (u32_small (cur + 8)) by (unfold is_u32; lia). rewrite u32_small, (proj2 (Z.ltb_ge _ _)) by (unfold is_u32; lia).
  apply wp_bind, string_at_exact; [done|done|].
  assert (forall bb' n', (bb', n') = eval strs d c (IProp o v) (bb, n) ->
    wp False match align4 (u32 (cur + 8 + zlen v)) (structure_size g) with
             | Some aligned => mret (inr (mkWalk aligned d c bb' n'))
             | None => stop (mkWalk (u32 (cur + 8 + zlen v)) d c bb' n') false
             end Q b s) as Hend.
  { intros bb' n' E. rewrite <- E in HQ. rewrite u32_small, align4_spec by (unfold is_u32; lia).
    replace (padding (cur + 8 + zlen v)) with (padding (zlen v)) by (symmetry; apply padding_add; Z.div_mod_to_equations; lia).
    rewrite (proj2 (Z.leb_le _ _)) by lia. by apply wp_ret. }
  cbn [eval fst snd] in Hend. apply wp_bind.
  destruct ((0 <=? c) && (d =? c + 1) && negb bb); cbn [andb] in Hend; [|apply wp_ret; by apply Hend].
  destruct (name_stored o Ho Hz) as [Hname Hnl].
  apply wp_bind. eapply (string_equals_exact b _ (name_of strs o)); [exact Hname|apply until_nul_nonzero|apply literal_nonzero|lia|unfold zlen in *; lia|].
  unfold is_cpu_property in Hend. case_bool_decide; cbn [andb] in Hend; [|apply wp_ret; by apply Hend].
  apply (property_scan_exact b _ v 0); [by replace (structure g + (cur + 8)) with (structure g + cur + 4 + 4) by lia|repeat constructor; done|lia|unfold zlen in *; lia|done|lia|].
  rewrite drop_0. case_bool_decide; by apply Hend.
Qed.

(** What the loop does on the encoding of [i]. *)
Definition follows (i : item) : Prop := forall d c r cur fuel (Q : CpuCountResult -> unit -> Prop) s,
  well_formed strs i -> at_mem m (structure g + cur) (encode i) -> 0 <= cur -> cur mod 4 = 0 ->
  cur + zlen (encode i) <= structure_size g -> good d c ->
  wp False (cpu_walk fuel g (mkWalk (cur + zlen (encode i)) d c (eval strs d c i r).1 (eval strs d c i r).2)) Q b s ->
  wp False (cpu_walk (tokens i + fuel) g (mkWalk cur d c r.1 r.2)) Q b s.

Lemma follows_items l d c r cur fuel (Q : CpuCountResult -> unit -> Prop) s :
  Forall follows l -> fold_right (fun j P => well_formed strs j /\ P) True l ->
  at_mem m (structure g + cur) (encode_items l) -> 0 <= cur -> cur mod 4 = 0 ->
  cur + zlen (encode_items l) <= structure_size g -> good d c ->
  wp False (cpu_walk fuel g (mkWalk (cur + zlen (encode_items l)) d c (eval_items strs d c l r).1 (eval_items strs d c l r).2)) Q b s ->
  wp False (cpu_walk (tokens_items l + fuel) g (mkWalk cur d c r.1 r.2)) Q b s.
Proof.
  intros Hl. revert r cur. induction Hl as [|i l Hi Hl IH]; intros r cur Hwf Hm H0 Ha Hlen Hg HQ.
  - cbn [encode_items map concat] in HQ. by rewrite Z.add_0_r in HQ.
  - destruct Hwf as [Hw Hwf]. change (encode_items (i :: l)) with (encode i ++ encode_items l) in *.
    rewrite zlen_app in *. apply at_mem_split in Hm as [Hm1 Hm2]. pose proof (zlen_nonneg (encode i)).
    pose proof (zlen_nonneg (encode_items l)). pose proof (encode_aligned i) as Hal.
    change (tokens_items (i :: l)) with (tokens i + tokens_items l)%nat. rewrite <- Nat.add_assoc.
    apply Hi; try done; [lia|]. apply IH; try done; [eapply at_mem_eq; [exact Hm2|lia]|lia|Z.div_mod_to_equations; lia|lia|].
    by rewrite <- Z.add_assoc.
Qed.

(** Entering a node gives a good depth for its body, and leaving it restores
    the depth of [/cpus]. *)
Lemma good_enter d c (named : bool) : good d c ->
  let c' := if (d + 1 =? 1) && named then d + 1 else c in
  good (d + 1) c' /\ (if d + 1 =? c' then -1 else c') = c.
Proof.
  intros [Hd Hc] c'. unfold c', good. destruct (Z.eqb_spec (d + 1) 1), named; cbn [andb].
  - rewrite Z.eqb_refl. lia.
  - destruct (Z.eqb_spec (d + 1) c); lia.
  - destruct (Z.eqb_spec (d + 1) c); lia.
  - destruct (Z.eqb_spec (d + 1) c); lia.
Qed.

Lemma follows_all i : follows i.
Proof.
  induction i as [|o v|name body IH] using item_nested_ind; intros d c r cur fuel Q s Hwf Hm H0 Ha Hlen Hg HQ.
  - cbn [tokens Nat.add]. apply (walk_token _ _ kFdtNop); [exact Hm|done|done|done|]. by apply wp_ret.
  - cbn [tokens Nat.add encode] in *. destruct Hwf as (Ho&Hz&Hv). fold (zlen v) in *.
    rewrite !zlen_app, !zlen_be32, zlen_zeros in *. rewrite !app_assoc in Hm. apply at_mem_split in Hm as [Hm _].
    rewrite <- !app_assoc in Hm. apply at_mem_split in Hm as [Hm1 Hm2]. rewrite zlen_be32 in Hm2.
    pose proof (zlen_nonneg v). pose proof (padding_spec (zlen v)) as [Hp _].
    apply (walk_token _ _ kFdtProp); [exact Hm1|done|done|cbn [cursor]; lia|]. cbn [cursor]. cbv zeta.
    apply (property_exact _ _ _ _ _ o v); try done; [eapply at_mem_eq; [exact Hm2|lia]|lia|Z.div_mod_to_equations; lia|lia|].
    cbv zeta. replace (cur + 4 + 8 + zlen v + padding (zlen v)) with (cur + (4 + (4 + (4 + (zlen v + padding (zlen v)))))) by lia.
    destruct r as [bb n]. exact HQ.
  - destruct Hwf as [Hn Hwf]. cbn [encode] in *. fold (encode_items body) in *. fold (zlen name) in *.
    rewrite !zlen_app, !zlen_be32, zlen_zeros in *. change (zlen [0]) with 1 in *.
    apply at_mem_split in Hm as [Hm1 Hm]. apply at_mem_split in Hm as [Hm2 Hm]. apply at_mem_split in Hm as [_ Hm].
    apply at_mem_split in Hm as [Hm3 Hm4]. rewrite !zlen_be32, ?zlen_nul, ?zlen_zeros in *.
    pose proof (zlen_nonneg name). pose proof (zlen_nonneg (encode_items body)).
    pose proof (padding_spec (zlen name + 1)) as [Hp Hpa].
    assert (zlen (encode_items body) mod 4 = 0) as Hba.
    { clear. induction body as [|j l IHl]; [done|]. change (encode_items (j :: l)) with (encode j ++ encode_items l).
      rewrite zlen_app. pose proof (encode_aligned j). Z.div_mod_to_equations. lia. }
    cbn [tokens]. fold (tokens_items body). replace (2 + tokens_items body + fuel)%nat with (S (tokens_items body + S fuel)) by lia.
    apply (walk_token _ _ kFdtBeginNode); [exact Hm1|done|done|cbn [cursor]; lia|]. cbn [cursor]. cbv zeta.
    apply (begin_node_exact _ _ _ _ _ name); try done; [eapply at_mem_eq; [exact Hm2|lia]|lia|Z.div_mod_to_equations; lia|lia|].
    destruct (good_enter d c (bool_decide (name = str_cpus)) Hg) as [Hg' Hback].
    cbn [eval] in HQ. cbv zeta in HQ, Hg', Hback |- *. cbn [depth cpus_depth current_cpu_counted count].
    set (c' := if (d + 1 =? 1) && bool_decide (name = str_cpus) then d + 1 else c) in *.
    set (r' := if (0 <=? c') && (d + 1 =? c' + 1) then (false, r.2) else r) in *.
    match goal with |- wp _ (cpu_walk _ _ ?w) _ _ _ =>
      replace w with (mkWalk (cur + 4 + zlen name + 1 + padding (zlen name + 1)) (d + 1) c' r'.1 r'.2)
        by (unfold r'; by destruct ((0 <=? c') && (d + 1 =? c' + 1))) end.
    apply follows_items; try done; [eapply at_mem_eq; [exact Hm3|lia]|lia|Z.div_mod_to_equations; lia|lia|].
    apply (walk_token _ _ kFdtEndNode); [cbn [cursor]; eapply at_mem_eq; [exact Hm4|lia]|done|cbn [cursor]; lia|cbn [cursor]; lia|].
    cbn [cursor]. cbv zeta. apply end_node_exact; cbn [depth cpus_depth current_cpu_counted count]; [destruct Hg as [Hd _]; lia|].
    rewrite Hback.
    replace (d + 1 - 1) with d by lia. fold (eval_items strs (d + 1) c' body r') in HQ.
    match goal with |- wp _ (cpu_walk _ _ (mkWalk ?x _ _ _ _)) _ _ _ => match type of HQ with wp _ (cpu_walk _ _ (mkWalk ?y _ _ _ _)) _ _ _ =>
      replace x with y by lia end end. exact HQ.
Qed.
End follow.

(** ** The walk counts what the reference counts *)

Section totals.
Context (strs : list Z).

Lemma sum_cons n l : sum_list (n :: l) = (n + sum_list l)%nat.
Proof. done. Qed.

Lemma fold_same {A} (f : A -> item -> A) l s : (forall j, j ∈ l -> forall s, f s j = s) -> fold_left f l s = s.
Proof.
  revert s. induction l as [|j l IH]; intros s H; [done|]. cbn [fold_left]. rewrite H by set_solver. apply IH. set_solver.
Qed.

Lemma eval_idle d c i s : (c = -1 /\ 1 <= d) \/ (c = 1 /\ 3 <= d) -> eval strs d c i s = s.
Proof.
  revert d s. induction i as [|o v|name body IH] using item_nested_ind; intros d s H; cbn [eval]; [done|..].
  - destruct H as [[-> ?]|[-> ?]]; [done|]. rewrite (proj2 (Z.eqb_neq d (1 + 1))) by lia. done.
  - rewrite (proj2 (Z.eqb_neq (d + 1) 1)) by lia. cbn [andb]. rewrite (proj2 (Z.eqb_neq (d + 1) (c + 1))) by lia.
    rewrite andb_false_r. apply fold_same. intros j Hj s'. rewrite Forall_forall in IH. apply IH; [done|lia].
Qed.

(** Totals are kept modulo 2^32. *)
Lemma u32_add_l x y : u32 (u32 x + y) = u32 (x + y).
Proof. unfold u32. apply Z.add_mod_idemp_l. lia. Qed.

Lemma fold_total (f : bool * Z -> item -> bool * Z) (cnt : item -> nat) l s k :
  (forall j, j ∈ l -> forall s k, s.2 = u32 k -> (f s j).2 = u32 (k + Z.of_nat (cnt j))) -> s.2 = u32 k ->
  (fold_left f l s).2 = u32 (k + Z.of_nat (sum_list (map cnt l))).
Proof.
  revert s k. induction l as [|j l IH]; intros s k Hf Hs; cbn [fold_left map]; [by rewrite Z.add_0_r|].
  rewrite sum_cons, (IH _ (k + Z.of_nat (cnt j))).
  - f_equal. lia.
  - intros x Hx. apply Hf. set_solver.
  - apply Hf; [set_solver|done].
Qed.

(** The body of a child of [/cpus]. *)
Lemma eval_cpu_body body s k :
  s.2 = u32 k ->
  (fold_left (fun s j => eval strs 2 1 j s) body s).2
    = u32 (k + if negb s.1 && is_cpu strs (INode [] body) then 1 else 0).
Proof.
  revert s k. induction body as [|j body IH]; intros [f n] k Hs; cbn [fold_left fst snd] in *.
  { rewrite andb_false_r. by rewrite Z.add_0_r. }
  destruct j as [|o v|name l].
  - apply (IH (f, n)). done.
  - cbn [eval fst snd]. change (0 <=? 1) with true. change (2 =? 1 + 1) with true. cbn [andb].
    destruct f; cbn [negb andb].
    + rewrite (IH (true, n) k) by done. done.
    + destruct (is_cpu_property strs o v) eqn:E.
      * rewrite (IH (true, u32 (n + 1)) (k + 1)) by (simpl; by rewrite Hs, u32_add_l). cbn [is_cpu existsb]. rewrite E. cbn [fst negb andb orb].
        f_equal. lia.
      * rewrite (IH (false, n) k) by done. cbn [is_cpu existsb]. by rewrite E.
  - assert (eval strs 2 1 (INode name l) (f, n) = (f, n)) as ->; [|by rewrite (IH (f, n) k)].
    cbn [eval]. change (2 + 1 =? 1) with false. cbn [andb]. change (2 + 1 =? 1 + 1) with false. rewrite andb_false_r.
    apply fold_same. intros. apply eval_idle. lia.
Qed.

Definition one_if (b : bool) : nat := if b then 1 else 0.

Lemma eval_cpus_child j s k : s.2 = u32 k -> (eval strs 1 1 j s).2 = u32 (k + Z.of_nat (one_if (is_cpu strs j))).
Proof.
  intros Hs. destruct j as [|o v|name body]; cbn [eval]; [by rewrite Z.add_0_r| |].
  - change (1 =? 1 + 1) with false. rewrite andb_false_r. cbn [andb]. by rewrite Z.add_0_r.
  - change (1 + 1 =? 1) with false. cbn [andb]. change (0 <=? 1) with true. cbn [andb]. rewrite Z.eqb_refl.
    change (1 + 1) with 2. rewrite (eval_cpu_body body (false, s.2) k) by done. cbn [fst negb andb].
    change (is_cpu strs (INode [] body)) with (is_cpu strs (INode name body)). by destruct (is_cpu strs (INode name body)).
Qed.

Lemma length_filter_sum l : length (filter (fun j => is_cpu strs j = true) l) = sum_list (map (fun j => one_if (is_cpu strs j)) l).
Proof.
  induction l as [|j l IH]; [done|]. cbn [map sum_list_with]. rewrite filter_cons, <- IH.
  destruct (is_cpu strs j); [rewrite decide_True by done|rewrite decide_False by done]; done.
Qed.

Lemma eval_root_child j s k : s.2 = u32 k -> (eval strs 0 (-1) j s).2 = u32 (k + Z.of_nat (cpus_of strs j)).
Proof.
  intros Hs. destruct j as [|o v|name body]; cbn [eval cpus_of]; [by rewrite Z.add_0_r..|].
  change (0 + 1 =? 1) with true. cbn [andb]. case_bool_decide.
  - change (0 + 1 =? 0 + 1 + 1) with false. rewrite andb_false_r. rewrite length_filter_sum.
    apply fold_total; [|done]. intros j _ s' k' Hs'. by apply eval_cpus_child.
  - change (0 <=? -1) with false. cbn [andb]. rewrite fold_same; [by rewrite Z.add_0_r|]. intros. apply eval_idle. lia.
Qed.

Lemma eval_total l : (eval_items strs (-1) (-1) l (false, 0)).2 = u32 (Z.of_nat (cpu_total strs l)).
Proof.
  unfold eval_items, cpu_total. rewrite (fold_total _ (cpus_under strs) l _ 0); [done| |done].
  intros j _ s k Hs. destruct j as [|o v|name body]; cbn [eval cpus_under]; [by rewrite Z.add_0_r..|].
  change (-1 + 1 =? 1) with false. cbn [andb]. change (0 <=? -1) with false. cbn [andb].
  apply fold_total; [|done]. intros j _ s' k' Hs'. by apply eval_root_child.
Qed.

(** A tree cannot have more CPUs than bytes. *)
Lemma tokens_length i : 4 * Z.of_nat (tokens i) <= zlen (encode i) /\ (1 <= tokens i)%nat.
Proof.
  induction i as [|o v|name body IH] using item_nested_ind; cbn [tokens encode].
  - done.
  - rewrite !zlen_app, !zlen_be32. pose proof (zlen_nonneg v). pose proof (zlen_nonneg (zeros (Z.of_nat (length v)))). lia.
  - rewrite !zlen_app, !zlen_be32. pose proof (zlen_nonneg name). pose proof (zlen_nonneg [0]).
    pose proof (zlen_nonneg (zeros (Z.of_nat (length name) + 1))).
    assert (4 * Z.of_nat (sum_list (map tokens body)) <= zlen (concat (map encode body))) as Hb; [|lia].
    clear -IH. induction IH as [|j l [Hj _] Hl IHl]; [done|]. cbn [map concat]. rewrite zlen_app, sum_cons. lia.
Qed.

Lemma sum_le {A} (f h : A -> nat) l : (forall x, f x <= h x)%nat -> (sum_list (map f l) <= sum_list (map h l))%nat.
Proof. intros H. induction l as [|x l IH]; [done|]. specialize (H x). cbn [map]. rewrite !sum_cons. lia. Qed.

Lemma total_le_tokens l : (cpu_total strs l <= tokens_items l)%nat.
Proof.
  assert (forall i, (one_if (is_cpu strs i) <= tokens i)%nat) as H0
    by (intros i; pose proof (tokens_length i) as [_ ?]; unfold one_if; case_match; lia).
  assert (forall i, (cpus_of strs i <= tokens i)%nat) as H1.
  { intros [|o v|name body]; cbn [cpus_of tokens]; [lia..|]. case_bool_decide; [|lia]. rewrite length_filter_sum.
    pose proof (sum_le _ _ body H0). lia. }
  apply sum_le. intros [|o v|name body]; cbn [cpus_under tokens]; [lia..|]. pose proof (sum_le _ _ body H1). lia.
Qed.

Lemma tokens_items_length l : 4 * Z.of_nat (tokens_items l) <= zlen (encode_items l).
Proof.
  induction l as [|j l IH]; [done|]. change (encode_items (j :: l)) with (encode j ++ encode_items l).
  change (tokens_items (j :: l)) with (tokens j + tokens_items l)%nat.
  rewrite zlen_app. pose proof (tokens_length j) as [? _]. lia.
Qed.
End totals.

(** ** Blobs *)

(** The blob holds the tree [l], its names in [strs], at the places the header
    gives. *)
Record device_tree (b : Blob) (l : list item) (strs : list Z) : Prop := {
  dt_magic : word_at b 0 = kFdtMagic;
  dt_total : kFdtHeaderSize <= word_at b 4 <= blob_limit b;
  dt_limit : blob_limit b <= 2 ^ 32 - 5;
  dt_struct_size : word_at b 36 = zlen (encode_items l ++ be32_bytes kFdtEnd);
  dt_strings_size : word_at b 32 = zlen strs;
  dt_struct_fits : word_at b 8 + word_at b 36 <= word_at b 4;
  dt_strings_fit : word_at b 12 + word_at b 32 <= word_at b 4;
  dt_struct : at_mem (blob_bytes b) (word_at b 8) (encode_items l ++ be32_bytes kFdtEnd);
  dt_strings : at_mem (blob_bytes b) (word_at b 12) strs;
  dt_bytes : mem_bytes (blob_bytes b);
}.

Definition all_well_formed (strs : list Z) (l : list item) : Prop := fold_right (fun j P => well_formed strs j /\ P) True l.

Lemma cpu_count_wp a b l strs :
  a <> 0 -> device_tree b l strs -> all_well_formed strs l ->
  wp False (cpu_count a) (fun r _ => r = mkCount (Z.of_nat (cpu_total strs l)) true) b tt.
Proof.
  intros Ha [] Hwf. unfold kFdtHeaderSize in *. unfold cpu_count. rewrite (proj2 (Z.eqb_neq a 0)) by done.
  apply wp_bind, wp_read_be32; [lia..|]. rewrite dt_magic0, Z.eqb_refl. cbn [negb].
  do 5 (apply wp_bind, wp_read_be32; [lia..|]).
  pose proof (word_at_range b 8 dt_bytes0) as H8. pose proof (word_at_range b 12 dt_bytes0) as H12.
  pose proof (word_at_range b 32 dt_bytes0) as H32. pose proof (word_at_range b 36 dt_bytes0) as H36. unfold is_u32 in *.
  unfold kFdtHeaderSize. rewrite (proj2 (Z.ltb_ge (word_at b 4) 40)), (proj2 (Z.ltb_ge (word_at b 4) (word_at b 8))) by lia.
  rewrite u32_small, (proj2 (Z.ltb_ge _ _)), (proj2 (Z.ltb_ge (word_at b 4) (word_at b 12))) by (unfold is_u32; lia).
  rewrite u32_small, (proj2 (Z.ltb_ge _ _)) by (unfold is_u32; lia). cbv zeta.
  set (g := mkGeometry (word_at b 8) (word_at b 36) (word_at b 12) (word_at b 32)).
  assert (placed b g) as Hpl by (split; simpl; lia).
  rewrite zlen_app in dt_struct_size0. change (zlen (be32_bytes kFdtEnd)) with 4 in *.
  apply at_mem_split in dt_struct0 as [Hm Hend]. pose proof (tokens_items_length l) as Htok. pose proof (total_le_tokens strs l) as Htot.
  assert (exists k, walk_fuel g = (tokens_items l + S k)%nat) as [k ->].
  { unfold walk_fuel. cbn [structure_size g]. exists (Z.to_nat (word_at b 36 / 4) - tokens_items l)%nat.
    assert (Z.of_nat (tokens_items l) <= word_at b 36 / 4) by (Z.div_mod_to_equations; lia). lia. }
  apply (follows_items b g strs l (-1) (-1) (false, 0) 0); try done.
  - apply Forall_true. intros i. by apply follows_all; [..|lia].
  - cbn [structure g]. by rewrite Z.add_0_r.
  - cbn [structure_size g]. lia.
  - split; [lia|by left].
  - apply (walk_token b g Hpl _ _ kFdtEnd); cbn [cursor structure g]; [by rewrite Z.add_0_l|done| | |].
    + pose proof (zlen_nonneg (encode_items l)). lia.
    + cbn [structure_size g]. lia.
    + apply wp_ret. cbn [count set_field]. rewrite eval_total, u32_small; [done|]. unfold is_u32. lia.
Qed.

(** ** Properties *)

(** C30: [cpu_count] counts the CPUs of every device tree: when the blob is the
    flattened form of a tree, with NOP tokens anywhere, the result is valid and
    the count is the number of children of [/cpus] whose [device_type] is
    exactly ["cpu"], each once, and of no other node at any depth. *)
Theorem cpu_count_correct a b l strs :
  a <> 0 -> device_tree b l strs -> all_well_formed strs l ->
  cpu_count a b tt = Done (mkCount (Z.of_nat (cpu_total strs l)) true) tt.
Proof.
  intros Ha Hd Hw. destruct (wp_done _ _ _ _ (cpu_count_wp a b l strs Ha Hd Hw)) as (r&[]&Hr&->). exact Hr.
Qed.

(** Two CPUs, one of them with a nested node, and a node that is none. *)
Definition demo_strings : list Z := str_device_type ++ [0] ++ ascii_bytes "reg" ++ [0].
Definition demo_tree : list item :=
  [INop; INode [] [IProp 12 [0; 0; 0; 1];
     INode str_cpus [IProp 12 [1]; INode (ascii_bytes "cpu@0") [IProp 0 (str_cpu ++ [0]); INode (ascii_bytes "intc") [IProp 0 (str_cpu ++ [0])]];
       INop; INode (ascii_bytes "cpu@1") [IProp 12 []; IProp 0 (str_cpu ++ [0]); IProp 0 (str_cpu ++ [0])];
       INode (ascii_bytes "map") [IProp 0 (ascii_bytes "cpux")]];
     INode (ascii_bytes "soc") [INode (ascii_bytes "x") [IProp 0 (str_cpu ++ [0])]]]].
Definition demo_blob_bytes : list Z :=
  let st := encode_items demo_tree ++ be32_bytes kFdtEnd in
  be32_bytes kFdtMagic ++ be32_bytes (40 + zlen st + zlen demo_strings) ++ be32_bytes 40 ++ be32_bytes (40 + zlen st)
  ++ replicate 16 0 ++ be32_bytes (zlen demo_strings) ++ be32_bytes (zlen st) ++ st ++ demo_strings.
Definition demo_blob : Blob := mkBlob (mem_of 0 demo_blob_bytes) (zlen demo_blob_bytes).

Lemma demo_blob_bytes_ok : mem_bytes (blob_bytes demo_blob).
Proof. apply mem_of_bytes, bytes_check. vm_compute. reflexivity. Qed.

Lemma demo_tree_ok : all_well_formed demo_strings demo_tree.
Proof.
  assert (nonzero []) by constructor. vm_compute.
  repeat split; try discriminate; try (repeat constructor; discriminate).
Qed.

Lemma demo_device_tree : device_tree demo_blob demo_tree demo_strings.
Proof.
  split; try (vm_compute; reflexivity); try (vm_compute; split; discriminate); try (vm_compute; discriminate).
  - apply (mem_of_check 0 demo_blob_bytes). vm_compute. reflexivity.
  - apply (mem_of_check 0 demo_blob_bytes). vm_compute. reflexivity.
  - exact demo_blob_bytes_ok.
Qed.

Lemma cpu_count_correct_witness : cpu_count 0x82000000 demo_blob tt = Done (mkCount 2 true) tt.
Proof.
  apply (cpu_count_correct 0x82000000 demo_blob demo_tree demo_strings).
  - discriminate.
  - exact demo_device_tree.
  - exact demo_tree_ok.
Defined.

(** C31: [cpu_count] is safe on a blob that is as long as it says.  Whatever the
    bytes are, if the readable part holds a header and the size the header
    declares, and is at most 2^32 - 5 bytes long, the walk never reads outside the
    blob, never loops forever and returns.  The last bound is needed: near 4 GiB
    the 32-bit cursor wraps and the walk starts over ([cursor_wraps]). *)
Theorem cpu_count_safe a b :
  mem_bytes (blob_bytes b) -> kFdtHeaderSize <= blob_limit b <= 2 ^ 32 - 5 -> word_at b 4 <= blob_limit b ->
  exists r, cpu_count a b tt = Done r tt.
Proof.
  intros Hm Hl Ht. destruct (wp_done _ _ _ _ (cpu_count_safe_wp a b Hm Hl Ht)) as (r&[]&Hr&_). by exists r.
Qed.

Lemma cpu_count_safe_witness : exists r, cpu_count 4096 demo_blob tt = Done r tt.
Proof.
  apply (cpu_count_safe 4096 demo_blob).
  - exact demo_blob_bytes_ok.
  - vm_compute. split; discriminate.
  - vm_compute. discriminate.
Defined.

(** The bound on the size is needed: from the last word of a structure block of
    2^32 - 1 bytes, the 32-bit cursor wraps to the start of the block, having
    read one byte past its end. *)
Lemma cursor_wraps b g d c f n :
  structure_size g = 2 ^ 32 - 1 -> blob_limit b = structure g + 2 ^ 32 -> 0 <= structure g ->
  at_mem (blob_bytes b) (structure g + (2 ^ 32 - 4)) (be32_bytes kFdtNop) ->
  cpu_step g (mkWalk (2 ^ 32 - 4) d c f n) b tt = Done (inr (mkWalk 0 d c f n)) tt.
Proof.
  intros Hs Hl H0 Hm.
  destruct (wp_done (cpu_step g (mkWalk (2 ^ 32 - 4) d c f n)) (fun r _ => r = inr (mkWalk 0 d c f n)) b tt)
    as (r&[]&Hr&->); [|done].
  unfold cpu_step. apply wp_bind. cbn [cursor]. eapply wp_read_be32_at; [exact Hm|done|lia|lia|]. by apply wp_ret.
Qed.
