(* ===== verification/KernelTypes.v ===== *)
(** * Kernel data and the kernel monad

    The structs of [microkernel/core/{task.h, task_context.h, hart.h,
    scheduler.h, time_manager.h, ipc_manager.h, task_manager.h}] and
    [arch/riscv/trap_frame.h], the executive singletons as one state, the
    per-hart environment, and the primitive operations: array access through
    pointers (a [Task*] is the index of its slot, [None] is null; an
    out-of-range access is [Undefined]) and spinlocks ([spinlock.h]; taking a
    lock the hart already holds spins forever).

    One kernel entry of one hart runs to completion on this state.  Every
    acquisition is logged with the locks held at that moment, so that the lock
    order can be stated. *)
From stdpp Require Import base tactics list gmap strings.
From Stdlib Require Import ZArith Lia Ascii.
From S2P Require Import Prelude Memory Lifecycle PageManager Sv39 Vmm Format Console.
Local Open Scope Z_scope.

(** ** Enumerations *)

(** [unset] is the zero byte of a value-initialised [Task]; it is none of the
    named states. *)
Module TaskState.
Inductive t := unset | running | ready | ended | blocked_futex | blocked_message
             | blocked_userspace | blocked_sleep | blocked_join.
#[global] Instance eq_dec : EqDecision t.
Proof. solve_decision. Defined.
End TaskState.

Module ExitStatus.
Inductive t := running | exited_clean | crashed.
#[global] Instance eq_dec : EqDecision t.
Proof. solve_decision. Defined.
End ExitStatus.

Module HartRole.
Inductive t := boot | secondary.
#[global] Instance eq_dec : EqDecision t.
Proof. solve_decision. Defined.
End HartRole.

Module HartStatus.
Inductive t := offline | online.
#[global] Instance eq_dec : EqDecision t.
Proof. solve_decision. Defined.
End HartStatus.

Definition kMaxTasks : nat := 16.
Definition kMaxHarts : nat := 4.
Definition kMaxEndpoints : nat := 16.
Definition kEndpointQueueDepth : Z := 16.
Definition kMaxGeneration : Z := 0x7FFFFFFF.
Definition kTaskStackSize : Z := 4096.

(** ** Structs *)

Record TaskContext := mkContext { ctx_x : list Z; ctx_mstatus : Z; ctx_mepc : Z; ctx_satp : Z }.
#[export] Instance TaskContext_eta : Eta TaskContext := fun c =>
  mkContext (ctx_x c) (ctx_mstatus c) (ctx_mepc c) (ctx_satp c).

Record TrapFrame := mkFrame {
  fr_x : list Z; fr_mstatus : Z; fr_mepc : Z; fr_mcause : Z; fr_mtval : Z
}.
#[export] Instance TrapFrame_eta : Eta TrapFrame := fun f =>
  mkFrame (fr_x f) (fr_mstatus f) (fr_mepc f) (fr_mcause f) (fr_mtval f).

Record DelayNode := mkDelay {
  d_previous : option nat; d_next : option nat; d_deadline : Z; d_queued : bool
}.
#[export] Instance DelayNode_eta : Eta DelayNode := fun d =>
  mkDelay (d_previous d) (d_next d) (d_deadline d) (d_queued d).

Record MessageWaitNode := mkWaitNode {
  w_previous : option nat; w_next : option nat; w_queued : bool
}.
#[export] Instance MessageWaitNode_eta : Eta MessageWaitNode := fun w =>
  mkWaitNode (w_previous w) (w_next w) (w_queued w).

Record WaitInfo := mkWaitInfo {
  wi_active : bool; wi_tid : Z; wi_status_address : Z; wi_return_value_address : Z
}.
#[export] Instance WaitInfo_eta : Eta WaitInfo := fun w =>
  mkWaitInfo (wi_active w) (wi_tid w) (wi_status_address w) (wi_return_value_address w).

Record TaskTracker := mkTracker {
  k_parent : option nat; k_first_child : option nat;
  k_previous_sibling : option nat; k_next_sibling : option nat;
  k_key : Z; k_task : option nat; k_status : ExitStatus.t; k_return_value : Z;
  k_wait : WaitInfo; k_entry_point : Z
}.
#[export] Instance TaskTracker_eta : Eta TaskTracker := fun k =>
  mkTracker (k_parent k) (k_first_child k) (k_previous_sibling k) (k_next_sibling k)
    (k_key k) (k_task k) (k_status k) (k_return_value k) (k_wait k) (k_entry_point k).

Record Task := mkTask {
  t_cpu : option nat; t_context : TaskContext; t_address_space : AddressSpace;
  t_tid : Z; t_affinity_pinned : Z; t_state : TaskState.t; t_state_info : Z;
  t_tracker : option nat; t_delay : DelayNode; t_message_wait : MessageWaitNode;
  t_stack_bottom : Z; t_stack_top : Z;
  t_detached : bool; t_idle : bool; t_queued : bool;
  t_previous : option nat; t_next : option nat
}.
#[export] Instance Task_eta : Eta Task := fun t =>
  mkTask (t_cpu t) (t_context t) (t_address_space t) (t_tid t) (t_affinity_pinned t)
    (t_state t) (t_state_info t) (t_tracker t) (t_delay t) (t_message_wait t)
    (t_stack_bottom t) (t_stack_top t) (t_detached t) (t_idle t) (t_queued t)
    (t_previous t) (t_next t).

(** Value-initialised ([= {}]) structs. *)
Definition zero_context : TaskContext := mkContext (replicate 32 0) 0 0 0.
Definition zero_wait : WaitInfo := mkWaitInfo false 0 0 0.
Definition zero_tracker : TaskTracker :=
  mkTracker None None None None 0 None ExitStatus.exited_clean 0 zero_wait 0.
Definition zero_delay : DelayNode := mkDelay None None 0 false.
Definition zero_wait_node : MessageWaitNode := mkWaitNode None None false.
Definition zero_task : Task :=
  mkTask None zero_context (mkAddressSpace 0) 0 0 TaskState.unset 0 None zero_delay zero_wait_node
    0 0 false false false None None.
Definition zero_frame : TrapFrame := mkFrame (replicate 32 0) 0 0 0 0.

(** [scheduler] is null or the one Scheduler; [scheduler_extra] and
    [delay_list] are null or the index of the queue they point to. *)
Record HartLocal := mkHart {
  hart_id : Z; h_stack_bottom : Z; h_stack_top : Z; machine_timer_interrupt_count : Z;
  h_index : Z; h_role : HartRole.t; h_state : HartStatus.t;
  trap_entry_sp : Z; trap_entry_t1 : Z; trap_stack_bottom : Z; trap_stack_top : Z;
  trap_active : Z; current_task : option nat; h_scheduler : bool;
  scheduler_extra : option nat; delay_list : option nat; idle_task : option nat;
  timeslice_ticks : Z; scheduler_preemption_count : Z
}.
#[export] Instance HartLocal_eta : Eta HartLocal := fun h =>
  mkHart (hart_id h) (h_stack_bottom h) (h_stack_top h) (machine_timer_interrupt_count h)
    (h_index h) (h_role h) (h_state h) (trap_entry_sp h) (trap_entry_t1 h)
    (trap_stack_bottom h) (trap_stack_top h) (trap_active h) (current_task h) (h_scheduler h)
    (scheduler_extra h) (delay_list h) (idle_task h) (timeslice_ticks h)
    (scheduler_preemption_count h).
Definition zero_hart : HartLocal :=
  mkHart 0 0 0 0 0 HartRole.boot HartStatus.offline 0 0 0 0 0 None false None None None 0 0.

Record RunQueue := mkRunQueue { rq_head : option nat; rq_tail : option nat; rq_size : Z }.
#[export] Instance RunQueue_eta : Eta RunQueue := fun q =>
  mkRunQueue (rq_head q) (rq_tail q) (rq_size q).
Definition RunQueue_new : RunQueue := mkRunQueue None None 0.

Record Message := mkMessage { sender : Z; words : list Z }.
Definition zero_message : Message := mkMessage 0 [0; 0; 0; 0].

Record Endpoint := mkEndpoint {
  active : bool; retired : bool; generation : Z; owner : Z; ep_head : Z; ep_count : Z;
  queue : list Message; waiting_head : option nat; waiting_tail : option nat; waiting_count : Z
}.
#[export] Instance Endpoint_eta : Eta Endpoint := fun p =>
  mkEndpoint (active p) (retired p) (generation p) (owner p) (ep_head p) (ep_count p)
    (queue p) (waiting_head p) (waiting_tail p) (waiting_count p).
Definition zero_queue : list Message := replicate 16 zero_message.
Definition zero_endpoint : Endpoint :=
  mkEndpoint false false 0 0 0 0 zero_queue None None 0.

(** Control registers of one hart that the modelled code writes. *)
Record Csr := mkCsr { mstatus : Z; mie : Z; satp : Z; medeleg : Z; mideleg : Z; pmpaddr0 : Z; pmpcfg0 : Z }.
#[export] Instance Csr_eta : Eta Csr := fun c =>
  mkCsr (mstatus c) (mie c) (satp c) (medeleg c) (mideleg c) (pmpaddr0 c) (pmpcfg0 c).

(** The [g_*_reported] flags of [task_syscall.cpp]. *)
Record Reports := mkReports {
  g_create_reported : bool; g_context_switch_reported : bool; g_end_reported : bool;
  g_wait_reported : bool; g_wait_block_reported : bool; g_detach_reported : bool;
  g_idle_reported : bool
}.
#[export] Instance Reports_eta : Eta Reports := fun r =>
  mkReports (g_create_reported r) (g_context_switch_reported r) (g_end_reported r)
    (g_wait_reported r) (g_wait_block_reported r) (g_detach_reported r) (g_idle_reported r).

(** ** Locks *)

Inductive RunQ := Global | Local (h : nat).
#[export] Instance RunQ_eq_dec : EqDecision RunQ.
Proof. solve_decision. Defined.

Inductive Lock := LTaskManager | LEndpointTable | LEndpoint (i : nat) | LRunQueue (q : RunQ)
                | LDelayQueue (h : nat).
#[export] Instance Lock_eq_dec : EqDecision Lock.
Proof. solve_decision. Defined.

(** ** The whole kernel state *)

Record KState := mkK {
  (* TaskManager *)
  tasks : list Task; trackers : list TaskTracker;
  task_slots_used : list bool; tracker_slots_used : list bool;
  root_tasks : option nat; next_tid : Z; initial_task_id : Z; tm_initialized : bool;
  (* Scheduler *)
  global_run_queue : RunQueue; local_run_queues : list RunQueue;
  (* TimeManager: the heads of the delay queues *)
  delay_queues : list (option nat); time_initialized : bool;
  (* EndpointManager *)
  slot_allocated : list bool; endpoints : list Endpoint;
  (* harts and devices *)
  harts : list HartLocal; csrs : list Csr; mtimecmp : gmap Z Z; clock_reads : nat;
  (* CpuManager, Kernel, HeapManager *)
  present_count : Z; cpp_ready : bool; heap_initialized : bool;
  (* memory and console *)
  vmm : VmmManager; memsys : MemSys; console : Console; reports : Reports;
  (* locks held by the running hart, and every acquisition so far *)
  held : list Lock; lock_log : list (Lock * list Lock)
}.
#[export] Instance KState_eta : Eta KState := fun s =>
  mkK (tasks s) (trackers s) (task_slots_used s) (tracker_slots_used s) (root_tasks s)
    (next_tid s) (initial_task_id s) (tm_initialized s) (global_run_queue s)
    (local_run_queues s) (delay_queues s) (time_initialized s) (slot_allocated s)
    (endpoints s) (harts s) (csrs s) (mtimecmp s) (clock_reads s) (present_count s)
    (cpp_ready s) (heap_initialized s) (vmm s) (memsys s) (console s) (reports s)
    (held s) (lock_log s).

(** Linker symbols and assembly labels. *)
Record Symbols := mkSymbols {
  user_text_start_sym : Z; user_text_end_sym : Z;
  pool_start_sym : Z; pool_end_sym : Z;
  task_stacks_base : Z; hart_stacks_start : Z; hart_trap_stacks_start : Z;
  user_idle_task : Z; user_task_end_stub : Z; user_init_task : Z
}.

(** The environment of a run: the hart [mscratch] is bound to, the values
    successive reads of [mtime] give, and the symbols. *)
Record Env := mkEnv { e_hart : nat; e_clock : nat -> Z; e_syms : Symbols }.

Definition K (A : Type) : Type := M Env KState A.

(** ** Array and pointer access *)

Definition get_task (i : nat) : K Task := ts ← gets tasks; deref (ts !! i).
Definition mod_task (i : nat) (f : Task -> Task) : K unit :=
  _ ← get_task i; modify (fun s => s <| tasks := alter f i (tasks s) |>).
Definition get_tracker (i : nat) : K TaskTracker := ks ← gets trackers; deref (ks !! i).
Definition mod_tracker (i : nat) (f : TaskTracker -> TaskTracker) : K unit :=
  _ ← get_tracker i; modify (fun s => s <| trackers := alter f i (trackers s) |>).
Definition get_hart (i : nat) : K HartLocal := hs ← gets harts; deref (hs !! i).
Definition mod_hart (i : nat) (f : HartLocal -> HartLocal) : K unit :=
  _ ← get_hart i; modify (fun s => s <| harts := alter f i (harts s) |>).
Definition get_endpoint (i : nat) : K Endpoint := ps ← gets endpoints; deref (ps !! i).
Definition mod_endpoint (i : nat) (f : Endpoint -> Endpoint) : K unit :=
  _ ← get_endpoint i; modify (fun s => s <| endpoints := alter f i (endpoints s) |>).
Definition get_csr (i : nat) : K Csr := cs ← gets csrs; deref (cs !! i).
Definition mod_csr (i : nat) (f : Csr -> Csr) : K unit :=
  _ ← get_csr i; modify (fun s => s <| csrs := alter f i (csrs s) |>).

(** Run queues: [q] is which of the scheduler's queues [this] is. *)
Definition get_rq (q : RunQ) (s : KState) : option RunQueue :=
  match q with Global => Some (global_run_queue s) | Local h => local_run_queues s !! h end.
Definition set_rq (q : RunQ) (f : RunQueue -> RunQueue) (s : KState) : KState :=
  match q with
  | Global => s <| global_run_queue := f (global_run_queue s) |>
  | Local h => s <| local_run_queues := alter f h (local_run_queues s) |>
  end.
Definition get_run_queue (q : RunQ) : K RunQueue := r ← gets (get_rq q); deref r.
Definition mod_run_queue (q : RunQ) (f : RunQueue -> RunQueue) : K unit :=
  _ ← get_run_queue q; modify (set_rq q f).

(** Update of the context register [x[n]]. *)
Definition set_x (n : nat) (v : Z) (t : Task) : Task :=
  t <| t_context := (t_context t) <| ctx_x := <[n := v]> (ctx_x (t_context t)) |> |>.
Definition get_x (n : nat) (t : Task) : Z := nth n (ctx_x (t_context t)) 0.

(** ** Spinlocks *)

Definition lock (l : Lock) : K unit :=
  hs ← gets held;
  if bool_decide (l ∈ hs) then diverge
  else modify (fun s => s <| lock_log := (l, held s) :: lock_log s |> <| held := l :: held s |>).
Definition unlock (l : Lock) : K unit :=
  modify (fun s => s <| held := filter (fun l' => l' <> l) (held s) |>).

(** [SpinlockGuard]: held for the extent of a scope. *)
Definition with_lock {A} (l : Lock) (m : K A) : K A :=
  lock l;; a ← m; unlock l;; mret a.

(** ** Devices *)

Definition read_time : K Z :=
  e ← ask; n ← gets clock_reads;
  modify (fun s => s <| clock_reads := S (clock_reads s) |>);;
  mret (u64 (e_clock e n)).

Definition clint_base : Z := 0x02000000.
Definition mtimecmp_base : Z := clint_base + 0x4000.
Definition mtimecmp_address (hart_id : Z) : Z := u64 (mtimecmp_base + hart_id * 8).
Definition kFrequencyHz : Z := 10000000.

Definition set_compare (hart_id deadline : Z) : K unit :=
  modify (fun s => s <| mtimecmp := <[mtimecmp_address hart_id := deadline]> (mtimecmp s) |>).
Definition disarm (hart_id : Z) : K unit := set_compare hart_id UINT64_MAX.

(** [printk] on the kernel console. *)
Definition kprintk (format : list ascii) (args : list arg) : K unit := fun _ s =>
  match printk format args (console s) with
  | Done _ c => Done tt (s <| console := c |>)
  | Parked => Parked
  | Undefined => Undefined
  | Diverged => Diverged
  end.

(** [hart::current()]. *)
Definition current_hart : K nat := e ← ask; mret (e_hart e).
Definition current : K HartLocal := h ← current_hart; get_hart h.

(** ** The state before any code has run *)

(** Zero-initialised statics and constructors of the singletons; [m] is the
    contents of memory at reset. *)
Definition power_on (g : LifecycleState) (m : Mem) : KState :=
  {| tasks := replicate kMaxTasks zero_task; trackers := replicate kMaxTasks zero_tracker;
     task_slots_used := replicate kMaxTasks false; tracker_slots_used := replicate kMaxTasks false;
     root_tasks := None; next_tid := 1; initial_task_id := 0; tm_initialized := false;
     global_run_queue := RunQueue_new; local_run_queues := replicate kMaxHarts RunQueue_new;
     delay_queues := replicate kMaxHarts None; time_initialized := false;
     slot_allocated := replicate kMaxEndpoints false;
     endpoints := replicate kMaxEndpoints zero_endpoint;
     harts := replicate kMaxHarts zero_hart;
     csrs := replicate kMaxHarts (mkCsr 0 0 0 0 0 0 0);
     mtimecmp := ∅; clock_reads := 0; present_count := 0; cpp_ready := false;
     heap_initialized := false; vmm := VmmManager_new;
     memsys := mkMemSys g (replicate kMaxRanges empty_range) 0 m;
     console := Console_new; reports := mkReports false false false false false false false;
     held := []; lock_log := [] |}.
