(* ===== verification/KernelInv.v ===== *)
(** * Kernel invariants

    The abstract state of the scheduler, the time manager and the endpoint
    table is one function [C : Qid -> list nat] that gives the tasks of every
    queue in order.  [qstruct] says that the intrusive links, the headers and
    the membership flags of the kernel state represent [C]; [Inv] adds what the
    members of each queue must look like; [Running] is about the tasks the
    harts execute.  The file also holds the symbolic execution rules of the
    kernel monad and the lock order. *)
From Stdlib Require Import ZArith Lia Sorted.
From stdpp Require Import base tactics sets functions gmap list.
From S2P Require Import Prelude DList KernelTypes.
Local Open Scope Z_scope.

(** ** Projections of updated records *)

(** Reduces [p (r <| q := v |>)] without unfolding anything else. *)
Ltac rproj1 p q i f s :=
  first [ let r := eval cbv beta in (f (p s)) in
          change (p (@set_field _ _ q i f s)) with r
        | change (p (@set_field _ _ q i f s)) with (p s) ].
Ltac rproj :=
  repeat match goal with
  | |- context [?p (@set_field _ _ ?q ?i ?f ?s)] => is_const p; rproj1 p q i f s
  | |- context [get_rq ?r (@set_field _ _ ?q ?i ?f ?s)] =>
      change (get_rq r (@set_field _ _ q i f s)) with (get_rq r s)
  end.
Ltac rproj_in H :=
  repeat match type of H with
  | context [?p (@set_field _ _ ?q ?i ?f ?s)] =>
      is_const p;
      first [ let r := eval cbv beta in (f (p s)) in
              change (p (@set_field _ _ q i f s)) with r in H
            | change (p (@set_field _ _ q i f s)) with (p s) in H ]
  end.

(** ** Queues *)

Inductive Qid := QRun (q : RunQ) | QDelay (h : nat) | QWait (e : nat).
#[export] Instance Qid_eq_dec : EqDecision Qid.
Proof. solve_decision. Defined.

(** The three sets of links a task carries. *)
Inductive lkind := LkRun | LkDelay | LkWait.
#[export] Instance lkind_eq_dec : EqDecision lkind.
Proof. solve_decision. Defined.

Definition qkind (q : Qid) : lkind :=
  match q with QRun _ => LkRun | QDelay _ => LkDelay | QWait _ => LkWait end.

Definition links_of (k : lkind) (t : Task) : option nat * option nat :=
  match k with
  | LkRun => (t_previous t, t_next t)
  | LkDelay => (d_previous (t_delay t), d_next (t_delay t))
  | LkWait => (w_previous (t_message_wait t), w_next (t_message_wait t))
  end.
Definition flag_of (k : lkind) (t : Task) : bool :=
  match k with
  | LkRun => t_queued t
  | LkDelay => d_queued (t_delay t)
  | LkWait => w_queued (t_message_wait t)
  end.

Definition task_links (k : lkind) (ts : list Task) : links := fun i => links_of k <$> ts !! i.

(** Head, tail and size of a queue as its header stores them. *)
Definition header (q : Qid) (s : KState) (hd tl : option nat) (n : Z) : Prop :=
  match q with
  | QRun r => get_rq r s = Some (mkRunQueue hd tl n)
  | QDelay h => delay_queues s !! h = Some hd
  | QWait e => exists p, endpoints s !! e = Some p /\
      waiting_head p = hd /\ waiting_tail p = tl /\ waiting_count p = n
  end.

Definition valid_q (q : Qid) : Prop :=
  match q with
  | QRun Global => True
  | QRun (Local h) => (h < kMaxHarts)%nat
  | QDelay h => (h < kMaxHarts)%nat
  | QWait e => (e < kMaxEndpoints)%nat
  end.

Definition qrep (q : Qid) (s : KState) (l : list nat) : Prop :=
  exists hd tl, header q s hd tl (Z.of_nat (length l)) /\
    dlist (task_links (qkind q) (tasks s)) hd tl l.

Abbreviation queues := (Qid -> list nat).

Record qstruct (s : KState) (C : queues) : Prop := {
  qs_rep : forall q, valid_q q -> qrep q s (C q);
  qs_valid : forall q i, i ∈ C q -> valid_q q;
  qs_nodup : forall q, NoDup (C q);
  qs_disjoint : forall q q' i, i ∈ C q -> i ∈ C q' -> q = q';
  qs_flag : forall k i t, tasks s !! i = Some t ->
    (flag_of k t = true <-> exists q, qkind q = k /\ i ∈ C q);
}.

Lemma qstruct_task s C q i : qstruct s C -> i ∈ C q -> exists t, tasks s !! i = Some t.
Proof.
  intros HC Hi. destruct (qs_rep _ _ HC q) as (hd&tl&_&_&_&Hch); [by eapply qs_valid|].
  apply list_elem_of_split in Hi as (l1&l2&Hl). rewrite Hl in Hch.
  apply chain_lookup in Hch. unfold task_links in Hch.
  apply fmap_Some in Hch as (t&?&_). eauto.
Qed.

Lemma qstruct_flag s C q i t : qstruct s C -> i ∈ C q -> tasks s !! i = Some t -> flag_of (qkind q) t = true.
Proof. intros HC Hi Ht. eapply qs_flag; eauto. Qed.

Lemma qstruct_free s C i t :
  qstruct s C -> tasks s !! i = Some t -> (forall k, flag_of k t = false) -> forall q, i ∉ C q.
Proof.
  intros HC Ht Hf q Hi. pose proof (qstruct_flag s C q i t HC Hi Ht) as H. by rewrite Hf in H.
Qed.

Lemma NoDup_bounded_length (l : list nat) n : NoDup l -> (forall x, x ∈ l -> (x < n)%nat) -> (length l <= n)%nat.
Proof.
  intros Hnd Hb. assert (l ⊆+ seq 0 n) as Hs.
  { apply NoDup_submseteq; [done|]. intros x Hx. apply elem_of_seq. specialize (Hb x Hx). lia. }
  apply submseteq_length in Hs. by rewrite length_seq in Hs.
Qed.

Lemma qstruct_length s C q : qstruct s C -> (length (C q) <= length (tasks s))%nat.
Proof.
  intros HC. apply NoDup_bounded_length; [apply HC|]. intros x Hx.
  destruct (qstruct_task s C q x HC Hx) as [t Ht]. by eapply lookup_lt_Some.
Qed.

(** ** The two surgeries on the abstract state *)

(** What an operation on queue [q] that moves task [i] may change. *)
Record touches (s s' : KState) (q : Qid) (l : list nat) (i : nat) (b : bool) : Prop := {
  to_len : length (tasks s') = length (tasks s);
  to_links : forall k j, k <> qkind q -> task_links k (tasks s') j = task_links k (tasks s) j;
  to_out : forall j, j ∉ l -> j <> i -> task_links (qkind q) (tasks s') j = task_links (qkind q) (tasks s) j;
  to_flags : forall k j t t', tasks s !! j = Some t -> tasks s' !! j = Some t' ->
    flag_of k t' = if decide (k = qkind q /\ j = i) then b else flag_of k t;
  to_headers : forall q' hd tl n, q' <> q -> header q' s hd tl n -> header q' s' hd tl n;
}.

Lemma touches_task s s' q l i b j t' :
  touches s s' q l i b -> tasks s' !! j = Some t' -> exists t, tasks s !! j = Some t.
Proof.
  intros HT Hj. apply lookup_lt_Some in Hj. rewrite (to_len _ _ _ _ _ _ HT) in Hj.
  by apply lookup_lt_is_Some in Hj.
Qed.

Lemma qrep_other s s' C q i b q' :
  qstruct s C -> touches s s' q (C q) i b -> q' <> q -> valid_q q' ->
  (i ∈ C q \/ forall q0, i ∉ C q0) -> qrep q' s' (C q').
Proof.
  intros HC HT Hne Hv Hi. destruct (qs_rep _ _ HC q' Hv) as (hd&tl&Hh&Hd).
  exists hd, tl. split; [by eapply to_headers|]. eapply dlist_agree; [|exact Hd].
  intros x Hx. destruct (decide (qkind q' = qkind q)) as [Hk|Hk]; [|by eapply to_links].
  rewrite Hk. eapply to_out; eauto.
  - intros Hx'. apply Hne. by eapply qs_disjoint.
  - intros ->. destruct Hi as [Hi|Hi]; [|by eapply Hi]. apply Hne. by eapply qs_disjoint.
Qed.

Lemma qstruct_insert s s' C q i l1 l2 hd tl :
  qstruct s C -> valid_q q -> C q = l1 ++ l2 -> (forall q', i ∉ C q') ->
  touches s s' q (C q) i true ->
  header q s' hd tl (Z.of_nat (S (length (C q)))) ->
  dlist (task_links (qkind q) (tasks s')) hd tl (l1 ++ i :: l2) ->
  qstruct s' (<[q := l1 ++ i :: l2]> C).
Proof.
  intros HC Hv HCq Hfree HT Hh Hd.
  assert (forall q' j, j ∈ (<[q:=l1 ++ i :: l2]> C) q' <-> (q' = q /\ j = i) \/ j ∈ C q') as Hin.
  { intros q' j. destruct (decide (q' = q)) as [->|Hne].
    - rewrite fn_lookup_insert, HCq. set_solver.
    - rewrite fn_lookup_insert_ne by done. naive_solver. }
  split.
  - intros q' Hv'. destruct (decide (q' = q)) as [->|Hne].
    + rewrite fn_lookup_insert. exists hd, tl. split; [|done].
      rewrite length_app. simpl. rewrite HCq, length_app in Hh.
      by replace (length l1 + S (length l2))%nat with (S (length l1 + length l2)) by lia.
    + rewrite fn_lookup_insert_ne by done. eapply qrep_other; eauto.
  - intros q' j [[-> ->]|Hj]%Hin; [done|by eapply qs_valid].
  - intros q'. destruct (decide (q' = q)) as [->|Hne].
    + rewrite fn_lookup_insert. pose proof (qs_nodup _ _ HC q) as Hn. rewrite HCq in Hn.
      pose proof (Hfree q) as Hi. rewrite HCq in Hi. rewrite <- Permutation_middle.
      by constructor.
    + rewrite fn_lookup_insert_ne by done. apply HC.
  - intros q1 q2 j [[-> ->]|H1]%Hin [[-> ?]|H2]%Hin; subst; try done.
    + by destruct (Hfree q2).
    + by destruct (Hfree q1).
    + by eapply qs_disjoint.
  - intros k j t' Hj. destruct (touches_task _ _ _ _ _ _ _ _ HT Hj) as [t Ht].
    rewrite (to_flags _ _ _ _ _ _ HT k j t t' Ht Hj). setoid_rewrite Hin.
    case_decide as Hd'.
    + destruct Hd' as [-> ->]. split; [|done]. intros _. exists q. auto.
    + rewrite (qs_flag _ _ HC k j t Ht). split.
      * intros (q'&?&?). eauto.
      * intros (q'&Hk&[[-> ->]|?]); [by destruct Hd'|eauto].
Qed.

Lemma qstruct_remove s s' C q i l1 l2 hd tl :
  qstruct s C -> C q = l1 ++ i :: l2 ->
  touches s s' q (C q) i false ->
  header q s' hd tl (Z.of_nat (length (l1 ++ l2))) ->
  dlist (task_links (qkind q) (tasks s')) hd tl (l1 ++ l2) ->
  qstruct s' (<[q := l1 ++ l2]> C).
Proof.
  intros HC HCq HT Hh Hd.
  assert (i ∈ C q) as Hiq by (rewrite HCq; set_solver).
  pose proof (qs_nodup _ _ HC q) as Hn. rewrite HCq, <- Permutation_middle in Hn.
  apply NoDup_cons in Hn as [Hni Hn].
  assert (forall q' j, j ∈ (<[q:=l1 ++ l2]> C) q' <-> j ∈ C q' /\ j <> i) as Hin.
  { intros q' j. destruct (decide (q' = q)) as [->|Hne].
    - rewrite fn_lookup_insert, HCq. set_solver.
    - rewrite fn_lookup_insert_ne by done. split; [|naive_solver]. intros Hj. split; [done|].
      intros ->. apply Hne. by eapply qs_disjoint. }
  split.
  - intros q' Hv'. destruct (decide (q' = q)) as [->|Hne].
    + rewrite fn_lookup_insert. by exists hd, tl.
    + rewrite fn_lookup_insert_ne by done. eapply qrep_other; eauto.
  - intros q' j [Hj _]%Hin. by eapply qs_valid.
  - intros q'. destruct (decide (q' = q)) as [->|Hne].
    + by rewrite fn_lookup_insert.
    + rewrite fn_lookup_insert_ne by done. apply HC.
  - intros q1 q2 j [H1 _]%Hin [H2 _]%Hin. by eapply qs_disjoint.
  - intros k j t' Hj. destruct (touches_task _ _ _ _ _ _ _ _ HT Hj) as [t Ht].
    rewrite (to_flags _ _ _ _ _ _ HT k j t t' Ht Hj). setoid_rewrite Hin.
    case_decide as Hd'.
    + destruct Hd' as [-> ->]. split; [done|]. naive_solver.
    + rewrite (qs_flag _ _ HC k j t Ht). split; [|naive_solver].
      intros (q'&Hk&Hj'). exists q'. split_and!; [done..|]. intros ->. apply Hd'. split; [|done].
      rewrite <- Hk. f_equal. by eapply qs_disjoint.
Qed.

(** Changes that leave links, flags and headers alone. *)
Lemma qstruct_frame s s' C :
  qstruct s C -> length (tasks s') = length (tasks s) ->
  (forall k j t t', tasks s !! j = Some t -> tasks s' !! j = Some t' ->
     links_of k t' = links_of k t /\ flag_of k t' = flag_of k t) ->
  (forall q hd tl n, header q s hd tl n -> header q s' hd tl n) ->
  qstruct s' C.
Proof.
  intros HC Hlen Hsame Hh.
  assert (forall j t', tasks s' !! j = Some t' -> exists t, tasks s !! j = Some t) as Hex.
  { intros j t' Hj. apply lookup_lt_Some in Hj. rewrite Hlen in Hj. by apply lookup_lt_is_Some in Hj. }
  assert (forall k j, task_links k (tasks s') j = task_links k (tasks s) j) as Hl.
  { intros k j. unfold task_links. destruct (tasks s' !! j) as [t'|] eqn:Hj.
    - destruct (Hex j t' Hj) as [t Ht]. rewrite Ht. simpl. f_equal. by apply (Hsame k j).
    - apply lookup_ge_None in Hj. rewrite Hlen in Hj. by rewrite (proj2 (lookup_ge_None _ _) Hj). }
  destruct HC as [Hr Hv Hn Hd Hf]. split; auto.
  - intros q Hvq. destruct (Hr q Hvq) as (hd&tl&?&?). exists hd, tl. split; [auto|].
    eapply dlist_agree; eauto.
  - intros k j t' Hj. destruct (Hex j t' Hj) as [t Ht].
    rewrite (proj2 (Hsame k j t t' Ht Hj)). by apply Hf.
Qed.

(** ** Tasks without their links *)

Definition core (t : Task) : Task :=
  t <| t_previous := None |> <| t_next := None |>
    <| t_delay := (t_delay t) <| d_previous := None |> <| d_next := None |> |>
    <| t_message_wait := (t_message_wait t) <| w_previous := None |> <| w_next := None |> |>.

Lemma core_inv t t' : core t' = core t ->
  t_state t' = t_state t /\ t_idle t' = t_idle t /\ t_cpu t' = t_cpu t /\
  t_tid t' = t_tid t /\ t_context t' = t_context t /\ t_affinity_pinned t' = t_affinity_pinned t /\
  d_deadline (t_delay t') = d_deadline (t_delay t) /\ (forall k, flag_of k t' = flag_of k t).
Proof. intros H. unfold core in H. simpl in H. injection H as. split_and!; auto. by intros []. Qed.

(** ** Locks are taken in one order *)

(** TaskManager < endpoint table < endpoint < run queues and delay queues. *)
Definition lock_rank (l : Lock) : nat :=
  match l with
  | LTaskManager => 0
  | LEndpointTable => 1
  | LEndpoint _ => 2
  | LRunQueue _ => 3
  | LDelayQueue _ => 3
  end.
Definition lock_fits (l : Lock) (hs : list Lock) : Prop := Forall (fun l' => lock_rank l' < lock_rank l)%nat hs.
Definition ordered (log : list (Lock * list Lock)) : Prop := Forall (fun lh => lock_fits lh.1 lh.2) log.

Lemma lock_fits_notin l hs : lock_fits l hs -> l ∉ hs.
Proof. unfold lock_fits. rewrite Forall_forall. intros H Hin. specialize (H l Hin). lia. Qed.

(** ** Endpoints *)

Definition message_ok (m : Message) : Prop := length (words m) = 4%nat.

(** [waiting] is the list of receivers blocked on the endpoint, [allocated]
    its bit in the slot table. *)
Record ep_ok (allocated : bool) (p : Endpoint) (waiting : list nat) : Prop := {
  ep_queue : length (queue p) = 16%nat;
  ep_words : Forall message_ok (queue p);
  ep_head_range : 0 <= ep_head p < 16;
  ep_count_range : 0 <= ep_count p <= 16;
  ep_exclusive : waiting <> [] -> ep_count p = 0;
  ep_generation : 0 <= generation p <= kMaxGeneration;
  ep_active : active p = true -> 1 <= generation p;
  ep_inactive : active p = false -> ep_count p = 0;
  ep_allocated : allocated = active p || retired p;
  ep_retired : retired p = true -> active p = false /\ generation p = kMaxGeneration;
}.

(** ** The invariant *)

Definition cpu_bound (s : KState) (t : Task) : Prop :=
  exists c hl, t_cpu t = Some c /\ harts s !! c = Some hl /\ h_scheduler hl = true.

Definition member_state (q : Qid) : TaskState.t :=
  match q with
  | QRun _ => TaskState.ready
  | QDelay _ => TaskState.blocked_sleep
  | QWait _ => TaskState.blocked_message
  end.

Definition deadline_of (ts : list Task) (i : nat) : Z :=
  match ts !! i with Some t => d_deadline (t_delay t) | None => 0 end.
Definition by_deadline (ts : list Task) (l : list nat) : Prop :=
  StronglySorted (fun a b => deadline_of ts a <= deadline_of ts b) l.

Record idle_ok (s : KState) (it : nat) : Prop := {
  id_task : exists t, tasks s !! it = Some t /\ t_idle t = true /\ t_state t <> TaskState.ended;
  id_used : task_slots_used s !! it = Some true;
}.

Record Inv (s : KState) (C : queues) : Prop := {
  inv_q : qstruct s C;
  inv_member : forall q i t, i ∈ C q -> tasks s !! i = Some t ->
    t_state t = member_state q /\ t_idle t = false /\ cpu_bound s t /\
    task_slots_used s !! i = Some true;
  inv_sorted : forall h, by_deadline (tasks s) (C (QDelay h));
  inv_tasks : length (tasks s) = kMaxTasks;
  inv_context : forall i t, tasks s !! i = Some t -> length (ctx_x (t_context t)) = 32%nat;
  inv_bind : forall h hl, harts s !! h = Some hl -> h_scheduler hl = true ->
    scheduler_extra hl = Some h /\ delay_list hl = Some h /\ (h < kMaxHarts)%nat /\
    exists it, idle_task hl = Some it /\ idle_ok s it;
  inv_idle_inj : forall h h' hl hl' it, harts s !! h = Some hl -> harts s !! h' = Some hl' ->
    idle_task hl = Some it -> idle_task hl' = Some it -> h = h';
  inv_ep : forall e p, endpoints s !! e = Some p ->
    exists a, slot_allocated s !! e = Some a /\ ep_ok a p (C (QWait e));
  inv_log : ordered (lock_log s);
}.

(** Abstract states are compared pointwise. *)
Lemma Inv_ext s C C' : (forall q, C' q = C q) -> Inv s C -> Inv s C'.
Proof.
  intros E [[Q1 Q2 Q3 Q4 Q5] I1 I2 I3 I4 I5 I6 I7 I8]. split; auto.
  - split.
    + intros q. rewrite E. apply Q1.
    + intros q i. rewrite E. apply Q2.
    + intros q. rewrite E. apply Q3.
    + intros q q' i. rewrite !E. apply Q4.
    + intros k i t Ht. setoid_rewrite E. by apply Q5.
  - intros q i t. rewrite E. apply I1.
  - intros h. rewrite E. apply I2.
  - intros e p Hp. rewrite E. by apply I7.
Qed.

#[export] Instance Inv_proper : Proper ((=) ==> pointwise_relation Qid (=) ==> iff) Inv.
Proof. intros s _ <- C C' E. split; apply Inv_ext; intros q; by rewrite (E q). Qed.

Lemma queue_same (C : queues) q l : C q = l -> pointwise_relation Qid eq (<[q := l]> C) C.
Proof.
  intros E q'. destruct (decide (q' = q)) as [->|]; [by rewrite fn_lookup_insert|by rewrite fn_lookup_insert_ne].
Qed.

(** The tasks the harts run; [X] is a hart that is between tasks. *)
Record Running (X : option nat) (s : KState) : Prop := {
  run_task : forall h hl i, Some h <> X -> harts s !! h = Some hl -> current_task hl = Some i ->
    exists t, tasks s !! i = Some t /\ t_state t = TaskState.running /\ t_cpu t = Some h /\
      (forall k, flag_of k t = false) /\ task_slots_used s !! i = Some true /\
      (t_idle t = true -> idle_task hl = Some i);
  run_inj : forall h h' hl hl' i, Some h <> X -> Some h' <> X ->
    harts s !! h = Some hl -> harts s !! h' = Some hl' ->
    current_task hl = Some i -> current_task hl' = Some i -> h = h';
}.

Lemma idle_unqueued s C i t :
  Inv s C -> tasks s !! i = Some t -> t_idle t = true -> forall k, flag_of k t = false.
Proof.
  intros HI Ht Hid k. destruct (flag_of k t) eqn:E; [|done].
  apply (qs_flag _ _ (inv_q _ _ HI) k i t Ht) in E as (q&_&Hi).
  destruct (inv_member _ _ HI q i t Hi Ht) as (_&?&_). congruence.
Qed.

Lemma by_deadline_agree ts ts' l :
  (forall i, i ∈ l -> deadline_of ts' i = deadline_of ts i) -> by_deadline ts l -> by_deadline ts' l.
Proof.
  intros Hag. unfold by_deadline. induction 1 as [|a l Hs IH Hf]; constructor.
  - apply IH. intros. apply Hag. by right.
  - rewrite Forall_forall in *. intros x Hx. rewrite !Hag by (by left || by right). auto.
Qed.

(** ** Symbolic execution of the primitives *)

Section rules.
Context (pk : Prop) (e : Env).

Lemma wp_get_task i t (Q : Task -> KState -> Prop) s :
  tasks s !! i = Some t -> Q t s -> wp pk (get_task i) Q e s.
Proof. intros Ht HQ. unfold get_task. wp_steps. done. Qed.
Lemma wp_mod_task i f (Q : unit -> KState -> Prop) s :
  is_Some (tasks s !! i) -> Q tt (set_field tasks (alter f i) s) -> wp pk (mod_task i f) Q e s.
Proof. intros [t Ht] HQ. unfold mod_task. apply wp_bind. by apply (wp_get_task i t). Qed.

Lemma wp_get_hart i h (Q : HartLocal -> KState -> Prop) s :
  harts s !! i = Some h -> Q h s -> wp pk (get_hart i) Q e s.
Proof. intros Ht HQ. unfold get_hart. wp_steps. done. Qed.
Lemma wp_mod_hart i f (Q : unit -> KState -> Prop) s :
  is_Some (harts s !! i) -> Q tt (set_field harts (alter f i) s) -> wp pk (mod_hart i f) Q e s.
Proof. intros [t Ht] HQ. unfold mod_hart. apply wp_bind. by apply (wp_get_hart i t). Qed.

Lemma wp_get_endpoint i p (Q : Endpoint -> KState -> Prop) s :
  endpoints s !! i = Some p -> Q p s -> wp pk (get_endpoint i) Q e s.
Proof. intros Ht HQ. unfold get_endpoint. wp_steps. done. Qed.
Lemma wp_mod_endpoint i f (Q : unit -> KState -> Prop) s :
  is_Some (endpoints s !! i) -> Q tt (set_field endpoints (alter f i) s) ->
  wp pk (mod_endpoint i f) Q e s.
Proof. intros [t Ht] HQ. unfold mod_endpoint. apply wp_bind. by apply (wp_get_endpoint i t). Qed.

Lemma wp_get_run_queue q rq (Q : RunQueue -> KState -> Prop) s :
  get_rq q s = Some rq -> Q rq s -> wp pk (get_run_queue q) Q e s.
Proof. intros Ht HQ. unfold get_run_queue. wp_steps. done. Qed.
Lemma wp_mod_run_queue q f (Q : unit -> KState -> Prop) s :
  is_Some (get_rq q s) -> Q tt (set_rq q f s) -> wp pk (mod_run_queue q f) Q e s.
Proof. intros [t Ht] HQ. unfold mod_run_queue. apply wp_bind. by apply (wp_get_run_queue q t). Qed.

Lemma wp_current_hart (Q : nat -> KState -> Prop) s : Q (e_hart e) s -> wp pk current_hart Q e s.
Proof. done. Qed.

(** A critical section: the lock fits the order, the body runs with it held
    and gives it back. *)
Lemma wp_with_lock {A} l (m : K A) (Q : A -> KState -> Prop) s :
  lock_fits l (held s) ->
  wp pk m (fun a s' => held s' = l :: held s /\ Q a (s' <| held := held s |>)) e
    (s <| lock_log := (l, held s) :: lock_log s |> <| held := l :: held s |>) ->
  wp pk (with_lock l m) Q e s.
Proof.
  intros Hfit Hm. unfold with_lock, lock. apply wp_bind, wp_bind, wp_gets.
  rewrite bool_decide_false by (by apply lock_fits_notin).
  apply wp_modify, wp_bind. eapply wp_mono; [exact Hm|done|].
  intros a s' [Hh HQ]. unfold unlock. apply wp_bind, wp_modify, wp_ret. rewrite Hh.
  assert (filter (fun l' => l' <> l) (l :: held s) = held s) as ->; [|done].
  rewrite filter_cons, decide_False by naive_solver.
  apply lock_fits_notin in Hfit. clear -Hfit. induction (held s) as [|x hs IH]; [done|].
  rewrite filter_cons, decide_True by set_solver. f_equal. apply IH. set_solver.
Qed.
End rules.

(** ** Preservation of the invariant *)

Lemma core_lookup (ts ts' : list Task) j t' :
  core <$> ts' !! j = core <$> ts !! j -> ts' !! j = Some t' ->
  exists t, ts !! j = Some t /\ core t' = core t.
Proof.
  intros Hc Hj. rewrite Hj in Hc. simpl in Hc. symmetry in Hc.
  apply fmap_Some in Hc as (t&?&?). eauto.
Qed.

Lemma core_deadline (ts ts' : list Task) j :
  core <$> ts' !! j = core <$> ts !! j -> deadline_of ts' j = deadline_of ts j.
Proof.
  unfold deadline_of. intros Hc. destruct (ts' !! j) as [t'|] eqn:Hj.
  - destruct (core_lookup ts ts' j t' ) as (t&Ht&E); [by rewrite Hj|done|]. rewrite Ht.
    by apply core_inv in E as (_&_&_&_&_&_&?&_).
  - simpl in Hc. destruct (ts !! j); [done|done].
Qed.

(** Only task [i] changed, apart from links. *)
Definition only_task (i : nat) (s s' : KState) : Prop :=
  length (tasks s') = length (tasks s) /\
  forall j, j <> i -> core <$> tasks s' !! j = core <$> tasks s !! j.

Lemma only_task_refl i s : only_task i s s.
Proof. done. Qed.
Lemma only_task_trans i s1 s2 s3 : only_task i s1 s2 -> only_task i s2 s3 -> only_task i s1 s3.
Proof. intros [L1 H1] [L2 H2]. split; [congruence|]. intros j Hj. by rewrite H2, H1. Qed.

Lemma Inv_update s s' C C' i t' :
  Inv s C -> qstruct s' C' -> only_task i s s' ->
  tasks s' !! i = Some t' -> length (ctx_x (t_context t')) = 32%nat ->
  (forall t, tasks s !! i = Some t -> t_idle t' = t_idle t /\
     (t_idle t = true -> t_state t' <> TaskState.ended)) ->
  harts s' = harts s -> task_slots_used s' = task_slots_used s ->
  (forall q j, j <> i -> j ∈ C' q -> j ∈ C q) ->
  (forall q, i ∈ C' q -> t_state t' = member_state q /\ t_idle t' = false /\ cpu_bound s t' /\
     task_slots_used s !! i = Some true) ->
  (forall h, by_deadline (tasks s') (C' (QDelay h))) ->
  (forall e p, endpoints s' !! e = Some p ->
     exists a, slot_allocated s' !! e = Some a /\ ep_ok a p (C' (QWait e))) ->
  ordered (lock_log s') -> Inv s' C'.
Proof.
  intros HI HQ [Hlen Hcore] Hi Hctx Hidle Hh Hu Hsub Hnew Hsort Hep Hlog.
  assert (forall j t, tasks s' !! j = Some t -> j <> i ->
    exists t0, tasks s !! j = Some t0 /\ core t = core t0) as Hold.
  { intros j t Hj Hne. apply (core_lookup (tasks s) (tasks s')); auto. }
  split; auto.
  - intros q j t Hj Ht. unfold cpu_bound. rewrite Hh, Hu.
    destruct (decide (j = i)) as [->|Hne]; [simplify_eq; by apply Hnew|].
    destruct (Hold j t Ht Hne) as (t0&Ht0&E). apply core_inv in E as (->&->&->&_).
    apply (inv_member _ _ HI q j t0); auto.
  - rewrite Hlen. apply HI.
  - intros j t Hj. destruct (decide (j = i)) as [->|Hne]; [by simplify_eq|].
    destruct (Hold j t Hj Hne) as (t0&Ht0&E). apply core_inv in E as (_&_&_&_&->&_).
    by apply (inv_context _ _ HI j).
  - rewrite Hh. intros h hl Hl Hs. destruct (inv_bind _ _ HI h hl Hl Hs) as (?&?&?&it&Hit&[Hid Hus]).
    split_and!; auto. exists it. split; [done|]. split; [|by rewrite Hu].
    destruct Hid as (t0&Ht0&Hi0&Hs0). destruct (decide (it = i)) as [->|Hne].
    + exists t'. destruct (Hidle t0 Ht0) as [-> ?]. auto.
    + specialize (Hcore it Hne). rewrite Ht0 in Hcore. apply fmap_Some in Hcore as (t1&Ht1&E).
      exists t1. symmetry in E. apply core_inv in E as (->&->&_). auto.
  - rewrite Hh. apply HI.
Qed.

Lemma Running_update X s s' i :
  Running X s -> only_task i s s' ->
  (forall h hl, Some h <> X -> harts s !! h = Some hl -> current_task hl <> Some i) ->
  harts s' = harts s -> task_slots_used s' = task_slots_used s -> Running X s'.
Proof.
  intros [R1 R2] [_ Hcore] Hne Hh Hu. split; rewrite ?Hh; [|done].
  intros h hl j HX Hl Hc. destruct (R1 h hl j HX Hl Hc) as (t&Ht&Hs&Hcp&Hf&Hus&Hid).
  assert (j <> i) as Hji by (intros ->; by eapply Hne).
  specialize (Hcore j Hji). rewrite Ht in Hcore. apply fmap_Some in Hcore as (t1&Ht1&E).
  symmetry in E. apply core_inv in E as (E1&E2&E3&_&_&_&_&E8). exists t1.
  rewrite E1, E2, E3, Hu. split_and!; auto. intros k. by rewrite E8.
Qed.

(** A queued task is nobody's current task. *)
Lemma Running_not_queued X s C i q h hl :
  Running X s -> qstruct s C -> i ∈ C q -> Some h <> X -> harts s !! h = Some hl ->
  current_task hl <> Some i.
Proof.
  intros HR HC Hi HX Hl Hc. destruct (run_task _ _ HR h hl i HX Hl Hc) as (t&Ht&_&_&Hf&_).
  pose proof (qstruct_flag s C q i t HC Hi Ht). by rewrite Hf in *.
Qed.

(** Changes of queued tasks do not concern the harts. *)
Lemma Running_queued X (l : list nat) s s' C :
  Running X s -> qstruct s C -> (forall i, i ∈ l -> exists q, i ∈ C q) ->
  (forall j, j ∉ l -> core <$> tasks s' !! j = core <$> tasks s !! j) ->
  harts s' = harts s -> task_slots_used s' = task_slots_used s -> Running X s'.
Proof.
  intros HR HC Hl Hcore Hh Hu. split; rewrite Hh; [|apply HR].
  intros h hl i HX Hhl Hc. destruct (run_task _ _ HR h hl i HX Hhl Hc) as (t&Ht&Hst&Hcpu&Hf&Hus&Hid).
  assert (i ∉ l) as Hil by (intros (q&Hq)%Hl; by eapply (qstruct_free s C i t HC Ht Hf q)).
  pose proof (Hcore i Hil) as E. rewrite Ht in E. apply fmap_Some in E as (t1&Ht1&E).
  symmetry in E. apply core_inv in E as (E1&E2&E3&_&_&_&_&E8). exists t1.
  rewrite E1, E2, E3, Hu. split_and!; auto. intros k. by rewrite E8.
Qed.

Lemma Running_weaken s h : Running None s -> Running (Some h) s.
Proof. intros [R1 R2]. split; intros; eauto. Qed.

(** ** Insertion and removal, for the three kinds of queue *)

Definition set_previous (k : lkind) (v : option nat) (t : Task) : Task :=
  match k with
  | LkRun => t <| t_previous := v |>
  | LkDelay => t <| t_delay := (t_delay t) <| d_previous := v |> |>
  | LkWait => t <| t_message_wait := (t_message_wait t) <| w_previous := v |> |>
  end.
Definition set_next (k : lkind) (v : option nat) (t : Task) : Task :=
  match k with
  | LkRun => t <| t_next := v |>
  | LkDelay => t <| t_delay := (t_delay t) <| d_next := v |> |>
  | LkWait => t <| t_message_wait := (t_message_wait t) <| w_next := v |> |>
  end.

Lemma set_links_spec k v t :
  core (set_previous k v t) = core t /\ core (set_next k v t) = core t /\
  (forall k', links_of k' (set_previous k v t) = if decide (k' = k) then (v, (links_of k t).2) else links_of k' t) /\
  (forall k', links_of k' (set_next k v t) = if decide (k' = k) then ((links_of k t).1, v) else links_of k' t) /\
  (forall k', flag_of k' (set_previous k v t) = flag_of k' t) /\
  (forall k', flag_of k' (set_next k v t) = flag_of k' t).
Proof. split_and!; destruct k; try done; by intros []. Qed.

(** What linking task [i] between [p] and [n] leaves at task [j]; [g] is the
    effect on [i] itself. *)
Definition link_at (k : lkind) (p n : option nat) (g : Task -> Task) (i j : nat) (t : Task) : Task :=
  if decide (j = i) then g t
  else if decide (p = Some j) then set_next k (Some i) t
  else if decide (n = Some j) then set_previous k (Some i) t else t.

(** What unlinking the first task [i], followed by [n], leaves at [j]. *)
Definition unlink_at (k : lkind) (n : option nat) (g : Task -> Task) (i j : nat) (t : Task) : Task :=
  if decide (j = i) then g t else if decide (n = Some j) then set_previous k None t else t.

Lemma link_at_other k p n g i j t : j <> i -> core (link_at k p n g i j t) = core t.
Proof.
  intros Hj. unfold link_at. rewrite decide_False by done.
  destruct (set_links_spec k (Some i) t) as (E1&E2&_). by repeat case_decide.
Qed.
Lemma unlink_at_other k n g i j t : j <> i -> core (unlink_at k n g i j t) = core t.
Proof.
  intros Hj. unfold unlink_at. rewrite decide_False by done.
  destruct (set_links_spec k None t) as (E1&E2&_). by case_decide.
Qed.

Lemma only_task_of i s s' (f : nat -> Task -> Task) :
  length (tasks s') = length (tasks s) -> (forall j, tasks s' !! j = f j <$> tasks s !! j) ->
  (forall j t, j <> i -> core (f j t) = core t) -> only_task i s s'.
Proof.
  intros Hlen Hts Hf. split; [done|]. intros j Hj. rewrite Hts.
  destruct (tasks s !! j); [|done]. simpl. by rewrite Hf.
Qed.

Lemma last_elem (l : list nat) x : last l = Some x -> x ∈ l.
Proof. apply last_Some_elem_of. Qed.
Lemma head_elem (l : list nat) x : head l = Some x -> x ∈ l.
Proof. destruct l; [done|]. set_solver. Qed.

(** How the operation treats the queue headers. *)
Definition headers_kept (s s' : KState) (q : Qid) : Prop :=
  forall q' hd tl n, q' <> q -> header q' s hd tl n -> header q' s' hd tl n.

Section movement.
Context (s s' : KState) (C : queues) (q : Qid) (i : nat) (t : Task) (g : Task -> Task).
Context (HI : Inv s C) (Hv : valid_q q) (Ht : tasks s !! i = Some t).
Context (Hlen : length (tasks s') = length (tasks s)).
Context (Hharts : harts s' = harts s) (Hused : task_slots_used s' = task_slots_used s).
Context (Hheads : headers_kept s s' q) (Hlog : ordered (lock_log s')).
Context (Hctx : length (ctx_x (t_context (g t))) = 32%nat) (Hidle : t_idle (g t) = t_idle t).
Context (Hglinks : forall k, k <> qkind q -> links_of k (g t) = links_of k t).
Context (Hgflags : forall k, k <> qkind q -> flag_of k (g t) = flag_of k t).

Lemma Inv_insert l1 l2 hd tl :
  C q = l1 ++ l2 -> (forall k, flag_of k t = false) ->
  header q s hd tl (Z.of_nat (length (C q))) -> dlist (task_links (qkind q) (tasks s)) hd tl (C q) ->
  (forall j, tasks s' !! j = link_at (qkind q) (last l1) (head l2) g i j <$> tasks s !! j) ->
  links_of (qkind q) (g t) = (last l1, head l2) -> flag_of (qkind q) (g t) = true ->
  header q s' (if l1 then Some i else hd) (if l2 then Some i else tl) (Z.of_nat (S (length (C q)))) ->
  t_state (g t) = member_state q -> t_idle t = false -> cpu_bound s (g t) ->
  task_slots_used s !! i = Some true ->
  (forall h, by_deadline (tasks s') ((<[q := l1 ++ i :: l2]> C) (QDelay h))) ->
  (forall e p, endpoints s' !! e = Some p ->
     exists a, slot_allocated s' !! e = Some a /\ ep_ok a p ((<[q := l1 ++ i :: l2]> C) (QWait e))) ->
  Inv s' (<[q := l1 ++ i :: l2]> C) /\ only_task i s s'.
Proof.
  intros HCq Hf Hh Hd Hts Hgl Hgf Hh' Hst Hid Hcpu Hus Hsort Hep.
  pose proof (inv_q _ _ HI) as HC.
  pose proof (qstruct_free s C i t HC Ht Hf) as Hfree.
  assert (forall x, last l1 = Some x -> x ∈ C q) as Hl1 by (intros x ?%last_elem; rewrite HCq; set_solver).
  assert (forall x, head l2 = Some x -> x ∈ C q) as Hl2 by (intros x ?%head_elem; rewrite HCq; set_solver).
  pose proof (qs_nodup _ _ HC q) as Hnd. rewrite HCq in Hnd. pose proof Hnd as (_&Hdj&_)%NoDup_app.
  assert (only_task i s s') as Hot by (eapply only_task_of; [done|exact Hts|intros; by apply link_at_other]).
  split; [|done].
  assert (touches s s' q (C q) i true) as HT.
  { split; [done|..|done].
    - intros k j Hk. unfold task_links. rewrite Hts. destruct (tasks s !! j) as [tj|] eqn:Hj; [|done].
      simpl. f_equal. unfold link_at. destruct (set_links_spec (qkind q) (Some i) tj) as (_&_&E1&E2&_).
      repeat case_decide; subst; rewrite ?E1, ?E2, ?decide_False by done; try done. simplify_eq. auto.
    - intros j Hj Hji. unfold task_links. rewrite Hts. destruct (tasks s !! j) as [tj|]; [|done].
      simpl. unfold link_at. rewrite !decide_False; eauto.
    - intros k j tj tj' Hj. rewrite Hts, Hj. intros [= <-]. unfold link_at.
      destruct (set_links_spec (qkind q) (Some i) tj) as (_&_&_&_&E1&E2).
      destruct (decide (j = i)) as [->|Hji].
      + simplify_eq. destruct (decide (k = qkind q)) as [->|Hk].
        * by rewrite decide_True.
        * rewrite decide_False by tauto. auto.
      + rewrite (decide_False (P := k = qkind q /\ j = i)) by tauto.
        repeat case_decide; by rewrite ?E1, ?E2. }
  assert (qstruct s' (<[q := l1 ++ i :: l2]> C)) as HC'.
  { eapply (qstruct_insert s s' C q i l1 l2); eauto. apply (dlist_insert (task_links (qkind q) (tasks s))).
    - done.
    - by rewrite HCq in Hd.
    - unfold task_links. rewrite Hts, Ht. simpl. unfold link_at. rewrite decide_True by done. by rewrite Hgl.
    - intros x Hx. unfold task_links. rewrite Hts. destruct (tasks s !! x) as [tx|]; [|by case_decide].
      simpl. unfold link_at. rewrite decide_False by (intros ->; eapply (Hfree q); rewrite HCq; set_solver).
      destruct (set_links_spec (qkind q) (Some i) tx) as (_&_&E1&E2&_).
      destruct (decide (last l1 = Some x)); simpl; [by rewrite E2, decide_True|].
      rewrite decide_False; [done|]. intros ?%head_elem. by eapply Hdj.
    - intros x Hx. unfold task_links. rewrite Hts. destruct (tasks s !! x) as [tx|]; [|by case_decide].
      simpl. unfold link_at. rewrite decide_False by (intros ->; eapply (Hfree q); rewrite HCq; set_solver).
      destruct (set_links_spec (qkind q) (Some i) tx) as (_&_&E1&E2&_).
      rewrite decide_False by (intros ?%last_elem; by eapply Hdj).
      case_decide; simpl; [by rewrite E1, decide_True|done]. }
  assert (tasks s' !! i = Some (g t)) as Hi'.
  { rewrite Hts, Ht. simpl. unfold link_at. by rewrite decide_True. }
  eapply (Inv_update s s' C _ i (g t)); eauto.
  - intros t0 Ht0. simplify_eq. split; [done|]. congruence.
  - intros q' j Hj. destruct (decide (q' = q)) as [->|Hne].
    + rewrite fn_lookup_insert, HCq. set_solver.
    + by rewrite fn_lookup_insert_ne.
  - intros q' Hin. rewrite Hidle. destruct (decide (q' = q)) as [->|Hne]; [done|].
    rewrite fn_lookup_insert_ne in Hin by done. by destruct (Hfree q').
Qed.

(** The state of [i] after it left the queue is up to the caller. *)
Lemma Inv_remove l2 hd tl :
  C q = i :: l2 ->
  header q s hd tl (Z.of_nat (length (C q))) -> dlist (task_links (qkind q) (tasks s)) hd tl (C q) ->
  (forall j, tasks s' !! j = unlink_at (qkind q) (head l2) g i j <$> tasks s !! j) ->
  flag_of (qkind q) (g t) = false ->
  header q s' (head l2) (if l2 then None else tl) (Z.of_nat (length l2)) ->
  (forall h, by_deadline (tasks s') ((<[q := l2]> C) (QDelay h))) ->
  (forall e p, endpoints s' !! e = Some p ->
     exists a, slot_allocated s' !! e = Some a /\ ep_ok a p ((<[q := l2]> C) (QWait e))) ->
  Inv s' (<[q := l2]> C) /\ only_task i s s'.
Proof.
  intros HCq Hh Hd Hts Hgf Hh' Hsort Hep.
  pose proof (inv_q _ _ HI) as HC.
  assert (i ∈ C q) as Hiq by (rewrite HCq; set_solver).
  assert (forall x, x ∈ l2 -> x ∈ C q) as Hl2 by (rewrite HCq; set_solver).
  pose proof (qs_nodup _ _ HC q) as Hnd. rewrite HCq in Hnd. apply NoDup_cons in Hnd as [Hil Hnd].
  destruct (inv_member _ _ HI q i t Hiq Ht) as (_&Hid&_).
  assert (only_task i s s') as Hot by (eapply only_task_of; [done|exact Hts|intros; by apply unlink_at_other]).
  split; [|done].
  assert (touches s s' q (C q) i false) as HT.
  { split; [done|..|done].
    - intros k j Hk. unfold task_links. rewrite Hts. destruct (tasks s !! j) as [tj|] eqn:Hj; [|done].
      simpl. f_equal. unfold unlink_at. destruct (set_links_spec (qkind q) None tj) as (_&_&E1&E2&_).
      repeat case_decide; subst; rewrite ?E1, ?decide_False by done; try done. simplify_eq. auto.
    - intros j Hj Hji. unfold task_links. rewrite Hts. destruct (tasks s !! j) as [tj|]; [|done].
      simpl. unfold unlink_at. rewrite !decide_False; [done| |done]. intros ?%head_elem. auto.
    - intros k j tj tj' Hj. rewrite Hts, Hj. intros [= <-]. unfold unlink_at.
      destruct (set_links_spec (qkind q) None tj) as (_&_&_&_&E1&_).
      destruct (decide (j = i)) as [->|Hji].
      + simplify_eq. destruct (decide (k = qkind q)) as [->|Hk].
        * by rewrite decide_True.
        * rewrite decide_False by tauto. auto.
      + rewrite (decide_False (P := k = qkind q /\ j = i)) by tauto.
        case_decide; by rewrite ?E1. }
  assert (qstruct s' (<[q := l2]> C)) as HC'.
  { apply (qstruct_remove s s' C q i [] l2 (head l2) (if l2 then None else tl)); auto.
    apply (dlist_remove (task_links (qkind q) (tasks s)) _ hd tl [] i l2).
    - by constructor.
    - by rewrite HCq in Hd.
    - intros y Hy. by apply elem_of_nil in Hy.
    - intros y Hy. unfold task_links. rewrite Hts. destruct (tasks s !! y) as [ty|]; [|by case_decide].
      simpl. unfold unlink_at. rewrite decide_False by (intros ->; done).
      destruct (set_links_spec (qkind q) None ty) as (_&_&E1&_).
      case_decide; simpl; [by rewrite E1, decide_True|done]. }
  assert (tasks s' !! i = Some (g t)) as Hi'.
  { rewrite Hts, Ht. simpl. unfold unlink_at. by rewrite decide_True. }
  assert (forall q' j, j ∈ (<[q:=l2]> C) q' -> j ∈ C q' /\ j <> i) as Hsub.
  { intros q' j. destruct (decide (q' = q)) as [->|Hne].
    - rewrite fn_lookup_insert. intros Hj. split; [auto|]. by intros ->.
    - rewrite fn_lookup_insert_ne by done. intros Hj. split; [done|]. intros ->.
      apply Hne. by eapply (qs_disjoint _ _ HC). }
  eapply (Inv_update s s' C _ i (g t)); eauto.
  - intros t0 Ht0. simplify_eq. split; [done|]. congruence.
  - intros q' j _ Hj. by apply Hsub.
  - intros q' [_ Hj]%Hsub. done.
Qed.
End movement.

(** A member of a queue carries no other membership flag. *)
Lemma member_flags s C q i t k :
  qstruct s C -> i ∈ C q -> tasks s !! i = Some t -> k <> qkind q -> flag_of k t = false.
Proof.
  intros HC Hi Ht Hk. destruct (flag_of k t) eqn:E; [|done].
  apply (qs_flag _ _ HC k i t Ht) in E as (q'&<-&Hq'). by rewrite (qs_disjoint _ _ HC _ _ i Hi Hq') in Hk.
Qed.

(** The first task of a queue and its successor. *)
Lemma qrep_first s C q i l :
  qstruct s C -> C q = i :: l -> exists t hd tl, tasks s !! i = Some t /\ hd = Some i /\
    (links_of (qkind q) t).2 = head l /\ i ∉ l /\
    header q s hd tl (Z.of_nat (length (C q))) /\ dlist (task_links (qkind q) (tasks s)) hd tl (C q).
Proof.
  intros HC HCq. assert (i ∈ C q) as Hiq by (rewrite HCq; set_solver).
  destruct (qstruct_task s C q i HC Hiq) as [t Ht].
  destruct (qs_rep _ _ HC q (qs_valid _ _ HC q i Hiq)) as (hd&tl&Hh&Hd). exists t, hd, tl.
  pose proof (qs_nodup _ _ HC q) as Hnd. rewrite HCq in Hnd. apply NoDup_cons in Hnd as [Hil _].
  rewrite HCq in Hd. pose proof Hd as (E1&_&Hch). cbn [chain] in Hch. destruct Hch as [Hch _].
  unfold task_links in Hch. rewrite Ht in Hch. simpl in Hch. injection Hch as Hch.
  split_and!; auto; [rewrite Hch; simpl; by destruct (head l)|by rewrite HCq].
Qed.

(** ** Helpers for the component proofs *)

Lemma lookup_alter_if {A} (f : A -> A) i (l : list A) j :
  alter f i l !! j = (if decide (j = i) then f else id) <$> l !! j.
Proof.
  case_decide as Hd.
  - subst. by rewrite list_lookup_alter_eq.
  - rewrite list_lookup_alter_ne by done. by rewrite option_fmap_id.
Qed.

Lemma get_set_rq q q' f s :
  get_rq q' (set_rq q f s) = (if decide (q' = q) then f else id) <$> get_rq q' s.
Proof.
  destruct q as [|h], q' as [|h']; simpl; rewrite ?option_fmap_id; try done.
  rewrite lookup_alter_if. repeat case_decide; naive_solver.
Qed.

(** The parts of the state that the scheduler, the queues and the endpoints
    never write. *)
Definition rest (s : KState) :=
  (trackers s, task_slots_used s, tracker_slots_used s, root_tasks s, next_tid s, initial_task_id s,
   tm_initialized s, time_initialized s, csrs s, mtimecmp s, present_count s,
   (cpp_ready s, heap_initialized s, vmm s, memsys s, console s, reports s)).

Lemma rest_used s s' : rest s' = rest s -> task_slots_used s' = task_slots_used s.
Proof. unfold rest. congruence. Qed.

Lemma set_rq_frame q f s :
  tasks (set_rq q f s) = tasks s /\ held (set_rq q f s) = held s /\
  lock_log (set_rq q f s) = lock_log s /\ rest (set_rq q f s) = rest s /\
  harts (set_rq q f s) = harts s /\ endpoints (set_rq q f s) = endpoints s /\
  delay_queues (set_rq q f s) = delay_queues s /\ slot_allocated (set_rq q f s) = slot_allocated s /\
  clock_reads (set_rq q f s) = clock_reads s.
Proof. by destruct q. Qed.

(** Normalises projections of a symbolic state. *)
Ltac knorm :=
  repeat first
  [ progress rproj
  | match goal with
    | |- context [?p (set_rq ?q ?f ?s)] =>
        is_const p;
        let H := fresh in
        assert (p (set_rq q f s) = p s) as H by apply (set_rq_frame q f s);
        rewrite H; clear H
    | |- context [get_rq _ (set_rq _ _ _)] => rewrite get_set_rq
    end ].

(** Parts of the state that a queue operation leaves alone. *)
Record run_frame (s s' : KState) : Prop := {
  rf_rest : rest s' = rest s; rf_harts : harts s' = harts s; rf_eps : endpoints s' = endpoints s;
  rf_slots : slot_allocated s' = slot_allocated s; rf_delay : delay_queues s' = delay_queues s;
  rf_clock : clock_reads s' = clock_reads s; rf_held : held s' = held s;
}.
Record delay_frame (s s' : KState) : Prop := {
  df_rest : rest s' = rest s; df_harts : harts s' = harts s; df_eps : endpoints s' = endpoints s;
  df_slots : slot_allocated s' = slot_allocated s; df_rq : forall q, get_rq q s' = get_rq q s;
  df_clock : clock_reads s' = clock_reads s; df_held : held s' = held s;
}.
Record wait_frame (s s' : KState) : Prop := {
  wf_rest : rest s' = rest s; wf_harts : harts s' = harts s; wf_log : lock_log s' = lock_log s;
  wf_slots : slot_allocated s' = slot_allocated s; wf_delay : delay_queues s' = delay_queues s;
  wf_rq : forall q, get_rq q s' = get_rq q s;
  wf_clock : clock_reads s' = clock_reads s; wf_held : held s' = held s;
}.

(** Nothing the invariant speaks about changed. *)
Lemma Inv_same s s' C :
  Inv s C -> tasks s' = tasks s -> harts s' = harts s -> task_slots_used s' = task_slots_used s ->
  endpoints s' = endpoints s -> slot_allocated s' = slot_allocated s -> delay_queues s' = delay_queues s ->
  (forall q, get_rq q s' = get_rq q s) -> ordered (lock_log s') -> Inv s' C.
Proof.
  intros HI Et Eh Eu Ee Es Ed Er Hlog.
  assert (qstruct s' C) as HC.
  { apply (qstruct_frame s); [apply HI|by rewrite Et|rewrite Et; intros; by simplify_eq|].
    intros [r|h|w] hd tl n; simpl; by rewrite ?Er, ?Ed, ?Ee. }
  destruct HI as [_ I1 I2 I3 I4 I5 I6 I7 I8].
  split; rewrite ?Et, ?Eh, ?Ee, ?Es; auto.
  - intros q i t Hi Ht. unfold cpu_bound. rewrite Eu, Eh. eauto.
  - intros h hl Hl Hs. destruct (I5 h hl Hl Hs) as (?&?&?&it&?&[Hid Hus]).
    split_and!; auto. exists it. split; [done|]. split; rewrite ?Et, ?Eu; auto.
Qed.

(** One step of symbolic execution; side conditions that are lookups in an
    altered table are discharged from the hypotheses. *)
Ltac kside :=
  knorm; rewrite ?lookup_alter_is_Some, ?fmap_is_Some; eauto.
Ltac kstep :=
  lazymatch goal with
  | |- wp _ (mod_task _ _) _ _ _ => apply wp_mod_task; [by kside|]
  | |- wp _ (mod_hart _ _) _ _ _ => apply wp_mod_hart; [by kside|]
  | |- wp _ (mod_endpoint _ _) _ _ _ => apply wp_mod_endpoint; [by kside|]
  | |- wp _ (mod_run_queue _ _) _ _ _ => apply wp_mod_run_queue; [by kside|]
  | |- wp _ (get_task _) _ _ _ => eapply wp_get_task; [rproj; eassumption|]
  | |- wp _ (get_hart _) _ _ _ => eapply wp_get_hart; [rproj; eassumption|]
  | |- wp _ (get_endpoint _) _ _ _ => eapply wp_get_endpoint; [rproj; eassumption|]
  | |- wp _ (get_run_queue _) _ _ _ => eapply wp_get_run_queue; [rproj; eassumption|]
  | |- wp _ current_hart _ _ _ => apply wp_current_hart
  | |- _ => wp_step
  end.
Ltac ksteps := repeat (kstep; cbv beta).

(** Closes [alter .. (alter .. ts) !! j = f j <$> ts !! j] by cases on [j]. *)
Ltac alter_cases :=
  knorm; rewrite ?lookup_alter_if;
  match goal with |- context [?ts !! ?j] => destruct (ts !! j) end; [simpl; f_equal|done];
  repeat case_decide; simplify_eq; try done.

(** A change of one task, outside its links and flags, that keeps the
    invariant. *)
Lemma Inv_task s s' C i t t' :
  Inv s C -> tasks s !! i = Some t -> tasks s' = <[i := t']> (tasks s) ->
  (forall k, flag_of k t = false) ->
  (forall k, links_of k t' = links_of k t /\ flag_of k t' = flag_of k t) ->
  length (ctx_x (t_context t')) = 32%nat -> t_idle t' = t_idle t -> t_state t' <> TaskState.ended \/ t_idle t = false ->
  harts s' = harts s -> task_slots_used s' = task_slots_used s ->
  endpoints s' = endpoints s -> slot_allocated s' = slot_allocated s -> delay_queues s' = delay_queues s ->
  (forall q, get_rq q s' = get_rq q s) -> ordered (lock_log s') -> Inv s' C.
Proof.
  intros HI Ht Ets Hf Hlf Hctx Hid Hst Hh Hu He Hsl Hd Hr Hlog.
  assert (tasks s' !! i = Some t') as Hi by (rewrite Ets; apply list_lookup_insert_eq; by eapply lookup_lt_Some).
  pose proof (qstruct_free s C i t (inv_q _ _ HI) Ht Hf) as Hfree.
  assert (forall j, j <> i -> tasks s' !! j = tasks s !! j) as Hoth
    by (intros j Hj; rewrite Ets, list_lookup_insert_ne; done).
  eapply (Inv_update s s' C C i t'); eauto.
  - apply (qstruct_frame s); [apply HI|by rewrite Ets, length_insert| |].
    + intros k j t0 t1 Hj Hj'. destruct (decide (j = i)) as [->|Hne]; [simplify_eq; auto|].
      rewrite Hoth in Hj' by done. by simplify_eq.
    + intros [r|h|w] hd tl n; simpl; by rewrite ?Hr, ?Hd, ?He.
  - split; [by rewrite Ets, length_insert|]. intros j Hj. by rewrite Hoth.
  - intros t0 Ht0. simplify_eq. split; [done|]. destruct Hst; congruence.
  - intros q Hq. by destruct (Hfree q).
  - intros h. eapply by_deadline_agree; [|apply HI]. intros j Hj. unfold deadline_of. rewrite Hoth; [done|].
    intros ->. by eapply Hfree.
  - rewrite He, Hsl. apply HI.
Qed.

Lemma fits_rank l l' hs : lock_fits l hs -> lock_rank l = lock_rank l' -> lock_fits l' hs.
Proof. unfold lock_fits. intros H E. by rewrite <- E. Qed.

Lemma Inv_set_task s C i t t' :
  Inv s C -> tasks s !! i = Some t -> (forall k, flag_of k t = false) ->
  (forall k, links_of k t' = links_of k t /\ flag_of k t' = flag_of k t) ->
  length (ctx_x (t_context t')) = 32%nat -> t_idle t' = t_idle t -> t_state t' <> TaskState.ended \/ t_idle t = false ->
  Inv (s <| tasks := <[i := t']> (tasks s) |>) C.
Proof. intros HI Ht Hf Hl Hctx Hid Hst. eapply (Inv_task s _ C i t t'); try done. apply HI. Qed.

Lemma alter_insert {A} (f : A -> A) i (l : list A) x : l !! i = Some x -> alter f i l = <[i := f x]> l.
Proof.
  intros Hx. apply list_eq. intros j. rewrite lookup_alter_if. case_decide as Hj.
  - subst. rewrite Hx, list_lookup_insert_eq; [done|by eapply lookup_lt_Some].
  - by rewrite option_fmap_id, list_lookup_insert_ne.
Qed.

Lemma alter_inserted {A} (f : A -> A) i (l : list A) x y : l !! i = Some y -> alter f i (<[i := x]> l) = <[i := f x]> l.
Proof.
  intros Hy. assert (<[i := x]> l !! i = Some x) as Hx by (apply list_lookup_insert_eq; by eapply lookup_lt_Some).
  by rewrite (alter_insert f i _ x Hx), list_insert_insert_eq.
Qed.

(** The same for an update in place. *)
Lemma Inv_mod_task s C i t f :
  Inv s C -> tasks s !! i = Some t -> (forall k, flag_of k t = false) ->
  (forall k, links_of k (f t) = links_of k t /\ flag_of k (f t) = flag_of k t) ->
  length (ctx_x (t_context (f t))) = 32%nat -> t_idle (f t) = t_idle t ->
  t_state (f t) <> TaskState.ended \/ t_idle t = false ->
  Inv (set_field tasks (alter f i) s) C.
Proof.
  intros HI Ht Hf Hl Hctx Hid Hst.
  eapply (Inv_task s _ C i t (f t)); try done; [rproj; by apply alter_insert|apply HI].
Qed.

Lemma only_task_mod i f s : only_task i s (set_field tasks (alter f i) s).
Proof. split; rproj; [by rewrite length_alter|]. intros j Hj. by rewrite list_lookup_alter_ne. Qed.

(** ** Locks and the invariant *)

Lemma Inv_lock s C l :
  Inv s C -> lock_fits l (held s) ->
  Inv (s <| lock_log := (l, held s) :: lock_log s |> <| held := l :: held s |>) C.
Proof. intros HI Hl. eapply Inv_same; [exact HI|done..|]. rproj. constructor; [done|apply HI]. Qed.

Lemma Inv_held s C hs : Inv s C -> Inv (s <| held := hs |>) C.
Proof. intros HI. eapply Inv_same; [exact HI|done..|apply HI]. Qed.

Lemma Inv_clock s C n : Inv s C -> Inv (s <| clock_reads := n |>) C.
Proof. intros HI. eapply Inv_same; [exact HI|done..|apply HI]. Qed.

Lemma fits_cons l l' hs : lock_fits l' hs -> (lock_rank l' < lock_rank l)%nat -> lock_fits l (l' :: hs).
Proof.
  intros Hf Hr. constructor; [done|]. eapply Forall_impl; [exact Hf|]. simpl. lia.
Qed.
