(* ===== verification/Trace.v ===== *)
(** * The verification trace

    Models [microkernel/verify/trace.cpp] and [trace.h], which verification
    builds link in: a fixed buffer of event records per hart, a global sequence
    number and the dump.  The jitter of [JIXIA_VERIFICATION_JITTER] builds only
    spins and is left out.  The buffers are shown to be the per-hart parts of
    one append-only log of bounded length. *)
From stdpp Require Import base tactics list strings.
From Stdlib Require Import ZArith Lia Ascii.
From S2P Require Import Prelude Format Console KernelTypes KernelInv.
Local Open Scope Z_scope.

Definition JIXIA_VERIFICATION_SEED : Z := 1.
Definition JIXIA_VERIFICATION_TRACE_RECORDS : nat := 1024.

(** ** Data *)

Module Event.
Inductive t :=
  | test_point
  | ipc_create_begin | ipc_create_publish | ipc_create_reject
  | ipc_destroy_begin | ipc_destroy_dead | ipc_destroy_wake | ipc_destroy_reject
  | ipc_send_begin | ipc_send_enqueue | ipc_send_wake | ipc_send_reject
  | ipc_recv_begin | ipc_recv_dequeue | ipc_recv_wait_enqueue | ipc_recv_result_publish | ipc_recv_reject
  | runqueue_insert_begin | runqueue_insert_publish | runqueue_insert_reject
  | runqueue_remove_begin | runqueue_remove_select | runqueue_remove_empty
  | task_current_publish | task_state_publish.
#[global] Instance eq_dec : EqDecision t.
Proof. solve_decision. Defined.

(** The enumerators in order; [test_point] is 1. *)
Definition all : list t :=
  [test_point; ipc_create_begin; ipc_create_publish; ipc_create_reject; ipc_destroy_begin; ipc_destroy_dead;
   ipc_destroy_wake; ipc_destroy_reject; ipc_send_begin; ipc_send_enqueue; ipc_send_wake; ipc_send_reject;
   ipc_recv_begin; ipc_recv_dequeue; ipc_recv_wait_enqueue; ipc_recv_result_publish; ipc_recv_reject;
   runqueue_insert_begin; runqueue_insert_publish; runqueue_insert_reject; runqueue_remove_begin;
   runqueue_remove_select; runqueue_remove_empty; task_current_publish; task_state_publish].
Definition code (e : t) : Z :=
  match list_find (fun x => x = e) all with Some (n, _) => Z.of_nat n + 1 | None => 0 end.
(** [static_cast<Event>]. *)
Definition of_code (z : Z) : option t := if z <=? 0 then None else all !! Z.to_nat (z - 1).
End Event.

Module LockSet.
Definition lock_none : Z := 0.
Definition lock_endpoint_table : Z := Z.shiftl 1 0.
Definition lock_endpoint : Z := Z.shiftl 1 1.
Definition lock_task_manager : Z := Z.shiftl 1 2.
Definition lock_runqueue : Z := Z.shiftl 1 3.
Definition lock_delay_queue : Z := Z.shiftl 1 4.
End LockSet.

Module TestPoint.
Inductive t :=
  | ipc_create_table_locked | ipc_destroy_locked | ipc_send_before_lock | ipc_send_locked
  | ipc_recv_before_lock | ipc_recv_locked | runqueue_insert_locked | runqueue_remove_locked
  | wait_enqueued | before_current_relinquish | wake_popped | before_ready_publish.
Definition code (p : t) : Z :=
  match p with
  | ipc_create_table_locked => 1 | ipc_destroy_locked => 2 | ipc_send_before_lock => 3 | ipc_send_locked => 4
  | ipc_recv_before_lock => 5 | ipc_recv_locked => 6 | runqueue_insert_locked => 7 | runqueue_remove_locked => 8
  | wait_enqueued => 9 | before_current_relinquish => 10 | wake_popped => 11 | before_ready_publish => 12
  end.
End TestPoint.

Record TraceRecord := mkRecord {
  tr_sequence : Z; tr_timestamp : Z; tr_operation : Z; tr_object : Z; tr_subject : Z; tr_arg0 : Z; tr_arg1 : Z;
  tr_hart : Z; tr_event : Z; tr_lockset : Z;
}.
#[export] Instance TraceRecord_eta : Eta TraceRecord := fun r =>
  mkRecord (tr_sequence r) (tr_timestamp r) (tr_operation r) (tr_object r) (tr_subject r) (tr_arg0 r) (tr_arg1 r)
    (tr_hart r) (tr_event r) (tr_lockset r).
Definition zero_record : TraceRecord := mkRecord 0 0 0 0 0 0 0 0 0 0.

Record TraceBuffer := mkBuffer { tb_head : Z; tb_dropped : Z; tb_records : list TraceRecord }.
#[export] Instance TraceBuffer_eta : Eta TraceBuffer := fun b => mkBuffer (tb_head b) (tb_dropped b) (tb_records b).
Definition empty_buffer : TraceBuffer := mkBuffer 0 0 (replicate JIXIA_VERIFICATION_TRACE_RECORDS zero_record).

Record TraceState := mkTrace {
  g_global_sequence : Z; g_trace_buffers : list TraceBuffer; tr_console : Console; tr_reads : nat;
}.
#[export] Instance TraceState_eta : Eta TraceState := fun s =>
  mkTrace (g_global_sequence s) (g_trace_buffers s) (tr_console s) (tr_reads s).
(** The calling hart's [local.index], and the clock. *)
Record TraceEnv := mkTraceEnv { te_index : Z; te_clock : nat -> Z }.

Definition T (A : Type) : Type := M TraceEnv TraceState A.

(** ** Operations *)

Definition event_name (event : option Event.t) : list ascii :=
  match event with
  | Some Event.test_point => text "test_point"
  | Some Event.ipc_create_begin => text "ipc_create_begin"
  | Some Event.ipc_create_publish => text "ipc_create_publish"
  | Some Event.ipc_create_reject => text "ipc_create_reject"
  | Some Event.ipc_destroy_begin => text "ipc_destroy_begin"
  | Some Event.ipc_destroy_dead => text "ipc_destroy_dead"
  | Some Event.ipc_destroy_wake => text "ipc_destroy_wake"
  | Some Event.ipc_destroy_reject => text "ipc_destroy_reject"
  | Some Event.ipc_send_begin => text "ipc_send_begin"
  | Some Event.ipc_send_enqueue => text "ipc_send_enqueue"
  | Some Event.ipc_send_wake => text "ipc_send_wake"
  | Some Event.ipc_send_reject => text "ipc_send_reject"
  | Some Event.ipc_recv_begin => text "ipc_recv_begin"
  | Some Event.ipc_recv_dequeue => text "ipc_recv_dequeue"
  | Some Event.ipc_recv_wait_enqueue => text "ipc_recv_wait_enqueue"
  | Some Event.ipc_recv_result_publish => text "ipc_recv_result_publish"
  | Some Event.ipc_recv_reject => text "ipc_recv_reject"
  | Some Event.runqueue_insert_begin => text "runqueue_insert_begin"
  | Some Event.runqueue_insert_publish => text "runqueue_insert_publish"
  | Some Event.runqueue_insert_reject => text "runqueue_insert_reject"
  | Some Event.runqueue_remove_begin => text "runqueue_remove_begin"
  | Some Event.runqueue_remove_select => text "runqueue_remove_select"
  | Some Event.runqueue_remove_empty => text "runqueue_remove_empty"
  | Some Event.task_current_publish => text "task_current_publish"
  | Some Event.task_state_publish => text "task_state_publish"
  | None => text "unknown"
  end.

Definition mod_buffer (h : nat) (f : TraceBuffer -> TraceBuffer) : T unit :=
  modify (fun s => s <| g_trace_buffers := alter f h (g_trace_buffers s) |>).

Definition trace_time : T Z :=
  e ← ask; n ← gets tr_reads; modify (fun s => s <| tr_reads := S (tr_reads s) |>);; mret (u64 (te_clock e n)).

Definition record (event : Event.t) (operation object subject arg0 arg1 lockset : Z) : T Z :=
  e ← ask;
  if Z.of_nat kMaxHarts <=? te_index e then mret 0
  else
    let h := Z.to_nat (te_index e) in
    buffers ← gets g_trace_buffers;
    buffer ← deref (buffers !! h);
    let index := tb_head buffer in
    if Z.of_nat JIXIA_VERIFICATION_TRACE_RECORDS <=? index then
      mod_buffer h (fun b => b <| tb_dropped := u64 (tb_dropped b + 1) |>);; mret 0
    else
      g ← gets g_global_sequence;
      modify (fun s => s <| g_global_sequence := u64 (g_global_sequence s + 1) |>);;
      let sequence := u64 (g + 1) in
      timestamp ← trace_time;
      mod_buffer h (fun b => b <| tb_records := <[Z.to_nat index :=
        mkRecord sequence timestamp (if operation =? 0 then sequence else operation) object subject arg0 arg1
          (te_index e) (Event.code event) lockset]> (tb_records b) |>);;
      mod_buffer h (fun b => b <| tb_head := u64 (index + 1) |>);;
      mret sequence.

Definition initialize : T unit :=
  modify (fun s => s <| g_global_sequence := 0 |>
    <| g_trace_buffers := (fun _ => empty_buffer) <$> g_trace_buffers s |>).

Definition begin (event : Event.t) (object subject arg0 arg1 lockset : Z) : T Z :=
  record event 0 object subject arg0 arg1 lockset.

Definition point (event : Event.t) (operation object subject arg0 arg1 lockset : Z) : T unit :=
  _ ← record event operation object subject arg0 arg1 lockset; mret tt.

Definition test_point (selected : TestPoint.t) (operation object lockset : Z) : T unit :=
  _ ← record Event.test_point operation object 0 (TestPoint.code selected) JIXIA_VERIFICATION_SEED lockset; mret tt.

Definition tprintk (format : list ascii) (args : list arg) : T unit := fun _ s =>
  match printk format args (tr_console s) with
  | Done _ c => Done tt (s <| tr_console := c |>)
  | Parked => Parked
  | Undefined => Undefined
  | Diverged => Diverged
  end.

Definition record_format : list ascii :=
  text "JIXIA_VERIFY_TRACE: seq=%lu time=%lu hart=%lu op=%lu event=%s lockset=%lu object=%lu subject=%lu arg0=%lu arg1=%lu"
  ++ [newline].

Definition dump_record (entry : TraceRecord) : T unit :=
  tprintk record_format
    [AWord (tr_sequence entry); AWord (tr_timestamp entry); AWord (tr_hart entry); AWord (tr_operation entry);
     AText (Some (event_name (Event.of_code (tr_event entry)))); AWord (tr_lockset entry); AWord (tr_object entry);
     AWord (tr_subject entry); AWord (tr_arg0 entry); AWord (tr_arg1 entry)].

(** The inner loop, from [index]. *)
Fixpoint dump_records (h index count : nat) : T unit :=
  match count with
  | O => mret tt
  | S n =>
      buffers ← gets g_trace_buffers;
      buffer ← deref (buffers !! h);
      entry ← deref (tb_records buffer !! index);
      dump_record entry;;
      dump_records h (S index) n
  end.

(** The outer loop, from hart [h]. *)
Fixpoint dump_harts (h count : nat) : T unit :=
  match count with
  | O => mret tt
  | S n =>
      buffers ← gets g_trace_buffers;
      buffer ← deref (buffers !! h);
      dump_records h 0 (Z.to_nat (tb_head buffer));;
      tprintk (text "JIXIA_VERIFY_TRACE_HART: hart=%lu records=%lu dropped=%lu" ++ [newline])
        [AWord (Z.of_nat h); AWord (tb_head buffer); AWord (tb_dropped buffer)];;
      dump_harts (S h) n
  end.

Definition dump : T unit :=
  tprintk (text "JIXIA_VERIFY_TRACE_BEGIN: seed=%lu records_per_hart=%lu" ++ [newline])
    [AWord JIXIA_VERIFICATION_SEED; AWord (Z.of_nat JIXIA_VERIFICATION_TRACE_RECORDS)];;
  dump_harts 0 kMaxHarts;;
  g ← gets g_global_sequence;
  tprintk (text "JIXIA_VERIFY_TRACE_END: sequence=%lu" ++ [newline]) [AWord g].

(** ** Specification: one log, cut by hart *)

(** The records of hart [h], oldest first. *)
Definition of_hart (h : nat) (G : list TraceRecord) : list TraceRecord := filter (fun r => tr_hart r = Z.of_nat h) G.

(** The buffers hold the log [G]; hart [h] dropped [D h] events. *)
Record trace_rep (s : TraceState) (G : list TraceRecord) (D : nat -> Z) : Prop := {
  rep_len : length (g_trace_buffers s) = kMaxHarts;
  rep_sequence : g_global_sequence s = Z.of_nat (length G);
  rep_numbered : forall n r, G !! n = Some r -> tr_sequence r = Z.of_nat n + 1;
  rep_harts : Forall (fun r => exists h, (h < kMaxHarts)%nat /\ tr_hart r = Z.of_nat h) G;
  rep_buffer : forall h b, g_trace_buffers s !! h = Some b ->
    tb_head b = Z.of_nat (length (of_hart h G)) /\ (length (of_hart h G) <= JIXIA_VERIFICATION_TRACE_RECORDS)%nat /\
    length (tb_records b) = JIXIA_VERIFICATION_TRACE_RECORDS /\
    take (length (of_hart h G)) (tb_records b) = of_hart h G /\ tb_dropped b = D h;
}.

Lemma of_hart_app h G r : of_hart h (G ++ [r]) = of_hart h G ++ (if decide (tr_hart r = Z.of_nat h) then [r] else []).
Proof. unfold of_hart. by rewrite filter_app. Qed.

Lemma log_length G :
  Forall (fun r => exists h, (h < kMaxHarts)%nat /\ tr_hart r = Z.of_nat h) G ->
  length G = sum_list ((fun h => length (of_hart h G)) <$> seq 0 kMaxHarts).
Proof.
  induction G as [|r G IH] using rev_ind; intros HG; [done|].
  apply Forall_app in HG as [HG (h&Hh&Er)%Forall_singleton]. specialize (IH HG). rewrite length_app, IH. clear IH. simpl.
  rewrite !of_hart_app, !length_app, Er.
  destruct h as [|[|[|[|h]]]]; try (unfold kMaxHarts in Hh; lia); simpl; lia.
Qed.

Lemma log_bounded s G D : trace_rep s G D -> (length G <= kMaxHarts * JIXIA_VERIFICATION_TRACE_RECORDS)%nat.
Proof.
  intros [Hlen _ _ Hh Hb]. rewrite (log_length G Hh).
  assert (forall h, (h < kMaxHarts)%nat -> (length (of_hart h G) <= JIXIA_VERIFICATION_TRACE_RECORDS)%nat) as Hle.
  { intros h Hlt. rewrite <- Hlen in Hlt. apply lookup_lt_is_Some_2 in Hlt as [b Hb']. by destruct (Hb h b Hb') as (_&?&_). }
  pose proof (Hle 0%nat ltac:(unfold kMaxHarts; lia)). pose proof (Hle 1%nat ltac:(unfold kMaxHarts; lia)).
  pose proof (Hle 2%nat ltac:(unfold kMaxHarts; lia)). pose proof (Hle 3%nat ltac:(unfold kMaxHarts; lia)).
  clear Hle Hb. generalize dependent JIXIA_VERIFICATION_TRACE_RECORDS. intros N. unfold kMaxHarts. simpl. lia.
Qed.

(** The record a call leaves, but for its time. *)
Definition new_record (e : TraceEnv) (event : Event.t) (operation object subject arg0 arg1 lockset : Z) (G : list TraceRecord)
    (timestamp : Z) : TraceRecord :=
  let sequence := Z.of_nat (length G) + 1 in
  mkRecord sequence timestamp (if operation =? 0 then sequence else operation) object subject arg0 arg1 (te_index e)
    (Event.code event) lockset.

(** What a call does to the log. *)
Definition recorded (e : TraceEnv) (event : Event.t) (operation object subject arg0 arg1 lockset : Z)
    (G : list TraceRecord) (D : nat -> Z) (s : TraceState) (r : Z) (s' : TraceState) : Prop :=
  let h := Z.to_nat (te_index e) in
  if Z.of_nat kMaxHarts <=? te_index e then r = 0 /\ s' = s
  else if (length (of_hart h G) <? JIXIA_VERIFICATION_TRACE_RECORDS)%nat then
    r = Z.of_nat (length G) + 1 /\
    trace_rep s' (G ++ [new_record e event operation object subject arg0 arg1 lockset G (u64 (te_clock e (tr_reads s)))]) D
  else r = 0 /\ trace_rep s' G (fun x => if decide (x = h) then u64 (D h + 1) else D x).

Lemma take_insert_next (l : list TraceRecord) n x : (n < length l)%nat -> take (S n) (<[n := x]> l) = take n l ++ [x].
Proof.
  intros Hn. rewrite (take_S_r _ _ x) by (by apply list_lookup_insert_eq). by rewrite take_insert_ge by lia.
Qed.

Lemma record_spec e event operation object subject arg0 arg1 lockset G D s :
  trace_rep s G D -> 0 <= te_index e ->
  wp False (record event operation object subject arg0 arg1 lockset)
    (recorded e event operation object subject arg0 arg1 lockset G D s) e s.
Proof.
  intros Hrep He. pose proof (log_bounded s G D Hrep) as Hbd%inj_le. change (Z.of_nat (kMaxHarts * JIXIA_VERIFICATION_TRACE_RECORDS)) with 4096 in Hbd.
  destruct Hrep as [Hlen Hseq Hnum Hh Hbuf].
  unfold record, recorded. apply wp_bind, wp_ask. cbv zeta.
  destruct (Z.leb_spec (Z.of_nat kMaxHarts) (te_index e)) as [Hge|Hlt]; [by apply wp_ret|].
  set (h := Z.to_nat (te_index e)). assert (te_index e = Z.of_nat h) as Eh by lia.
  destruct (lookup_lt_is_Some_2 (g_trace_buffers s) h ltac:(lia)) as [b Hb]. pose proof (Hbuf h b Hb) as (E1&E2&E3&E4&E5).
  apply wp_bind, wp_gets, wp_bind. eapply wp_deref; [exact Hb|]. rewrite E1. unfold JIXIA_VERIFICATION_TRACE_RECORDS in *.
  assert (forall f b', (alter f h (g_trace_buffers s) !! h = Some b' -> b' = f b) /\
    forall x, x <> h -> alter f h (g_trace_buffers s) !! x = g_trace_buffers s !! x) as Halt.
  { intros f b'. split; [rewrite list_lookup_alter_eq, Hb; by intros [= <-]|]. intros x Hx. by rewrite list_lookup_alter_ne. }
  destruct (Nat.ltb_spec (length (of_hart h G)) 1024) as [Hroom|Hfull].
  - rewrite (proj2 (Z.leb_gt _ _)) by lia. apply wp_bind, wp_gets, wp_bind, wp_modify. cbv zeta.
    unfold trace_time. apply wp_bind, wp_bind, wp_ask, wp_bind, wp_gets, wp_bind, wp_modify, wp_ret.
    unfold mod_buffer. apply wp_bind, wp_modify, wp_bind, wp_modify, wp_ret. rproj.
    rewrite Hseq, Eh. rewrite !u64_small by (unfold is_u64; lia). split; [done|].
    set (r := new_record _ _ _ _ _ _ _ _ _ _).
    assert (tr_hart r = Z.of_nat h) as Er by (unfold r, new_record; rproj; done).
    split; rproj.
    + by rewrite !length_alter.
    + rewrite length_app. simpl. lia.
    + intros n r' Hr'. apply lookup_app_Some in Hr' as [Hr'|[Hge Hr']]; [by apply Hnum|].
      apply list_lookup_singleton_Some in Hr' as [Hn <-]. unfold r, new_record. cbv zeta. cbn [tr_sequence]. lia.
    + apply Forall_app. split; [done|]. apply Forall_singleton. exists h. split; [lia|done].
    + intros x b'. rewrite of_hart_app, Er. destruct (decide (x = h)) as [->|Hne].
      * rewrite decide_True by done. rewrite !list_lookup_alter_eq, Hb. intros [= <-]. cbn [tb_head tb_dropped tb_records]. rewrite !length_app, length_insert.
        cbn [length]. rewrite Nat2Z.id. split_and!; try done; [lia|unfold JIXIA_VERIFICATION_TRACE_RECORDS; lia|].
        rewrite Nat.add_1_r, take_insert_next by lia. rewrite E4. f_equal. unfold r, new_record. rewrite Eh. done.
      * rewrite decide_False by lia. rewrite app_nil_r, !list_lookup_alter_ne by done. apply Hbuf.
  - rewrite (proj2 (Z.leb_le _ _)) by lia. unfold mod_buffer. apply wp_bind, wp_modify, wp_ret. split; [done|].
    split; rproj; try done.
    + by rewrite length_alter.
    + intros x b'. destruct (decide (x = h)) as [->|Hne].
      * rewrite list_lookup_alter_eq, Hb. intros [= <-]. rproj. by rewrite E5.
      * rewrite list_lookup_alter_ne by done. apply Hbuf.
Qed.

(** ** A run of the trace *)

(** One call of [begin], [point] or [test_point]: the hart and the arguments of
    [record]. *)
Record call := mkCall {
  c_env : TraceEnv; c_event : Event.t; c_operation : Z; c_object : Z; c_subject : Z; c_arg0 : Z; c_arg1 : Z; c_lockset : Z;
}.
Definition do_call (c : call) : T Z := fun _ s =>
  record (c_event c) (c_operation c) (c_object c) (c_subject c) (c_arg0 c) (c_arg1 c) (c_lockset c) (c_env c) s.
Fixpoint do_calls (cs : list call) : T unit :=
  match cs with [] => mret tt | c :: cs' => _ ← do_call c; do_calls cs' end.

(** The calls of hart [h], and the part of a record that is the caller's. *)
Definition calls_of (h : nat) (cs : list call) : list call := filter (fun c => te_index (c_env c) = Z.of_nat h) cs.
Definition call_fields (c : call) : Z * Z * Z * Z * Z * Z :=
  (Event.code (c_event c), c_object c, c_subject c, c_arg0 c, c_arg1 c, c_lockset c).
Definition record_fields (r : TraceRecord) : Z * Z * Z * Z * Z * Z :=
  (tr_event r, tr_object r, tr_subject r, tr_arg0 r, tr_arg1 r, tr_lockset r).

(** Each hart's records are its first calls, and the rest is counted. *)
Definition faithful (cs : list call) (G : list TraceRecord) (D : nat -> Z) : Prop :=
  forall h, (h < kMaxHarts)%nat ->
    record_fields <$> of_hart h G = take JIXIA_VERIFICATION_TRACE_RECORDS (call_fields <$> calls_of h cs) /\
    D h = u64 (Z.of_nat (length (calls_of h cs) - JIXIA_VERIFICATION_TRACE_RECORDS)).

Lemma faithful_length cs G D h : faithful cs G D -> (h < kMaxHarts)%nat ->
  length (of_hart h G) = Nat.min JIXIA_VERIFICATION_TRACE_RECORDS (length (calls_of h cs)).
Proof. intros Hf Hh. destruct (Hf h Hh) as [E _]. apply (f_equal length) in E. by rewrite length_take, !length_fmap in E. Qed.

Lemma calls_of_snoc h cs c : calls_of h (cs ++ [c]) = calls_of h cs ++ (if decide (te_index (c_env c) = Z.of_nat h) then [c] else []).
Proof. unfold calls_of. by rewrite filter_app. Qed.

Lemma do_calls_spec cs e s0 G0 D0 cs0 :
  trace_rep s0 G0 D0 -> faithful cs0 G0 D0 -> Forall (fun c => 0 <= te_index (c_env c)) cs ->
  wp False (do_calls cs) (fun _ s => exists G D, trace_rep s G D /\ faithful (cs0 ++ cs) G D) e s0.
Proof.
  revert s0 G0 D0 cs0. induction cs as [|c cs IH]; intros s0 G0 D0 cs0 Hrep Hf Hc.
  { apply wp_ret. exists G0, D0. by rewrite app_nil_r. }
  apply Forall_cons in Hc as [Hc Hcs]. cbn [do_calls]. apply wp_bind. unfold do_call, wp at 1.
  pose proof (record_spec (c_env c) (c_event c) (c_operation c) (c_object c) (c_subject c) (c_arg0 c) (c_arg1 c) (c_lockset c)
    G0 D0 s0 Hrep Hc) as Hw. unfold wp in Hw. destruct (record _ _ _ _ _ _ _ (c_env c) s0) as [r s1| | |]; try done.
  replace (cs0 ++ c :: cs) with ((cs0 ++ [c]) ++ cs) by (by rewrite <- app_assoc).
  unfold recorded in Hw. cbv zeta in Hw. set (h := Z.to_nat (te_index (c_env c))) in *.
  destruct (Z.leb_spec (Z.of_nat kMaxHarts) (te_index (c_env c))) as [Hge|Hlt].
  { destruct Hw as [_ ->]. apply (IH s0 G0 D0); try done. intros x Hx. rewrite calls_of_snoc, decide_False, app_nil_r by lia. by apply Hf. }
  assert (te_index (c_env c) = Z.of_nat h) as Eh by lia. assert (h < kMaxHarts)%nat as Hh by lia.
  pose proof (faithful_length _ _ _ h Hf Hh) as Hl. set (N := JIXIA_VERIFICATION_TRACE_RECORDS) in *.
  destruct (Nat.ltb_spec (length (of_hart h G0)) N) as [Hroom|Hfull].
  - destruct Hw as [_ Hrep1]. eapply (IH s1 _ D0); [exact Hrep1| |done]. intros x Hx. destruct (Hf x Hx) as [F1 F2].
    rewrite of_hart_app, calls_of_snoc. unfold new_record. cbv zeta. cbn [tr_hart]. rewrite !Eh.
    destruct (decide (Z.of_nat h = Z.of_nat x)) as [E|E]; [|by rewrite !app_nil_r]. assert (x = h) as -> by lia.
    rewrite !fmap_app, F1, length_app. cbn [length]. split.
    + rewrite !take_ge by (rewrite ?length_app, ?length_fmap; cbn [length fmap list_fmap]; lia). done.
    + rewrite F2. f_equal. f_equal. lia.
  - destruct Hw as [_ Hrep1]. eapply (IH s1 G0 _); [exact Hrep1| |done]. intros x Hx. destruct (Hf x Hx) as [F1 F2].
    rewrite calls_of_snoc, Eh. destruct (decide (Z.of_nat h = Z.of_nat x)) as [E|E].
    + assert (x = h) as -> by lia. rewrite decide_True by done. rewrite fmap_app, take_app_le by (rewrite length_fmap; lia).
      split; [done|]. destruct (Hf h Hh) as [_ ->]. rewrite length_app. cbn [length]. unfold u64. rewrite Zplus_mod_idemp_l. f_equal. lia.
    + rewrite app_nil_r, decide_False by lia. done.
Qed.

Definition fresh_trace (c : Console) : TraceState := mkTrace 0 (replicate kMaxHarts empty_buffer) c 0.

Lemma fresh_rep s : length (g_trace_buffers s) = kMaxHarts ->
  trace_rep (s <| g_global_sequence := 0 |> <| g_trace_buffers := (fun _ => empty_buffer) <$> g_trace_buffers s |>) [] (fun _ => 0).
Proof.
  intros Hlen. split; rproj; try done.
  - by rewrite length_fmap.
  - intros h b Hb. rewrite list_lookup_fmap in Hb. apply fmap_Some in Hb as (b0&_&->). split_and!; try done. simpl. lia.
Qed.

(** ** The dump *)

(** Printing leaves the trace alone. *)
Definition same_trace (s s' : TraceState) : Prop :=
  g_global_sequence s' = g_global_sequence s /\ g_trace_buffers s' = g_trace_buffers s.

Lemma tprintk_spec format args (Q : unit -> TraceState -> Prop) e s :
  fits (wanted (S (length format)) format) args = true -> (forall s', same_trace s s' -> Q tt s') ->
  wp False (tprintk format args) Q e s.
Proof.
  intros Hf HQ. destruct (printk_returns format args (tr_console s) Hf) as (n&c&Hp). unfold wp, tprintk. rewrite Hp. by apply HQ.
Qed.

Lemma dump_record_spec entry (Q : unit -> TraceState -> Prop) e s :
  (forall s', same_trace s s' -> Q tt s') -> wp False (dump_record entry) Q e s.
Proof. intros HQ. apply tprintk_spec; [by vm_compute|done]. Qed.

Lemma dump_records_spec h b index n (Q : unit -> TraceState -> Prop) e s :
  g_trace_buffers s !! h = Some b -> (index + n <= length (tb_records b))%nat ->
  (forall s', same_trace s s' -> Q tt s') -> wp False (dump_records h index n) Q e s.
Proof.
  revert index s. induction n as [|n IH]; intros index s Hb Hn HQ; [by apply wp_ret, HQ|]. cbn [dump_records].
  apply wp_bind, wp_gets, wp_bind. eapply wp_deref; [exact Hb|]. apply wp_bind.
  destruct (lookup_lt_is_Some_2 (tb_records b) index ltac:(lia)) as [r Hr]. eapply wp_deref; [exact Hr|].
  apply wp_bind, dump_record_spec. intros s1 [E1 E2]. apply (IH (S index) s1); [by rewrite E2|lia|].
  intros s2 [E3 E4]. apply HQ. split; congruence.
Qed.

Lemma dump_harts_spec G D h n (Q : unit -> TraceState -> Prop) e s :
  trace_rep s G D -> (h + n <= kMaxHarts)%nat -> (forall s', same_trace s s' -> Q tt s') -> wp False (dump_harts h n) Q e s.
Proof.
  revert h s. induction n as [|n IH]; intros h s Hrep Hn HQ; [by apply wp_ret, HQ|]. cbn [dump_harts].
  destruct (lookup_lt_is_Some_2 (g_trace_buffers s) h) as [b Hb]; [rewrite (rep_len _ _ _ Hrep); lia|].
  destruct (rep_buffer _ _ _ Hrep h b Hb) as (E1&E2&E3&_).
  apply wp_bind, wp_gets, wp_bind. eapply wp_deref; [exact Hb|]. apply wp_bind, (dump_records_spec h b); [done|lia|].
  intros s1 [A1 A2]. apply wp_bind, tprintk_spec; [by vm_compute|]. intros s2 [B1 B2]. apply IH; [|lia|].
  - destruct Hrep. split; rewrite ?B1, ?A1, ?B2, ?A2; done.
  - intros s3 [C1 C2]. apply HQ. split; congruence.
Qed.

Lemma dump_spec G D (Q : unit -> TraceState -> Prop) e s :
  trace_rep s G D -> (forall s', same_trace s s' -> Q tt s') -> wp False dump Q e s.
Proof.
  intros Hrep HQ. unfold dump. apply wp_bind, tprintk_spec; [by vm_compute|]. intros s1 [A1 A2].
  apply wp_bind, (dump_harts_spec G D); [destruct Hrep; split; by rewrite ?A1, ?A2|lia|]. intros s2 [B1 B2].
  apply wp_bind, wp_gets, tprintk_spec; [by vm_compute|]. intros s3 [C1 C2]. apply HQ. split; congruence.
Qed.

(** ** Properties *)

(** C37: The trace is one bounded log.  After [initialize] and any sequence of
    trace calls from any harts, the buffers are the per-hart parts of a single
    log whose records are numbered 1, 2, 3, ...; each hart's buffer holds its
    first 1024 calls, in order and with the caller's fields, and the calls
    beyond them are counted as dropped.  The dump then returns and changes
    nothing of it. *)
Theorem trace_is_bounded_log cs e s :
  length (g_trace_buffers s) = kMaxHarts -> Forall (fun c => 0 <= te_index (c_env c)) cs ->
  exists s1 s2 G D, (initialize;; do_calls cs) e s = Done tt s1 /\ trace_rep s1 G D /\ faithful cs G D /\
    dump e s1 = Done tt s2 /\ trace_rep s2 G D.
Proof.
  intros Hlen Hcs.
  destruct (wp_done (initialize;; do_calls cs) (fun _ s1 => exists G D, trace_rep s1 G D /\ faithful cs G D) e s)
    as ([]&s1&Hr&G&D&Hrep&Hf).
  { apply wp_bind, wp_modify. apply (do_calls_spec cs e _ [] (fun _ => 0) []); [by apply fresh_rep|by intros h|done]. }
  destruct (wp_done dump (fun _ s2 => same_trace s1 s2) e s1) as ([]&s2&Hd&[E1 E2]); [by apply (dump_spec G D)|].
  exists s1, s2, G, D. split_and!; try done. destruct Hrep. split; by rewrite ?E1, ?E2.
Qed.

Definition demo_calls : list call :=
  [mkCall (mkTraceEnv 0 (fun _ => 5)) Event.ipc_send_begin 0 7 2 1 0 0;
   mkCall (mkTraceEnv 3 (fun _ => 6)) Event.ipc_recv_begin 0 7 3 0 0 0;
   mkCall (mkTraceEnv 0 (fun _ => 8)) Event.ipc_send_wake 1 7 3 1 0 LockSet.lock_endpoint].

Lemma trace_is_bounded_log_witness :
  exists s1 G D, (initialize;; do_calls demo_calls) (mkTraceEnv 0 (fun _ => 0)) (fresh_trace Console_new) = Done tt s1 /\
    trace_rep s1 G D /\ faithful demo_calls G D.
Proof.
  destruct (trace_is_bounded_log demo_calls (mkTraceEnv 0 (fun _ => 0)) (fresh_trace Console_new)) as (s1&s2&G&D&H1&H2&H3&_).
  - reflexivity.
  - repeat constructor; simpl; lia.
  - exists s1, G, D. split; [exact H1|]. split; [exact H2|exact H3].
Defined.
