(* ===== verification/Demo.v ===== *)
(** * A concrete kernel state

    [Inv_quiescent] establishes the kernel invariant for a state in which
    nothing is queued.  [demo] is such a state: two harts of the four are
    bound to the scheduler and run one user task each.  The files that follow
    instantiate their theorems at it and at states reached from it. *)
From Stdlib Require Import ZArith Lia Sorted.
From stdpp Require Import base tactics sets functions gmap list.
From S2P Require Import Prelude DList Lifecycle PageManager Sv39 Vmm KernelTypes KernelInv.
Local Open Scope Z_scope.

Definition quiet : queues := fun _ => [].

Definition unlinked (t : Task) : bool :=
  negb (t_queued t) && negb (d_queued (t_delay t)) && negb (w_queued (t_message_wait t))
  && bool_decide (length (ctx_x (t_context t)) = 32%nat).

Lemma unlinked_spec t : unlinked t = true -> (forall k, flag_of k t = false) /\ length (ctx_x (t_context t)) = 32%nat.
Proof.
  unfold unlinked. rewrite !andb_true_iff, !negb_true_iff, bool_decide_eq_true.
  intros (((?&?)&?)&?). split; [by intros []|done].
Qed.

Lemma Inv_quiescent s :
  (forall q, valid_q q -> header q s None None 0) -> length (tasks s) = kMaxTasks ->
  Forall (fun t => unlinked t = true) (tasks s) ->
  (forall h hl, harts s !! h = Some hl -> h_scheduler hl = true ->
    scheduler_extra hl = Some h /\ delay_list hl = Some h /\ (h < kMaxHarts)%nat /\
    exists it, idle_task hl = Some it /\ idle_ok s it) ->
  (forall h h' hl hl' it, harts s !! h = Some hl -> harts s !! h' = Some hl' ->
    idle_task hl = Some it -> idle_task hl' = Some it -> h = h') ->
  (forall e p, endpoints s !! e = Some p -> exists a, slot_allocated s !! e = Some a /\ ep_ok a p []) ->
  ordered (lock_log s) -> Inv s quiet.
Proof.
  intros Hh Hlen Hun Hb Hinj Hep Hlog. rewrite Forall_lookup in Hun.
  assert (forall (q : Qid) (i : nat), i ∉ quiet q) as Hno by (intros q i Hi; by apply elem_of_nil in Hi).
  split; try done.
  - split; try done.
    + intros q Hv. exists None, None. split; [by apply Hh|by split].
    + intros q i Hi. by apply Hno in Hi.
    + intros q. apply NoDup_nil_2.
    + intros q q' i Hi. by apply Hno in Hi.
    + intros k i t Ht. destruct (unlinked_spec t (Hun i t Ht)) as [-> _]. split; [done|].
      intros (q&_&Hi). by apply Hno in Hi.
  - intros q i t Hi. by apply Hno in Hi.
  - intros h. apply SSorted_nil.
  - intros i t Ht. by destruct (unlinked_spec t (Hun i t Ht)).
Qed.

(** ** The state *)

Definition demo_syms : Symbols :=
  mkSymbols 0x80010000 0x80012000 0x80100000 0x80110000 0x80020000 0x80040000 0x80050000
    0x80010000 0x80010100 0x80011000.
(** Each read of [mtime] is 1000 ticks after the last one. *)
Definition demo_env (h : nat) : Env := mkEnv h (fun n => 1000 * Z.of_nat n) demo_syms.

Definition demo_task (tid : Z) (cpu : nat) (idle : bool) : Task :=
  zero_task <| t_cpu := Some cpu |> <| t_tid := tid |> <| t_idle := idle |>
    <| t_state := if idle then TaskState.ready else TaskState.running |>.

Definition demo_hart (h : nat) : HartLocal :=
  zero_hart <| hart_id := Z.of_nat h |> <| h_index := Z.of_nat h |> <| h_scheduler := true |>
    <| scheduler_extra := Some h |> <| delay_list := Some h |> <| idle_task := Some h |>
    <| current_task := Some (h + 2)%nat |> <| timeslice_ticks := 100000 |>.

Definition demo_fresh : Task :=
  zero_task <| t_cpu := Some 0%nat |> <| t_tid := 5 |> <| t_state := TaskState.ready |>.

(** Slots 0 and 1 hold the idle tasks of harts 0 and 1, slots 2 and 3 the
    tasks they run, slot 4 a task that was just created. *)
Definition demo : KState :=
  (power_on (initialize_contained (2 ^ 31) initial_state) (fun _ => 0))
    <| tasks := [demo_task 1 0 true; demo_task 2 1 true; demo_task 3 0 false; demo_task 4 1 false; demo_fresh]
                ++ replicate 11 zero_task |>
    <| task_slots_used := replicate 5 true ++ replicate 11 false |>
    <| harts := [demo_hart 0; demo_hart 1; zero_hart; zero_hart] |>
    <| tm_initialized := true |> <| time_initialized := true |> <| next_tid := 6 |>.

Lemma zero_endpoint_ok : ep_ok false zero_endpoint [].
Proof.
  split; try done; try (simpl; lia).
  by apply Forall_replicate.
Qed.

Lemma demo_inv : Inv demo quiet.
Proof.
  apply Inv_quiescent.
  - intros [[|h]|h|w] Hv; simpl in Hv; [done| | |].
    + do 4 (destruct h as [|h]; [done|]). unfold kMaxHarts in Hv. lia.
    + do 4 (destruct h as [|h]; [done|]). unfold kMaxHarts in Hv. lia.
    + exists zero_endpoint. split; [|done]. unfold kMaxEndpoints in Hv.
      apply (lookup_replicate_2 16 zero_endpoint). lia.
  - done.
  - repeat constructor.
  - intros h hl Hh Hs. do 2 (destruct h as [|h]; [injection Hh as <-; split_and!; try done;
      [unfold kMaxHarts; lia|]; eexists; split; [done|]; split; [|done]; eexists; split; [done|done]|]).
    do 2 (destruct h as [|h]; [by injection Hh as <-|]). done.
  - intros h h' hl hl' it H1 H2 E1 E2.
    do 2 (destruct h as [|h]; [injection H1 as <-; injection E1 as <-;
      do 4 (destruct h' as [|h']; [injection H2 as <-; done|]); done|]).
    do 2 (destruct h as [|h]; [by injection H1 as <-|]). done.
  - intros w p Hp. exists false. change (endpoints demo) with (replicate 16 zero_endpoint) in Hp.
    apply lookup_replicate in Hp as [-> Hlt]. split; [|apply zero_endpoint_ok].
    by apply (lookup_replicate_2 16 false).
  - constructor.
Qed.

Lemma demo_running : Running None demo.
Proof.
  split.
  - intros h hl i _ Hh Hc. do 2 (destruct h as [|h]; [injection Hh as <-; injection Hc as <-;
      eexists; split; [done|]; split_and!; [done|done|by intros []|done|done]|]).
    do 2 (destruct h as [|h]; [by injection Hh as <-|]). done.
  - intros h h' hl hl' it _ _ H1 H2 E1 E2.
    do 2 (destruct h as [|h]; [injection H1 as <-; injection E1 as <-;
      do 4 (destruct h' as [|h']; [injection H2 as <-; done|]); done|]).
    do 2 (destruct h as [|h]; [by injection H1 as <-|]). done.
Qed.
