(* ===== verification/RunQueue.v ===== *)
(** * Run queues

    Models the class [RunQueue] of [microkernel/core/scheduler.{h,cpp}]: the
    FIFO of ready tasks threaded through [Task::previous]/[next].  The
    verification-only trace points of the source are compiled out. *)
From Stdlib Require Import ZArith Lia.
From stdpp Require Import base tactics sets functions gmap list.
From S2P Require Import Prelude DList KernelTypes KernelInv Demo.
Local Open Scope Z_scope.

Definition RunQueue_reset (q : RunQ) : K unit :=
  with_lock (LRunQueue q) (mod_run_queue q (fun _ => mkRunQueue None None 0)).

Definition RunQueue_insert (q : RunQ) (task : nat) : K bool :=
  with_lock (LRunQueue q) (
    t ← get_task task;
    if t_queued t || d_queued (t_delay t) || w_queued (t_message_wait t)
       || bool_decide (t_state t = TaskState.ended)
    then mret false
    else
      rq ← get_run_queue q;
      mod_task task (<| t_previous := rq_tail rq |>);;
      mod_task task (<| t_next := None |>);;
      match rq_tail rq with
      | Some tail => mod_task tail (<| t_next := Some task |>)
      | None => mod_run_queue q (<| rq_head := Some task |>)
      end;;
      mod_run_queue q (<| rq_tail := Some task |>);;
      mod_task task (<| t_state := TaskState.ready |>);;
      mod_task task (<| t_queued := true |>);;
      mod_run_queue q (fun r => r <| rq_size := u64 (rq_size r + 1) |>);;
      mret true).

Definition RunQueue_remove (q : RunQ) : K (option nat) :=
  with_lock (LRunQueue q) (
    rq ← get_run_queue q;
    match rq_head rq with
    | None => mret None
    | Some selected =>
        t ← get_task selected;
        mod_run_queue q (<| rq_head := t_next t |>);;
        match t_next t with
        | Some head => mod_task head (<| t_previous := None |>)
        | None => mod_run_queue q (<| rq_tail := None |>)
        end;;
        mod_task selected (<| t_previous := None |>);;
        mod_task selected (<| t_next := None |>);;
        mod_task selected (<| t_queued := false |>);;
        mod_run_queue q (fun r => r <| rq_size := u64 (rq_size r - 1) |>);;
        t' ← get_task selected;
        if bool_decide (t_state t' <> TaskState.ready) || d_queued (t_delay t')
           || w_queued (t_message_wait t')
        then park
        else mret (Some selected)
    end).

Definition RunQueue_size (q : RunQ) : K Z :=
  with_lock (LRunQueue q) (rq ← get_run_queue q; mret (rq_size rq)).

(** ** Insertion *)

(** Effect on the inserted task. *)
Definition rq_in (tail : option nat) (t : Task) : Task :=
  t <| t_previous := tail |> <| t_next := None |> <| t_state := TaskState.ready |> <| t_queued := true |>.

Lemma RunQueue_insert_run q i t rq (Q : bool -> KState -> Prop) e s :
  tasks s !! i = Some t -> (forall k, flag_of k t = false) -> t_state t <> TaskState.ended ->
  get_rq q s = Some rq -> rq_tail rq <> Some i ->
  (forall tl, rq_tail rq = Some tl -> is_Some (tasks s !! tl)) ->
  lock_fits (LRunQueue q) (held s) ->
  (forall s', run_frame s s' -> length (tasks s') = length (tasks s) ->
     (forall j, tasks s' !! j = link_at LkRun (rq_tail rq) None (rq_in (rq_tail rq)) i j <$> tasks s !! j) ->
     (forall q', get_rq q' s' = if decide (q' = q)
        then Some (mkRunQueue (match rq_tail rq with Some _ => rq_head rq | None => Some i end)
                     (Some i) (u64 (rq_size rq + 1)))
        else get_rq q' s) ->
     lock_log s' = (LRunQueue q, held s) :: lock_log s -> Q true s') ->
  wp False (RunQueue_insert q i) Q e s.
Proof.
  intros Ht Hf Hst Hrq Hni Htl Hlock HQ. unfold RunQueue_insert. apply wp_with_lock; [done|].
  ksteps. rewrite (Hf LkRun : t_queued t = false), (Hf LkDelay : d_queued (t_delay t) = false),
    (Hf LkWait : w_queued (t_message_wait t) = false), bool_decide_false by done. cbn [orb].
  ksteps.
  destruct (rq_tail rq) as [tl|] eqn:Etl; ksteps; (split; [by knorm|]); apply HQ.
  1,6: by split; knorm.
  1,5: knorm; by rewrite !length_alter.
  1,4: intros j; unfold link_at; alter_cases.
  1,3: intros q'; knorm; case_decide; subst; rewrite ?Hrq, ?option_fmap_id; simpl; by rewrite ?Etl.
  all: by knorm.
Qed.

(** Only the header of [QRun q] changed. *)
Lemma run_headers s s' q v :
  run_frame s s' -> (forall q', get_rq q' s' = if decide (q' = q) then v else get_rq q' s) ->
  headers_kept s s' (QRun q).
Proof.
  intros Hfr Hrq [r|h|w] hd tl n Hne; simpl.
  - rewrite Hrq. rewrite decide_False by congruence. done.
  - by rewrite (rf_delay _ _ Hfr).
  - by rewrite (rf_eps _ _ Hfr).
Qed.

(** Endpoint clauses survive changes to the run queues. *)
Lemma run_endpoints s s' C q l :
  Inv s C -> run_frame s s' -> forall e p, endpoints s' !! e = Some p ->
  exists a, slot_allocated s' !! e = Some a /\ ep_ok a p ((<[QRun q := l]> C) (QWait e)).
Proof.
  intros HI Hfr e p. rewrite (rf_eps _ _ Hfr), (rf_slots _ _ Hfr), fn_lookup_insert_ne by done. apply HI.
Qed.

(** Deadline order of sleepers survives changes to the links of others. *)
Lemma sorted_kept s s' C (f : nat -> Task -> Task) i h :
  Inv s C -> (forall j, tasks s' !! j = f j <$> tasks s !! j) ->
  (forall j t, j <> i -> core (f j t) = core t) -> i ∉ C (QDelay h) ->
  by_deadline (tasks s') (C (QDelay h)).
Proof.
  intros HI Hts Hf Hi. eapply by_deadline_agree; [|apply HI]. intros j Hj. apply core_deadline.
  rewrite Hts. destruct (tasks s !! j); [|done]. simpl. rewrite Hf; [done|]. by intros ->.
Qed.

(** Insertion at the back of the abstract queue, with the lock it takes. *)
Lemma RunQueue_insert_locked q i t C (Q : bool -> KState -> Prop) e s :
  Inv s C -> valid_q (QRun q) -> tasks s !! i = Some t -> (forall k, flag_of k t = false) ->
  t_state t <> TaskState.ended -> t_idle t = false -> cpu_bound s t ->
  task_slots_used s !! i = Some true -> lock_fits (LRunQueue q) (held s) ->
  (forall s' t', Inv s' (<[QRun q := C (QRun q) ++ [i]]> C) -> run_frame s s' -> only_task i s s' ->
     tasks s' !! i = Some t' ->
     core t' = core (t <| t_state := TaskState.ready |> <| t_queued := true |>) ->
     lock_log s' = (LRunQueue q, held s) :: lock_log s -> Q true s') ->
  wp False (RunQueue_insert q i) Q e s.
Proof.
  intros HI Hv Ht Hf Hst Hid Hcpu Hus Hlock HQ. pose proof (inv_q _ _ HI) as HC.
  pose proof (qstruct_free s C i t HC Ht Hf) as Hfree.
  destruct (qs_rep _ _ HC (QRun q) Hv) as (hd&tl&Hh&Hd).
  assert (tl = last (C (QRun q))) as Etl by apply Hd.
  eapply (RunQueue_insert_run q i t); eauto; simpl.
  { rewrite Etl. intros ?%last_elem. by eapply Hfree. }
  { rewrite Etl. intros x ?%last_elem. by eapply qstruct_task. }
  intros s' Hfr Hlen Hts Hrq Hlog.
  pose proof (qstruct_length s C (QRun q) HC) as Hl16. rewrite (inv_tasks _ _ HI) in Hl16.
  destruct (Inv_insert s s' C (QRun q) i t (rq_in tl) HI Hv Ht Hlen (rf_harts _ _ Hfr)
    (rest_used _ _ (rf_rest _ _ Hfr)) (run_headers _ _ _ _ Hfr Hrq)) with (l1 := C (QRun q)) (l2 := @nil nat)
    (hd := hd) (tl := tl) as [HI' Hot]; auto.
  - rewrite Hlog. constructor; [done|apply HI].
  - exact (inv_context _ _ HI i t Ht).
  - by intros [].
  - by intros [].
  - by rewrite app_nil_r.
  - simpl. by rewrite <- Etl.
  - simpl. by rewrite Etl.
  - simpl. rewrite Hrq, decide_True by done. do 2 f_equal.
    + rewrite Etl. destruct (C (QRun q)) as [|x l]; [done|]. rewrite last_cons. by destruct (last l).
    + unfold kMaxTasks in Hl16. rewrite u64_small; [lia|]. unfold is_u64. lia.
  - intros h. rewrite fn_lookup_insert_ne by done.
    eapply (sorted_kept s s' C _ i); [done|exact Hts|intros; by apply link_at_other|apply Hfree].
  - by eapply run_endpoints.
  - apply (HQ s' (rq_in tl t)); auto. rewrite Hts, Ht. simpl. unfold link_at. by rewrite decide_True.
Qed.

(** The same without the log, for callers. *)
Lemma RunQueue_insert_spec q i t C (Q : bool -> KState -> Prop) e s :
  Inv s C -> valid_q (QRun q) -> tasks s !! i = Some t -> (forall k, flag_of k t = false) ->
  t_state t <> TaskState.ended -> t_idle t = false -> cpu_bound s t ->
  task_slots_used s !! i = Some true -> lock_fits (LRunQueue q) (held s) ->
  (forall s' t', Inv s' (<[QRun q := C (QRun q) ++ [i]]> C) -> run_frame s s' -> only_task i s s' ->
     tasks s' !! i = Some t' ->
     core t' = core (t <| t_state := TaskState.ready |> <| t_queued := true |>) -> Q true s') ->
  wp False (RunQueue_insert q i) Q e s.
Proof. intros. eapply RunQueue_insert_locked; eauto. Qed.

(** Insertion refused: the task is queued somewhere or has ended. *)
Lemma RunQueue_insert_refused q i t (Q : bool -> KState -> Prop) e s :
  tasks s !! i = Some t -> ~ ((forall k, flag_of k t = false) /\ t_state t <> TaskState.ended) ->
  lock_fits (LRunQueue q) (held s) ->
  (forall s', run_frame s s' -> tasks s' = tasks s -> (forall q', get_rq q' s' = get_rq q' s) ->
     lock_log s' = (LRunQueue q, held s) :: lock_log s -> Q false s') ->
  wp False (RunQueue_insert q i) Q e s.
Proof.
  intros Ht Hno Hlock HQ. unfold RunQueue_insert. apply wp_with_lock; [done|]. ksteps.
  destruct (t_queued t || d_queued (t_delay t) || w_queued (t_message_wait t)
            || bool_decide (t_state t = TaskState.ended)) eqn:Eg.
  { ksteps. split; [by knorm|]. apply HQ; try done; by split; knorm. }
  destruct Hno. apply orb_false_iff in Eg as [[[E1 E2]%orb_false_iff E3]%orb_false_iff E4].
  split; [by intros []|]. by apply bool_decide_eq_false in E4.
Qed.

(** ** Removal *)

Definition rq_out (t : Task) : Task :=
  t <| t_previous := None |> <| t_next := None |> <| t_queued := false |>.

Lemma RunQueue_remove_run q i t rq (Q : option nat -> KState -> Prop) e s :
  tasks s !! i = Some t -> t_state t = TaskState.ready ->
  d_queued (t_delay t) = false -> w_queued (t_message_wait t) = false ->
  get_rq q s = Some rq -> rq_head rq = Some i -> t_next t <> Some i ->
  (forall n, t_next t = Some n -> is_Some (tasks s !! n)) ->
  lock_fits (LRunQueue q) (held s) ->
  (forall s', run_frame s s' -> length (tasks s') = length (tasks s) ->
     (forall j, tasks s' !! j = unlink_at LkRun (t_next t) rq_out i j <$> tasks s !! j) ->
     (forall q', get_rq q' s' = if decide (q' = q)
        then Some (mkRunQueue (t_next t)
                     (match t_next t with Some _ => rq_tail rq | None => None end) (u64 (rq_size rq - 1)))
        else get_rq q' s) ->
     lock_log s' = (LRunQueue q, held s) :: lock_log s -> Q (Some i) s') ->
  wp False (RunQueue_remove q) Q e s.
Proof.
  intros Ht Hst Hdq Hwq Hrq Hhd Hni Hnx Hlock HQ. unfold RunQueue_remove.
  apply wp_with_lock; [done|]. ksteps. rewrite Hhd. ksteps.
  destruct (t_next t) as [n|] eqn:En; ksteps.
  all: match goal with |- wp _ (get_task _) _ _ ?s2 =>
    assert (exists t2, tasks s2 !! i = Some t2 /\ t_state t2 = TaskState.ready /\
      d_queued (t_delay t2) = false /\ w_queued (t_message_wait t2) = false) as (t2&Ht2&E1&E2&E3)
      by (knorm; rewrite !lookup_alter_if, Ht; eexists; split; [reflexivity|];
          repeat case_decide; simplify_eq; done) end.
  all: eapply wp_get_task; [exact Ht2|]; cbv beta; rewrite E2, E3, bool_decide_false by (rewrite E1; tauto);
    cbn [orb]; apply wp_ret; (split; [by knorm|]); apply HQ.
  1,6: by split; knorm.
  1,5: knorm; by rewrite !length_alter.
  1,4: intros j; unfold unlink_at; alter_cases.
  1,3: intros q'; knorm; case_decide; subst; rewrite ?Hrq, ?option_fmap_id; done.
  all: by knorm.
Qed.

Lemma RunQueue_remove_empty q rq (Q : option nat -> KState -> Prop) e s :
  get_rq q s = Some rq -> rq_head rq = None -> lock_fits (LRunQueue q) (held s) ->
  (forall s', run_frame s s' -> tasks s' = tasks s -> (forall q', get_rq q' s' = get_rq q' s) ->
     lock_log s' = (LRunQueue q, held s) :: lock_log s -> Q None s') ->
  wp False (RunQueue_remove q) Q e s.
Proof.
  intros Hrq Hhd Hlock HQ. unfold RunQueue_remove. apply wp_with_lock; [done|].
  ksteps. rewrite Hhd. ksteps. split; [by knorm|]. apply HQ; try done; by split; knorm.
Qed.

(** Nothing but the log of locks changed. *)
Lemma Inv_run_log s s' C q :
  Inv s C -> run_frame s s' -> tasks s' = tasks s -> (forall q', get_rq q' s' = get_rq q' s) ->
  lock_fits (LRunQueue q) (held s) -> lock_log s' = (LRunQueue q, held s) :: lock_log s -> Inv s' C.
Proof.
  intros HI Hfr Ets Hrq Hlock Hlog.
  eapply Inv_same; eauto; try apply Hfr; [apply rest_used, Hfr|].
  rewrite Hlog. constructor; [done|apply HI].
Qed.

(** Removal from the front of the abstract queue. *)
Lemma RunQueue_remove_spec q C (Q : option nat -> KState -> Prop) e s :
  Inv s C -> valid_q (QRun q) -> lock_fits (LRunQueue q) (held s) ->
  (C (QRun q) = [] -> forall s', Inv s' C -> run_frame s s' -> tasks s' = tasks s -> Q None s') ->
  (forall i l t s' t', C (QRun q) = i :: l -> tasks s !! i = Some t ->
     Inv s' (<[QRun q := l]> C) -> run_frame s s' -> only_task i s s' ->
     tasks s' !! i = Some t' -> core t' = core (t <| t_queued := false |>) -> Q (Some i) s') ->
  wp False (RunQueue_remove q) Q e s.
Proof.
  intros HI Hv Hlock HQN HQS. pose proof (inv_q _ _ HI) as HC.
  destruct (C (QRun q)) as [|i l] eqn:ECq.
  { destruct (qs_rep _ _ HC (QRun q) Hv) as (hd&tl&Hh&Hd). rewrite ECq in Hd. destruct Hd as (->&->&_).
    eapply RunQueue_remove_empty; eauto. intros s' Hfr Ets Hrq Hlog.
    apply HQN; auto. by eapply Inv_run_log. }
  assert (i ∈ C (QRun q)) as Hiq by (rewrite ECq; set_solver).
  destruct (qrep_first s C _ i l HC ECq) as (t&hd&tl&Ht&->&Hnext&Hil&Hh&Hd). simpl in Hnext.
  destruct (inv_member _ _ HI _ i t Hiq Ht) as (Hst&Hid&Hcpu&Hus). simpl in Hst.
  assert (forall x, head l = Some x -> x ∈ C (QRun q)) as Hhl
    by (intros x ?%head_elem; rewrite ECq; set_solver).
  eapply (RunQueue_remove_run q i t); eauto.
  { by apply (member_flags s C (QRun q) i t LkDelay). } { by apply (member_flags s C (QRun q) i t LkWait). }
  { rewrite Hnext. intros ?%head_elem. done. }
  { intros n. rewrite Hnext. intros ?%Hhl. by eapply qstruct_task. }
  rewrite Hnext. intros s' Hfr Hlen Hts Hrq Hlog.
  pose proof (qstruct_length s C (QRun q) HC) as Hl16. rewrite (inv_tasks _ _ HI), ECq in Hl16.
  destruct (Inv_remove s s' C (QRun q) i t rq_out HI Hv Ht Hlen (rf_harts _ _ Hfr)
    (rest_used _ _ (rf_rest _ _ Hfr)) (run_headers _ _ _ _ Hfr Hrq)) with (l2 := l)
    (hd := Some i) (tl := tl) as [HI' Hot]; auto.
  - rewrite Hlog. constructor; [done|apply HI].
  - exact (inv_context _ _ HI i t Ht).
  - by intros [].
  - by intros [].
  - simpl. rewrite Hrq, decide_True by done. do 2 f_equal; [by destruct l|].
    rewrite ECq. simpl in *. unfold kMaxTasks in Hl16. rewrite u64_small; [lia|]. unfold is_u64. lia.
  - intros h. rewrite fn_lookup_insert_ne by done.
    eapply (sorted_kept s s' C _ i); [done|exact Hts|intros; by apply unlink_at_other|].
    intros Hj. by specialize (qs_disjoint _ _ HC _ _ i Hiq Hj).
  - by eapply run_endpoints.
  - apply (HQS i l t s' (rq_out t)); auto. rewrite Hts, Ht. simpl. unfold unlink_at. by rewrite decide_True.
Qed.

Lemma RunQueue_size_spec q C (Q : Z -> KState -> Prop) e s :
  Inv s C -> valid_q (QRun q) -> lock_fits (LRunQueue q) (held s) ->
  (forall s', Inv s' C -> run_frame s s' -> tasks s' = tasks s ->
     Q (Z.of_nat (length (C (QRun q)))) s') ->
  wp False (RunQueue_size q) Q e s.
Proof.
  intros HI Hv Hlock HQ. destruct (qs_rep _ _ (inv_q _ _ HI) (QRun q) Hv) as (hd&tl&Hh&_). simpl in Hh.
  unfold RunQueue_size. apply wp_with_lock; [done|]. ksteps. split; [by knorm|].
  assert (run_frame s (set_field held (fun _ => held s) (s <| lock_log := (LRunQueue q, held s) :: lock_log s |>
    <| held := LRunQueue q :: held s |>))) as Hfr by (by split; knorm).
  apply HQ; auto. eapply (Inv_run_log s); eauto.
Qed.

(** ** Properties *)

(** C15: Insertion refines the abstract queue.  [RunQueue::insert] takes its
    own lock exactly once, no other lock, and releases it.  It returns true
    exactly when the task is in no queue and has not ended; it then appends
    the task at the back of exactly that queue, marks it ready and queued and
    changes no other task but for links.  Otherwise no task and no queue
    changes.  The kernel invariant is kept either way. *)
Theorem RunQueue_insert_correct q i t C e s :
  Inv s C -> valid_q (QRun q) -> tasks s !! i = Some t -> t_idle t = false -> cpu_bound s t ->
  task_slots_used s !! i = Some true -> lock_fits (LRunQueue q) (held s) ->
  exists b s', RunQueue_insert q i e s = Done b s' /\ run_frame s s' /\
    lock_log s' = (LRunQueue q, held s) :: lock_log s /\
    (b = true <-> (forall k, flag_of k t = false) /\ t_state t <> TaskState.ended) /\
    if b then
      Inv s' (<[QRun q := C (QRun q) ++ [i]]> C) /\ only_task i s s' /\
      exists t', tasks s' !! i = Some t' /\
        core t' = core (t <| t_state := TaskState.ready |> <| t_queued := true |>)
    else Inv s' C /\ tasks s' = tasks s /\ forall q', get_rq q' s' = get_rq q' s.
Proof.
  intros HI Hv Ht Hid Hcpu Hus Hlock.
  match goal with |- exists b s', _ /\ @?P b s' => apply (wp_done (RunQueue_insert q i) P e s) end.
  destruct (decide (Forall (fun k => flag_of k t = false) [LkRun; LkDelay; LkWait] /\
                    t_state t <> TaskState.ended)) as [[Hf Hst]|Hno].
  - assert (forall k, flag_of k t = false) as Hf'
      by (rewrite !Forall_cons in Hf; destruct Hf as (?&?&?&_); by intros []).
    eapply RunQueue_insert_locked; eauto. intros. split_and!; eauto. done.
  - assert (~ ((forall k, flag_of k t = false) /\ t_state t <> TaskState.ended)) as Hno'.
    { intros [Hall ?]. apply Hno. split; [|done]. repeat constructor; apply Hall. }
    eapply (RunQueue_insert_refused q i t); eauto. intros s' Hfr Hts Hrq Hlog.
    split_and!; auto; [done|]. by eapply Inv_run_log.
Qed.

Lemma RunQueue_insert_correct_witness :
  exists s', RunQueue_insert Global 4 (demo_env 0) demo = Done true s' /\
    Inv s' (<[QRun Global := [4%nat]]> quiet) /\ lock_log s' = (LRunQueue Global, []) :: lock_log demo.
Proof.
  destruct (RunQueue_insert_correct Global 4 demo_fresh quiet (demo_env 0) demo)
    as ([]&s'&Hr&_&Hlog&Hb&H).
  - apply demo_inv.
  - done.
  - done.
  - done.
  - by exists 0%nat, (demo_hart 0).
  - done.
  - constructor.
  - destruct H as [HI _]. by exists s'.
  - assert (false = true) by (apply Hb; split; [by intros []|done]). done.
Defined.

(** Removal refines the abstract queue.  [RunQueue::remove] returns null
    on an empty queue; otherwise it returns the task that was inserted first,
    unlinked and with its flag cleared, and its fail-closed checks never fire.
    No other queue and no other task changes, and the invariant is kept. *)
Lemma RunQueue_remove_correct q C e s :
  Inv s C -> valid_q (QRun q) -> lock_fits (LRunQueue q) (held s) ->
  exists r s', RunQueue_remove q e s = Done r s' /\ run_frame s s' /\ r = head (C (QRun q)) /\
    Inv s' (<[QRun q := tail (C (QRun q))]> C) /\
    forall i, r = Some i -> only_task i s s' /\ exists t t', tasks s !! i = Some t /\ tasks s' !! i = Some t' /\
      core t' = core (t <| t_queued := false |>).
Proof.
  intros HI Hv Hlock. destruct (wp_done (RunQueue_remove q) (fun r s' => run_frame s s' /\ r = head (C (QRun q)) /\
    Inv s' (<[QRun q := tail (C (QRun q))]> C) /\
    forall i, r = Some i -> only_task i s s' /\ exists t t', tasks s !! i = Some t /\ tasks s' !! i = Some t' /\
      core t' = core (t <| t_queued := false |>)) e s) as (r&s'&Hrun&?); [|by exists r, s'].
  apply (RunQueue_remove_spec q C); [done..| |].
  - intros E s' HI' Hfr Hts. rewrite E. split_and!; try done. by rewrite (queue_same C _ _ E).
  - intros i l t s' t' E Ht HI' Hfr Hot Ht' Hc. rewrite E. split_and!; try done.
    intros j [= <-]. split; [done|]. by exists t, t'.
Qed.

(** [demo] after the task in slot 4 was queued. *)
Definition demo_ready : KState := state_after (RunQueue_insert Global 4) (demo_env 0) demo.

Lemma demo_ready_inv : Inv demo_ready (<[QRun Global := [4%nat]]> quiet).
Proof.
  unfold demo_ready. apply (wp_state_after _ (fun s' => Inv s' _)).
  apply (RunQueue_insert_spec Global 4 demo_fresh quiet); try done.
  - apply demo_inv.
  - by intros [].
  - by exists 0%nat, (demo_hart 0).
  - constructor.
Qed.

Lemma demo_ready_running : Running None demo_ready.
Proof.
  unfold demo_ready. apply (wp_state_after _ (fun s' => Running None s')).
  apply (RunQueue_insert_spec Global 4 demo_fresh quiet); try done.
  - apply demo_inv.
  - by intros [].
  - by exists 0%nat, (demo_hart 0).
  - constructor.
  - intros s' t' _ Hfr Hot _ _.
    apply (Running_update None demo s' 4); [apply demo_running|done| |apply Hfr|apply rest_used, Hfr].
    intros h hl _ Hh Hc. do 4 (destruct h as [|h]; [by injection Hh as <-|]). done.
Qed.

Lemma RunQueue_remove_correct_witness :
  exists s', RunQueue_remove Global (demo_env 1) demo_ready = Done (Some 4%nat) s' /\
    Inv s' (<[QRun Global := []]> (<[QRun Global := [4%nat]]> quiet)).
Proof.
  destruct (RunQueue_remove_correct Global (<[QRun Global := [4%nat]]> quiet) (demo_env 1) demo_ready)
    as (r&s'&Hr&_&->&HI&_).
  - apply demo_ready_inv.
  - done.
  - vm_compute. constructor.
  - exists s'. split; [exact Hr|exact HI].
Defined.
