(* ===== verification/DelayQueue.v ===== *)
(** * Delay queues

    Models the class [DelayQueue] of [microkernel/core/time_manager.{h,cpp}]:
    the per-hart list of sleeping tasks, sorted by deadline and threaded
    through [Task::delay]. *)
From Stdlib Require Import ZArith Lia Sorted.
From stdpp Require Import base tactics sets functions gmap list sorting.
From S2P Require Import Prelude DList KernelTypes KernelInv Demo.
Local Open Scope Z_scope.

Definition get_delay_head (h : nat) : K (option nat) :=
  qs ← gets delay_queues; deref (qs !! h).
Definition set_delay_head (h : nat) (v : option nat) : K unit :=
  _ ← get_delay_head h; modify (fun s => s <| delay_queues := <[h := v]> (delay_queues s) |>).

(** Update of a field of [Task::delay]. *)
Definition mod_delay (f : DelayNode -> DelayNode) (t : Task) : Task := t <| t_delay := f (t_delay t) |>.

Definition DelayQueue_reset (h : nat) : K unit :=
  with_lock (LDelayQueue h) (set_delay_head h None).

(** The scan for the insertion point: the cursor moves past every deadline not
    later than the new one.  [fuel] bounds the scan. *)
Fixpoint delay_scan (fuel : nat) (previous cursor : option nat) (deadline : Z)
  : K (option nat * option nat) :=
  match fuel with
  | O => diverge
  | S fuel' =>
      match cursor with
      | None => mret (previous, None)
      | Some c =>
          t ← get_task c;
          if d_deadline (t_delay t) <=? deadline
          then delay_scan fuel' (Some c) (d_next (t_delay t)) deadline
          else mret (previous, Some c)
      end
  end.

(** More steps than there are tasks. *)
Definition task_fuel : nat := S kMaxTasks.

Definition DelayQueue_insert (h : nat) (delayed_task : nat) (deadline : Z) : K bool :=
  with_lock (LDelayQueue h) (
    t ← get_task delayed_task;
    if d_queued (t_delay t) || t_queued t || bool_decide (t_state t = TaskState.ended)
    then mret false
    else
      head ← get_delay_head h;
      '(previous, cursor) ← delay_scan task_fuel None head deadline;
      mod_task delayed_task (mod_delay (<| d_previous := previous |>));;
      mod_task delayed_task (mod_delay (<| d_next := cursor |>));;
      mod_task delayed_task (mod_delay (<| d_deadline := deadline |>));;
      mod_task delayed_task (mod_delay (<| d_queued := true |>));;
      match previous with
      | Some p => mod_task p (mod_delay (<| d_next := Some delayed_task |>))
      | None => set_delay_head h (Some delayed_task)
      end;;
      match cursor with
      | Some c => mod_task c (mod_delay (<| d_previous := Some delayed_task |>))
      | None => mret tt
      end;;
      mret true).

Definition remove_expired (h : nat) (now : Z) : K (option nat) :=
  with_lock (LDelayQueue h) (
    head ← get_delay_head h;
    match head with
    | None => mret None
    | Some task =>
        t ← get_task task;
        if now <? d_deadline (t_delay t) then mret None
        else
          set_delay_head h (d_next (t_delay t));;
          match d_next (t_delay t) with
          | Some head' => mod_task head' (mod_delay (<| d_previous := None |>))
          | None => mret tt
          end;;
          mod_task task (mod_delay (<| d_previous := None |>));;
          mod_task task (mod_delay (<| d_next := None |>));;
          mod_task task (mod_delay (<| d_queued := false |>));;
          mret (Some task)
    end).

Definition ticks_until_next (h : nat) (now maximum : Z) : K Z :=
  with_lock (LDelayQueue h) (
    head ← get_delay_head h;
    match head with
    | None => mret maximum
    | Some task =>
        t ← get_task task;
        if d_deadline (t_delay t) <=? now then mret 1
        else
          let remaining := d_deadline (t_delay t) - now in
          mret (if remaining <? maximum then remaining else maximum)
    end).

(** ** Symbolic execution *)

Lemma wp_get_delay_head pk e h hd (Q : option nat -> KState -> Prop) s :
  delay_queues s !! h = Some hd -> Q hd s -> wp pk (get_delay_head h) Q e s.
Proof. intros Hh HQ. unfold get_delay_head. wp_steps. done. Qed.
Lemma wp_set_delay_head pk e h v (Q : unit -> KState -> Prop) s :
  is_Some (delay_queues s !! h) -> Q tt (set_field delay_queues (insert h v) s) ->
  wp pk (set_delay_head h v) Q e s.
Proof. intros [x Hx] HQ. unfold set_delay_head. apply wp_bind. by eapply wp_get_delay_head. Qed.

(** Only the header of [QDelay h] changed. *)
Lemma delay_headers s s' h v :
  delay_frame s s' -> delay_queues s' = <[h := v]> (delay_queues s) -> headers_kept s s' (QDelay h).
Proof.
  intros Hfr Hd [r|h'|w] hd tl n Hne; simpl.
  - by rewrite (df_rq _ _ Hfr).
  - rewrite Hd, list_lookup_insert_ne by congruence. done.
  - by rewrite (df_eps _ _ Hfr).
Qed.

Lemma delay_endpoints s s' C h l :
  Inv s C -> delay_frame s s' -> forall e p, endpoints s' !! e = Some p ->
  exists a, slot_allocated s' !! e = Some a /\ ep_ok a p ((<[QDelay h := l]> C) (QWait e)).
Proof.
  intros HI Hfr e p. rewrite (df_eps _ _ Hfr), (df_slots _ _ Hfr), fn_lookup_insert_ne by done. apply HI.
Qed.

Lemma Inv_delay_log s s' C h :
  Inv s C -> delay_frame s s' -> tasks s' = tasks s -> delay_queues s' = delay_queues s ->
  lock_fits (LDelayQueue h) (held s) -> lock_log s' = (LDelayQueue h, held s) :: lock_log s -> Inv s' C.
Proof.
  intros HI Hfr Ets Hdq Hlock Hlog.
  eapply Inv_same; eauto; try apply Hfr; [apply rest_used, Hfr|].
  rewrite Hlog. constructor; [done|apply HI].
Qed.

(** ** The scan *)

(** The scan splits the queue after the last deadline not later than the new
    one. *)
Lemma delay_scan_spec fuel l1 l2 hd tl deadline (Q : option nat * option nat -> KState -> Prop) e s :
  dlist (task_links LkDelay (tasks s)) hd tl (l1 ++ l2) -> (length l2 < fuel)%nat ->
  (forall a b, l2 = a ++ b -> Forall (fun x => deadline_of (tasks s) x <= deadline) a ->
     (forall x, head b = Some x -> deadline < deadline_of (tasks s) x) -> Q (last (l1 ++ a), head b) s) ->
  wp False (delay_scan fuel (last l1) (head l2) deadline) Q e s.
Proof.
  revert l1 l2. induction fuel as [|fuel IH]; intros l1 l2 Hd Hlen HQ; [lia|]. cbn [delay_scan].
  destruct l2 as [|c l2]; simpl.
  { apply wp_ret. specialize (HQ [] [] eq_refl). rewrite app_nil_r in HQ. apply HQ; [constructor|done]. }
  pose proof Hd as (_&_&Hch). apply chain_lookup in Hch. unfold task_links in Hch.
  apply fmap_Some in Hch as (t&Ht&Hlk). simpl in Hlk. injection Hlk as _ Hnext.
  assert (deadline_of (tasks s) c = d_deadline (t_delay t)) as Edl by (unfold deadline_of; by rewrite Ht).
  ksteps. destruct (Z.leb_spec (d_deadline (t_delay t)) deadline) as [Hle|Hgt].
  - rewrite <- Hnext. replace (head_or None l2) with (head l2) by (unfold head_or; by destruct (head l2)).
    replace (Some c) with (last (l1 ++ [c])) by apply last_snoc. apply IH.
    + by rewrite <- app_assoc.
    + simpl in Hlen. lia.
    + intros a b -> Ha Hb. rewrite <- app_assoc. simpl. apply (HQ (c :: a) b); auto. constructor; [lia|done].
  - apply wp_ret. specialize (HQ [] (c :: l2) eq_refl). rewrite app_nil_r in HQ. apply HQ; [constructor|].
    simpl. intros x [= <-]. lia.
Qed.

(** ** Insertion *)

Definition dq_in (p n : option nat) (deadline : Z) (t : Task) : Task :=
  t <| t_delay := mkDelay p n deadline true |>.

Lemma delay_length s C h : Inv s C -> (length (C (QDelay h)) < task_fuel)%nat.
Proof.
  intros HI. pose proof (qstruct_length s C (QDelay h) (inv_q _ _ HI)) as Hl.
  rewrite (inv_tasks _ _ HI) in Hl. unfold task_fuel. lia.
Qed.

(** Insertion keeps the deadlines sorted, behind equal ones. *)
Lemma sorted_insert s s' C h i a b deadline :
  Inv s C -> C (QDelay h) = a ++ b -> i ∉ C (QDelay h) ->
  (forall j, j <> i -> deadline_of (tasks s') j = deadline_of (tasks s) j) ->
  deadline_of (tasks s') i = deadline ->
  Forall (fun x => deadline_of (tasks s) x <= deadline) a ->
  (forall x, head b = Some x -> deadline < deadline_of (tasks s) x) ->
  by_deadline (tasks s') (a ++ i :: b).
Proof.
  intros HI HCh Hi Hoth Hdl Ha Hb.
  assert (by_deadline (tasks s') (a ++ b)) as Hs.
  { eapply by_deadline_agree; [|rewrite <- HCh; apply HI]. intros j Hj. apply Hoth. intros ->.
    by rewrite HCh in Hi. }
  unfold by_deadline in *. apply StronglySorted_app in Hs as (Hab&Hsa&Hsb).
  assert (forall j, j ∈ a ++ b -> deadline_of (tasks s') j = deadline_of (tasks s) j) as Hold.
  { intros j Hj. apply Hoth. intros ->. by rewrite HCh in Hi. }
  assert (forall x, x ∈ b -> deadline < deadline_of (tasks s') x) as Hlt.
  { destruct b as [|y b]; [set_solver|]. apply StronglySorted_cons in Hsb as [Hy _].
    pose proof (Hb y eq_refl) as Hyd. rewrite <- (Hold y) in Hyd by set_solver.
    intros x [->|Hx]%elem_of_cons; [done|]. rewrite Forall_forall in Hy. specialize (Hy x Hx). lia. }
  rewrite Forall_forall in Ha. apply StronglySorted_app. split_and!; [|done|].
  - intros x y Hx [->|Hy]%elem_of_cons; [|by apply Hab].
    rewrite Hdl, Hold by set_solver. by apply Ha.
  - apply StronglySorted_cons. split; [|done]. rewrite Forall_forall. intros x Hx.
    rewrite Hdl. specialize (Hlt x Hx). lia.
Qed.

Lemma DelayQueue_insert_spec h i t deadline C (Q : bool -> KState -> Prop) e s :
  Inv s C -> (h < kMaxHarts)%nat -> tasks s !! i = Some t -> (forall k, flag_of k t = false) ->
  t_state t = TaskState.blocked_sleep -> t_idle t = false -> cpu_bound s t ->
  task_slots_used s !! i = Some true -> lock_fits (LDelayQueue h) (held s) ->
  (forall s' t' a b, C (QDelay h) = a ++ b -> Inv s' (<[QDelay h := a ++ i :: b]> C) ->
     delay_frame s s' -> only_task i s s' -> tasks s' !! i = Some t' ->
     core t' = core (t <| t_delay := (t_delay t) <| d_deadline := deadline |> <| d_queued := true |> |>) ->
     Forall (fun x => deadline_of (tasks s) x <= deadline) a ->
     (forall x, head b = Some x -> deadline < deadline_of (tasks s) x) -> Q true s') ->
  wp False (DelayQueue_insert h i deadline) Q e s.
Proof.
  intros HI Hv Ht Hf Hst Hid Hcpu Hus Hlock HQ. pose proof (inv_q _ _ HI) as HC.
  pose proof (qstruct_free s C i t HC Ht Hf) as Hfree.
  destruct (qs_rep _ _ HC (QDelay h) Hv) as (hd&tl&Hh&Hd). simpl in Hh.
  unfold DelayQueue_insert. apply wp_with_lock; [done|]. ksteps.
  rewrite (Hf LkDelay : d_queued (t_delay t) = false), (Hf LkRun : t_queued t = false),
    bool_decide_false by congruence. cbn [orb].
  apply wp_bind. eapply wp_get_delay_head; [rproj; exact Hh|]. apply wp_bind.
  assert (hd = head (C (QDelay h))) as Ehd by apply Hd. rewrite Ehd.
  eapply (delay_scan_spec _ [] (C (QDelay h)) hd tl); [exact Hd|by eapply delay_length|].
  intros a b Hab Ha Hb. cbn [app]. rproj_in Ha. rproj_in Hb.
  assert (forall x, last a = Some x -> x ∈ C (QDelay h)) as Hla by (intros x ?%last_elem; rewrite Hab; set_solver).
  assert (forall x, head b = Some x -> x ∈ C (QDelay h)) as Hlb by (intros x ?%head_elem; rewrite Hab; set_solver).
  assert (forall x, x ∈ C (QDelay h) -> is_Some (tasks s !! x)) as Hsm by (intros; by eapply qstruct_task).
  assert (last a <> Some i) as Hai by (intros ?%Hla; by eapply Hfree).
  assert (head b <> Some i) as Hbi by (intros ?%Hlb; by eapply Hfree).
  assert (forall x, last a = Some x -> head b <> Some x) as Hdj.
  { intros x ?%last_elem ?%head_elem. pose proof (qs_nodup _ _ HC (QDelay h)) as Hnd. rewrite Hab in Hnd.
    apply NoDup_app in Hnd as (_&Hnd&_). by eapply Hnd. }
  assert (forall s', delay_frame s s' -> length (tasks s') = length (tasks s) ->
     (forall j, tasks s' !! j = link_at LkDelay (last a) (head b) (dq_in (last a) (head b) deadline) i j <$> tasks s !! j) ->
     delay_queues s' = <[h := if a then Some i else hd]> (delay_queues s) ->
     lock_log s' = (LDelayQueue h, held s) :: lock_log s -> Q true s') as Hfin.
  { intros s' Hfr Hlen Hts Hdq Hlog.
    assert (tasks s' !! i = Some (dq_in (last a) (head b) deadline t)) as Hi'.
    { rewrite Hts, Ht. simpl. unfold link_at. by rewrite decide_True. }
    destruct (Inv_insert s s' C (QDelay h) i t (dq_in (last a) (head b) deadline) HI Hv Ht Hlen (df_harts _ _ Hfr)
      (rest_used _ _ (df_rest _ _ Hfr)) (delay_headers _ _ _ _ Hfr Hdq)) with (l1 := a) (l2 := b)
      (hd := hd) (tl := tl) as [HI' Hot]; auto.
    - rewrite Hlog. constructor; [done|apply HI].
    - exact (inv_context _ _ HI i t Ht).
    - by intros [].
    - by intros [].
    - simpl. rewrite Hdq. apply list_lookup_insert_eq. by eapply lookup_lt_Some.
    - intros h'. destruct (decide (h' = h)) as [->|Hne].
      + rewrite fn_lookup_insert. eapply (sorted_insert s s' C h i a b deadline); eauto.
        * intros j Hj. apply core_deadline. rewrite Hts. destruct (tasks s !! j); [|done].
          simpl. by rewrite link_at_other.
        * unfold deadline_of. by rewrite Hi'.
      + rewrite fn_lookup_insert_ne by congruence.
        eapply by_deadline_agree; [|apply HI]. intros j Hj. apply core_deadline. rewrite Hts.
        destruct (tasks s !! j); [|done]. simpl. rewrite link_at_other; [done|]. intros ->. by eapply Hfree.
    - by eapply delay_endpoints.
    - by apply (HQ s' (dq_in (last a) (head b) deadline t) a b). }
  clear HQ.
  assert (hd = if a then head b else hd) as Ehd' by (destruct a; [by rewrite Ehd, Hab|done]).
  ksteps.
  destruct (last a) as [p|] eqn:Ela.
  - assert (exists x l, a = x :: l) as (x0&l0&->) by (destruct a; [done|eauto]).
    ksteps. destruct (head b) as [n|] eqn:Ehb; ksteps; (split; [by knorm|]); apply Hfin.
    1,6: by split; knorm.
    1,5: knorm; by rewrite !length_alter.
    1,4: intros j; unfold link_at; alter_cases; by destruct (Hdj _ eq_refl).
    1,3: knorm; symmetry; by apply list_insert_id.
    all: by knorm.
  - assert (a = []) as -> by (by apply last_None in Ela).
    apply wp_set_delay_head; [by rproj|]. ksteps.
    destruct (head b) as [n|] eqn:Ehb; ksteps; (split; [by knorm|]); apply Hfin.
    1,6: by split; knorm.
    1,5: knorm; by rewrite !length_alter.
    1,4: intros j; unfold link_at; alter_cases; by destruct (Hdj _ eq_refl).
    1,3: by knorm.
    all: by knorm.
Qed.

(** ** Removal of the first expired task *)

Definition dq_out (t : Task) : Task :=
  t <| t_delay := (t_delay t) <| d_previous := None |> <| d_next := None |> <| d_queued := false |> |>.

Lemma remove_expired_spec h now C (Q : option nat -> KState -> Prop) e s :
  Inv s C -> (h < kMaxHarts)%nat -> lock_fits (LDelayQueue h) (held s) ->
  ((forall x, head (C (QDelay h)) = Some x -> now < deadline_of (tasks s) x) ->
     forall s', Inv s' C -> delay_frame s s' -> tasks s' = tasks s -> Q None s') ->
  (forall i l t s' t', C (QDelay h) = i :: l -> tasks s !! i = Some t -> d_deadline (t_delay t) <= now ->
     Inv s' (<[QDelay h := l]> C) -> delay_frame s s' -> only_task i s s' ->
     tasks s' !! i = Some t' ->
     core t' = core (t <| t_delay := (t_delay t) <| d_queued := false |> |>) -> Q (Some i) s') ->
  wp False (remove_expired h now) Q e s.
Proof.
  intros HI Hv Hlock HQN HQS. pose proof (inv_q _ _ HI) as HC.
  unfold remove_expired. apply wp_with_lock; [done|]. apply wp_bind.
  assert (delay_frame s (set_field held (fun _ => held s) (s <| lock_log := (LDelayQueue h, held s) :: lock_log s |>
    <| held := LDelayQueue h :: held s |>))) as Hfr0 by (by split; knorm).
  destruct (C (QDelay h)) as [|i l] eqn:ECq.
  { destruct (qs_rep _ _ HC (QDelay h) Hv) as (hd&tl&Hh&Hd). rewrite ECq in Hd. destruct Hd as (->&->&_).
    eapply wp_get_delay_head; [rproj; exact Hh|]. cbv beta iota. ksteps. split; [by knorm|].
    apply HQN; auto; [done|]. by eapply (Inv_delay_log s). }
  assert (i ∈ C (QDelay h)) as Hiq by (rewrite ECq; set_solver).
  destruct (qrep_first s C _ i l HC ECq) as (t&hd&tl&Ht&->&Hnext&Hil&Hh&Hd). simpl in Hnext, Hh.
  eapply wp_get_delay_head; [rproj; exact Hh|]. cbv beta iota. ksteps.
  destruct (now <? d_deadline (t_delay t)) eqn:Hlt; [apply Z.ltb_lt in Hlt|apply Z.ltb_ge in Hlt]; ksteps.
  { split; [by knorm|]. apply HQN; auto; [|by eapply (Inv_delay_log s)].
    simpl. intros x [= <-]. unfold deadline_of. by rewrite Ht. }
  assert (forall x, head l = Some x -> x ∈ C (QDelay h)) as Hhl
    by (intros x ?%head_elem; rewrite ECq; set_solver).
  assert (forall x, x ∈ C (QDelay h) -> is_Some (tasks s !! x)) as Hsm by (intros; by eapply qstruct_task).
  assert (head l <> Some i) as Hni by (intros ?%head_elem; done).
  apply wp_set_delay_head; [by rproj|]. ksteps.
  assert (forall s', delay_frame s s' -> length (tasks s') = length (tasks s) ->
     (forall j, tasks s' !! j = unlink_at LkDelay (head l) dq_out i j <$> tasks s !! j) ->
     delay_queues s' = <[h := head l]> (delay_queues s) ->
     lock_log s' = (LDelayQueue h, held s) :: lock_log s -> Q (Some i) s') as Hfin.
  { intros s' Hfr Hlen Hts Hdq Hlog.
    destruct (Inv_remove s s' C (QDelay h) i t dq_out HI Hv Ht Hlen (df_harts _ _ Hfr)
      (rest_used _ _ (df_rest _ _ Hfr)) (delay_headers _ _ _ _ Hfr Hdq)) with (l2 := l)
      (hd := Some i) (tl := tl) as [HI' Hot]; auto.
    - rewrite Hlog. constructor; [done|apply HI].
    - exact (inv_context _ _ HI i t Ht).
    - by intros [].
    - by intros [].
    - simpl. rewrite Hdq. apply list_lookup_insert_eq. by eapply lookup_lt_Some.
    - assert (forall j, j <> i -> deadline_of (tasks s') j = deadline_of (tasks s) j) as Hoth.
      { intros j Hj. apply core_deadline. rewrite Hts. destruct (tasks s !! j); [|done].
        simpl. by rewrite unlink_at_other. }
      intros h'. destruct (decide (h' = h)) as [->|Hne].
      + rewrite fn_lookup_insert. eapply by_deadline_agree; [intros j Hj; apply Hoth; by intros ->|].
        pose proof (inv_sorted _ _ HI h) as Hs. rewrite ECq in Hs. unfold by_deadline in *.
        by apply StronglySorted_cons in Hs as [_ ?].
      + rewrite fn_lookup_insert_ne by congruence. eapply by_deadline_agree; [|apply HI].
        intros j Hj. apply Hoth. intros ->. specialize (qs_disjoint _ _ HC _ _ i Hiq Hj). congruence.
    - by eapply delay_endpoints.
    - apply (HQS i l t s' (dq_out t)); auto. rewrite Hts, Ht. simpl. unfold unlink_at. by rewrite decide_True. }
  rewrite Hnext. destruct (head l) as [n|] eqn:En; ksteps; (split; [by knorm|]); apply Hfin.
  1,6: by split; knorm.
  1,5: knorm; by rewrite !length_alter.
  1,4: intros j; unfold unlink_at; alter_cases.
  all: by knorm.
Qed.

Lemma ticks_until_next_spec h now maximum C (Q : Z -> KState -> Prop) e s :
  Inv s C -> (h < kMaxHarts)%nat -> lock_fits (LDelayQueue h) (held s) ->
  (forall s', Inv s' C -> delay_frame s s' -> tasks s' = tasks s -> delay_queues s' = delay_queues s ->
     Q (match head (C (QDelay h)) with
        | None => maximum
        | Some x => if deadline_of (tasks s) x <=? now then 1
                    else Z.min (deadline_of (tasks s) x - now) maximum
        end) s') ->
  wp False (ticks_until_next h now maximum) Q e s.
Proof.
  intros HI Hv Hlock HQ. pose proof (inv_q _ _ HI) as HC.
  unfold ticks_until_next. apply wp_with_lock; [done|]. apply wp_bind.
  assert (delay_frame s (set_field held (fun _ => held s) (s <| lock_log := (LDelayQueue h, held s) :: lock_log s |>
    <| held := LDelayQueue h :: held s |>))) as Hfr0 by (by split; knorm).
  specialize (HQ _ (Inv_delay_log _ _ C h HI Hfr0 eq_refl eq_refl Hlock eq_refl) Hfr0 eq_refl eq_refl).
  destruct (C (QDelay h)) as [|i l] eqn:ECq.
  { destruct (qs_rep _ _ HC (QDelay h) Hv) as (hd&tl&Hh&Hd). rewrite ECq in Hd. destruct Hd as (->&->&_).
    eapply wp_get_delay_head; [rproj; exact Hh|]. cbv beta iota. ksteps. split; [by knorm|]. exact HQ. }
  destruct (qrep_first s C _ i l HC ECq) as (t&hd&tl&Ht&->&Hnext&Hil&Hh&Hd). simpl in Hh, HQ.
  assert (deadline_of (tasks s) i = d_deadline (t_delay t)) as Edl by (unfold deadline_of; by rewrite Ht).
  rewrite Edl in HQ. eapply wp_get_delay_head; [rproj; exact Hh|]. cbv beta iota. ksteps.
  destruct (Z.leb_spec (d_deadline (t_delay t)) now); ksteps; (split; [by knorm|]); [exact HQ|].
  destruct (Z.ltb_spec (d_deadline (t_delay t) - now) maximum).
  - by rewrite Z.min_l in HQ by lia.
  - by rewrite Z.min_r in HQ by lia.
Qed.

(** ** Properties *)

(** C16: Insertion keeps the sleepers in wake-up order.  [DelayQueue::insert]
    puts the task behind every sleeper whose deadline is not later and before
    every later one, so equal deadlines wake in the order of insertion; the
    queue stays sorted (part of the invariant), the scan ends, and no other
    queue or task changes. *)
Theorem DelayQueue_insert_correct h i t deadline C e s :
  Inv s C -> (h < kMaxHarts)%nat -> tasks s !! i = Some t -> (forall k, flag_of k t = false) ->
  t_state t = TaskState.blocked_sleep -> t_idle t = false -> cpu_bound s t ->
  task_slots_used s !! i = Some true -> lock_fits (LDelayQueue h) (held s) ->
  exists s' a b, DelayQueue_insert h i deadline e s = Done true s' /\ C (QDelay h) = a ++ b /\
    Inv s' (<[QDelay h := a ++ i :: b]> C) /\
    Forall (fun x => deadline_of (tasks s) x <= deadline) a /\
    Forall (fun x => deadline < deadline_of (tasks s) x) b /\
    deadline_of (tasks s') i = deadline /\ delay_frame s s' /\ only_task i s s'.
Proof.
  intros HI Hv Ht Hf Hst Hid Hcpu Hus Hlock.
  destruct (wp_done (DelayQueue_insert h i deadline) (fun r s' => r = true /\ exists a b, C (QDelay h) = a ++ b /\
    Inv s' (<[QDelay h := a ++ i :: b]> C) /\
    Forall (fun x => deadline_of (tasks s) x <= deadline) a /\
    Forall (fun x => deadline < deadline_of (tasks s) x) b /\
    deadline_of (tasks s') i = deadline /\ delay_frame s s' /\ only_task i s s') e s)
    as (r&s'&Hrun&->&a&b&?); [|by exists s', a, b].
  eapply (DelayQueue_insert_spec h i t deadline C); try done.
  intros s' t' a b HCq HI' Hfr Hot Ht' Hc Ha Hb. split; [done|]. exists a, b. split_and!; try done.
  - pose proof (inv_sorted _ _ HI h) as Hs. rewrite HCq in Hs. unfold by_deadline in Hs.
    apply StronglySorted_app in Hs as (_&_&Hs). destruct b as [|y b]; [constructor|].
    specialize (Hb y eq_refl). apply StronglySorted_cons in Hs as [Hs _].
    constructor; [done|]. eapply Forall_impl; [exact Hs|]. simpl. lia.
  - unfold deadline_of. rewrite Ht'. by apply core_inv in Hc as (_&_&_&_&_&_&->&_).
Qed.

(** [demo] with the task in slot 2 about to sleep, and asleep until tick 5000. *)
Definition demo_drowsy : KState :=
  demo <| tasks := <[2%nat := (demo_task 3 0 false) <| t_state := TaskState.blocked_sleep |>]> (tasks demo) |>.

Lemma demo_drowsy_inv : Inv demo_drowsy quiet.
Proof.
  unfold demo_drowsy. apply (Inv_set_task demo quiet 2 (demo_task 3 0 false)); try done; [apply demo_inv|by intros []|by left].
Qed.

Lemma DelayQueue_insert_correct_witness :
  exists s', DelayQueue_insert 0 2 5000 (demo_env 0) demo_drowsy = Done true s' /\ deadline_of (tasks s') 2 = 5000.
Proof.
  destruct (DelayQueue_insert_correct 0 2 ((demo_task 3 0 false) <| t_state := TaskState.blocked_sleep |>)
    5000 quiet (demo_env 0) demo_drowsy) as (s'&a&b&Hr&_&_&_&_&Hd&_).
  - apply demo_drowsy_inv.
  - unfold kMaxHarts. lia.
  - done.
  - by intros [].
  - done.
  - done.
  - by exists 0%nat, (demo_hart 0).
  - done.
  - constructor.
  - exists s'. split; [exact Hr|exact Hd].
Defined.

(** Expiry wakes exactly the due sleepers.  [DelayQueue::remove_expired]
    returns the sleeper with the earliest deadline if that deadline has
    passed, and takes it out of the queue; it returns null, and changes
    nothing, only if every sleeper of the hart is still due in the future. *)
Lemma remove_expired_correct h now C e s :
  Inv s C -> (h < kMaxHarts)%nat -> lock_fits (LDelayQueue h) (held s) ->
  exists r s', remove_expired h now e s = Done r s' /\ delay_frame s s' /\
    match r with
    | None => Inv s' C /\ tasks s' = tasks s /\ Forall (fun x => now < deadline_of (tasks s) x) (C (QDelay h))
    | Some i => exists l, C (QDelay h) = i :: l /\ Inv s' (<[QDelay h := l]> C) /\ only_task i s s' /\
        deadline_of (tasks s) i <= now /\ Forall (fun x => deadline_of (tasks s) i <= deadline_of (tasks s) x) l
    end.
Proof.
  intros HI Hv Hlock. destruct (wp_done (remove_expired h now) (fun r s' => delay_frame s s' /\
    match r with
    | None => Inv s' C /\ tasks s' = tasks s /\ Forall (fun x => now < deadline_of (tasks s) x) (C (QDelay h))
    | Some i => exists l, C (QDelay h) = i :: l /\ Inv s' (<[QDelay h := l]> C) /\ only_task i s s' /\
        deadline_of (tasks s) i <= now /\ Forall (fun x => deadline_of (tasks s) i <= deadline_of (tasks s) x) l
    end) e s) as (r&s'&Hrun&?); [|by exists r, s'].
  pose proof (inv_sorted _ _ HI h) as Hs. unfold by_deadline in Hs.
  apply (remove_expired_spec h now C); try done.
  - intros Hhd s' HI' Hfr Hts. split_and!; try done. destruct (C (QDelay h)) as [|y l]; [constructor|].
    specialize (Hhd y eq_refl). apply StronglySorted_cons in Hs as [Hs _]. constructor; [done|].
    eapply Forall_impl; [exact Hs|]. simpl. lia.
  - intros i l t s' t' HCq Ht Hdue HI' Hfr Hot Ht' Hc. split; [done|]. exists l. rewrite HCq in Hs.
    apply StronglySorted_cons in Hs as [Hs _]. unfold deadline_of at 1. rewrite Ht. by split_and!.
Qed.

Definition demo_asleep : KState := state_after (DelayQueue_insert 0 2 5000) (demo_env 0) demo_drowsy.

Lemma demo_asleep_inv : Inv demo_asleep (<[QDelay 0 := [2%nat]]> quiet).
Proof.
  unfold demo_asleep. apply (wp_state_after _ (fun s' => Inv s' _)).
  apply (DelayQueue_insert_spec 0 2 ((demo_task 3 0 false) <| t_state := TaskState.blocked_sleep |>) 5000 quiet);
    try done.
  - apply demo_drowsy_inv.
  - unfold kMaxHarts. lia.
  - by intros [].
  - by exists 0%nat, (demo_hart 0).
  - constructor.
  - intros s' t' a b Hab HI _ _ _ _ _ _. symmetry in Hab. by apply app_nil in Hab as [-> ->].
Qed.

Lemma remove_expired_correct_witness :
  exists s', remove_expired 0 7000 (demo_env 0) demo_asleep = Done (Some 2%nat) s' /\
    Inv s' (<[QDelay 0 := []]> (<[QDelay 0 := [2%nat]]> quiet)).
Proof.
  destruct (remove_expired_correct 0 7000 (<[QDelay 0 := [2%nat]]> quiet) (demo_env 0) demo_asleep)
    as (r&s'&Hr&_&Hm).
  - apply demo_asleep_inv.
  - unfold kMaxHarts. lia.
  - vm_compute. constructor.
  - destruct r as [i|].
    + destruct Hm as (l&Hl&HI&_). rewrite fn_lookup_insert in Hl. injection Hl as <- <-. by exists s'.
    + destruct Hm as (_&_&Hm). rewrite fn_lookup_insert in Hm.
      assert (7000 < 5000) as Hf by (apply (proj1 (proj1 (Forall_cons _ _ _) Hm))). lia.
Defined.
