(* ===== verification/Scheduler.v ===== *)
(** * Scheduler

    Models the class [Scheduler] of [microkernel/core/scheduler.{h,cpp}] with
    the pieces it calls: the current-task pointer of
    [task_manager.cpp] and the timeslices of [time_manager.cpp]. *)
From Stdlib Require Import ZArith Lia.
From stdpp Require Import base tactics sets functions gmap list.
From S2P Require Import Prelude DList KernelTypes KernelInv Demo RunQueue DelayQueue.
Local Open Scope Z_scope.

(** ** TaskManager: the current task *)

Definition get_current_task : K (option nat) := local ← current; mret (current_task local).

Definition set_current_task (task : nat) : K unit :=
  t ← get_task task;
  if bool_decide (t_state t = TaskState.ended) || t_queued t || d_queued (t_delay t)
     || w_queued (t_message_wait t)
  then park
  else
    h ← current_hart;
    mod_task task (<| t_cpu := Some h |>);;
    mod_task task (<| t_state := TaskState.running |>);;
    mod_hart h (<| current_task := Some task |>).

(** ** TimeManager: timeslices *)

Definition task_timeslice_ticks : Z := 100000.
Definition kIdleTimesliceTicks : Z := 1000000.

Definition idle_timeslice_ticks (local : HartLocal) : K Z :=
  match delay_list local with
  | None => mret kIdleTimesliceTicks
  | Some queue => now ← read_time; ticks_until_next queue now kIdleTimesliceTicks
  end.

(** ** Scheduler *)

Fixpoint reset_local_queues (index count : nat) : K unit :=
  match count with
  | O => mret tt
  | S n => RunQueue_reset (Local index);; reset_local_queues (S index) n
  end.

Definition Scheduler_initialize : K unit :=
  RunQueue_reset Global;; reset_local_queues 0 kMaxHarts.

Definition bind_hart (local : nat) : K unit :=
  h ← get_hart local;
  if Z.of_nat kMaxHarts <=? h_index h then park
  else
    mod_hart local (<| h_scheduler := true |>);;
    mod_hart local (<| scheduler_extra := Some (Z.to_nat (h_index h)) |>).

Definition add_task (task : nat) : K bool :=
  t ← get_task task;
  if bool_decide (t_state t = TaskState.ended) || t_idle t || bool_decide (t_cpu t = None)
     || d_queued (t_delay t) || t_queued t || w_queued (t_message_wait t)
  then mret false
  else if negb (t_affinity_pinned t =? 0) then
    cpu ← deref (t_cpu t);
    local ← get_hart cpu;
    match scheduler_extra local with
    | None => mret false
    | Some queue => RunQueue_insert (Local queue) task
    end
  else RunQueue_insert Global task.

Definition return_runnable : K unit :=
  c ← get_current_task;
  match c with
  | None => mret tt
  | Some task =>
      t ← get_task task;
      if t_idle t then mret tt
      else ok ← add_task task; if ok : bool then mret tt else park
  end.

(** [caller->cpu->scheduler->...]: the scheduler a task is bound to. *)
Definition scheduler_of (task : nat) : K unit :=
  t ← get_task task;
  cpu ← deref (t_cpu t);
  local ← get_hart cpu;
  if h_scheduler local then mret tt else undefined.

Definition set_next_runnable : K nat :=
  h ← current_hart;
  local ← get_hart h;
  selected ← match scheduler_extra local with
             | Some queue => RunQueue_remove (Local queue)
             | None => mret None
             end;
  selected ← match selected with
             | Some _ => mret selected
             | None =>
                 size ← RunQueue_size Global;
                 if size =? 0 then mret None else RunQueue_remove Global
             end;
  selected ← match selected with
             | None =>
                 ticks ← idle_timeslice_ticks local;
                 mod_hart h (<| timeslice_ticks := ticks |>);;
                 mret (idle_task local)
             | Some _ =>
                 mod_hart h (<| timeslice_ticks := task_timeslice_ticks |>);;
                 mret selected
             end;
  match selected with
  | None => park
  | Some task => set_current_task task;; mret task
  end.

(** ** Abstract scheduling

    The task [add_task] queues goes to the back of its hart's queue when it is
    pinned and to the back of the shared queue otherwise; a hart takes the
    first task of its own queue, else of the shared one, else its idle task. *)

Definition target_queue (t : Task) : RunQ :=
  if t_affinity_pinned t =? 0 then Global
  else match t_cpu t with Some c => Local c | None => Global end.

Definition enqueue (q : RunQ) (i : nat) (C : queues) : queues := <[QRun q := C (QRun q) ++ [i]]> C.

Definition pick (h it : nat) (C : queues) : nat * queues :=
  match C (QRun (Local h)) with
  | i :: l => (i, <[QRun (Local h) := l]> C)
  | [] => match C (QRun Global) with
          | i :: l => (i, <[QRun Global := l]> C)
          | [] => (it, C)
          end
  end.

(** The hart's record apart from what task selection writes. *)
Definition hart_frame (l : HartLocal) : HartLocal :=
  l <| current_task := None |> <| timeslice_ticks := 0 |>.

(** What scheduling on hart [h] leaves alone. *)
Record sched_frame (h : nat) (s s' : KState) : Prop := {
  sf_rest : rest s' = rest s; sf_eps : endpoints s' = endpoints s;
  sf_slots : slot_allocated s' = slot_allocated s; sf_delay : delay_queues s' = delay_queues s;
  sf_held : held s' = held s;
  sf_other : forall h', h' <> h -> harts s' !! h' = harts s !! h';
  sf_own : hart_frame <$> harts s' !! h = hart_frame <$> harts s !! h;
}.

Lemma run_sched_frame h s s' : run_frame s s' -> sched_frame h s s'.
Proof. intros []. split; auto; intros; by rewrite rf_harts. Qed.
Lemma sched_frame_trans h s1 s2 s3 : sched_frame h s1 s2 -> sched_frame h s2 s3 -> sched_frame h s1 s3.
Proof. intros [] []. split; try congruence. intros h' Hh. rewrite sf_other1; auto. Qed.

(** The invariant reads four fields of a hart. *)
Definition hart_bind (l : HartLocal) := (h_scheduler l, scheduler_extra l, delay_list l, idle_task l).

Lemma Inv_harts s s' C :
  Inv s C -> tasks s' = tasks s -> task_slots_used s' = task_slots_used s ->
  endpoints s' = endpoints s -> slot_allocated s' = slot_allocated s -> delay_queues s' = delay_queues s ->
  (forall q, get_rq q s' = get_rq q s) -> lock_log s' = lock_log s ->
  (forall h, hart_bind <$> harts s' !! h = hart_bind <$> harts s !! h) -> Inv s' C.
Proof.
  intros HI Et Eu Ee Es Ed Er Hlog Hh.
  assert (forall h l', harts s' !! h = Some l' -> exists l, harts s !! h = Some l /\ hart_bind l' = hart_bind l) as Hb.
  { intros h l' Hl. specialize (Hh h). rewrite Hl in Hh. simpl in Hh. symmetry in Hh.
    apply fmap_Some in Hh as (l&?&?). eauto. }
  assert (qstruct s' C) as HC.
  { apply (qstruct_frame s); [apply HI|by rewrite Et|rewrite Et; intros; by simplify_eq|].
    intros [r|h|w] hd tl n; simpl; by rewrite ?Er, ?Ed, ?Ee. }
  destruct HI as [_ I1 I2 I3 I4 I5 I6 I7 I8].
  split; rewrite ?Et, ?Ee, ?Es, ?Hlog; auto.
  - intros q i t Hi Ht. destruct (I1 q i t Hi Ht) as (?&?&(c&hl&Hc&Hhl&Hs)&?). rewrite Eu. split_and!; auto.
    specialize (Hh c). rewrite Hhl in Hh. apply fmap_Some in Hh as (l'&Hl'&E). exists c, l'. split_and!; auto.
    unfold hart_bind in E. congruence.
  - intros h l' Hl Hs. destruct (Hb h l' Hl) as (l&Hl0&E). unfold hart_bind in E.
    destruct (I5 h l Hl0) as (?&?&?&it&?&[Hid Hus]); [congruence|].
    split_and!; try congruence. exists it. split; [congruence|]. split; rewrite ?Et, ?Eu; auto.
  - intros h h' l1 l2 it H1 H2 E1 E2.
    destruct (Hb h l1 H1) as (m1&?&B1), (Hb h' l2 H2) as (m2&?&B2). unfold hart_bind in B1, B2.
    eapply (I6 h h' m1 m2 it); congruence.
Qed.

(** ** add_task *)

Lemma add_task_spec i t C (Q : bool -> KState -> Prop) e s :
  Inv s C -> tasks s !! i = Some t -> (forall k, flag_of k t = false) ->
  t_state t <> TaskState.ended -> t_idle t = false -> cpu_bound s t ->
  task_slots_used s !! i = Some true -> lock_fits (LRunQueue Global) (held s) ->
  (forall s' t', Inv s' (enqueue (target_queue t) i C) -> run_frame s s' -> only_task i s s' ->
     tasks s' !! i = Some t' ->
     core t' = core (t <| t_state := TaskState.ready |> <| t_queued := true |>) -> Q true s') ->
  wp False (add_task i) Q e s.
Proof.
  intros HI Ht Hf Hst Hid Hcpu Hus Hlock HQ. pose proof Hcpu as (c&hl&Hc&Hhl&Hsch).
  destruct (inv_bind _ _ HI c hl Hhl Hsch) as (Hex&_&Hlt&_).
  unfold add_task. ksteps.
  rewrite Hid, !bool_decide_false, (Hf LkRun : t_queued t = false), (Hf LkDelay : d_queued (t_delay t) = false),
    (Hf LkWait : w_queued (t_message_wait t) = false) by congruence. cbn [orb].
  unfold target_queue in HQ. destruct (t_affinity_pinned t =? 0); cbn [negb].
  - by eapply (RunQueue_insert_spec Global i t C).
  - rewrite Hc in *. ksteps. rewrite Hex.
    eapply (RunQueue_insert_spec (Local c) i t C); eauto.
Qed.

Definition target_of (ts : list Task) (i : nat) : RunQ :=
  match ts !! i with Some t => target_queue t | None => Global end.

Lemma core_target (ts ts' : list Task) i : core <$> ts' !! i = core <$> ts !! i -> target_of ts' i = target_of ts i.
Proof.
  unfold target_of, target_queue. intros E. destruct (ts' !! i) as [t'|], (ts !! i) as [t|]; try done.
  apply (inj Some), core_inv in E as (_&_&->&_&_&->&_). done.
Qed.

Lemma scheduler_of_spec i t (Q : unit -> KState -> Prop) e s :
  tasks s !! i = Some t -> cpu_bound s t -> Q tt s -> wp False (scheduler_of i) Q e s.
Proof.
  intros Ht (c&hl&Hc&Hl&Hs) HQ. unfold scheduler_of. ksteps. rewrite Hs. by apply wp_ret.
Qed.

(** ** Waking a task *)

(** [s'] differs from [s] in the task table only. *)
Record tasks_only (s s' : KState) : Prop := {
  to_rest : rest s' = rest s; to_harts : harts s' = harts s; to_eps : endpoints s' = endpoints s;
  to_slots : slot_allocated s' = slot_allocated s; to_delay : delay_queues s' = delay_queues s;
  to_rq : forall q, get_rq q s' = get_rq q s; to_clock : clock_reads s' = clock_reads s;
  to_held : held s' = held s; to_log : lock_log s' = lock_log s;
}.

(** [t'] may differ from [t] in registers and [state_info]. *)
Definition resumable (t t' : Task) : Prop :=
  t_state t' = t_state t /\ t_idle t' = t_idle t /\ t_cpu t' = t_cpu t /\
  t_affinity_pinned t' = t_affinity_pinned t /\ length (ctx_x (t_context t')) = 32%nat /\
  forall k, links_of k t' = links_of k t /\ flag_of k t' = flag_of k t.

(** A blocked task that is in no queue gets its result registers written and
    is made ready. *)
Lemma wake_spec i t t' C (Q : bool -> KState -> Prop) e s s2 :
  Inv s C -> tasks s !! i = Some t -> (forall k, flag_of k t = false) ->
  t_state t <> TaskState.ended -> t_idle t = false -> cpu_bound s t -> task_slots_used s !! i = Some true ->
  lock_fits (LRunQueue Global) (held s) ->
  tasks s2 = <[i := t']> (tasks s) -> tasks_only s s2 -> resumable t t' ->
  (forall s' t2, Inv s' (enqueue (target_queue t) i C) -> run_frame s s' -> only_task i s s' ->
     tasks s' !! i = Some t2 -> core t2 = core (t' <| t_state := TaskState.ready |> <| t_queued := true |>) ->
     Q true s') ->
  wp False (add_task i) Q e s2.
Proof.
  intros HI Ht Hf Hst Hid Hcpu Hus Hlock Ets Hto (E1&E2&E3&E4&E5&E6) HQ.
  assert (task_slots_used s2 = task_slots_used s) as Eu by (apply rest_used, Hto).
  assert (tasks s2 !! i = Some t') as Ht2 by (rewrite Ets; apply list_lookup_insert_eq; by eapply lookup_lt_Some).
  assert (Inv s2 C) as HI2.
  { eapply (Inv_task s s2 C i t t'); try done; try apply Hto; [by right|].
    rewrite (to_log _ _ Hto). apply HI. }
  eapply (add_task_spec i t' C); try done.
  - intros k. destruct (E6 k) as [_ ->]. apply Hf.
  - by rewrite E1.
  - by rewrite E2.
  - destruct Hcpu as (c&hl&?&?&?). exists c, hl. by rewrite E3, (to_harts _ _ Hto).
  - by rewrite Eu.
  - by rewrite (to_held _ _ Hto).
  - intros s' t2 HI' Hfr [Hlen Hot] Ht2' Hcore. apply (HQ s' t2); try done.
    + assert (target_queue t = target_queue t') as -> by (unfold target_queue; by rewrite E4, E3). done.
    + destruct Hto, Hfr. split; congruence.
    + split; [by rewrite Hlen, Ets, length_insert|]. intros j Hj. by rewrite Hot, Ets, list_lookup_insert_ne.
Qed.

(** ** The current task *)

(** [s'] is [s] after hart [h] was given task [i]. *)
Record dispatched (h i : nat) (s s' : KState) : Prop := {
  di_task : exists t', tasks s' !! i = Some t' /\ t_state t' = TaskState.running /\ t_cpu t' = Some h /\
    forall t, tasks s !! i = Some t -> t_context t' = t_context t /\ t_tid t' = t_tid t /\ t_idle t' = t_idle t /\
      t_affinity_pinned t' = t_affinity_pinned t;
  di_hart : exists l', harts s' !! h = Some l' /\ current_task l' = Some i /\
    0 <= timeslice_ticks l' <= kIdleTimesliceTicks;
  di_only : only_task i s s';
}.

Lemma hart_frame_bind l l' : hart_frame l' = hart_frame l -> hart_bind l' = hart_bind l.
Proof. intros H. exact (f_equal hart_bind H). Qed.

Lemma set_current_task_spec i t hl C (Q : unit -> KState -> Prop) e s :
  Inv s C -> Running (Some (e_hart e)) s -> tasks s !! i = Some t -> harts s !! e_hart e = Some hl ->
  (forall k, flag_of k t = false) -> t_state t <> TaskState.ended -> task_slots_used s !! i = Some true ->
  (t_idle t = true -> idle_task hl = Some i) ->
  (forall h l, h <> e_hart e -> harts s !! h = Some l -> current_task l <> Some i) ->
  0 <= timeslice_ticks hl <= kIdleTimesliceTicks ->
  (forall s', Inv s' C -> Running None s' -> dispatched (e_hart e) i s s' -> sched_frame (e_hart e) s s' ->
     clock_reads s' = clock_reads s -> Q tt s') ->
  wp False (set_current_task i) Q e s.
Proof.
  intros HI HR Ht Hh Hf Hst Hus Hid Hoth Hticks HQ. unfold set_current_task. ksteps.
  rewrite bool_decide_false, (Hf LkRun : t_queued t = false), (Hf LkDelay : d_queued (t_delay t) = false),
    (Hf LkWait : w_queued (t_message_wait t) = false) by done. cbn [orb].
  ksteps. set (t' := t <| t_cpu := Some (e_hart e) |> <| t_state := TaskState.running |>).
  match goal with |- Q _ ?x => set (s' := x) end.
  assert (tasks s' = <[i := t']> (tasks s)) as Ets.
  { unfold s'. knorm. apply list_eq. intros j. rewrite !lookup_alter_if.
    destruct (decide (j = i)) as [->|Hj]; [|by rewrite list_lookup_insert_ne, !option_fmap_id].
    rewrite Ht, list_lookup_insert_eq; [done|by eapply lookup_lt_Some]. }
  assert (tasks s' !! i = Some t') as Hi by (rewrite Ets; apply list_lookup_insert_eq; by eapply lookup_lt_Some).
  assert (forall h, harts s' !! h = (if decide (h = e_hart e) then <| current_task := Some i |> else id) <$> harts s !! h) as Ehs.
  { intros h. unfold s'. knorm. by rewrite lookup_alter_if. }
  assert (sched_frame (e_hart e) s s') as Hsf.
  { split; try done; [intros h' Hh'|]; rewrite Ehs; case_decide; try done; by rewrite ?option_fmap_id, ?Hh. }
  assert (only_task i s s') as Hot.
  { split; [by rewrite Ets, length_insert|]. intros j Hj. by rewrite Ets, list_lookup_insert_ne. }
  apply HQ; [| | |done|done].
  - apply (Inv_harts (set_field tasks (fun _ => tasks s') s)); try done.
    + eapply (Inv_task s _ C i t t'); try done; [by eapply (inv_context _ _ HI i t)|by left|apply HI].
    + intros h. rewrite Ehs. knorm. case_decide; [|by rewrite option_fmap_id]. by destruct (harts s !! h).
  - split.
    + intros h l j _ Hl Hc. rewrite Ehs in Hl. apply fmap_Some in Hl as (l0&Hl0&->).
      destruct (decide (h = e_hart e)) as [->|Hne].
      * rewrite Hh in Hl0. injection Hl0 as <-. simpl in Hc. injection Hc as <-. exists t'. split_and!; try done.
      * simpl in Hc. destruct (run_task _ _ HR h l0 j) as (tj&Hj&?); auto; [congruence|].
        exists tj. rewrite Ets, list_lookup_insert_ne; [done|]. intros ->. by eapply Hoth.
    + intros h h' l l' j _ _ Hl Hl' Hc Hc'. rewrite Ehs in Hl, Hl'.
      apply fmap_Some in Hl as (l0&Hl0&->). apply fmap_Some in Hl' as (l1&Hl1&->).
      destruct (decide (h = e_hart e)) as [->|Hne], (decide (h' = e_hart e)) as [->|Hne']; simpl in *; auto.
      * injection Hc as <-. by destruct (Hoth h' l1).
      * injection Hc' as <-. by destruct (Hoth h l0).
      * eapply (run_inj _ _ HR h h'); eauto; congruence.
  - split; [|..|done].
    + exists t'. split_and!; try done. intros t0 Ht0. by simplify_eq.
    + rewrite Ehs, decide_True, Hh by done. simpl. eauto.
Qed.

(** ** Time *)

Lemma wp_read_time pk e (Q : Z -> KState -> Prop) s :
  Q (u64 (e_clock e (clock_reads s))) (s <| clock_reads := S (clock_reads s) |>) -> wp pk read_time Q e s.
Proof. done. Qed.

(** The idle timeslice ends with the first sleeper, at the latest. *)
Lemma idle_timeslice_ticks_spec hl C (Q : Z -> KState -> Prop) e s h :
  Inv s C -> harts s !! h = Some hl -> h_scheduler hl = true -> lock_fits (LRunQueue Global) (held s) ->
  (forall s' ticks, Inv s' C -> sched_frame h s s' -> harts s' = harts s -> tasks s' = tasks s ->
     (0 <= ticks <= kIdleTimesliceTicks) -> Q ticks s') ->
  wp False (idle_timeslice_ticks hl) Q e s.
Proof.
  intros HI Hh Hsch Hlock HQ. destruct (inv_bind _ _ HI h hl Hh Hsch) as (_&Hdl&Hlt&_).
  unfold idle_timeslice_ticks. rewrite Hdl. apply wp_bind, wp_read_time.
  eapply (ticks_until_next_spec h _ _ C); [|done|by eapply fits_rank|].
  { eapply Inv_same; [exact HI|done..|apply HI]. }
  intros s' HI' Hfr Ets Edq. apply HQ; [done| |apply Hfr|done|].
  { destruct Hfr as [F1 F2 F3 F4 F5 F6 F7]. split; [exact F1|exact F3|exact F4| |exact F7|..].
    - exact Edq.
    - intros h' _. by rewrite F2.
    - by rewrite F2. }
  unfold kIdleTimesliceTicks. destruct (head _) as [x|]; [|lia].
  destruct (Z.leb_spec (deadline_of (tasks (s <| clock_reads := S (clock_reads s) |>)) x)
    (u64 (e_clock e (clock_reads s)))); lia.
Qed.

(** ** Selection of the next task *)

Lemma Running_frame X s s' :
  Running X s -> tasks s' = tasks s -> harts s' = harts s -> task_slots_used s' = task_slots_used s -> Running X s'.
Proof. intros [R1 R2] Et Eh Eu. split; rewrite ?Et, ?Eh, ?Eu; auto. Qed.

(** The end of [set_next_runnable]: the timeslice is stored and the task
    becomes current. *)
Lemma select_spec i t hl C ticks (Q : nat -> KState -> Prop) e s :
  Inv s C -> Running (Some (e_hart e)) s -> tasks s !! i = Some t -> harts s !! e_hart e = Some hl ->
  (forall k, flag_of k t = false) -> t_state t <> TaskState.ended -> task_slots_used s !! i = Some true ->
  (t_idle t = true -> idle_task hl = Some i) ->
  (forall h l, h <> e_hart e -> harts s !! h = Some l -> current_task l <> Some i) ->
  0 <= ticks <= kIdleTimesliceTicks ->
  (forall s', Inv s' C -> Running None s' -> dispatched (e_hart e) i s s' -> sched_frame (e_hart e) s s' -> Q i s') ->
  wp False (mod_hart (e_hart e) (<| timeslice_ticks := ticks |>);; (set_current_task i;; mret i)) Q e s.
Proof.
  intros HI HR Ht Hh Hf Hst Hus Hid Hoth Hticks HQ. ksteps.
  set (s1 := set_field harts _ s).
  assert (forall h, harts s1 !! h = (if decide (h = e_hart e) then <| timeslice_ticks := ticks |> else id) <$> harts s !! h) as Ehs.
  { intros h. unfold s1. knorm. by rewrite lookup_alter_if. }
  assert (forall h l, harts s1 !! h = Some l -> exists l0, harts s !! h = Some l0 /\
    current_task l = current_task l0 /\ idle_task l = idle_task l0) as Hl.
  { intros h l Hl. rewrite Ehs in Hl. apply fmap_Some in Hl as (l0&?&->). exists l0. by case_decide. }
  assert (sched_frame (e_hart e) s s1) as Hsf.
  { split; try done; [intros h' Hh'|]; rewrite Ehs; case_decide; try done; by rewrite ?option_fmap_id, ?Hh. }
  eapply (set_current_task_spec i t (hl <| timeslice_ticks := ticks |>) C); try done.
  - eapply (Inv_harts s); try done. intros h. rewrite Ehs. case_decide; [|by rewrite option_fmap_id].
    by destruct (harts s !! h).
  - split.
    + intros h l j Hne Hhl Hc. destruct (Hl h l Hhl) as (l0&Hl0&Ec&->). rewrite Ec in Hc.
      by apply (run_task _ _ HR h l0 j).
    + intros h h' l l' j Hn Hn' H1 H2 Hc Hc'. destruct (Hl h l H1) as (l0&?&E1&_), (Hl h' l' H2) as (l1&?&E2&_).
      apply (run_inj _ _ HR h h' l0 l1 j); congruence.
  - rewrite Ehs, decide_True, Hh; done.
  - intros h l Hne Hhl. destruct (Hl h l Hhl) as (l0&Hl0&->&_). by eapply Hoth.
  - intros s' HI' HR' Hdi Hfr _. apply wp_ret. apply HQ; [done|done| |by eapply sched_frame_trans].
    destruct Hdi. split; auto.
Qed.

Lemma dispatched_tasks h i s s1 s' : tasks s1 = tasks s -> dispatched h i s1 s' -> dispatched h i s s'.
Proof.
  intros E [(t'&?&?&?&Ht) H2 H3]. split; [|done|].
  - exists t'. split_and!; auto. intros t. rewrite <- E. apply Ht.
  - unfold only_task in *. by rewrite <- E.
Qed.

(** The first task of a run queue, just removed, is dispatched. *)
Lemma dispatch_popped q i l t t' hl C ticks (Q : nat -> KState -> Prop) e s s1 :
  Inv s C -> Running (Some (e_hart e)) s -> C (QRun q) = i :: l -> tasks s !! i = Some t ->
  Inv s1 (<[QRun q := l]> C) -> run_frame s s1 -> only_task i s s1 ->
  tasks s1 !! i = Some t' -> core t' = core (t <| t_queued := false |>) -> harts s !! e_hart e = Some hl ->
  0 <= ticks <= kIdleTimesliceTicks ->
  (forall s', Inv s' (<[QRun q := l]> C) -> Running None s' -> dispatched (e_hart e) i s s' ->
     sched_frame (e_hart e) s s' -> Q i s') ->
  wp False (mod_hart (e_hart e) (<| timeslice_ticks := ticks |>);; (set_current_task i;; mret i)) Q e s1.
Proof.
  intros HI HR HCq Ht HI1 Hfr Hot Ht' Hcore Hh Hticks HQ.
  assert (i ∈ C (QRun q)) as Hiq by (rewrite HCq; set_solver).
  destruct (inv_member _ _ HI _ i t Hiq Ht) as (Hst&Hid&Hcpu&Hus). simpl in Hst.
  apply core_inv in Hcore as (Es&Ei&_&Etid&Ectx&Eaff&_&Ef).
  assert (forall h l, h <> e_hart e -> harts s !! h = Some l -> current_task l <> Some i) as Hnc.
  { intros h l' Hne Hl'. eapply Running_not_queued; eauto; [apply HI|congruence]. }
  assert (Running (Some (e_hart e)) s1) as HR1.
  { apply (Running_update _ s s1 i); [done|done| |apply Hfr|apply rest_used, Hfr].
    intros h l' Hne. apply Hnc. congruence. }
  eapply (select_spec i t' hl); eauto.
  - by rewrite (rf_harts _ _ Hfr).
  - intros k. rewrite Ef. destruct k; [done|..].
    + by apply (member_flags s C (QRun q) i t LkDelay (inv_q _ _ HI)).
    + by apply (member_flags s C (QRun q) i t LkWait (inv_q _ _ HI)).
  - rewrite Es. simpl. congruence.
  - by rewrite (rest_used _ _ (rf_rest _ _ Hfr)).
  - rewrite Ei. simpl. congruence.
  - rewrite (rf_harts _ _ Hfr). apply Hnc.
  - intros s' HI' HR' [(t2&Ht2&?&?&Hk) Hd2 Hd3] Hsf. apply HQ; auto.
    + split; [|done|by eapply only_task_trans]. exists t2. split_and!; auto. intros t0 Ht0. simplify_eq.
      destruct (Hk t' Ht') as (->&->&->&->). by rewrite Ectx, Etid, Ei, Eaff.
    + eapply sched_frame_trans; [by apply run_sched_frame|done].
Qed.

(** The three ways a task is found, with the state the dispatch starts from. *)
Lemma set_next_runnable_spec hl it C (Q : nat -> KState -> Prop) e s :
  Inv s C -> Running (Some (e_hart e)) s -> harts s !! e_hart e = Some hl -> h_scheduler hl = true ->
  idle_task hl = Some it -> lock_fits (LRunQueue Global) (held s) ->
  (forall s', Inv s' (pick (e_hart e) it C).2 -> Running None s' ->
     dispatched (e_hart e) (pick (e_hart e) it C).1 s s' -> sched_frame (e_hart e) s s' ->
     Q (pick (e_hart e) it C).1 s') ->
  wp False set_next_runnable Q e s.
Proof.
  intros HI HR Hh Hsch Hit Hlock HQ.
  destruct (inv_bind _ _ HI _ hl Hh Hsch) as (Hex&Hdl&Hlt&it'&Hit'&[(ti&Hti&Hidle&Hnend) Hiu]).
  rewrite Hit in Hit'. injection Hit' as <-.
  unfold set_next_runnable, pick in *. ksteps. rewrite Hex.
  apply (RunQueue_remove_spec (Local (e_hart e)) C); [done|done|by eapply fits_rank| |].
  2: { intros i l t s1 t' HCq Ht HI1 Hfr Hot Ht' Hcore. rewrite HCq in HQ. apply wp_bind, wp_ret.
    apply wp_bind, wp_bind. apply (wp_bind_inv False _ (fun _ => set_current_task i;; mret i)).
    by eapply (dispatch_popped (Local (e_hart e)) i l t t' hl C). }
  intros HC1 s1 HI1 Hfr1 Ets1. rewrite HC1 in HQ.
  assert (Running (Some (e_hart e)) s1) as HR1
    by (apply (Running_frame _ s); [done|done|apply Hfr1|apply rest_used, Hfr1]).
  assert (lock_fits (LRunQueue Global) (held s1)) as Hlock1 by (by rewrite (rf_held _ _ Hfr1)).
  apply wp_bind, wp_bind. apply (RunQueue_size_spec Global C); [done|done|done|].
  intros s2 HI2 Hfr2 Ets2.
  assert (Running (Some (e_hart e)) s2) as HR2
    by (apply (Running_frame _ s1); [done|done|apply Hfr2|apply rest_used, Hfr2]).
  assert (harts s2 = harts s) as Eh2 by (by rewrite (rf_harts _ _ Hfr2), (rf_harts _ _ Hfr1)).
  assert (tasks s2 = tasks s) as Et2 by congruence.
  assert (sched_frame (e_hart e) s s2) as Hsf2
    by (eapply sched_frame_trans; apply run_sched_frame; [exact Hfr1|exact Hfr2]).
  assert (lock_fits (LRunQueue Global) (held s2)) as Hlock2 by (by rewrite (rf_held _ _ Hfr2)).
  destruct (C (QRun Global)) as [|i l] eqn:HC2; simpl (length _).
  - cbn [Z.of_nat Z.eqb]. apply wp_ret. apply wp_bind, wp_bind.
    apply (idle_timeslice_ticks_spec hl C _ _ _ (e_hart e)); [done|by rewrite Eh2|done|done|].
    intros s3 ticks HI3 Hsf3 Eh3 Et3 Hticks. apply wp_bind.
    rewrite Hit. apply (wp_bind_inv False _ (fun _ => set_current_task it;; mret it)).
    assert (task_slots_used s3 = task_slots_used s) as Eu
      by (rewrite (rest_used _ _ (sf_rest _ _ _ Hsf3)); apply rest_used, Hsf2).
    assert (tasks s3 = tasks s) as Et by congruence.
    apply (select_spec it ti hl C); try (rewrite ?Et, ?Eu, ?Eh3, ?Eh2; done); auto.
    + apply (Running_frame _ s); [done..|congruence|done].
    + by apply (idle_unqueued s C it ti).
    + rewrite Eh3, Eh2. intros h l' Hne Hl' Hc.
      destruct (run_task _ _ HR h l' it) as (tx&Htx&_&_&_&_&Hx); [congruence|done|done|]. simplify_eq.
      apply Hne. by apply (inv_idle_inj _ _ HI h (e_hart e) l' hl it); auto.
    + intros s' HI' HR' Hdi Hsf. apply HQ; [done|done|by eapply dispatched_tasks|].
      eapply sched_frame_trans; [exact Hsf2|]. by eapply sched_frame_trans.
  - replace (Z.of_nat (S (length l)) =? 0) with false by (symmetry; apply Z.eqb_neq; lia).
    apply (RunQueue_remove_spec Global C); [done|done|done|congruence|].
    intros i' l' t s3 t' HCq Ht HI3 Hfr3 Hot Ht' Hcore. rewrite HC2 in HCq. injection HCq as <- <-.
    apply wp_bind, wp_bind. apply (wp_bind_inv False _ (fun _ => set_current_task i;; mret i)).
    eapply (dispatch_popped Global i l t t' hl C); try done; [by rewrite Eh2|].
    intros s' HI' HR' Hdi Hsf. apply HQ; [done|done|by eapply dispatched_tasks|by eapply sched_frame_trans].
Qed.

(** ** Giving the current task back *)

(** The abstract effect of [return_runnable] for the task [t] in slot [i]. *)
Definition give_back (i : nat) (t : Task) (C : queues) : queues :=
  if t_idle t then C else enqueue (target_queue t) i C.

Lemma return_runnable_spec hl i t C (Q : unit -> KState -> Prop) e s :
  Inv s C -> Running None s -> harts s !! e_hart e = Some hl -> h_scheduler hl = true ->
  current_task hl = Some i -> tasks s !! i = Some t -> lock_fits (LRunQueue Global) (held s) ->
  (forall s', Inv s' (give_back i t C) -> Running (Some (e_hart e)) s' -> run_frame s s' -> only_task i s s' ->
     (exists t', tasks s' !! i = Some t' /\ t_context t' = t_context t /\ t_tid t' = t_tid t /\ t_idle t' = t_idle t /\
        t_affinity_pinned t' = t_affinity_pinned t /\ t_cpu t' = t_cpu t) ->
     Q tt s') ->
  wp False return_runnable Q e s.
Proof.
  intros HI HR Hh Hsch Hc Ht Hlock HQ.
  destruct (run_task _ _ HR _ hl i ltac:(done) Hh Hc) as (t0&Ht0&Hst&Hcpu&Hf&Hus&_). simplify_eq.
  unfold return_runnable, get_current_task, current. ksteps. rewrite Hc. ksteps. unfold give_back in HQ.
  destruct (t_idle t) eqn:Eid.
  { apply wp_ret, HQ; [done|by apply Running_weaken|by split|by split|by exists t]. }
  apply wp_bind. eapply (add_task_spec i t C); try done; [by rewrite Hst| |].
  { by exists (e_hart e), hl. }
  intros s' t' HI' Hfr Hot Ht' Hcore. apply core_inv in Hcore as (_&Ei&Ecpu&Etid&Ectx&Eaff&_).
  apply wp_ret, HQ; [done| |done|done|by exists t'; rewrite Ectx, Etid, Ei, Eaff, Ecpu].
  apply (Running_update _ s s' i); [by apply Running_weaken|done| |apply Hfr|apply rest_used, Hfr].
  intros h l Hne Hl Hc'. apply Hne. f_equal. by apply (run_inj _ _ HR h (e_hart e) l hl i).
Qed.

(** ** Small changes *)

(** Changes of a task that the harts do not notice. *)
Lemma Running_mod_task X i f s :
  Running X s ->
  (forall t, t_state (f t) = t_state t /\ t_cpu (f t) = t_cpu t /\ t_idle (f t) = t_idle t /\
     forall k, flag_of k (f t) = flag_of k t) ->
  Running X (set_field tasks (alter f i) s).
Proof.
  intros [R1 R2] Hf. split; rproj; [|done]. intros h hl j HX Hh Hc.
  destruct (R1 h hl j HX Hh Hc) as (t&Ht&Hst&Hcpu&Hfl&Hus&Hid). rewrite lookup_alter_if, Ht.
  case_decide; [|by exists t]. exists (f t). destruct (Hf t) as (->&->&->&Hk). split_and!; try done.
  intros k. by rewrite Hk.
Qed.

(** Changes of a hart outside its binding and its current task. *)
Lemma Inv_mod_hart h f s C :
  Inv s C -> (forall l, hart_bind (f l) = hart_bind l) -> Inv (set_field harts (alter f h) s) C.
Proof.
  intros HI Hf. apply (Inv_harts s); try done. intros h'. rproj. rewrite lookup_alter_if.
  case_decide; [|by rewrite option_fmap_id]. destruct (harts s !! h'); [|done]. simpl. by rewrite Hf.
Qed.

Lemma Running_mod_hart X h f s :
  Running X s -> (forall l, hart_bind (f l) = hart_bind l /\ current_task (f l) = current_task l) ->
  Running X (set_field harts (alter f h) s).
Proof.
  intros [R1 R2] Hf.
  assert (forall h' l', alter f h (harts s) !! h' = Some l' -> exists l, harts s !! h' = Some l /\
    current_task l' = current_task l /\ idle_task l' = idle_task l) as Hl.
  { intros h' l' Hl. rewrite lookup_alter_if in Hl. apply fmap_Some in Hl as (l&Hl&->). exists l.
    case_decide; [|done]. destruct (Hf l) as [Hb ?]. unfold hart_bind in Hb. split_and!; [done..|congruence]. }
  split; rproj.
  - intros h' l' j HX Hh Hc. destruct (Hl h' l' Hh) as (l&Hl0&Ec&->). apply (R1 h' l j); congruence.
  - intros h1 h2 l1 l2 j HX1 HX2 H1 H2 Hc1 Hc2. destruct (Hl h1 l1 H1) as (m1&?&E1&_), (Hl h2 l2 H2) as (m2&?&E2&_).
    apply (R2 h1 h2 m1 m2 j); congruence.
Qed.

(** ** Rescheduling *)

(** The scheduler's part of a yield: the current task is given back and the
    next one is dispatched. *)
Definition reschedule : K nat := return_runnable;; set_next_runnable.

(** What scheduling leaves of a task. *)
Definition identity (t : Task) := (t_context t, t_affinity_pinned t, t_idle t, t_tid t).

Lemma core_identity (o o' : option Task) : core <$> o' = core <$> o -> identity <$> o' = identity <$> o.
Proof.
  destruct o' as [x|], o as [y|]; try done. simpl. intros E%(inj Some). f_equal. unfold identity.
  by apply core_inv in E as (_&->&_&->&->&->&_).
Qed.

(** A task that waits for a child is neither queued nor picked, and stays as
    it is. *)
Definition joining (t : Task) : Prop := t_state t = TaskState.blocked_join /\ t_idle t = false.
Definition undisturbed (s s' : KState) : Prop :=
  forall x t, tasks s !! x = Some t -> joining t -> core <$> tasks s' !! x = Some (core t).

Lemma joining_core t t' : core t' = core t -> joining t -> joining t'.
Proof. intros (E1&E2&_)%core_inv. unfold joining. by rewrite E1, E2. Qed.

Lemma undisturbed_trans s1 s2 s3 : undisturbed s1 s2 -> undisturbed s2 s3 -> undisturbed s1 s3.
Proof.
  intros H1 H2 x t Ht Hj. specialize (H1 x t Ht Hj). apply fmap_Some in H1 as (t2&Ht2&E). rewrite E.
  apply H2; [done|]. by eapply joining_core.
Qed.

Lemma undisturbed_only i s s' :
  only_task i s s' -> (forall t, tasks s !! i = Some t -> ~ joining t) -> undisturbed s s'.
Proof. intros [_ Ho] Hi x t Ht Hj. rewrite Ho; [by rewrite Ht|]. intros ->. by eapply Hi. Qed.

Lemma queued_not_joining s C q i t : Inv s C -> i ∈ C q -> tasks s !! i = Some t -> ~ joining t.
Proof. intros HI Hi Ht [Hst _]. destruct (inv_member _ _ HI q i t Hi Ht) as (E&_). rewrite Hst in E. by destruct q. Qed.

Lemma running_not_joining s h hl i t :
  Running None s -> harts s !! h = Some hl -> current_task hl = Some i -> tasks s !! i = Some t -> ~ joining t.
Proof.
  intros HR Hh Hc Ht [Hst _]. destruct (run_task _ _ HR h hl i ltac:(done) Hh Hc) as (t0&Ht0&E&_). congruence.
Qed.

Lemma pick_not_joining s C h hl it t :
  Inv s C -> harts s !! h = Some hl -> h_scheduler hl = true -> idle_task hl = Some it ->
  tasks s !! (pick h it C).1 = Some t -> ~ joining t.
Proof.
  intros HI Hh Hs Hit Ht. unfold pick in Ht. destruct (C (QRun (Local h))) as [|i l] eqn:E1.
  - destruct (C (QRun Global)) as [|i l] eqn:E2.
    + destruct (inv_bind _ _ HI h hl Hh Hs) as (_&_&_&it'&Hit'&[(ti&Hti&Hid&_) _]). intros [_ Hw]. simpl in Ht. congruence.
    + eapply queued_not_joining; [done| |exact Ht]. simpl. rewrite E2. set_solver.
  - eapply queued_not_joining; [done| |exact Ht]. simpl. rewrite E1. set_solver.
Qed.

Lemma reschedule_spec hl it i t C (Q : nat -> KState -> Prop) e s :
  Inv s C -> Running None s -> harts s !! e_hart e = Some hl -> h_scheduler hl = true ->
  idle_task hl = Some it -> current_task hl = Some i -> tasks s !! i = Some t ->
  lock_fits (LRunQueue Global) (held s) ->
  (forall s', Inv s' (pick (e_hart e) it (give_back i t C)).2 -> Running None s' ->
     sched_frame (e_hart e) s s' ->
     (exists l', harts s' !! e_hart e = Some l' /\ current_task l' = Some (pick (e_hart e) it (give_back i t C)).1 /\
        0 <= timeslice_ticks l' <= kIdleTimesliceTicks) ->
     (forall k, identity <$> tasks s' !! k = identity <$> tasks s !! k) -> undisturbed s s' ->
     Q (pick (e_hart e) it (give_back i t C)).1 s') ->
  wp False reschedule Q e s.
Proof.
  intros HI HR Hh Hsch Hit Hc Ht Hlock HQ. unfold reschedule. apply wp_bind.
  eapply (return_runnable_spec hl i t C); try done.
  intros s1 HI1 HR1 Hfr1 [Hlen1 Hot1] (t1&Ht1&E1&E2&E3&E4&_).
  eapply (set_next_runnable_spec hl it (give_back i t C)); try done.
  - by rewrite (rf_harts _ _ Hfr1).
  - by rewrite (rf_held _ _ Hfr1).
  - intros s2 HI2 HR2 [(t2&Ht2&_&_&Hk) Hha [Hlen2 Hot2]] Hsf2.
    apply HQ; [done|done| |done| |].
    { eapply sched_frame_trans; [by apply run_sched_frame|done]. }
    2: { apply (undisturbed_trans s s1 s2).
      - apply (undisturbed_only i); [done|]. intros t0. by eapply (running_not_joining s).
      - apply (undisturbed_only (pick (e_hart e) it (give_back i t C)).1); [done|]. intros t0.
        apply (pick_not_joining s1 _ _ hl); try done. by rewrite (rf_harts _ _ Hfr1). }
    intros k. trans (identity <$> tasks s1 !! k).
    + destruct (decide (k = (pick (e_hart e) it (give_back i t C)).1)) as [->|Hne].
      * rewrite Ht2. destruct (tasks s1 !! (pick (e_hart e) it (give_back i t C)).1) as [t0|] eqn:E0.
        -- simpl. unfold identity. destruct (Hk t0 eq_refl) as (->&->&->&->). done.
        -- apply lookup_lt_Some in Ht2. apply lookup_ge_None in E0. lia.
      * apply core_identity. auto.
    + destruct (decide (k = i)) as [->|Hne].
      * rewrite Ht1, Ht. simpl. unfold identity. by rewrite E1, E2, E3, E4.
      * apply core_identity. auto.
Qed.

(** [n] consecutive reschedules of one hart. *)
Fixpoint reschedules (n : nat) : K unit :=
  match n with O => mret tt | S n' => _ ← reschedule; reschedules n' end.

(** No task is pinned to a hart. *)
Definition unpinned (s : KState) : Prop := forall j t, tasks s !! j = Some t -> t_affinity_pinned t = 0.

(** The order in which hart [h] serves the ready tasks: its own queue, then the
    shared one. *)
Definition service_order (h : nat) (C : queues) : list nat := C (QRun (Local h)) ++ C (QRun Global).

(** A task that is not pinned goes to the end of it. *)
Lemma give_back_order h i t C : t_affinity_pinned t = 0 ->
  exists r, give_back i t C (QRun Global) = C (QRun Global) ++ r /\ give_back i t C (QRun (Local h)) = C (QRun (Local h)).
Proof.
  intros Hp. unfold give_back, enqueue, target_queue. rewrite Hp. destruct (t_idle t); [exists []; by rewrite app_nil_r|].
  exists [i]. by rewrite fn_lookup_insert, fn_lookup_insert_ne.
Qed.

Lemma reschedules_reach before x after hl C e s :
  Inv s C -> Running None s -> harts s !! e_hart e = Some hl -> h_scheduler hl = true ->
  is_Some (current_task hl) -> unpinned s -> lock_fits (LRunQueue Global) (held s) ->
  service_order (e_hart e) C = before ++ x :: after ->
  wp False (reschedules (S (length before)))
    (fun _ s' => exists l', harts s' !! e_hart e = Some l' /\ current_task l' = Some x) e s.
Proof.
  revert after hl C s. induction before as [|y before IH]; intros after hl C s HI HR Hh Hsch [i Hc] Hun Hlock Hord.
  all: destruct (inv_bind _ _ HI _ hl Hh Hsch) as (_&_&_&it&Hit&_).
  all: destruct (run_task _ _ HR _ hl i ltac:(done) Hh Hc) as (t&Ht&_).
  all: destruct (give_back_order (e_hart e) i t C (Hun i t Ht)) as (r&Eg&El).
  all: assert (exists z rest, service_order (e_hart e) C = z :: rest /\ (pick (e_hart e) it (give_back i t C)).1 = z /\
    service_order (e_hart e) (pick (e_hart e) it (give_back i t C)).2 = rest ++ r) as (z&rest&Ez&Ep1&Ep2)
    by (unfold service_order in *; unfold pick; rewrite El, Eg; destruct (C (QRun (Local (e_hart e)))) as [|z l];
        [destruct (C (QRun Global)) as [|z l]; [done|]; exists z, l; split_and!; simpl; [done|done|];
         by rewrite fn_lookup_insert_ne, El, fn_lookup_insert
        |exists z, (l ++ C (QRun Global)); split_and!; simpl; [done|done|];
         by rewrite fn_lookup_insert, fn_lookup_insert_ne, Eg, app_assoc]).
  all: rewrite Hord in Ez; simpl in Ez; injection Ez as <- <-.
  all: cbn [reschedules length]; apply wp_bind; eapply (reschedule_spec hl it i t C); try done;
    intros s' HI' HR' Hsf (l'&Hl'&Hc'&_) Hid _; rewrite Ep1 in Hc'.
  { apply wp_ret. by exists l'. }
  apply (IH (after ++ r) l' _ s' HI' HR'); try done.
  - pose proof (sf_own _ _ _ Hsf) as E. rewrite Hl', Hh in E.
    apply (inj Some), hart_frame_bind in E. unfold hart_bind in E. congruence.
  - intros j tj Hj. specialize (Hid j). rewrite Hj in Hid. destruct (tasks s !! j) as [t0|] eqn:E0; [|done].
    simpl in Hid. injection Hid as Hid. unfold identity in Hid.
    assert (t_affinity_pinned tj = t_affinity_pinned t0) as -> by congruence. by eapply Hun.
  - by rewrite (sf_held _ _ _ Hsf).
  - rewrite Ep2, <- app_assoc. done.
Qed.

(** ** Properties *)

(** C11: Selection of the next task refines the abstract policy.  On a hart
    bound to the scheduler that is between tasks, [set_next_runnable] always
    returns a task: the first of the hart's own queue, else the first of the
    shared queue, else the hart's idle task.  That task is then running on this
    hart, no other hart runs it, exactly it left its queue, and the endpoint
    table, the delay queues and the other harts are untouched. *)
Theorem set_next_runnable_correct hl it C e s :
  Inv s C -> Running (Some (e_hart e)) s -> harts s !! e_hart e = Some hl -> h_scheduler hl = true ->
  idle_task hl = Some it -> lock_fits (LRunQueue Global) (held s) ->
  exists s', set_next_runnable e s = Done (pick (e_hart e) it C).1 s' /\
    Inv s' (pick (e_hart e) it C).2 /\ Running None s' /\
    dispatched (e_hart e) (pick (e_hart e) it C).1 s s' /\ sched_frame (e_hart e) s s'.
Proof.
  intros HI HR Hh Hsch Hit Hlock.
  destruct (wp_done set_next_runnable (fun r s' => r = (pick (e_hart e) it C).1 /\
    Inv s' (pick (e_hart e) it C).2 /\ Running None s' /\
    dispatched (e_hart e) (pick (e_hart e) it C).1 s s' /\ sched_frame (e_hart e) s s') e s)
    as (r&s'&Hrun&->&?); [|by exists s'].
  by eapply (set_next_runnable_spec hl it C).
Qed.

Lemma set_next_runnable_correct_witness :
  exists s', set_next_runnable (demo_env 0) demo_ready = Done 4%nat s' /\ Running None s'.
Proof.
  destruct (set_next_runnable_correct (demo_hart 0) 0 (<[QRun Global := [4%nat]]> quiet) (demo_env 0) demo_ready)
    as (s'&Hr&_&HR&_).
  - apply demo_ready_inv.
  - apply Running_weaken, demo_ready_running.
  - done.
  - done.
  - done.
  - vm_compute. constructor.
  - exists s'. split; [exact Hr|exact HR].
Defined.

(** A yield is a round-robin step.  [return_runnable] followed by
    [set_next_runnable] puts the running task at the back of its queue (an idle
    task is dropped), dispatches the next one as above, keeps the invariant and
    never parks; registers, identity and affinity of every task survive. *)
Lemma reschedule_correct hl it i t C e s :
  Inv s C -> Running None s -> harts s !! e_hart e = Some hl -> h_scheduler hl = true ->
  idle_task hl = Some it -> current_task hl = Some i -> tasks s !! i = Some t ->
  lock_fits (LRunQueue Global) (held s) ->
  exists s', (return_runnable;; set_next_runnable) e s = Done (pick (e_hart e) it (give_back i t C)).1 s' /\
    Inv s' (pick (e_hart e) it (give_back i t C)).2 /\ Running None s' /\
    forall k, identity <$> tasks s' !! k = identity <$> tasks s !! k.
Proof.
  intros HI HR Hh Hsch Hit Hc Ht Hlock.
  destruct (wp_done reschedule (fun r s' => r = (pick (e_hart e) it (give_back i t C)).1 /\
    Inv s' (pick (e_hart e) it (give_back i t C)).2 /\ Running None s' /\
    forall k, identity <$> tasks s' !! k = identity <$> tasks s !! k) e s)
    as (r&s'&Hrun&->&?); [|by exists s'].
  by eapply (reschedule_spec hl it i t C).
Qed.

Lemma reschedule_correct_witness :
  exists s', (return_runnable;; set_next_runnable) (demo_env 0) demo_ready = Done 4%nat s' /\ Running None s'.
Proof.
  destruct (reschedule_correct (demo_hart 0) 0 2 (demo_task 3 0 false) (<[QRun Global := [4%nat]]> quiet)
    (demo_env 0) demo_ready) as (s'&Hr&_&HR&_).
  - apply demo_ready_inv.
  - apply demo_ready_running.
  - done.
  - done.
  - done.
  - done.
  - done.
  - vm_compute. constructor.
  - exists s'. split; [exact Hr|exact HR].
Defined.
