(* ===== verification/TaskContext.v ===== *)
(** * Task contexts

    Models [microkernel/core/task_context.cpp] (and the two context operations
    of [task_manager.cpp] that call it): the durable register context of a
    task, its initial U-mode value, and its exchange with the trap frame. *)
From Stdlib Require Import ZArith Lia.
From stdpp Require Import base tactics sets functions gmap list.
From S2P Require Import Prelude KernelTypes KernelInv Demo Scheduler.
Local Open Scope Z_scope.

Definition kMstatusMppMask : Z := Z.shiftl 3 11.
Definition kMstatusMpie : Z := Z.shiftl 1 7.
Definition kMstatusMprv : Z := Z.shiftl 1 17.

Definition read_mstatus : K Z := h ← current_hart; c ← get_csr h; mret (mstatus c).
Definition read_satp : K Z := h ← current_hart; c ← get_csr h; mret (satp c).

Definition clear (context : TaskContext) : TaskContext :=
  mkContext (replicate (length (ctx_x context)) 0) 0 0 0.

(** The context as a function of the value of [mstatus] read. *)
Definition user_context (mstatus_value entry argument stack_top return_stub satp_value : Z)
    (context : TaskContext) : TaskContext :=
  let c := clear context in
  c <| ctx_x := <[10%nat := argument]> (<[2%nat := stack_top]> (<[1%nat := return_stub]> (ctx_x c))) |>
    <| ctx_mstatus := Z.lor (Z.land mstatus_value
         (Z.land (Z.lnot (Z.lor kMstatusMppMask kMstatusMprv)) UINT64_MAX)) kMstatusMpie |>
    <| ctx_mepc := entry |>
    <| ctx_satp := satp_value |>.

Definition initialize_user (task : nat) (entry argument stack_top return_stub satp_value : Z) : K unit :=
  ms ← read_mstatus;
  mod_task task (fun t => t <| t_context :=
    user_context ms entry argument stack_top return_stub satp_value (t_context t) |>).

Definition save_from_trap (satp_value : Z) (frame : TrapFrame) (context : TaskContext) : TaskContext :=
  mkContext (<[0%nat := 0]> (take 32 (fr_x frame))) (fr_mstatus frame) (fr_mepc frame) satp_value.

Definition restore_to_trap (context : TaskContext) (frame : TrapFrame) : TrapFrame :=
  frame <| fr_x := <[0%nat := 0]> (take 32 (ctx_x context)) |>
        <| fr_mstatus := ctx_mstatus context |>
        <| fr_mepc := ctx_mepc context |>.

Definition save_current_context (frame : TrapFrame) : K unit :=
  c ← get_current_task;
  match c with
  | None => park
  | Some task =>
      v ← read_satp;
      mod_task task (fun t => t <| t_context := save_from_trap v frame (t_context t) |>)
  end.

(** The frame that is restored; [satp] is written and the TLB flushed. *)
Definition restore_current_context (frame : TrapFrame) : K TrapFrame :=
  c ← get_current_task;
  match c with
  | None => park
  | Some task =>
      t ← get_task task;
      h ← current_hart;
      mod_csr h (<| satp := ctx_satp (t_context t) |>);;
      mret (restore_to_trap (t_context t) frame)
  end.

(** ** Symbolic execution *)

Lemma wp_get_csr pk e i c (Q : Csr -> KState -> Prop) s : csrs s !! i = Some c -> Q c s -> wp pk (get_csr i) Q e s.
Proof. intros Hc HQ. unfold get_csr. wp_steps. done. Qed.
Lemma wp_mod_csr pk e i f (Q : unit -> KState -> Prop) s :
  is_Some (csrs s !! i) -> Q tt (set_field csrs (alter f i) s) -> wp pk (mod_csr i f) Q e s.
Proof. intros [c Hc] HQ. unfold mod_csr. apply wp_bind. by apply (wp_get_csr _ _ i c). Qed.

Lemma save_current_context_spec hl i c frame (Q : unit -> KState -> Prop) e s :
  harts s !! e_hart e = Some hl -> current_task hl = Some i -> is_Some (tasks s !! i) ->
  csrs s !! e_hart e = Some c ->
  Q tt (set_field tasks (alter (fun t => t <| t_context := save_from_trap (satp c) frame (t_context t) |>) i) s) ->
  wp False (save_current_context frame) Q e s.
Proof.
  intros Hh Hc Ht Hcsr HQ. unfold save_current_context, get_current_task, current, read_satp. ksteps.
  rewrite Hc. ksteps. eapply wp_get_csr; [done|]. ksteps. done.
Qed.

Lemma restore_current_context_spec hl i t frame (Q : TrapFrame -> KState -> Prop) e s :
  harts s !! e_hart e = Some hl -> current_task hl = Some i -> tasks s !! i = Some t ->
  is_Some (csrs s !! e_hart e) ->
  Q (restore_to_trap (t_context t) frame)
    (set_field csrs (alter (<| satp := ctx_satp (t_context t) |>) (e_hart e)) s) ->
  wp False (restore_current_context frame) Q e s.
Proof.
  intros Hh Hc Ht Hcsr HQ. unfold restore_current_context, get_current_task, current. ksteps.
  rewrite Hc. ksteps. apply wp_mod_csr; [done|]. by apply wp_ret.
Qed.

(** ** Properties *)

(** C27: A task that loses the processor gets its machine state back.  Saving
    the trap frame on a hart writes the context of that hart's current task and
    nothing else.  Whenever later, in any state and on any hart, that task is
    current with the context then saved, restoring gives back into whatever
    frame every register, [mstatus] and [mepc] as they were at the save, and
    sets [satp] of the restoring hart to the address space the task was running
    in when it was saved; nothing else changes. *)
Theorem context_roundtrip hl i t c frame e s :
  harts s !! e_hart e = Some hl -> current_task hl = Some i -> tasks s !! i = Some t ->
  csrs s !! e_hart e = Some c -> length (fr_x frame) = 32%nat -> fr_x frame !! 0%nat = Some 0 ->
  exists s1 saved, save_current_context frame e s = Done tt s1 /\
    s1 = s <| tasks := <[i := t <| t_context := saved |>]> (tasks s) |> /\
    forall e2 s2 hl2 t2 c2 frame2,
      harts s2 !! e_hart e2 = Some hl2 -> current_task hl2 = Some i ->
      tasks s2 !! i = Some t2 -> t_context t2 = saved -> csrs s2 !! e_hart e2 = Some c2 ->
      restore_current_context frame2 e2 s2 = Done
        (frame2 <| fr_x := fr_x frame |> <| fr_mstatus := fr_mstatus frame |> <| fr_mepc := fr_mepc frame |>)
        (s2 <| csrs := <[e_hart e2 := c2 <| satp := satp c |>]> (csrs s2) |>).
Proof.
  intros Hh Hc Ht Hcsr Hlen H0.
  destruct (wp_done (save_current_context frame) (fun _ s1 => s1 =
    s <| tasks := <[i := t <| t_context := save_from_trap (satp c) frame (t_context t) |>]> (tasks s) |>) e s)
    as ([]&s1&Hrun&Es1).
  { eapply save_current_context_spec; eauto. unfold set_field.
    by rewrite (alter_insert _ i (tasks s) t Ht). }
  exists s1, (save_from_trap (satp c) frame (t_context t)). split_and!; [done|done|].
  clear s1 Hrun Es1. intros e2 s2 hl2 t2 c2 frame2 Hh2 Hc2 Ht2 Ectx Hcsr2.
  edestruct (wp_done (restore_current_context frame2)) as (r&s3&Hrun&E); [|rewrite Hrun; exact E].
  eapply restore_current_context_spec; eauto. rewrite Ectx. apply (f_equal2 Done).
  - unfold restore_to_trap, save_from_trap. rproj. cbn [ctx_x ctx_mstatus ctx_mepc].
    rewrite (take_ge (fr_x frame)) by lia. rewrite (list_insert_id _ _ _ H0), (take_ge (fr_x frame)) by lia.
    by rewrite (list_insert_id _ _ _ H0).
  - unfold set_field. by rewrite (alter_insert _ _ (csrs s2) c2 Hcsr2).
Qed.

(** [demo] with [satp] of hart 0 set. *)
Definition demo_satp (v : Z) (s : KState) : KState :=
  s <| csrs := <[0%nat := mkCsr 0 0 v 0 0 0 0]> (csrs s) |>.

(** Task 2 is saved in address space 9; the hart then runs in 5. *)
Lemma context_roundtrip_witness :
  exists s1 s3, save_current_context (zero_frame <| fr_mepc := 0x80011000 |>) (demo_env 0) (demo_satp 9 demo) = Done tt s1 /\
    restore_current_context zero_frame (demo_env 0) (demo_satp 5 s1) = Done (zero_frame <| fr_mepc := 0x80011000 |>) s3 /\
    satp <$> csrs s3 !! 0%nat = Some 9.
Proof.
  destruct (context_roundtrip (demo_hart 0) 2 (demo_task 3 0 false) (mkCsr 0 0 9 0 0 0 0)
    (zero_frame <| fr_mepc := 0x80011000 |>) (demo_env 0) (demo_satp 9 demo)) as (s1&saved&Hs&Es1&Hr).
  - done.
  - done.
  - done.
  - done.
  - done.
  - done.
  - subst s1. eexists _, _. split; [exact Hs|]. split.
    + eapply (Hr (demo_env 0)) with (c2 := mkCsr 0 0 5 0 0 0 0); reflexivity.
    + reflexivity.
Defined.

(** ** Bits of [mstatus] *)

Lemma mpp_bit b : 0 <= b -> Z.testbit kMstatusMppMask b = (b =? 11) || (b =? 12).
Proof.
  intros Hb. unfold kMstatusMppMask. change 3 with (Z.lor (Z.shiftl 1 0) (Z.shiftl 1 1)).
  rewrite Z.shiftl_lor, !Z.shiftl_shiftl, Z.lor_spec, !Z.shiftl_1_l by lia.
  rewrite !Z.pow2_bits_eqb by lia. f_equal; apply Z.eqb_sym.
Qed.

Lemma u64_bit_high z b : is_u64 z -> 64 <= b -> Z.testbit z b = false.
Proof.
  unfold is_u64. intros Hz Hb. rewrite <- (Z.mod_small z (2 ^ 64)) by done. by rewrite Z.mod_pow2_bits_high.
Qed.

Lemma user_mstatus_bit ms b : is_u64 ms -> 0 <= b ->
  Z.testbit (Z.lor (Z.land ms (Z.land (Z.lnot (Z.lor kMstatusMppMask kMstatusMprv)) UINT64_MAX)) kMstatusMpie) b =
  (Z.testbit ms b && negb ((b =? 11) || (b =? 12) || (b =? 17))) || (b =? 7).
Proof.
  intros Hms Hb. rewrite Z.lor_spec, !Z.land_spec, Z.lnot_spec, Z.lor_spec, mpp_bit by done.
  unfold kMstatusMpie, kMstatusMprv. rewrite !Z.shiftl_1_l, !Z.pow2_bits_eqb, (Z.eqb_sym 7), (Z.eqb_sym 17) by lia.
  f_equal. destruct (decide (b < 64)) as [Hlt|Hge].
  - change UINT64_MAX with (Z.ones 64). rewrite Z.ones_spec_low by lia. by rewrite andb_true_r.
  - rewrite (u64_bit_high ms) by (done || lia). done.
Qed.

(** A new task starts in user mode.  Whatever [mstatus] holds, the context
    built by [initialize_user] returns to U-mode (MPP clear) with interrupts
    enabled after [mret] (MPIE set) and without MPRV; every other [mstatus] bit
    is kept.  All registers are zero except the stack pointer, the return
    address and the argument. *)
Lemma initialize_user_is_user_mode ms entry argument stack_top return_stub satp_value context :
  is_u64 ms -> length (ctx_x context) = 32%nat ->
  let c := user_context ms entry argument stack_top return_stub satp_value context in
  Z.land (ctx_mstatus c) kMstatusMppMask = 0 /\ Z.testbit (ctx_mstatus c) 17 = false /\
  Z.testbit (ctx_mstatus c) 7 = true /\
  (forall b, 0 <= b -> b <> 7 -> b <> 11 -> b <> 12 -> b <> 17 -> Z.testbit (ctx_mstatus c) b = Z.testbit ms b) /\
  ctx_mepc c = entry /\ ctx_satp c = satp_value /\
  (forall r, (r < 32)%nat -> ctx_x c !! r = Some (if decide (r = 10%nat) then argument
     else if decide (r = 2%nat) then stack_top else if decide (r = 1%nat) then return_stub else 0)).
Proof.
  intros Hms Hlen c.
  assert (forall b, 0 <= b -> Z.testbit (ctx_mstatus c) b =
    (Z.testbit ms b && negb ((b =? 11) || (b =? 12) || (b =? 17))) || (b =? 7)) as Hbit
    by (intros b Hb; by apply user_mstatus_bit).
  split_and!.
  - apply Z.bits_inj'. intros b Hb. rewrite Z.land_spec, Z.bits_0, Hbit, mpp_bit by done.
    destruct (Z.eqb_spec b 11) as [->|]; [by rewrite andb_false_r|].
    destruct (Z.eqb_spec b 12) as [->|]; [by rewrite andb_false_r|]. by rewrite andb_false_r.
  - rewrite Hbit by done. by rewrite andb_false_r.
  - rewrite Hbit by done. by rewrite orb_true_r.
  - intros b Hb H7 H11 H12 H17. rewrite Hbit by done. apply Z.eqb_neq in H7, H11, H12, H17.
    rewrite H7, H11, H12, H17. by rewrite andb_true_r, orb_false_r.
  - done.
  - done.
  - intros r Hr. unfold c, user_context, clear. rproj. cbn [ctx_x]. rewrite Hlen.
    do 32 (destruct r as [|r]; [done|]). lia.
Qed.

Lemma initialize_user_is_user_mode_witness :
  Z.land (ctx_mstatus (user_context UINT64_MAX 0x80010000 7 0x80021000 0x80010100 0 zero_context)) kMstatusMppMask = 0.
Proof.
  apply (initialize_user_is_user_mode UINT64_MAX 0x80010000 7 0x80021000 0x80010100 0 zero_context).
  - split; [discriminate|reflexivity].
  - reflexivity.
Defined.
