(* ===== verification/TimeManager.v ===== *)
(** * Timer and time manager

    Models [microkernel/core/timer.cpp] and the class [TimeManager] of
    [microkernel/core/time_manager.{h,cpp}]: conversion of durations to ticks,
    sleeping, release of expired sleepers, timer preemption and the arming of
    the next deadline.  [JIXIA_M00_08_02_PROBE] and later probes are off. *)
From Stdlib Require Import ZArith Lia Sorted.
From stdpp Require Import base tactics sets functions gmap list sorting.
From S2P Require Import Prelude DList KernelTypes KernelInv Demo RunQueue DelayQueue Scheduler TaskContext.
Local Open Scope Z_scope.

(** ** timer.cpp *)

Definition mstatus_mie : Z := Z.shiftl 1 3.
Definition mie_mtie : Z := Z.shiftl 1 7.

Definition enable_machine_timer_interrupt : K unit :=
  h ← current_hart; mod_csr h (fun c => c <| mie := Z.lor (mie c) mie_mtie |>).
Definition disable_machine_timer_interrupt : K unit :=
  h ← current_hart; mod_csr h (fun c => c <| mie := Z.ldiff (mie c) mie_mtie |>).
Definition enable_global_interrupts : K unit :=
  h ← current_hart; mod_csr h (fun c => c <| mstatus := Z.lor (mstatus c) mstatus_mie |>).
Definition disable_global_interrupts : K unit :=
  h ← current_hart; mod_csr h (fun c => c <| mstatus := Z.ldiff (mstatus c) mstatus_mie |>).

Definition arm_task_deadline (deadline : Z) : K unit :=
  local ← current;
  set_compare (hart_id local) deadline;;
  enable_machine_timer_interrupt.

(** [now + delta], or the largest deadline when that overflows. *)
Definition saturating_deadline (now delta : Z) : Z :=
  if UINT64_MAX - delta <? now then UINT64_MAX else now + delta.

Definition program_current_hart (delta_ticks : Z) : K unit :=
  now ← read_time;
  let delta := if delta_ticks =? 0 then 1 else delta_ticks in
  arm_task_deadline (saturating_deadline now delta).

Definition arm_once (delta_ticks : Z) : K unit :=
  program_current_hart delta_ticks;; enable_global_interrupts.

Definition handle_interrupt : K unit :=
  h ← current_hart;
  local ← get_hart h;
  disable_machine_timer_interrupt;;
  disarm (hart_id local);;
  mod_hart h (fun l => l <| machine_timer_interrupt_count := u64 (machine_timer_interrupt_count l + 1) |>).

(** ** TimeManager *)

Definition kNanosecondsPerSecond : Z := 1000000000.

Fixpoint reset_delay_queues (index count : nat) : K unit :=
  match count with
  | O => mret tt
  | S n => DelayQueue_reset index;; reset_delay_queues (S index) n
  end.

Definition TimeManager_initialize : K unit :=
  i ← gets time_initialized;
  if i : bool then mret tt
  else
    reset_delay_queues 0 kMaxHarts;;
    modify (<| time_initialized := true |>).

Definition initialize_hart (local : nat) : K bool :=
  i ← gets time_initialized;
  h ← get_hart local;
  if negb i || (Z.of_nat kMaxHarts <=? h_index h) then mret false
  else
    mod_hart local (<| delay_list := Some (Z.to_nat (h_index h)) |>);;
    mod_hart local (<| timeslice_ticks := task_timeslice_ticks |>);;
    mod_hart local (<| scheduler_preemption_count := 0 |>);;
    mret true.

Definition duration_to_ticks (seconds nanoseconds : Z) : Z :=
  if kNanosecondsPerSecond <=? nanoseconds then 0
  else if UINT64_MAX / kFrequencyHz <? seconds then 0
  else
    let seconds_ticks := u64 (seconds * kFrequencyHz) in
    let nanoseconds_ticks :=
      u64 (u64 (u64 (nanoseconds * kFrequencyHz) + kNanosecondsPerSecond) - 1) / kNanosecondsPerSecond in
    if UINT64_MAX - nanoseconds_ticks <? seconds_ticks then 0
    else
      let ticks := u64 (seconds_ticks + nanoseconds_ticks) in
      if ticks =? 0 then 1 else ticks.

Definition delay_task (delayed_task : nat) (seconds nanoseconds : Z) : K bool :=
  i ← gets time_initialized;
  c ← get_current_task;
  t ← get_task delayed_task;
  if negb i || bool_decide (c <> Some delayed_task) || bool_decide (t_cpu t = None) then mret false
  else
    let ticks := duration_to_ticks seconds nanoseconds in
    if ticks =? 0 then mret false
    else
      cpu ← deref (t_cpu t);
      local ← get_hart cpu;
      match delay_list local with
      | None => mret false
      | Some queue =>
          now ← read_time;
          if UINT64_MAX - ticks <? now then mret false
          else
            let deadline := now + ticks in
            mod_task delayed_task (<| t_state := TaskState.blocked_sleep |>);;
            mod_task delayed_task (<| t_state_info := deadline |>);;
            ok ← DelayQueue_insert queue delayed_task deadline;
            if ok : bool then mret true
            else
              mod_task delayed_task (<| t_state := TaskState.running |>);;
              mod_task delayed_task (<| t_state_info := 0 |>);;
              mret false
      end.

(** The [while] loop over expired tasks. *)
Fixpoint release_loop (fuel : nat) (queue : nat) (now : Z) : K unit :=
  match fuel with
  | O => diverge
  | S fuel' =>
      r ← remove_expired queue now;
      match r with
      | None => mret tt
      | Some task =>
          mod_task task (<| t_state_info := 0 |>);;
          ok ← add_task task;
          if ok : bool then release_loop fuel' queue now else park
      end
  end.

Definition check_release_tasks : K unit :=
  local ← current;
  match delay_list local with
  | None => park
  | Some queue => now ← read_time; release_loop task_fuel queue now
  end.

Definition arm_current_timeslice : K unit :=
  local ← current;
  now ← read_time;
  c ← get_current_task;
  idle ← match c with None => mret false | Some task => t ← get_task task; mret (t_idle t) end;
  ticks ← (if idle : bool then
             match delay_list local with
             | None => park
             | Some queue => ticks_until_next queue now kIdleTimesliceTicks
             end
           else mret (timeslice_ticks local));
  let ticks := if ticks =? 0 then 1 else ticks in
  arm_task_deadline (saturating_deadline now ticks).

Definition handle_timer_interrupt (frame : TrapFrame) : K TrapFrame :=
  c ← get_current_task;
  match c with
  | None => park
  | Some interrupted =>
      t ← get_task interrupted;
      match t_cpu t with
      | None => park
      | Some cpu =>
          local ← get_hart cpu;
          if negb (h_scheduler local) then park
          else
            save_current_context frame;;
            check_release_tasks;;
            t' ← get_task interrupted;
            let interrupted_tid := t_tid t' in
            let interrupted_idle := t_idle t' in
            return_runnable;;
            selected ← set_next_runnable;
            sel ← get_task selected;
            when (negb interrupted_idle && negb (t_tid sel =? interrupted_tid))
              (h ← current_hart;
               mod_hart h (fun l => l <| scheduler_preemption_count := u64 (scheduler_preemption_count l + 1) |>));;
            frame' ← restore_current_context frame;
            arm_current_timeslice;;
            mret frame'
      end
  end.

(** ** Release of expired sleepers *)

(** The abstract effect: every sleeper that is due moves, in wake-up order, to
    the back of its run queue. *)
Fixpoint release (ts : list Task) (now : Z) (h : nat) (l : list nat) (C : queues) : queues :=
  match l with
  | [] => C
  | i :: l' =>
      if deadline_of ts i <=? now
      then release ts now h l' (enqueue (target_of ts i) i (<[QDelay h := l']> C))
      else C
  end.

(** What the release leaves alone; [l] are the sleepers of the hart. *)
Record release_frame (l : list nat) (s s' : KState) : Prop := {
  rl_rest : rest s' = rest s; rl_harts : harts s' = harts s; rl_eps : endpoints s' = endpoints s;
  rl_slots : slot_allocated s' = slot_allocated s; rl_held : held s' = held s;
  rl_len : length (tasks s') = length (tasks s);
  rl_core : forall j, j ∉ l -> core <$> tasks s' !! j = core <$> tasks s !! j;
  rl_id : forall j, identity <$> tasks s' !! j = identity <$> tasks s !! j;
}.

Lemma release_frame_refl l s : release_frame l s s.
Proof. by split. Qed.

Lemma release_frame_trans i l s1 s2 s3 :
  release_frame [i] s1 s2 -> release_frame l s2 s3 -> release_frame (i :: l) s1 s3.
Proof.
  intros [] []. split; try congruence.
  - intros j Hj. rewrite rl_core1, rl_core0 by set_solver. done.
Qed.

Lemma release_frame_Running X l s s' C :
  Running X s -> qstruct s C -> release_frame l s s' -> (forall i, i ∈ l -> exists q, i ∈ C q) -> Running X s'.
Proof.
  intros HR HC Hfr Hl. apply (Running_queued X l s s' C); try done; try apply Hfr. apply rest_used, Hfr.
Qed.

Lemma release_loop_spec fuel ts h now l C (Q : unit -> KState -> Prop) e s :
  Inv s C -> (h < kMaxHarts)%nat -> C (QDelay h) = l -> (length l < fuel)%nat ->
  lock_fits (LDelayQueue h) (held s) -> (forall j, j ∈ l -> core <$> tasks s !! j = core <$> ts !! j) ->
  (forall s', Inv s' (release ts now h l C) -> release_frame l s s' -> Q tt s') ->
  wp False (release_loop fuel h now) Q e s.
Proof.
  revert l C s. induction fuel as [|fuel IH]; intros l C s HI Hv HCl Hlen Hlock Hts HQ; [lia|].
  cbn [release_loop]. apply wp_bind, (remove_expired_spec h now C); [done..| |]; rewrite HCl.
  { intros Hhd s' HI' Hfr Ets. apply wp_ret, HQ.
    - destruct l as [|i l]; [done|]. cbn [release]. rewrite <- (core_deadline ts (tasks s) i) by (apply Hts; set_solver).
      specialize (Hhd i eq_refl). destruct (Z.leb_spec (deadline_of (tasks s) i) now); [lia|done].
    - destruct Hfr. split; try done; by rewrite Ets. }
  intros i l' t s1 t1 -> Ht Hdue HI1 Hfr1 [Hlen1 Hot1] Ht1 Hcore1.
  pose proof (inv_q _ _ HI) as HC. assert (i ∈ C (QDelay h)) as Hiq by (rewrite HCl; set_solver).
  pose proof (qs_nodup _ _ HC (QDelay h)) as Hnd. rewrite HCl in Hnd. apply NoDup_cons in Hnd as [Hni _].
  destruct (inv_member _ _ HI _ i t Hiq Ht) as (Hst&Hid&Hcpu&Hus).
  apply core_inv in Hcore1 as (Es&Ei&Ecpu&Etid&Ectx&Eaff&_&Ef).
  assert (forall k, flag_of k t1 = false) as Hf1.
  { intros k. rewrite Ef. destruct k; [|done|].
    - by apply (member_flags s C (QDelay h) i t LkRun). - by apply (member_flags s C (QDelay h) i t LkWait). }
  apply wp_bind, wp_mod_task; [by exists t1|]. apply wp_bind.
  eapply (wake_spec i t1 (t1 <| t_state_info := 0 |>) (<[QDelay h := l']> C) _ e s1); try done.
  - rewrite Es. cbn. by rewrite Hst.
  - by rewrite Ei.
  - destruct Hcpu as (c&hl&?&?&?). exists c, hl. by rewrite Ecpu, (df_harts _ _ Hfr1).
  - by rewrite (rest_used _ _ (df_rest _ _ Hfr1)).
  - rewrite (df_held _ _ Hfr1). by eapply fits_rank.
  - rproj. by apply alter_insert.
  - split_and!; try done. exact (inv_context _ _ HI1 i t1 Ht1).
  - intros s3 t3 HI3 Hfr3 [Hlen3 Hot3] Ht3 Hcore3.
    assert (target_queue t1 = target_of ts i) as Etq.
    { rewrite <- (core_target ts (tasks s) i) by (apply Hts; set_solver). unfold target_of. rewrite Ht.
      unfold target_queue. by rewrite Eaff, Ecpu. }
    rewrite Etq in HI3. assert (release_frame [i] s s3) as Hrf.
    { assert (forall j, j <> i -> core <$> tasks s3 !! j = core <$> tasks s !! j) as Hoth
        by (intros j Hj; rewrite Hot3 by done; by apply Hot1).
      destruct Hfr1, Hfr3. split; try congruence.
      - intros j Hj. apply Hoth. set_solver.
      - intros j. destruct (decide (j = i)) as [->|Hj]; [|by apply core_identity, Hoth].
        rewrite Ht3, Ht. simpl. unfold identity. apply core_inv in Hcore3 as (_&->&_&->&->&->&_).
        rproj. by rewrite Ectx, Eaff, Ei, Etid. }
    apply (IH l' (enqueue (target_of ts i) i (<[QDelay h := l']> C))); try done.
    + unfold enqueue. rewrite fn_lookup_insert_ne by done. by rewrite fn_lookup_insert.
    + simpl in Hlen. lia.
    + rewrite (rl_held _ _ _ Hrf). done.
    + intros j Hj. rewrite (rl_core _ _ _ Hrf) by set_solver. apply Hts. set_solver.
    + intros s4 HI4 Hrf4. apply HQ; [|by eapply release_frame_trans].
      cbn [release]. rewrite <- (core_deadline ts (tasks s) i) by (apply Hts; set_solver).
      unfold deadline_of at 1. rewrite Ht. by rewrite (proj2 (Z.leb_le _ _) Hdue).
Qed.

Lemma check_release_tasks_spec hl C (Q : unit -> KState -> Prop) e s :
  Inv s C -> harts s !! e_hart e = Some hl -> h_scheduler hl = true -> lock_fits (LRunQueue Global) (held s) ->
  (forall s', Inv s' (release (tasks s) (u64 (e_clock e (clock_reads s))) (e_hart e) (C (QDelay (e_hart e))) C) ->
     release_frame (C (QDelay (e_hart e))) s s' -> Q tt s') ->
  wp False check_release_tasks Q e s.
Proof.
  intros HI Hh Hsch Hlock HQ. destruct (inv_bind _ _ HI _ hl Hh Hsch) as (_&Hdl&Hlt&_).
  unfold check_release_tasks, current. ksteps. rewrite Hdl. apply wp_bind, wp_read_time.
  apply (release_loop_spec task_fuel (tasks s) (e_hart e) _ (C (QDelay (e_hart e))) C); try done.
  - eapply Inv_same; [exact HI|done..|apply HI].
  - by apply (delay_length s).
  - intros s' HI' []. apply HQ; [done|]. by split.
Qed.

(** ** Arming the timer *)

Lemma arm_task_deadline_spec hl deadline (Q : unit -> KState -> Prop) e s :
  harts s !! e_hart e = Some hl -> is_Some (csrs s !! e_hart e) ->
  Q tt (set_field csrs (alter (fun c => c <| mie := Z.lor (mie c) mie_mtie |>) (e_hart e))
         (s <| mtimecmp := <[mtimecmp_address (hart_id hl) := deadline]> (mtimecmp s) |>)) ->
  wp False (arm_task_deadline deadline) Q e s.
Proof.
  intros Hh Hc HQ. unfold arm_task_deadline, current, set_compare, enable_machine_timer_interrupt. ksteps.
  apply wp_mod_csr; [exact Hc|]. exact HQ.
Qed.

Lemma saturating_deadline_bounds now delta :
  is_u64 now -> 0 < delta < 2 ^ 64 ->
  is_u64 (saturating_deadline now delta) /\ saturating_deadline now delta <= now + delta /\
  (now < saturating_deadline now delta \/ saturating_deadline now delta = UINT64_MAX).
Proof. unfold saturating_deadline. intros. destruct (Z.ltb_spec (UINT64_MAX - delta) now); word_lia. Qed.

(** Nothing but [mtimecmp], [mie] and the clock changed, and the deadline is
    [d]. *)
Record armed (hl : HartLocal) (e : Env) (d : Z) (s s' : KState) : Prop := {
  ar_tasks : tasks s' = tasks s; ar_harts : harts s' = harts s; ar_held : held s' = held s;
  ar_used : task_slots_used s' = task_slots_used s; ar_eps : endpoints s' = endpoints s;
  ar_cmp : mtimecmp s' = <[mtimecmp_address (hart_id hl) := d]> (mtimecmp s);
  ar_mie : forall c, csrs s' !! e_hart e = Some c -> Z.testbit (mie c) 7 = true;
}.

Lemma arm_current_timeslice_spec hl i t C (Q : unit -> KState -> Prop) e s :
  Inv s C -> harts s !! e_hart e = Some hl -> h_scheduler hl = true -> current_task hl = Some i ->
  tasks s !! i = Some t -> is_Some (csrs s !! e_hart e) -> 0 <= timeslice_ticks hl < 2 ^ 64 ->
  lock_fits (LRunQueue Global) (held s) ->
  (forall s' d, let now := u64 (e_clock e (clock_reads s)) in
     Inv s' C -> armed hl e d s s' -> (now < d \/ d = UINT64_MAX) ->
     (t_idle t = true -> d <= now + kIdleTimesliceTicks /\
        forall x, x ∈ C (QDelay (e_hart e)) -> d <= Z.max (now + 1) (deadline_of (tasks s) x)) ->
     Q tt s') ->
  wp False arm_current_timeslice Q e s.
Proof.
  intros HI Hh Hsch Hc Ht Hcsr Hts Hlock HQ. destruct (inv_bind _ _ HI _ hl Hh Hsch) as (_&Hdl&Hlt&_).
  pose proof (u64_range (e_clock e (clock_reads s))) as Hnow.
  unfold arm_current_timeslice, current, get_current_task. ksteps. apply wp_read_time. ksteps.
  unfold current. ksteps. rewrite Hc. ksteps.
  set (now := u64 (e_clock e (clock_reads s))) in *.
  set (s1 := s <| clock_reads := S (clock_reads s) |>).
  assert (Inv s1 C) as HI1 by (eapply Inv_same; [exact HI|done..|apply HI]).
  assert (forall s2 ticks, Inv s2 C -> tasks s2 = tasks s -> harts s2 = harts s -> held s2 = held s -> rest s2 = rest s ->
    endpoints s2 = endpoints s -> 0 <= ticks < 2 ^ 64 ->
    (t_idle t = true -> ticks <= kIdleTimesliceTicks /\ forall x, x ∈ C (QDelay (e_hart e)) ->
       ticks <= Z.max 1 (deadline_of (tasks s) x - now)) ->
    wp False (arm_task_deadline (saturating_deadline now (if ticks =? 0 then 1 else ticks))) Q e s2) as Hend.
  { intros s2 ticks HI2 Et Eh El Er Ee Hr Hidle. unfold rest in Er. injection Er as _ Eu _ _ _ _ _ _ Ecs Emc _ _.
    apply (arm_task_deadline_spec hl); [by rewrite Eh|by rewrite Ecs|].
    destruct (saturating_deadline_bounds now (if ticks =? 0 then 1 else ticks) Hnow) as (_&Hle&Hgt).
    { destruct (Z.eqb_spec ticks 0); lia. }
    eapply (HQ _ (saturating_deadline now (if ticks =? 0 then 1 else ticks))).
    - eapply Inv_same; [exact HI2|done..|apply HI2].
    - split; rproj; try done; [by rewrite Emc|]. intros c. rewrite list_lookup_alter_eq.
      intros (c0&_&->)%fmap_Some. rproj. rewrite Z.lor_spec. by rewrite orb_true_r.
    - exact Hgt.
    - intros Hid. destruct (Hidle Hid) as [Hk Hx]. unfold kIdleTimesliceTicks in *.
      split; [destruct (Z.eqb_spec ticks 0); lia|]. intros x Hin. specialize (Hx x Hin).
      destruct (Z.eqb_spec ticks 0); lia. }
  destruct (t_idle t) eqn:Eid.
  - rewrite Hdl. apply (ticks_until_next_spec (e_hart e) now kIdleTimesliceTicks C); [done|done|by eapply fits_rank|].
    intros s2 HI2 Hfr Ets Edq. ksteps. apply Hend; try done; try apply Hfr.
    + change (tasks s1) with (tasks s). unfold kIdleTimesliceTicks. destruct (head _) as [y|]; [|lia].
      destruct (Z.leb_spec (deadline_of (tasks s) y) now); lia.
    + intros _. pose proof (inv_sorted _ _ HI (e_hart e)) as Hs.
      destruct (C (QDelay (e_hart e))) as [|y l]; cbn [head]; [split; [lia|set_solver]|].
      apply StronglySorted_cons in Hs as [Hs _]. rewrite Forall_forall in Hs.
      change (tasks s1) with (tasks s). unfold kIdleTimesliceTicks.
      destruct (Z.leb_spec (deadline_of (tasks s) y) now); (split; [lia|]); intros x Hx; [lia|].
      assert (deadline_of (tasks s) y <= deadline_of (tasks s) x) by
        (apply elem_of_cons in Hx as [->|Hx]; [lia|by apply Hs]). lia.
  - ksteps. apply Hend; try done.
Qed.

(** ** Sleeping *)

(** The number of ticks of a duration, before the width check. *)
Definition exact_ticks (seconds nanoseconds : Z) : Z :=
  seconds * kFrequencyHz + (nanoseconds * kFrequencyHz + kNanosecondsPerSecond - 1) / kNanosecondsPerSecond.

Lemma duration_to_ticks_value seconds nanoseconds :
  is_u64 seconds -> is_u64 nanoseconds ->
  duration_to_ticks seconds nanoseconds =
    if (nanoseconds <? kNanosecondsPerSecond) && (exact_ticks seconds nanoseconds <=? UINT64_MAX)
    then Z.max 1 (exact_ticks seconds nanoseconds) else 0.
Proof.
  intros Hs Hn. unfold duration_to_ticks, exact_ticks, kNanosecondsPerSecond, kFrequencyHz.
  destruct (Z.leb_spec 1000000000 nanoseconds) as [Hbig|Hsmall];
    [by rewrite (proj2 (Z.ltb_ge nanoseconds _)) by lia|rewrite (proj2 (Z.ltb_lt nanoseconds _)) by lia; cbn [andb]].
  rewrite (u64_small (nanoseconds * 10000000)) by word_lia.
  rewrite (u64_small (nanoseconds * 10000000 + 1000000000)) by word_lia.
  rewrite (u64_small (nanoseconds * 10000000 + 1000000000 - 1)) by word_lia.
  set (ns := (nanoseconds * 10000000 + 1000000000 - 1) / 1000000000).
  assert (0 <= ns <= 10000000) as Hns.
  { unfold ns. split; [apply Z.div_pos; word_lia|].
    apply Z.lt_succ_r, Z.div_lt_upper_bound; word_lia. }
  destruct (Z.ltb_spec (UINT64_MAX / 10000000) seconds) as [Hover|Hfit].
  { rewrite (proj2 (Z.leb_gt _ _)); [done|]. unfold UINT64_MAX in *.
    assert (2 ^ 64 - 1 < seconds * 10000000); [|lia]. apply Z.lt_nge. intros Hle.
    assert (seconds <= (2 ^ 64 - 1) / 10000000); [apply Z.div_le_lower_bound; lia|lia]. }
  assert (seconds * 10000000 <= UINT64_MAX) as Hle.
  { transitivity (UINT64_MAX / 10000000 * 10000000); [nia|]. pose proof (Z.mul_div_le UINT64_MAX 10000000). lia. }
  rewrite (u64_small (seconds * 10000000)) by (unfold is_u64, UINT64_MAX in *; lia).
  destruct (Z.ltb_spec (UINT64_MAX - ns) (seconds * 10000000)) as [Ho|Hf].
  { by rewrite (proj2 (Z.leb_gt _ _)) by lia. }
  rewrite (proj2 (Z.leb_le _ _)) by lia.
  rewrite u64_small by (unfold is_u64, UINT64_MAX in *; lia).
  destruct (Z.eqb_spec (seconds * 10000000 + ns) 0); unfold is_u64 in Hs; lia.
Qed.

(** The task goes to sleep; the hart is between tasks. *)
Lemma delay_task_spec hl i t seconds nanoseconds C (Q : bool -> KState -> Prop) e s :
  Inv s C -> Running None s -> time_initialized s = true -> harts s !! e_hart e = Some hl ->
  h_scheduler hl = true -> current_task hl = Some i -> tasks s !! i = Some t -> t_idle t = false ->
  lock_fits (LRunQueue Global) (held s) ->
  (let now := u64 (e_clock e (clock_reads s)) in let ticks := duration_to_ticks seconds nanoseconds in
   (ticks = 0 -> Q false s) /\
   (ticks <> 0 -> UINT64_MAX - ticks < now -> Q false (s <| clock_reads := S (clock_reads s) |>)) /\
   (ticks <> 0 -> now + ticks <= UINT64_MAX ->
     forall s' a b, C (QDelay (e_hart e)) = a ++ b -> Inv s' (<[QDelay (e_hart e) := a ++ i :: b]> C) ->
       Running (Some (e_hart e)) s' -> only_task i s s' ->
       (exists t', tasks s' !! i = Some t' /\ t_context t' = t_context t /\ t_cpu t' = t_cpu t) ->
       deadline_of (tasks s') i = now + ticks ->
       rest s' = rest s -> harts s' = harts s -> endpoints s' = endpoints s ->
       slot_allocated s' = slot_allocated s -> held s' = held s -> Q true s')) ->
  wp False (delay_task i seconds nanoseconds) Q e s.
Proof.
  intros HI HR Hti Hh Hsch Hc Ht Hid Hlock (HQ0 & HQov & HQ).
  destruct (inv_bind _ _ HI _ hl Hh Hsch) as (_&Hdl&Hlt&_).
  destruct (run_task _ _ HR _ hl i ltac:(done) Hh Hc) as (t0&Ht0&Hst&Hcpu&Hf&Hus&_). simplify_eq.
  unfold delay_task, get_current_task, current. ksteps. rewrite Hti, Hc, Hcpu, !bool_decide_false by (congruence || tauto).
  cbn [negb orb]. destruct (Z.eqb_spec (duration_to_ticks seconds nanoseconds) 0) as [E0|E0];
    [apply wp_ret; by apply HQ0|].
  ksteps. rewrite Hdl. apply wp_bind, wp_read_time.
  set (now := u64 (e_clock e (clock_reads s))) in *. set (ticks := duration_to_ticks seconds nanoseconds) in *.
  destruct (Z.ltb_spec (UINT64_MAX - ticks) now) as [Ho|Hfit]; [apply wp_ret; by apply HQov|].
  set (t1 := t <| t_state := TaskState.blocked_sleep |> <| t_state_info := now + ticks |>).
  ksteps. match goal with |- wp _ _ _ _ ?x => set (s2 := x) end.
  assert (tasks s2 = <[i := t1]> (tasks s)) as Ets.
  { unfold s2. rproj. rewrite (alter_insert _ i (tasks s) t Ht).
    rewrite (alter_insert _ i _ (t <| t_state := TaskState.blocked_sleep |>)), list_insert_insert_eq; [done|].
    apply list_lookup_insert_eq. by eapply lookup_lt_Some. }
  assert (tasks s2 !! i = Some t1) as Ht2 by (rewrite Ets; apply list_lookup_insert_eq; by eapply lookup_lt_Some).
  assert (Inv s2 C) as HI2.
  { apply (Inv_task s s2 C i t t1); try done; [exact (inv_context _ _ HI i t Ht)|by right|apply HI]. }
  assert (only_task i s s2) as Hot2.
  { split; [by rewrite Ets, length_insert|]. intros j Hj. by rewrite Ets, list_lookup_insert_ne. }
  eapply (DelayQueue_insert_spec (e_hart e) i t1 (now + ticks) C); try done.
  - by exists (e_hart e), hl.
  - intros s' t' a b HCq HI' Hfr Hot Ht' Hcore Ha Hb. apply wp_ret.
    assert (only_task i s s') as Hot' by (by eapply only_task_trans).
    apply core_inv in Hcore as (_&_&Ecpu&_&Ectx&_&Edl&_).
    apply (HQ E0 ltac:(lia) s' a b HCq HI'); try done; try apply Hfr.
    + apply (Running_update _ s s' i); [by apply Running_weaken|done| |apply Hfr|apply (rest_used s s'), Hfr].
      intros h l Hne Hl Hc'. apply Hne. f_equal. by apply (run_inj _ _ HR h (e_hart e) l hl i).
    + exists t'. by rewrite Ectx, Ecpu.
    + unfold deadline_of. by rewrite Ht', Edl.
Qed.

(** ** Preemption *)

Lemma release_ext ts ts' now h l C :
  (forall j, j ∈ l -> deadline_of ts' j = deadline_of ts j /\ target_of ts' j = target_of ts j) ->
  release ts' now h l C = release ts now h l C.
Proof.
  revert C. induction l as [|i l IH]; intros C Hl; [done|]. cbn [release].
  destruct (Hl i) as [-> ->]; [set_solver|]. destruct (_ <=? _); [|done]. apply IH. set_solver.
Qed.

(** The queues after a timer interrupt of hart [h] at time [now]: sleepers are
    released, the interrupted task goes to the back, the next one is chosen. *)
Definition preempt (ts : list Task) (now : Z) (h it i : nat) (t : Task) (C : queues) : nat * queues :=
  pick h it (give_back i t (release ts now h (C (QDelay h)) C)).

(** The context a task resumes with. *)
Definition resumed (ts : list Task) (i : nat) (saved : TaskContext) (j : nat) : option TaskContext :=
  if decide (j = i) then Some saved else t_context <$> ts !! j.

(** Hart [h] runs task [i] of [s], with its timeslice in range. *)
Record on_hart (h i : nat) (hl : HartLocal) (s : KState) : Prop := {
  oh_hart : harts s !! h = Some hl; oh_sched : h_scheduler hl = true;
  oh_task : current_task hl = Some i; oh_csr : is_Some (csrs s !! h);
  oh_ticks : 0 <= timeslice_ticks hl <= kIdleTimesliceTicks;
}.

Lemma rest_csrs s s' : rest s' = rest s -> csrs s' = csrs s /\ mtimecmp s' = mtimecmp s.
Proof. unfold rest. intros E. by injection E. Qed.

(** The first half: the context is saved and due sleepers are released. *)
Lemma save_release_spec hl i t c frame C (Q : unit -> KState -> Prop) e s :
  Inv s C -> Running None s -> harts s !! e_hart e = Some hl -> h_scheduler hl = true ->
  current_task hl = Some i -> tasks s !! i = Some t ->
  csrs s !! e_hart e = Some c -> length (fr_x frame) = 32%nat -> lock_fits (LRunQueue Global) (held s) ->
  (forall s' t', Inv s' (release (tasks s) (u64 (e_clock e (clock_reads s))) (e_hart e) (C (QDelay (e_hart e))) C) ->
     Running None s' -> harts s' = harts s -> rest s' = rest s -> held s' = held s ->
     tasks s' !! i = Some t' -> identity t' = identity (t <| t_context := save_from_trap (satp c) frame (t_context t) |>) ->
     t_cpu t' = t_cpu t ->
     (forall j, j <> i -> identity <$> tasks s' !! j = identity <$> tasks s !! j) ->
     endpoints s' = endpoints s -> undisturbed s s' -> Q tt s') ->
  wp False (save_current_context frame;; check_release_tasks) Q e s.
Proof.
  intros HI HR Hh Hsch Hc Ht Hcsr Hlen Hlock HQ.
  destruct (run_task _ _ HR _ hl i ltac:(done) Hh Hc) as (t0&Ht0&Hst&Hcpu&Hf&Hus&_). simplify_eq.
  apply wp_bind. eapply (save_current_context_spec hl i c); [done|done|by exists t|done|].
  set (f := fun t => t <| t_context := save_from_trap (satp c) frame (t_context t) |>).
  set (s1 := set_field tasks (alter f i) s).
  assert (tasks s1 !! i = Some (f t)) as Ht1 by (unfold s1; rproj; by rewrite list_lookup_alter_eq, Ht).
  assert (Inv s1 C) as HI1.
  { apply (Inv_mod_task s C i t f HI Ht Hf); try done; [|left; unfold f; rproj; by rewrite Hst].
    unfold f, save_from_trap. rproj. cbn [ctx_x]. rewrite length_insert, length_take. lia. }
  apply (check_release_tasks_spec hl C); [done|done|done|done|]. intros s2 HI2 Hfr2.
  assert (forall j, j ∈ C (QDelay (e_hart e)) -> j <> i) as Hni.
  { intros j Hj ->. by eapply (qstruct_free s C i t (inv_q _ _ HI) Ht Hf). }
  change (clock_reads s1) with (clock_reads s) in HI2. rewrite (release_ext (tasks s) (tasks s1)) in HI2.
  2: { intros j Hj. unfold deadline_of, target_of, s1. rproj. specialize (Hni j Hj). by rewrite list_lookup_alter_ne. }
  assert (Running None s2) as HR2.
  { eapply (release_frame_Running None _ s1 s2 C); [by apply Running_mod_task|apply HI1|done|].
    intros j Hj. by exists (QDelay (e_hart e)). }
  pose proof (rl_id _ _ _ Hfr2 i) as Eid. rewrite Ht1 in Eid. apply fmap_Some in Eid as (t2&Ht2&Eid).
  apply (HQ s2 t2); try done; try apply Hfr2.
  - destruct (run_task _ _ HR2 (e_hart e) hl i) as (t2'&Ht2'&_&Hcpu2&_); [done|by rewrite (rl_harts _ _ _ Hfr2)|done|].
    rewrite Ht2 in Ht2'. injection Ht2' as <-. by rewrite Hcpu2.
  - intros j Hj. rewrite (rl_id _ _ _ Hfr2). unfold s1. rproj. by rewrite list_lookup_alter_ne.
  - apply (undisturbed_trans s s1 s2).
    + apply (undisturbed_only i); [apply only_task_mod|]. intros t1. by eapply (running_not_joining s).
    + intros x tx Hx Hjo. rewrite (rl_core _ _ _ Hfr2); [by rewrite Hx|]. intros Hq. by eapply (queued_not_joining s1 C _ x tx).
Qed.

(** The second half: the preemption is counted, the selected task's context
    goes to the trap frame and the timer is armed. *)
Lemma resume_spec hl j t C (count : bool) frame (Q : TrapFrame -> KState -> Prop) e s :
  Inv s C -> Running None s -> on_hart (e_hart e) j hl s -> tasks s !! j = Some t ->
  lock_fits (LRunQueue Global) (held s) ->
  (forall s' l' d, Inv s' C -> Running None s' -> tasks s' = tasks s -> held s' = held s ->
     harts s' !! e_hart e = Some l' -> current_task l' = Some j -> endpoints s' = endpoints s ->
     mtimecmp s' !! mtimecmp_address (hart_id hl) = Some d -> Q (restore_to_trap (t_context t) frame) s') ->
  wp False (when count (h ← current_hart;
              mod_hart h (fun l => l <| scheduler_preemption_count := u64 (scheduler_preemption_count l + 1) |>));;
            frame' ← restore_current_context frame; arm_current_timeslice;; mret frame') Q e s.
Proof.
  intros HI HR [Hh Hsch Hc Hcsr Hticks] Ht Hlock HQ.
  assert (forall s1 l1, Inv s1 C -> Running None s1 -> tasks s1 = tasks s -> held s1 = held s -> csrs s1 = csrs s ->
    harts s1 !! e_hart e = Some l1 -> hart_bind l1 = hart_bind hl -> current_task l1 = current_task hl ->
    timeslice_ticks l1 = timeslice_ticks hl -> hart_id l1 = hart_id hl -> endpoints s1 = endpoints s ->
    wp False (frame' ← restore_current_context frame; arm_current_timeslice;; mret frame') Q e s1) as Htail.
  { intros s1 l1 HI1 HR1 Et El Ec Hh1 Eb Ecur Ets Eid Eep. apply wp_bind.
    eapply (restore_current_context_spec l1 j t); [done|by rewrite Ecur|by rewrite Et|by rewrite Ec|].
    set (s2 := set_field csrs _ s1). apply wp_bind.
    eapply (arm_current_timeslice_spec l1 j t C); try done.
    - eapply Inv_same; [exact HI1|done..|apply HI1].
    - unfold hart_bind in Eb. congruence.
    - by rewrite Ecur.
    - unfold s2. rproj. by rewrite Et.
    - unfold s2. rproj. rewrite lookup_alter_is_Some. by rewrite Ec.
    - rewrite Ets. unfold kIdleTimesliceTicks in Hticks. lia.
    - unfold s2. rproj. by rewrite El.
    - intros s3 d now HI3 [A1 A2 A3 A4 A5 A6 A7] _ _. apply wp_ret.
      apply (HQ s3 l1 d); [done|by apply (Running_frame None s1)|by rewrite A1|by rewrite A3|by rewrite A2|by rewrite Ecur|by rewrite A5|].
      rewrite A6, Eid. apply lookup_insert_eq. }
  apply wp_bind. unfold when. destruct count.
  - apply wp_bind, wp_current_hart, wp_mod_hart; [by exists hl|]. apply (Htail _ (hl <| scheduler_preemption_count := u64 (scheduler_preemption_count hl + 1) |>)); try done.
    + by apply Inv_mod_hart.
    + by apply Running_mod_hart.
    + rproj. by rewrite list_lookup_alter_eq, Hh.
  - apply wp_ret. by apply (Htail s hl).
Qed.

Lemma handle_timer_interrupt_spec hl it i t c frame C (Q : TrapFrame -> KState -> Prop) e s :
  Inv s C -> Running None s -> harts s !! e_hart e = Some hl -> h_scheduler hl = true ->
  idle_task hl = Some it -> current_task hl = Some i -> tasks s !! i = Some t ->
  csrs s !! e_hart e = Some c -> length (fr_x frame) = 32%nat -> lock_fits (LRunQueue Global) (held s) ->
  (forall s' l' ctx d, let jC := preempt (tasks s) (u64 (e_clock e (clock_reads s))) (e_hart e) it i t C in
     Inv s' jC.2 -> Running None s' -> harts s' !! e_hart e = Some l' -> current_task l' = Some jC.1 ->
     resumed (tasks s) i (save_from_trap (satp c) frame (t_context t)) jC.1 = Some ctx ->
     mtimecmp s' !! mtimecmp_address (hart_id hl) = Some d -> held s' = held s ->
     endpoints s' = endpoints s -> undisturbed s s' -> t_context <$> tasks s' !! jC.1 = Some ctx ->
     Q (restore_to_trap ctx frame) s') ->
  wp False (handle_timer_interrupt frame) Q e s.
Proof.
  intros HI HR Hh Hsch Hit Hc Ht Hcsr Hlen Hlock HQ.
  destruct (run_task _ _ HR _ hl i ltac:(done) Hh Hc) as (t0&Ht0&Hst&Hcpu&Hf&Hus&_). simplify_eq.
  unfold handle_timer_interrupt, get_current_task, current. ksteps. rewrite Hc. ksteps. rewrite Hcpu. ksteps.
  rewrite Hsch. cbn [negb]. 
  apply (wp_bind_assoc False (save_current_context frame) (fun _ => check_release_tasks)).
  apply (save_release_spec hl i t c frame C); try done.
  intros s1 t1 HI1 HR1 Eh1 Er1 El1 Ht1 Eid1 Ecpu1 Hoth1 Eep1 Hun1. apply wp_bind. eapply wp_get_task; [exact Ht1|]. cbv zeta.
  injection Eid1 as Ectx Eaff Eidle Etid.
  set (C1 := release (tasks s) (u64 (e_clock e (clock_reads s))) (e_hart e) (C (QDelay (e_hart e))) C) in *.
  assert (give_back i t1 C1 = give_back i t C1) as Egb
    by (unfold give_back, target_queue; by rewrite Eidle, Eaff, Ecpu1).
  apply (wp_bind_assoc False return_runnable (fun _ => set_next_runnable)).
  eapply (reschedule_spec hl it i t1 C1); try done; [by rewrite Eh1|by rewrite El1|]. rewrite Egb.
  change (pick (e_hart e) it (give_back i t C1)) with
    (preempt (tasks s) (u64 (e_clock e (clock_reads s))) (e_hart e) it i t C).
  set (jC := preempt (tasks s) (u64 (e_clock e (clock_reads s))) (e_hart e) it i t C) in *.
  intros s2 HI2 HR2 Hsf2 (l2&Hl2&Hc2&Hticks2) Hid2 Hun2.
  destruct (run_task _ _ HR2 (e_hart e) l2 jC.1) as (tj&Htj&_); [done..|].
  pose proof (sf_own _ _ _ Hsf2) as Eown. rewrite Hl2, Eh1, Hh in Eown. apply (inj Some) in Eown.
  pose proof (f_equal hart_id Eown) as Ehid. pose proof (f_equal h_scheduler Eown) as Ehs. simpl in Ehid, Ehs.
  apply wp_bind. eapply wp_get_task; [exact Htj|].
  apply (resume_spec l2 jC.1 tj jC.2); try done.
  - split; try done; [by rewrite Ehs|].
    destruct (rest_csrs _ _ (sf_rest _ _ _ Hsf2)) as [-> _], (rest_csrs _ _ Er1) as [-> _]. by exists c.
  - by rewrite (sf_held _ _ _ Hsf2), El1.
  - intros s3 l3 d HI3 HR3 Et3 Ehd3 Hl3 Hc3 Eep3 Hd3. rewrite Ehid in Hd3.
    apply (HQ s3 l3 (t_context tj) d); try done;
      [|by rewrite Ehd3, (sf_held _ _ _ Hsf2), El1|by rewrite Eep3, (sf_eps _ _ _ Hsf2), Eep1
       |intros x tx Hx Hjo; rewrite Et3; by apply (undisturbed_trans s s1 s2 Hun1 Hun2)|by rewrite Et3, Htj].
    specialize (Hid2 jC.1). rewrite Htj in Hid2. unfold resumed. case_decide as Hji.
    + rewrite Hji, Ht1 in Hid2. injection Hid2 as E _ _ _. by rewrite E, Ectx.
    + rewrite (Hoth1 _ Hji) in Hid2. destruct (tasks s !! jC.1) as [t0|]; [|done]. by injection Hid2 as ->.
Qed.

(** ** What the release does to each sleeper *)

(** Nobody behind a sleeper that is not due is due. *)
Lemma later_not_due ts now (P : nat -> Prop) `{!forall x, Decision (P x)} l :
  Forall (fun x => now < deadline_of ts x) l -> (forall x, P x -> deadline_of ts x <= now) -> filter P l = [].
Proof.
  intros Hl HP. apply filter_all_out. intros x Hx Hp%HP. rewrite Forall_forall in Hl. specialize (Hl x Hx). lia.
Qed.

(** Each run queue gets, at its back and in deadline order, its due sleepers. *)
Lemma release_run ts now h l C r :
  by_deadline ts l ->
  release ts now h l C (QRun r) =
    C (QRun r) ++ filter (fun x => deadline_of ts x <= now /\ target_of ts x = r) l.
Proof.
  revert C. induction l as [|j l IH]; intros C Hs; cbn [release]; [by rewrite app_nil_r|].
  apply StronglySorted_cons in Hs as [Hj Hs]. destruct (Z.leb_spec (deadline_of ts j) now) as [Hd|Hd].
  - rewrite IH by done. unfold enqueue. rewrite filter_cons.
    destruct (decide (target_of ts j = r)) as [<-|Hne].
    + rewrite fn_lookup_insert, fn_lookup_insert_ne, decide_True by done. by rewrite <- app_assoc.
    + rewrite !fn_lookup_insert_ne by congruence. by rewrite decide_False by tauto.
  - rewrite (later_not_due ts now); [by rewrite app_nil_r| |tauto].
    constructor; [done|]. eapply Forall_impl; [exact Hj|]. simpl. lia.
Qed.

(** The sleepers that are not due stay, in order. *)
Lemma release_delay ts now h l C :
  by_deadline ts l -> C (QDelay h) = l ->
  release ts now h l C (QDelay h) = filter (fun x => now < deadline_of ts x) l.
Proof.
  revert C. induction l as [|j l IH]; intros C Hs HC; cbn [release]; [by rewrite HC|].
  apply StronglySorted_cons in Hs as [Hj Hs]. rewrite filter_cons.
  destruct (Z.leb_spec (deadline_of ts j) now) as [Hd|Hd].
  - rewrite decide_False by lia. apply IH; [done|]. unfold enqueue. by rewrite fn_lookup_insert_ne, fn_lookup_insert.
  - rewrite decide_True by done. rewrite HC. f_equal. clear IH Hs HC.
    induction Hj as [|x l' Hx Hl IH']; [done|]. rewrite filter_cons, decide_True by lia. by f_equal.
Qed.

(** Other delay queues and the queues of receivers are left alone. *)
Lemma release_other ts now h l C q :
  q <> QDelay h -> (forall r, q <> QRun r) -> release ts now h l C q = C q.
Proof.
  intros Hd Hr. revert C. induction l as [|j l IH]; intros C; cbn [release]; [done|].
  destruct (_ <=? _); [|done]. rewrite IH. unfold enqueue.
  rewrite !fn_lookup_insert_ne; [done|congruence|]. specialize (Hr (target_of ts j)). congruence.
Qed.

(** ** Properties *)

(** C3: A timer interrupt preempts the running task.  From a state that
    satisfies the invariant, [handle_timer_interrupt] returns, without parking:
    every sleeper of the hart whose deadline has passed becomes ready, the
    interrupted task goes to the back of its queue, the next task is dispatched
    and the trap frame holds exactly the registers with which that task was
    last saved, or just interrupted.  The timer is armed again, all locks are
    released, and the invariant holds. *)
Theorem handle_timer_interrupt_correct hl it i t c frame C e s :
  Inv s C -> Running None s -> harts s !! e_hart e = Some hl -> h_scheduler hl = true ->
  idle_task hl = Some it -> current_task hl = Some i -> tasks s !! i = Some t ->
  csrs s !! e_hart e = Some c -> length (fr_x frame) = 32%nat -> lock_fits (LRunQueue Global) (held s) ->
  let jC := preempt (tasks s) (u64 (e_clock e (clock_reads s))) (e_hart e) it i t C in
  exists s' l' ctx, handle_timer_interrupt frame e s = Done (restore_to_trap ctx frame) s' /\
    Inv s' jC.2 /\ Running None s' /\ harts s' !! e_hart e = Some l' /\ current_task l' = Some jC.1 /\
    resumed (tasks s) i (save_from_trap (satp c) frame (t_context t)) jC.1 = Some ctx /\
    is_Some (mtimecmp s' !! mtimecmp_address (hart_id hl)) /\ held s' = held s.
Proof.
  intros HI HR Hh Hsch Hit Hc Ht Hcsr Hlen Hlock jC.
  destruct (wp_done (handle_timer_interrupt frame) (fun r s' => exists l' ctx, r = restore_to_trap ctx frame /\
    Inv s' jC.2 /\ Running None s' /\ harts s' !! e_hart e = Some l' /\ current_task l' = Some jC.1 /\
    resumed (tasks s) i (save_from_trap (satp c) frame (t_context t)) jC.1 = Some ctx /\
    is_Some (mtimecmp s' !! mtimecmp_address (hart_id hl)) /\ held s' = held s) e s)
    as (r&s'&Hrun&l'&ctx&->&?); [|by exists s', l', ctx].
  apply (handle_timer_interrupt_spec hl it i t c frame C); try done.
  intros s' l' ctx d jC' HI' HR' Hl' Hc' Hctx Hd Hhd _ _ _. exists l', ctx. split_and!; try done.
Qed.

Lemma handle_timer_interrupt_correct_witness :
  exists s' f, handle_timer_interrupt (zero_frame <| fr_mepc := 0x80011004 |>) (demo_env 0) demo_ready = Done f s' /\
    Running None s' /\ held s' = [].
Proof.
  destruct (handle_timer_interrupt_correct (demo_hart 0) 0 2 (demo_task 3 0 false) (mkCsr 0 0 0 0 0 0 0)
    (zero_frame <| fr_mepc := 0x80011004 |>) (<[QRun Global := [4%nat]]> quiet) (demo_env 0) demo_ready)
    as (s'&l'&ctx&Hr&_&HR&_&_&_&_&Hhd).
  - apply demo_ready_inv.
  - apply demo_ready_running.
  - done.
  - done.
  - done.
  - done.
  - done.
  - done.
  - done.
  - vm_compute. constructor.
  - exists s', (restore_to_trap ctx (zero_frame <| fr_mepc := 0x80011004 |>)).
    split; [exact Hr|]. split; [exact HR|]. rewrite Hhd. vm_compute. reflexivity.
Defined.

(** C25: [check_release_tasks] wakes exactly the sleepers that are due.  The loop
    ends without parking; the sleepers of the hart that are not due stay asleep
    in their order, every run queue gets at its back exactly those due sleepers
    that belong to it, in the order of their deadlines, and the delay queues of
    the other harts and the queues of receivers are as they were.  Registers
    and identity of every task are unchanged. *)
Theorem check_release_tasks_correct hl C e s :
  Inv s C -> harts s !! e_hart e = Some hl -> h_scheduler hl = true -> lock_fits (LRunQueue Global) (held s) ->
  let now := u64 (e_clock e (clock_reads s)) in
  let asleep := C (QDelay (e_hart e)) in
  exists s' C', check_release_tasks e s = Done tt s' /\ Inv s' C' /\
    C' (QDelay (e_hart e)) = filter (fun x => now < deadline_of (tasks s) x) asleep /\
    (forall r, C' (QRun r) = C (QRun r) ++
       filter (fun x => deadline_of (tasks s) x <= now /\ target_of (tasks s) x = r) asleep) /\
    (forall h, h <> e_hart e -> C' (QDelay h) = C (QDelay h)) /\
    (forall w, C' (QWait w) = C (QWait w)) /\
    (forall j, identity <$> tasks s' !! j = identity <$> tasks s !! j) /\ harts s' = harts s.
Proof.
  intros HI Hh Hsch Hlock now asleep.
  destruct (wp_done check_release_tasks (fun _ s' =>
    Inv s' (release (tasks s) now (e_hart e) asleep C) /\
    release_frame asleep s s') e s) as ([]&s'&Hrun&HI'&Hfr);
    [by apply (check_release_tasks_spec hl C)|].
  exists s', (release (tasks s) now (e_hart e) asleep C).
  split_and!; try done; try apply Hfr.
  - apply release_delay; [apply HI|done].
  - intros r. apply release_run, HI.
  - intros h Hne. apply release_other; congruence.
  - intros w. by apply release_other.
Qed.

(** At tick 6000 task 2, due at 5000, is woken. *)
Lemma check_release_tasks_correct_witness :
  exists s' C', check_release_tasks (demo_env 0) (demo_asleep <| clock_reads := 6%nat |>) = Done tt s' /\
    Inv s' C' /\ C' (QRun Global) = [2%nat] /\ C' (QDelay 0) = [].
Proof.
  destruct (check_release_tasks_correct (demo_hart 0) (<[QDelay 0 := [2%nat]]> quiet) (demo_env 0)
    (demo_asleep <| clock_reads := 6%nat |>)) as (s'&C'&Hr&HI&Hd&Hdue&_).
  - apply Inv_clock, demo_asleep_inv.
  - done.
  - done.
  - vm_compute. constructor.
  - exists s', C'. split; [exact Hr|]. split; [exact HI|]. rewrite (Hdue Global).
    change (C' (QDelay 0)) with (C' (QDelay (e_hart (demo_env 0)))). rewrite Hd.
    split; vm_compute; reflexivity.
Defined.

(** C26: A request to sleep is honoured or refused, never lost.  A duration
    that is malformed, or whose deadline does not fit 64 bits, is refused and
    nothing but the clock is touched; otherwise the running task enters the
    delay queue of its hart, in order, with a deadline that many ticks ahead,
    and the hart is left between tasks. *)
Theorem delay_task_correct hl i t seconds nanoseconds C e s :
  Inv s C -> Running None s -> time_initialized s = true -> harts s !! e_hart e = Some hl ->
  h_scheduler hl = true -> current_task hl = Some i -> tasks s !! i = Some t -> t_idle t = false ->
  lock_fits (LRunQueue Global) (held s) ->
  let now := u64 (e_clock e (clock_reads s)) in
  let ticks := duration_to_ticks seconds nanoseconds in
  exists r s', delay_task i seconds nanoseconds e s = Done r s' /\
    r = negb (ticks =? 0) && (now + ticks <=? UINT64_MAX) /\
    if r then exists a b, C (QDelay (e_hart e)) = a ++ b /\ Inv s' (<[QDelay (e_hart e) := a ++ i :: b]> C) /\
                Running (Some (e_hart e)) s' /\ deadline_of (tasks s') i = now + ticks /\ only_task i s s'
    else Inv s' C /\ Running None s' /\ tasks s' = tasks s.
Proof.
  intros HI HR Hti Hh Hsch Hc Ht Hid Hlock now ticks.
  edestruct (wp_done (delay_task i seconds nanoseconds) (fun r s' =>
    r = negb (ticks =? 0) && (now + ticks <=? UINT64_MAX) /\
    if r then exists a b, C (QDelay (e_hart e)) = a ++ b /\ Inv s' (<[QDelay (e_hart e) := a ++ i :: b]> C) /\
                Running (Some (e_hart e)) s' /\ deadline_of (tasks s') i = now + ticks /\ only_task i s s'
    else Inv s' C /\ Running None s' /\ tasks s' = tasks s) e s) as (r&s'&Hrun&?); [|by exists r, s'].
  apply (delay_task_spec hl i t seconds nanoseconds C); try done. fold now ticks. cbv zeta. split_and!.
  - intros ->. by split_and!.
  - intros Hnz Ho. rewrite (proj2 (Z.eqb_neq _ _) Hnz), (proj2 (Z.leb_gt _ _)) by lia. split_and!; try done.
    + eapply Inv_same; [exact HI|done..|apply HI].
    + by apply (Running_frame None s).
  - intros Hnz Hfit s' a b HCq HI' HR' Hot _ Hd _ _ _ _ _.
    rewrite (proj2 (Z.eqb_neq _ _) Hnz), (proj2 (Z.leb_le _ _) Hfit). split; [done|]. by exists a, b.
Qed.

Lemma delay_task_correct_witness :
  exists s', delay_task 2 0 100 (demo_env 0) demo = Done true s' /\ deadline_of (tasks s') 2 = 1.
Proof.
  destruct (delay_task_correct (demo_hart 0) 2 (demo_task 3 0 false) 0 100 quiet (demo_env 0) demo)
    as (r&s'&Hr&Er&Hm).
  - apply demo_inv.
  - apply demo_running.
  - done.
  - done.
  - done.
  - done.
  - done.
  - done.
  - constructor.
  - rewrite Er in Hr, Hm. destruct Hm as (a&b&_&_&_&Hd&_). exists s'. split; [exact Hr|exact Hd].
Defined.

(** Conversion of a duration to ticks is exact at the 64-bit width: the
    result is the duration rounded up to whole ticks (at least one), so a
    sleep is never shorter than asked, or zero when the nanoseconds are
    malformed or the value does not fit; no intermediate product overflows. *)
Lemma duration_to_ticks_correct seconds nanoseconds :
  is_u64 seconds -> is_u64 nanoseconds ->
  let ticks := duration_to_ticks seconds nanoseconds in
  is_u64 ticks /\
  (ticks = 0 <-> kNanosecondsPerSecond <= nanoseconds \/ UINT64_MAX < exact_ticks seconds nanoseconds) /\
  (ticks <> 0 -> ticks = Z.max 1 (exact_ticks seconds nanoseconds) /\
     seconds * kNanosecondsPerSecond + nanoseconds <= ticks * (kNanosecondsPerSecond / kFrequencyHz)).
Proof.
  intros Hs Hn ticks. unfold ticks. rewrite duration_to_ticks_value by done.
  assert (seconds * kNanosecondsPerSecond + nanoseconds <= exact_ticks seconds nanoseconds * (kNanosecondsPerSecond / kFrequencyHz)) as Hlong.
  { unfold exact_ticks, kNanosecondsPerSecond, kFrequencyHz. change (1000000000 / 10000000) with 100.
    pose proof (Z.div_mod (nanoseconds * 10000000 + 1000000000 - 1) 1000000000 ltac:(lia)).
    pose proof (Z.mod_pos_bound (nanoseconds * 10000000 + 1000000000 - 1) 1000000000 ltac:(lia)). lia. }
  assert (0 <= exact_ticks seconds nanoseconds) as Hpos.
  { unfold exact_ticks, kNanosecondsPerSecond, kFrequencyHz, is_u64 in *.
    pose proof (Z.div_pos (nanoseconds * 10000000 + 1000000000 - 1) 1000000000 ltac:(lia) ltac:(lia)). lia. }
  unfold kNanosecondsPerSecond, kFrequencyHz in *. change (1000000000 / 10000000) with 100 in *.
  destruct (Z.ltb_spec nanoseconds 1000000000), (Z.leb_spec (exact_ticks seconds nanoseconds) UINT64_MAX);
    cbn [andb]; unfold is_u64, UINT64_MAX in *; lia.
Qed.

Lemma duration_to_ticks_correct_witness : is_u64 (duration_to_ticks 3 500) /\ duration_to_ticks 3 500 = 30000005.
Proof.
  split; [|reflexivity].
  apply (duration_to_ticks_correct 3 500); split; try discriminate; reflexivity.
Defined.

(** An idle hart does not oversleep.  [arm_current_timeslice] programs the
    hart's own compare register with a deadline in the future and enables the
    timer interrupt; when the current task is the idle task, the deadline is
    within the idle timeslice and not later than the deadline of any sleeper of
    the hart (or the very next tick, if one is overdue). *)
Lemma arm_current_timeslice_correct hl i t C e s :
  Inv s C -> harts s !! e_hart e = Some hl -> h_scheduler hl = true -> current_task hl = Some i ->
  tasks s !! i = Some t -> is_Some (csrs s !! e_hart e) -> 0 <= timeslice_ticks hl < 2 ^ 64 ->
  lock_fits (LRunQueue Global) (held s) ->
  let now := u64 (e_clock e (clock_reads s)) in
  exists s' d, arm_current_timeslice e s = Done tt s' /\ Inv s' C /\ armed hl e d s s' /\
    (now < d \/ d = UINT64_MAX) /\
    (t_idle t = true -> d <= now + kIdleTimesliceTicks /\
       forall x, x ∈ C (QDelay (e_hart e)) -> d <= Z.max (now + 1) (deadline_of (tasks s) x)).
Proof.
  intros HI Hh Hsch Hc Ht Hcsr Hts Hlock now.
  edestruct (wp_done arm_current_timeslice (fun _ s' => exists d, Inv s' C /\ armed hl e d s s' /\
    (now < d \/ d = UINT64_MAX) /\
    (t_idle t = true -> d <= now + kIdleTimesliceTicks /\
       forall x, x ∈ C (QDelay (e_hart e)) -> d <= Z.max (now + 1) (deadline_of (tasks s) x))) e s)
    as ([]&s'&Hrun&d&?); [|by exists s', d].
  apply (arm_current_timeslice_spec hl i t C); try done. intros s' d now' HI' Har Hd Hidle. by exists d.
Qed.

Lemma arm_current_timeslice_correct_witness :
  exists s' d, arm_current_timeslice (demo_env 0) demo = Done tt s' /\ (u64 0 < d \/ d = UINT64_MAX).
Proof.
  destruct (arm_current_timeslice_correct (demo_hart 0) 2 (demo_task 3 0 false) quiet (demo_env 0) demo)
    as (s'&d&Hr&_&_&Hd&_).
  - apply demo_inv.
  - done.
  - done.
  - done.
  - done.
  - by eexists.
  - simpl. lia.
  - constructor.
  - exists s', d. split; [exact Hr|exact Hd].
Defined.
