(* ===== verification/Ipc.v ===== *)
(** * Endpoint IPC

    Models [microkernel/core/ipc_manager.{h,cpp}]: endpoint handles, the
    static endpoint table with its locks, the bounded message FIFO and the FIFO
    of blocked receivers of each endpoint, and the five operations.  Trace and
    probe code is compiled out.  [RunQueue] and [Scheduler] operations are
    called as in the source. *)
From Stdlib Require Import ZArith Lia.
From stdpp Require Import base tactics sets functions gmap list.
From S2P Require Import Prelude DList KernelTypes KernelInv Demo RunQueue DelayQueue Scheduler.
Local Open Scope Z_scope.

Definition kErrorInvalidArgument : Z := -22.
Definition kErrorAgain : Z := -11.
Definition kErrorAccess : Z := -13.
Definition kErrorNoSpace : Z := -28.
Definition kErrorIdrm : Z := -43.

(** ** Handles *)

Record EndpointHandle := mkHandle { eh_index : Z; eh_generation : Z }.

Definition raw (h : EndpointHandle) : Z := Z.lor (u64 (Z.shiftl (eh_generation h) 32)) (eh_index h).
Definition from_raw (value : Z) : EndpointHandle := mkHandle (u32 value) (u32 (Z.shiftr value 32)).

Definition handle_well_formed (handle : EndpointHandle) : bool :=
  (eh_index handle <? Z.of_nat kMaxEndpoints) && negb (eh_generation handle =? 0)
  && (eh_generation handle <=? kMaxGeneration).

(** ** Helpers; the caller holds the endpoint lock *)

Definition clear_queue (p : Endpoint) : Endpoint := p <| queue := replicate 16 zero_message |>.

Definition check_endpoint_invariant (p : Endpoint) : K unit :=
  if (0 <? waiting_count p) && (0 <? ep_count p) then park else mret tt.

(** Update of a field of [Task::message_wait]. *)
Definition mod_wait (f : MessageWaitNode -> MessageWaitNode) (t : Task) : Task :=
  t <| t_message_wait := f (t_message_wait t) |>.

Definition waiter_push (endpoint waiter : nat) : K unit :=
  p ← get_endpoint endpoint;
  mod_task waiter (mod_wait (<| w_previous := waiting_tail p |>));;
  mod_task waiter (mod_wait (<| w_next := None |>));;
  match waiting_tail p with
  | Some tail => mod_task tail (mod_wait (<| w_next := Some waiter |>))
  | None => mod_endpoint endpoint (<| waiting_head := Some waiter |>)
  end;;
  mod_endpoint endpoint (<| waiting_tail := Some waiter |>);;
  mod_task waiter (mod_wait (<| w_queued := true |>));;
  mod_endpoint endpoint (fun p => p <| waiting_count := u64 (waiting_count p + 1) |>).

Definition waiter_pop (endpoint : nat) : K (option nat) :=
  p ← get_endpoint endpoint;
  match waiting_head p with
  | None => mret None
  | Some waiter =>
      t ← get_task waiter;
      let next := w_next (t_message_wait t) in
      mod_endpoint endpoint (<| waiting_head := next |>);;
      match next with
      | Some head => mod_task head (mod_wait (<| w_previous := None |>))
      | None => mod_endpoint endpoint (<| waiting_tail := None |>)
      end;;
      mod_task waiter (mod_wait (<| w_previous := None |>));;
      mod_task waiter (mod_wait (<| w_next := None |>));;
      mod_task waiter (mod_wait (<| w_queued := false |>));;
      mod_endpoint endpoint (fun p => p <| waiting_count := u64 (waiting_count p - 1) |>);;
      mret (Some waiter)
  end.

Definition message_registers (a0 : Z) (message : Message) (t : Task) : Task :=
  set_x 15 (sender message)
    (set_x 14 (nth 3 (words message) 0)
      (set_x 13 (nth 2 (words message) 0)
        (set_x 12 (nth 1 (words message) 0)
          (set_x 11 (nth 0 (words message) 0)
            (set_x 10 (u64 a0) t))))).

Definition write_recv_registers (receiver : nat) (a0 : Z) (message : Message) : K unit :=
  mod_task receiver (message_registers a0 message).

(** Dequeue of the oldest pending message; [count] is positive. *)
Definition pop_message (endpoint : nat) : K Message :=
  p ← get_endpoint endpoint;
  message ← deref (queue p !! Z.to_nat (ep_head p));
  mod_endpoint endpoint (fun p =>
    p <| queue := <[Z.to_nat (ep_head p) := zero_message]> (queue p) |>
      <| ep_head := (ep_head p + 1) mod kEndpointQueueDepth |>
      <| ep_count := u64 (ep_count p - 1) |>);;
  mret message.

(** ** Operations *)

(** The scan of [create_endpoint] from slot [index] on. *)
Fixpoint create_scan (owner_tid : Z) (index count : nat) : K (Z * option Z) :=
  match count with
  | O => mret (kErrorNoSpace, None)
  | S n =>
      allocated ← gets slot_allocated;
      a ← deref (allocated !! index);
      p ← get_endpoint index;
      if a || retired p then create_scan owner_tid (S index) n
      else
        with_lock (LEndpoint index) (
          modify (fun s => s <| slot_allocated := <[index := true]> (slot_allocated s) |>);;
          mod_endpoint index (fun p =>
            clear_queue (p <| active := true |> <| retired := false |> <| owner := owner_tid |>
              <| ep_head := 0 |> <| ep_count := 0 |> <| waiting_head := None |>
              <| waiting_tail := None |> <| waiting_count := 0 |>));;
          mod_endpoint index (fun p => if generation p =? 0 then p <| generation := 1 |> else p);;
          p' ← get_endpoint index;
          mret (0, Some (raw (mkHandle (Z.of_nat index) (generation p')))))
  end.

(** Result and the handle written through the pointer; [handle_out] is whether
    the pointer is non-null. *)
Definition create_endpoint (owner_tid : Z) (handle_out : bool) : K (Z * option Z) :=
  if negb handle_out then mret (kErrorInvalidArgument, None)
  else with_lock LEndpointTable (create_scan owner_tid 0 kMaxEndpoints).

(** The [while] loop that wakes every receiver of a destroyed endpoint. *)
Fixpoint wake_all (fuel : nat) (endpoint : nat) : K unit :=
  match fuel with
  | O => diverge
  | S fuel' =>
      w ← waiter_pop endpoint;
      match w with
      | None => mret tt
      | Some receiver =>
          mod_task receiver (<| t_state_info := 0 |>);;
          mod_task receiver (set_x 10 (u64 kErrorIdrm));;
          scheduler_of receiver;;
          ok ← add_task receiver;
          if ok : bool then wake_all fuel' endpoint else park
      end
  end.

Definition destroy_endpoint (caller : Z) (handle : Z) : K Z :=
  let parsed := from_raw handle in
  if negb (handle_well_formed parsed) then mret kErrorInvalidArgument
  else
    let index := Z.to_nat (eh_index parsed) in
    with_lock LEndpointTable (with_lock (LEndpoint index) (
      allocated ← gets slot_allocated;
      a ← deref (allocated !! index);
      p ← get_endpoint index;
      if negb a || negb (active p) || negb (generation p =? eh_generation parsed)
      then mret kErrorInvalidArgument
      else if negb (owner p =? caller) then mret kErrorAccess
      else
        mod_endpoint index (fun p => clear_queue p <| ep_head := 0 |> <| ep_count := 0 |>
          <| owner := 0 |> <| active := false |>);;
        (if kMaxGeneration <=? generation p
         then mod_endpoint index (<| retired := true |>)
         else
           mod_endpoint index (fun p => p <| generation := u32 (generation p + 1) |>);;
           modify (fun s => s <| slot_allocated := <[index := false]> (slot_allocated s) |>));;
        wake_all task_fuel index;;
        mret 0)).

Definition send (sender_tid : Z) (handle : Z) (payload : list Z) : K Z :=
  let parsed := from_raw handle in
  if negb (handle_well_formed parsed) then mret kErrorInvalidArgument
  else
    let index := Z.to_nat (eh_index parsed) in
    with_lock (LEndpoint index) (
      p ← get_endpoint index;
      if negb (active p) || negb (generation p =? eh_generation parsed)
      then mret kErrorInvalidArgument
      else
        check_endpoint_invariant p;;
        if 0 <? waiting_count p then
          w ← waiter_pop index;
          receiver ← deref w;
          write_recv_registers receiver 0 (mkMessage sender_tid payload);;
          mod_task receiver (<| t_state_info := 0 |>);;
          scheduler_of receiver;;
          ok ← add_task receiver;
          if ok : bool then mret 0 else park
        else if kEndpointQueueDepth <=? ep_count p then mret kErrorAgain
        else
          mod_endpoint index (fun p =>
            p <| queue := <[Z.to_nat ((ep_head p + ep_count p) mod kEndpointQueueDepth)
                            := mkMessage sender_tid payload]> (queue p) |>
              <| ep_count := u64 (ep_count p + 1) |>);;
          mret 0).

(** [message_out]: whether the pointer for the result is non-null. *)
Definition try_recv (handle : Z) (message_out : bool) : K (Z * option Message) :=
  let parsed := from_raw handle in
  if negb (handle_well_formed parsed) || negb message_out then mret (kErrorInvalidArgument, None)
  else
    let index := Z.to_nat (eh_index parsed) in
    with_lock (LEndpoint index) (
      p ← get_endpoint index;
      if negb (active p) || negb (generation p =? eh_generation parsed)
      then mret (kErrorInvalidArgument, None)
      else if ep_count p =? 0 then mret (kErrorAgain, None)
      else message ← pop_message index; mret (0, Some message)).

Module RecvStatus.
Inductive t := delivered | blocked | rejected.
End RecvStatus.
Record RecvResult := mkRecvResult { rr_status : RecvStatus.t; rr_message : Message; rr_error : Z }.

Definition recv (caller : nat) (handle : Z) : K RecvResult :=
  t ← get_task caller;
  if w_queued (t_message_wait t) then park
  else
    let parsed := from_raw handle in
    if negb (handle_well_formed parsed) then
      mod_task caller (set_x 10 (u64 kErrorInvalidArgument));;
      mret (mkRecvResult RecvStatus.rejected zero_message kErrorInvalidArgument)
    else
      let index := Z.to_nat (eh_index parsed) in
      with_lock (LEndpoint index) (
        p ← get_endpoint index;
        if negb (active p) || negb (generation p =? eh_generation parsed) then
          mod_task caller (set_x 10 (u64 kErrorInvalidArgument));;
          mret (mkRecvResult RecvStatus.rejected zero_message kErrorInvalidArgument)
        else
          check_endpoint_invariant p;;
          if 0 <? ep_count p then
            message ← pop_message index;
            write_recv_registers caller 0 message;;
            mret (mkRecvResult RecvStatus.delivered message 0)
          else
            waiter_push index caller;;
            mod_task caller (<| t_state := TaskState.blocked_message |>);;
            mod_task caller (<| t_state_info := handle |>);;
            scheduler_of caller;;
            _ ← set_next_runnable;
            mret (mkRecvResult RecvStatus.blocked zero_message 0)).

(** ** Receivers' queue *)

(** An endpoint without the header of its queue of receivers. *)
Definition ep_view (p : Endpoint) : Endpoint :=
  p <| waiting_head := None |> <| waiting_tail := None |> <| waiting_count := 0 |>.

Lemma ep_view_ok a p p' w w' :
  ep_ok a p w -> ep_view p' = ep_view p -> (w' <> [] -> ep_count p = 0) -> ep_ok a p' w'.
Proof.
  intros [] E Hx. pose proof (f_equal queue E) as E1. pose proof (f_equal ep_head E) as E2.
  pose proof (f_equal ep_count E) as E3. pose proof (f_equal generation E) as E4.
  pose proof (f_equal active E) as E5. pose proof (f_equal retired E) as E6. simpl in *.
  split; rewrite ?E1, ?E2, ?E3, ?E4, ?E5, ?E6; auto.
Qed.

(** Only the header of [QWait w] changed. *)
Lemma wait_headers s s' w p' :
  wait_frame s s' -> endpoints s' = <[w := p']> (endpoints s) -> headers_kept s s' (QWait w).
Proof.
  intros Hfr He [r|h|w'] hd tl n Hne; simpl.
  - by rewrite (wf_rq _ _ Hfr).
  - by rewrite (wf_delay _ _ Hfr).
  - rewrite He, list_lookup_insert_ne by congruence. done.
Qed.

Lemma wait_endpoints s s' C w p p' l :
  Inv s C -> wait_frame s s' -> endpoints s !! w = Some p -> endpoints s' = <[w := p']> (endpoints s) ->
  ep_view p' = ep_view p -> (l <> [] -> ep_count p = 0) ->
  forall e q, endpoints s' !! e = Some q ->
  exists a, slot_allocated s' !! e = Some a /\ ep_ok a q ((<[QWait w := l]> C) (QWait e)).
Proof.
  intros HI Hfr Hp He Hv Hl e q Hq. rewrite (wf_slots _ _ Hfr). rewrite He in Hq.
  destruct (decide (e = w)) as [->|Hne].
  - rewrite list_lookup_insert_eq in Hq by (by eapply lookup_lt_Some). injection Hq as <-.
    rewrite fn_lookup_insert. destruct (inv_ep _ _ HI w p Hp) as (a&?&?). exists a. split; [done|].
    by eapply ep_view_ok.
  - rewrite list_lookup_insert_ne in Hq by done. rewrite fn_lookup_insert_ne by congruence. by apply HI.
Qed.

Definition wn_out (t : Task) : Task := t <| t_message_wait := mkWaitNode None None false |>.

Lemma waiter_pop_spec w p C (Q : option nat -> KState -> Prop) e s :
  Inv s C -> (w < kMaxEndpoints)%nat -> endpoints s !! w = Some p ->
  (C (QWait w) = [] -> Q None s) ->
  (forall i l t s' t' p', C (QWait w) = i :: l -> tasks s !! i = Some t ->
     Inv s' (<[QWait w := l]> C) -> wait_frame s s' -> only_task i s s' ->
     tasks s' !! i = Some t' -> core t' = core (wn_out t) ->
     endpoints s' = <[w := p']> (endpoints s) -> ep_view p' = ep_view p -> Q (Some i) s') ->
  wp False (waiter_pop w) Q e s.
Proof.
  intros HI Hv Hp HQN HQS. pose proof (inv_q _ _ HI) as HC. unfold waiter_pop. ksteps.
  destruct (C (QWait w)) as [|i l] eqn:ECq.
  { destruct (qs_rep _ _ HC (QWait w) Hv) as (hd&tl&(p0&Hp0&E&_)&Hd). simplify_eq.
    rewrite ECq in Hd. destruct Hd as (->&_). apply wp_ret. by apply HQN. }
  assert (i ∈ C (QWait w)) as Hiq by (rewrite ECq; set_solver).
  destruct (qrep_first s C _ i l HC ECq) as (t&hd&tl&Ht&->&Hnext&Hil&Hh&Hd).
  pose proof Hh as (p0&Hp0&Ehd&Etl&Ecnt). rewrite Hp in Hp0. injection Hp0 as <-. simpl in Hnext.
  rewrite Ehd. ksteps. rewrite Hnext.
  assert (forall x, head l = Some x -> x ∈ C (QWait w)) as Hhl by (intros x ?%head_elem; rewrite ECq; set_solver).
  assert (forall x, x ∈ C (QWait w) -> is_Some (tasks s !! x)) as Hsm by (intros; by eapply qstruct_task).
  assert (head l <> Some i) as Hni by (intros ?%head_elem; done).
  pose proof (qstruct_length s C (QWait w) HC) as Hl16. rewrite (inv_tasks _ _ HI), ECq in Hl16.
  unfold kMaxTasks in Hl16. simpl in Hl16.
  set (p' := p <| waiting_head := head l |> <| waiting_tail := if l then None else tl |>
    <| waiting_count := Z.of_nat (length l) |>).
  assert (forall s', wait_frame s s' -> length (tasks s') = length (tasks s) ->
     (forall j, tasks s' !! j = unlink_at LkWait (head l) wn_out i j <$> tasks s !! j) ->
     endpoints s' = <[w := p']> (endpoints s) -> Q (Some i) s') as Hfin.
  { intros s' Hfr Hlen Hts He.
    destruct (Inv_remove s s' C (QWait w) i t wn_out HI Hv Ht Hlen (wf_harts _ _ Hfr)
      (rest_used _ _ (wf_rest _ _ Hfr)) (wait_headers _ _ _ _ Hfr He)) with (l2 := l)
      (hd := Some i) (tl := tl) as [HI' Hot]; auto.
    - rewrite (wf_log _ _ Hfr). apply HI.
    - exact (inv_context _ _ HI i t Ht).
    - by intros [].
    - by intros [].
    - exists p'. rewrite He, list_lookup_insert_eq by (by eapply lookup_lt_Some). done.
    - intros h. rewrite fn_lookup_insert_ne by done.
      eapply (sorted_kept s s' C _ i); [done|exact Hts|intros; by apply unlink_at_other|].
      intros Hj. by specialize (qs_disjoint _ _ HC _ _ i Hiq Hj).
    - eapply (wait_endpoints s s' C w p p'); try done. intros _. destruct (inv_ep _ _ HI w p Hp) as (a&_&Hok).
      apply (ep_exclusive _ _ _ Hok). by rewrite ECq.
    - apply (HQS i l t s' (wn_out t) p'); auto. rewrite Hts, Ht. simpl. unfold unlink_at. by rewrite decide_True. }
  assert (u64 (waiting_count p - 1) = Z.of_nat (length l)) as Ewc.
  { rewrite Ecnt, ECq. simpl. rewrite u64_small; [lia|]. unfold is_u64. lia. }
  destruct (head l) as [n|] eqn:En; ksteps; apply Hfin.
  1,5: by split; knorm.
  1,4: knorm; by rewrite !length_alter.
  1,3: intros j; unfold unlink_at; alter_cases; f_equal.
  all: knorm; rewrite (alter_insert _ w _ p Hp), !(alter_inserted _ w _ _ p Hp); f_equal.
  all: unfold p'; rproj; rewrite Ewc; destruct l; try done; rewrite <- Etl; by destruct p.
Qed.

(** The caller enters the queue and is marked blocked; [k] is what follows. *)
Definition wn_in (tail : option nat) (handle : Z) (t : Task) : Task :=
  t <| t_message_wait := mkWaitNode tail None true |> <| t_state := TaskState.blocked_message |>
    <| t_state_info := handle |>.

Lemma waiter_block_spec {A} w p i t handle C (k : K A) (Q : A -> KState -> Prop) e s :
  Inv s C -> (w < kMaxEndpoints)%nat -> endpoints s !! w = Some p -> ep_count p = 0 ->
  tasks s !! i = Some t -> (forall k, flag_of k t = false) -> t_idle t = false -> cpu_bound s t ->
  task_slots_used s !! i = Some true ->
  (forall s' t' p', Inv s' (<[QWait w := C (QWait w) ++ [i]]> C) -> wait_frame s s' -> only_task i s s' ->
     tasks s' !! i = Some t' -> core t' = core (wn_in None handle t) ->
     endpoints s' = <[w := p']> (endpoints s) -> ep_view p' = ep_view p -> wp False k Q e s') ->
  wp False (waiter_push w i;; (mod_task i (<| t_state := TaskState.blocked_message |>);;
    (mod_task i (<| t_state_info := handle |>);; k))) Q e s.
Proof.
  intros HI Hv Hp Hcnt Ht Hf Hid Hcpu Hus HQ. pose proof (inv_q _ _ HI) as HC.
  pose proof (qstruct_free s C i t HC Ht Hf) as Hfree.
  destruct (qs_rep _ _ HC (QWait w) Hv) as (hd&tl&Hh&Hd). pose proof Hh as (p0&Hp0&Ehd&Etl&Ecnt).
  rewrite Hp in Hp0. injection Hp0 as <-.
  assert (tl = last (C (QWait w))) as Elast by apply Hd.
  assert (forall x, tl = Some x -> x ∈ C (QWait w)) as Htl by (rewrite Elast; apply last_elem).
  assert (tl <> Some i) as Hni by (intros ?%Htl; by eapply Hfree).
  assert (forall x, tl = Some x -> is_Some (tasks s !! x)) as Hsm by (intros x ?%Htl; by eapply qstruct_task).
  pose proof (qstruct_length s C (QWait w) HC) as Hl16. rewrite (inv_tasks _ _ HI) in Hl16. unfold kMaxTasks in Hl16.
  set (p' := p <| waiting_head := if C (QWait w) then Some i else hd |> <| waiting_tail := Some i |>
    <| waiting_count := Z.of_nat (S (length (C (QWait w)))) |>).
  assert (forall s', wait_frame s s' -> length (tasks s') = length (tasks s) ->
     (forall j, tasks s' !! j = link_at LkWait tl None (wn_in tl handle) i j <$> tasks s !! j) ->
     endpoints s' = <[w := p']> (endpoints s) -> wp False k Q e s') as Hfin.
  { intros s' Hfr Hlen Hts He.
    destruct (Inv_insert s s' C (QWait w) i t (wn_in tl handle) HI Hv Ht Hlen (wf_harts _ _ Hfr)
      (rest_used _ _ (wf_rest _ _ Hfr)) (wait_headers _ _ _ _ Hfr He)) with (l1 := C (QWait w)) (l2 := @nil nat)
      (hd := hd) (tl := tl) as [HI' Hot]; auto.
    - rewrite (wf_log _ _ Hfr). apply HI.
    - exact (inv_context _ _ HI i t Ht).
    - by intros [].
    - by intros [].
    - by rewrite app_nil_r.
    - simpl. by rewrite <- Elast.
    - simpl. by rewrite Elast.
    - exists p'. rewrite He, list_lookup_insert_eq by (by eapply lookup_lt_Some). done.
    - intros h. rewrite fn_lookup_insert_ne by done.
      eapply (sorted_kept s s' C _ i); [done|exact Hts|intros; by apply link_at_other|apply Hfree].
    - by eapply (wait_endpoints s s' C w p p').
    - apply (HQ s' (wn_in tl handle t) p'); auto. rewrite Hts, Ht. simpl. unfold link_at. by rewrite decide_True. }
  assert (u64 (waiting_count p + 1) = Z.of_nat (S (length (C (QWait w))))) as Ewc.
  { rewrite Ecnt, u64_small; [lia|]. unfold is_u64. lia. }
  unfold waiter_push. ksteps. rewrite Etl. destruct tl as [x|]; ksteps; apply Hfin.
  1,5: by split; knorm.
  1,4: knorm; by rewrite !length_alter.
  1,3: intros j; unfold link_at; alter_cases; f_equal.
  all: knorm; rewrite (alter_insert _ w _ p Hp), !(alter_inserted _ w _ _ p Hp); f_equal.
  all: unfold p'; rproj; rewrite Ewc.
  - assert (exists y l, C (QWait w) = y :: l) as (y&l&->) by (destruct (C (QWait w)); [done|eauto]).
    rewrite <- Ehd. by destruct p.
  - assert (C (QWait w) = []) as -> by (by apply last_None). by destruct p.
Qed.

(** ** The message ring *)

(** The pending messages, oldest first. *)
Definition pending (p : Endpoint) : list Message :=
  map (fun k => nth (Z.to_nat ((ep_head p + Z.of_nat k) mod kEndpointQueueDepth)) (queue p) zero_message)
    (seq 0 (Z.to_nat (ep_count p))).

Lemma pending_length p : 0 <= ep_count p -> Z.of_nat (length (pending p)) = ep_count p.
Proof. intros H. unfold pending. rewrite length_map, length_seq. lia. Qed.

(** Slots of different positions in the ring are different. *)
Lemma ring_slots head j k :
  0 <= head < 16 -> 0 <= j < 16 -> 0 <= k < 16 -> (head + j) mod 16 = (head + k) mod 16 -> j = k.
Proof. intros. Z.div_mod_to_equations. lia. Qed.

Lemma nth_insert_ne {A} (l : list A) i j x d : i <> j -> nth j (<[i := x]> l) d = nth j l d.
Proof. intros H. rewrite !nth_lookup. by rewrite list_lookup_insert_ne. Qed.
Lemma nth_insert_eq {A} (l : list A) i x d : (i < length l)%nat -> nth i (<[i := x]> l) d = x.
Proof. intros H. rewrite nth_lookup. by rewrite list_lookup_insert_eq. Qed.

Definition pushed (m : Message) (p : Endpoint) : Endpoint :=
  p <| queue := <[Z.to_nat ((ep_head p + ep_count p) mod kEndpointQueueDepth) := m]> (queue p) |>
    <| ep_count := u64 (ep_count p + 1) |>.

Lemma pending_push a p w m :
  ep_ok a p w -> ep_count p < 16 -> pending (pushed m p) = pending p ++ [m].
Proof.
  intros Hok Hlt. pose proof (ep_queue _ _ _ Hok) as Hq. pose proof (ep_head_range _ _ _ Hok) as Hh.
  pose proof (ep_count_range _ _ _ Hok) as Hc. unfold pending, pushed. rproj. unfold kEndpointQueueDepth.
  rewrite u64_small by (unfold is_u64; lia).
  replace (Z.to_nat (ep_count p + 1)) with (S (Z.to_nat (ep_count p))) by lia.
  rewrite seq_S, map_app. cbn [map Nat.add]. f_equal.
  - apply map_ext_in. intros k Hk%in_seq. apply nth_insert_ne. intros E.
    apply (Z2Nat.inj_iff) in E; [|apply Z.mod_pos_bound; lia..].
    apply ring_slots in E; lia.
  - f_equal. replace (Z.of_nat (Z.to_nat (ep_count p))) with (ep_count p) by lia.
    apply nth_insert_eq. rewrite Hq. pose proof (Z.mod_pos_bound (ep_head p + ep_count p) 16). lia.
Qed.

Definition popped (p : Endpoint) : Endpoint :=
  p <| queue := <[Z.to_nat (ep_head p) := zero_message]> (queue p) |>
    <| ep_head := (ep_head p + 1) mod kEndpointQueueDepth |>
    <| ep_count := u64 (ep_count p - 1) |>.

Lemma pending_pop a p w :
  ep_ok a p w -> 0 < ep_count p ->
  exists m, queue p !! Z.to_nat (ep_head p) = Some m /\ pending p = m :: pending (popped p).
Proof.
  intros Hok Hpos. pose proof (ep_queue _ _ _ Hok) as Hq. pose proof (ep_head_range _ _ _ Hok) as Hh.
  pose proof (ep_count_range _ _ _ Hok) as Hc.
  destruct (lookup_lt_is_Some_2 (queue p) (Z.to_nat (ep_head p))) as [m Hm]; [lia|].
  exists m. split; [done|]. unfold pending, popped. rproj. unfold kEndpointQueueDepth.
  rewrite u64_small by (unfold is_u64; lia).
  replace (Z.to_nat (ep_count p)) with (S (Z.to_nat (ep_count p - 1))) by lia.
  cbn [seq map]. f_equal.
  - rewrite Z.add_0_r, Z.mod_small by lia. rewrite nth_lookup, Hm. done.
  - rewrite <- seq_shift, map_map. apply map_ext_in. intros k Hk%in_seq.
    rewrite Z.add_mod_idemp_l by lia.
    replace (ep_head p + 1 + Z.of_nat k) with (ep_head p + Z.of_nat (S k)) by lia.
    symmetry. apply nth_insert_ne. intros E. apply Z2Nat.inj_iff in E; [|lia|apply Z.mod_pos_bound; lia].
    rewrite <- (Z.mod_small (ep_head p) 16), <- (Z.add_0_r (ep_head p)) in E at 1 by lia.
    apply ring_slots in E; lia.
Qed.

Lemma pushed_ok a p w m : ep_ok a p w -> message_ok m -> ep_count p < 16 -> active p = true -> w = [] -> ep_ok a (pushed m p) w.
Proof.
  intros [] Hm Hlt Hact ->. unfold pushed. split; rproj; rewrite ?u64_small by (unfold is_u64; lia); try done; try lia.
  - by rewrite length_insert.
  - by apply Forall_insert.
  - intros. congruence.
Qed.

Lemma popped_ok a p w : ep_ok a p w -> 0 < ep_count p -> ep_ok a (popped p) w.
Proof.
  intros [] Hpos. unfold popped, kEndpointQueueDepth.
  split; rproj; rewrite ?u64_small by (unfold is_u64; lia); try done; try lia.
  - by rewrite length_insert.
  - by apply Forall_insert.
  - apply Z.mod_pos_bound. lia.
  - intros Hw. specialize (ep_exclusive Hw). lia.
  - intros Ha. specialize (ep_inactive Ha). lia.
Qed.

(** ** Changes of one endpoint *)

(** An endpoint changed, but not its queue of receivers. *)
Lemma Inv_endpoint s s' C w p p' a' :
  Inv s C -> endpoints s !! w = Some p -> endpoints s' = <[w := p']> (endpoints s) ->
  waiting_head p' = waiting_head p -> waiting_tail p' = waiting_tail p -> waiting_count p' = waiting_count p ->
  slot_allocated s' !! w = Some a' -> ep_ok a' p' (C (QWait w)) ->
  (forall e, e <> w -> slot_allocated s' !! e = slot_allocated s !! e) ->
  tasks s' = tasks s -> harts s' = harts s -> task_slots_used s' = task_slots_used s ->
  delay_queues s' = delay_queues s -> (forall q, get_rq q s' = get_rq q s) -> ordered (lock_log s') -> Inv s' C.
Proof.
  intros HI Hp He E1 E2 E3 Ha Hok Hsl Et Eh Eu Ed Er Hlog.
  assert (endpoints s' !! w = Some p') as Hp' by (rewrite He; apply list_lookup_insert_eq; by eapply lookup_lt_Some).
  assert (qstruct s' C) as HC.
  { apply (qstruct_frame s); [apply HI|by rewrite Et|rewrite Et; intros; by simplify_eq|].
    intros [r|h|w'] hd tl n; simpl; rewrite ?Er, ?Ed; [done..|].
    intros (q&Hq&?&?&?). destruct (decide (w' = w)) as [->|Hne].
    - exists p'. simplify_eq. by rewrite E1, E2, E3.
    - exists q. rewrite He, list_lookup_insert_ne by done. done. }
  destruct HI as [_ I1 I2 I3 I4 I5 I6 I7 I8].
  split; rewrite ?Et, ?Eh; auto.
  - intros q i t Hi Ht. unfold cpu_bound. rewrite Eu, Eh. eauto.
  - intros h hl Hl Hs. destruct (I5 h hl Hl Hs) as (?&?&?&it&?&[Hid Hus]).
    split_and!; auto. exists it. split; [done|]. split; rewrite ?Et, ?Eu; auto.
  - intros e q Hq. destruct (decide (e = w)) as [->|Hne]; [simplify_eq; eauto|].
    rewrite He, list_lookup_insert_ne in Hq by done. rewrite Hsl by done. auto.
Qed.

Lemma endpoint_exists s C w : Inv s C -> (w < kMaxEndpoints)%nat -> exists p, endpoints s !! w = Some p /\
  waiting_count p = Z.of_nat (length (C (QWait w))) /\ exists a, slot_allocated s !! w = Some a /\ ep_ok a p (C (QWait w)).
Proof.
  intros HI Hv. destruct (qs_rep _ _ (inv_q _ _ HI) (QWait w) Hv) as (hd&tl&(p&Hp&_&_&Hc)&_).
  exists p. split_and!; [done..|]. by apply HI.
Qed.

Lemma well_formed_index h : handle_well_formed h = true -> (Z.to_nat (eh_index h) < kMaxEndpoints)%nat.
Proof. unfold handle_well_formed. intros [[H _]%andb_true_iff _]%andb_true_iff. apply Z.ltb_lt in H. unfold kMaxEndpoints in *. lia. Qed.

(** The handle names the endpoint in its present life. *)
Definition live (p : Endpoint) (h : EndpointHandle) : bool := active p && (generation p =? eh_generation h).

Lemma live_neg p h : negb (active p) || negb (generation p =? eh_generation h) = negb (live p h).
Proof. unfold live. by rewrite negb_andb. Qed.

(** The sanity check of an endpoint always passes. *)
Lemma check_passes a p w (Q : unit -> KState -> Prop) e s :
  ep_ok a p w -> waiting_count p = Z.of_nat (length w) -> Q tt s -> wp False (check_endpoint_invariant p) Q e s.
Proof.
  intros Hok Hc HQ. unfold check_endpoint_invariant. rewrite Hc.
  destruct w as [|x w]; [by apply wp_ret|]. rewrite (ep_exclusive _ _ _ Hok) by done. rewrite andb_false_r. by apply wp_ret.
Qed.

(** Who an endpoint is: changed by creation and destruction only. *)
Definition ep_identity (p : Endpoint) := (active p, retired p, generation p, owner p).

(** ** send *)

(** Nothing but the log of locks changed. *)
Record quiet_frame (s s' : KState) : Prop := {
  qf_tasks : tasks s' = tasks s; qf_eps : endpoints s' = endpoints s; qf_slots : slot_allocated s' = slot_allocated s;
}.

(** The abstract effect of [send] on an endpoint [w]. *)
Definition send_post (w : nat) (h : EndpointHandle) (m : Message) (s : KState) (C : queues)
    (r : Z) (s' : KState) (C' : queues) : Prop :=
  exists p, endpoints s !! w = Some p /\
  if negb (live p h) then r = kErrorInvalidArgument /\ C' = C /\ quiet_frame s s'
  else match C (QWait w) with
       | i :: l =>
           r = 0 /\ C' = enqueue (target_of (tasks s) i) i (<[QWait w := l]> C) /\ only_task i s s' /\
           (exists t t', tasks s !! i = Some t /\ tasks s' !! i = Some t' /\
              t_context t' = t_context (message_registers 0 m t)) /\
           exists p', endpoints s' = <[w := p']> (endpoints s) /\ ep_view p' = ep_view p
       | [] =>
           C' = C /\ tasks s' = tasks s /\
           if kEndpointQueueDepth <=? ep_count p then r = kErrorAgain /\ quiet_frame s s'
           else r = 0 /\ exists p', endpoints s' = <[w := p']> (endpoints s) /\ pending p' = pending p ++ [m] /\
                  ep_identity p' = ep_identity p
       end.

(** What every IPC operation on behalf of a running task leaves alone. *)
Record ipc_frame (s s' : KState) : Prop := {
  if_rest : rest s' = rest s; if_harts : harts s' = harts s; if_held : held s' = held s;
  if_clock : clock_reads s' = clock_reads s;
}.

Lemma registers_resumable a0 m t : length (ctx_x (t_context t)) = 32%nat ->
  resumable t ((message_registers a0 m t) <| t_state_info := 0 |>).
Proof.
  intros Hl. unfold message_registers, set_x. split_and!; try done. rproj. by rewrite !length_insert.
Qed.

(** The new registers depend on the old ones only. *)
Lemma set_x_context n v t t' : t_context t' = t_context t -> t_context (set_x n v t') = t_context (set_x n v t).
Proof. intros E. unfold set_x. simpl. by rewrite E. Qed.
Lemma message_registers_context a0 m t t' :
  t_context t' = t_context t -> t_context (message_registers a0 m t') = t_context (message_registers a0 m t).
Proof. intros E. unfold message_registers. by repeat apply set_x_context. Qed.

(** The end of a wake-up: the receiver was popped from the queue of [w] and its
    registers were written; it is now made ready. *)
Lemma rouse_spec {A} w i l t t1 t2 C (k : K A) (Q : A -> KState -> Prop) e s s1 s2 :
  Inv s C -> C (QWait w) = i :: l -> tasks s !! i = Some t -> lock_fits (LRunQueue Global) (held s) ->
  Inv s1 (<[QWait w := l]> C) -> wait_frame s s1 -> only_task i s s1 -> tasks s1 !! i = Some t1 ->
  core t1 = core (wn_out t) -> tasks s2 = <[i := t2]> (tasks s1) -> tasks_only s1 s2 -> resumable t1 t2 ->
  (forall s' t', Inv s' (enqueue (target_of (tasks s) i) i (<[QWait w := l]> C)) -> ipc_frame s s' ->
     endpoints s' = endpoints s1 -> slot_allocated s' = slot_allocated s -> only_task i s s' -> tasks s' !! i = Some t' ->
     t_context t' = t_context t2 -> t_state_info t' = t_state_info t2 -> wp False k Q e s') ->
  wp False (scheduler_of i;; (ok ← add_task i; if ok : bool then k else park)) Q e s2.
Proof.
  intros HI HCq Ht Hlock HI1 Hfr1 Hot1 Ht1 Hcore1 Ets2 Hto Hre HQ.
  assert (i ∈ C (QWait w)) as Hiq by (rewrite HCq; set_solver).
  destruct (inv_member _ _ HI _ i t Hiq Ht) as (Hst&Hid&Hcpu&Hus).
  apply core_inv in Hcore1 as (Es&Ei&Ecpu&_&_&Eaff&_&Ef).
  assert (cpu_bound s1 t1) as Hcpu1.
  { destruct Hcpu as (c&hl&?&?&?). exists c, hl. by rewrite Ecpu, (wf_harts _ _ Hfr1). }
  assert (tasks s2 !! i = Some t2) as Ht2 by (rewrite Ets2; apply list_lookup_insert_eq; by eapply lookup_lt_Some).
  apply wp_bind, (scheduler_of_spec i t2); [done| |].
  { destruct Hcpu1 as (c&hl&?&?&?), Hre as (_&_&E&_). exists c, hl. by rewrite E, (to_harts _ _ Hto). }
  apply wp_bind. eapply (wake_spec i t1 t2 (<[QWait w := l]> C) _ e s1 s2); try done.
  - intros k0. rewrite Ef. destruct k0; [|..|done].
    + by apply (member_flags s C (QWait w) i t LkRun (inv_q _ _ HI)).
    + by apply (member_flags s C (QWait w) i t LkDelay (inv_q _ _ HI)).
  - rewrite Es. simpl. by rewrite Hst.
  - by rewrite Ei.
  - by rewrite (rest_used _ _ (wf_rest _ _ Hfr1)).
  - by rewrite (wf_held _ _ Hfr1).
  - intros s3 t3 HI3 Hfr3 Hot3 Ht3 Hcore3.
    assert (t_state_info t3 = t_state_info t2) as Einfo by exact (f_equal t_state_info Hcore3).
    apply core_inv in Hcore3 as (_&_&_&_&Ectx&_). destruct Hfr1, Hfr3.
    apply (HQ s3 t3); try done; [|by split; congruence|by rewrite rf_slots|by eapply only_task_trans].
    unfold target_of. rewrite Ht. unfold target_queue in *. by rewrite Eaff, Ecpu in HI3.
Qed.

(** The woken receiver: popped from the queue, registers written, made ready. *)
Lemma deliver_spec w p i l t m C (Q : Z -> KState -> Prop) e s :
  Inv s C -> (w < kMaxEndpoints)%nat -> endpoints s !! w = Some p -> C (QWait w) = i :: l -> tasks s !! i = Some t ->
  lock_fits (LRunQueue Global) (held s) ->
  (forall s' t' p', Inv s' (enqueue (target_of (tasks s) i) i (<[QWait w := l]> C)) -> ipc_frame s s' ->
     slot_allocated s' = slot_allocated s -> only_task i s s' -> tasks s' !! i = Some t' ->
     t_context t' = t_context (message_registers 0 m t) -> t_state_info t' = 0 ->
     endpoints s' = <[w := p']> (endpoints s) -> ep_view p' = ep_view p -> Q 0 s') ->
  wp False (o ← waiter_pop w; receiver ← deref o; write_recv_registers receiver 0 m;;
    mod_task receiver (<| t_state_info := 0 |>);; scheduler_of receiver;;
    ok ← add_task receiver; if ok : bool then mret 0 else park) Q e s.
Proof.
  intros HI Hv Hp HCq Ht Hlock HQ. apply wp_bind, (waiter_pop_spec w p C); [done..|congruence|].
  intros i' l' t0 s1 t1 p1 E Ht0 HI1 Hfr1 Hot1 Ht1 Hcore1 He1 Hv1. rewrite HCq in E. injection E as <- <-.
  rewrite Ht in Ht0. injection Ht0 as <-.
  assert (t_context t1 = t_context t) as Ectx by exact (f_equal t_context Hcore1).
  apply wp_bind. eapply wp_deref; [done|]. unfold write_recv_registers.
  apply wp_bind, wp_mod_task; [by exists t1|]. apply wp_bind, wp_mod_task; [rproj; by apply lookup_alter_is_Some|].
  eapply (rouse_spec w i l t t1 ((message_registers 0 m t1) <| t_state_info := 0 |>) C); try done.
  - rproj. by rewrite (alter_insert _ i _ t1 Ht1), (alter_inserted _ i _ _ t1 Ht1).
  - apply registers_resumable. exact (inv_context _ _ HI1 i t1 Ht1).
  - intros s3 t3 HI3 Hfr3 He3 Hsl3 Hot3 Ht3 Hctx3 Hinfo3. apply wp_ret. apply (HQ s3 t3 p1); try done; [|by rewrite He3].
    rewrite Hctx3. by apply message_registers_context.
Qed.

Lemma Running_only s s' X C i q :
  Running X s -> Inv s C -> i ∈ C q -> only_task i s s' -> harts s' = harts s -> rest s' = rest s -> Running X s'.
Proof.
  intros HR HI Hi Hot Hh Hr. apply (Running_update X s s' i); [done|done| |done|by apply rest_used].
  intros h hl HX Hl. eapply Running_not_queued; eauto. apply HI.
Qed.

Lemma send_spec sender_tid handle payload X C (Q : Z -> KState -> Prop) e s :
  let h := from_raw handle in let w := Z.to_nat (eh_index h) in
  Inv s C -> Running X s -> length payload = 4%nat -> lock_fits (LEndpoint w) (held s) ->
  (handle_well_formed h = false -> Q kErrorInvalidArgument s) ->
  (handle_well_formed h = true -> forall r s' C', Inv s' C' -> Running X s' -> ipc_frame s s' ->
     send_post w h (mkMessage sender_tid payload) s C r s' C' -> Q r s') ->
  wp False (send sender_tid handle payload) Q e s.
Proof.
  intros h w HI HR Hlen Hlock HQf HQ. unfold send. fold h. fold w.
  destruct (handle_well_formed h) eqn:Ewf; cbn [negb]; [|apply wp_ret; by apply HQf].
  pose proof (well_formed_index h Ewf) as Hw. fold w in Hw.
  destruct (endpoint_exists s C w HI Hw) as (p&Hp&Hwc&a&Ha&Hok). specialize (HQ eq_refl).
  apply wp_with_lock; [done|].
  set (s1 := s <| lock_log := (LEndpoint w, held s) :: lock_log s |> <| held := LEndpoint w :: held s |>).
  assert (Inv s1 C) as HI1 by (by apply Inv_lock).
  assert (lock_fits (LRunQueue Global) (held s1)) as Hlk1 by (apply fits_cons; [done|simpl; lia]).
  assert (forall r, send_post w h (mkMessage sender_tid payload) s C r (s1 <| held := held s |>) C ->
    held s1 = LEndpoint w :: held s /\ Q r (s1 <| held := held s |>)) as Hstay.
  { intros r Hpost. split; [done|]. apply (HQ r _ C); [by apply Inv_held|by apply (Running_frame X s)|by split|done]. }
  apply wp_bind. eapply wp_get_endpoint; [exact Hp|]. rewrite live_neg.
  destruct (live p h) eqn:Elive; cbn [negb].
  2: { apply wp_ret, Hstay. exists p. split; [done|]. rewrite Elive. cbn [negb]. by split_and!. }
  assert (active p = true) as Hact by (unfold live in Elive; by apply andb_true_iff in Elive as [? _]).
  apply wp_bind, (check_passes a p (C (QWait w))); [done|done|].
  rewrite Hwc. destruct (C (QWait w)) as [|i l] eqn:ECq; simpl (length _).
  - cbn [Z.of_nat Z.ltb Z.compare]. destruct (Z.leb_spec kEndpointQueueDepth (ep_count p)) as [Hfull|Hroom].
    { apply wp_ret, Hstay. exists p. rewrite Elive, ECq. cbn [negb]. rewrite (proj2 (Z.leb_le _ _) Hfull).
      by split_and!. }
    unfold kEndpointQueueDepth in Hroom. apply wp_bind, wp_mod_endpoint; [by exists p|]. apply wp_ret.
    split; [done|]. match goal with |- Q _ ?x => set (s2 := x) end.
    assert (endpoints s2 = <[w := pushed (mkMessage sender_tid payload) p]> (endpoints s)) as He2
      by (unfold s2; rproj; by rewrite (alter_insert _ w _ p Hp)).
    apply (HQ 0 s2 C); [|by apply (Running_frame X s)|by split|].
    + eapply (Inv_endpoint s s2 C w p _ a); try done; [rewrite ECq; by apply pushed_ok|].
      constructor; [done|apply HI].
    + exists p. rewrite Elive, ECq, (proj2 (Z.leb_gt _ _)) by (unfold kEndpointQueueDepth; lia). cbn [negb].
      split_and!; try done. exists (pushed (mkMessage sender_tid payload) p). split_and!; [done| |done].
      by eapply pending_push.
  - assert (0 <? Z.of_nat (S (length l)) = true) as -> by (apply Z.ltb_lt; lia).
    assert (i ∈ C (QWait w)) as Hiq by (rewrite ECq; set_solver).
    destruct (qstruct_task s C (QWait w) i (inv_q _ _ HI) Hiq) as [t Ht].
    eapply (deliver_spec w p i l t (mkMessage sender_tid payload) C); try done.
    intros s' t' p' HI' Hfr _ Hot Ht' Hctx _ He' Hv'. split; [apply Hfr|].
    eapply (HQ 0 _ (enqueue (target_of (tasks s) i) i (<[QWait w := l]> C))).
    + by apply Inv_held.
    + by eapply (Running_only s _ X C i (QWait w)); [done|done|done|exact Hot|exact (if_harts _ _ Hfr)|exact (if_rest _ _ Hfr)].
    + destruct Hfr. by split.
    + exists p. rewrite Elive, ECq. cbn [negb]. split_and!; try done; [by exists t, t'|by exists p'].
Qed.

(** ** try_recv *)

Definition recv_post (w : nat) (h : EndpointHandle) (s : KState) (C : queues)
    (r : Z * option Message) (s' : KState) : Prop :=
  exists p, endpoints s !! w = Some p /\
  if negb (live p h) then r = (kErrorInvalidArgument, None) /\ quiet_frame s s'
  else match pending p with
       | [] => r = (kErrorAgain, None) /\ quiet_frame s s'
       | m :: rest =>
           r = (0, Some m) /\ tasks s' = tasks s /\ exists p', endpoints s' = <[w := p']> (endpoints s) /\ pending p' = rest /\
             ep_identity p' = ep_identity p
       end.

Lemma pending_nil p : 0 <= ep_count p -> pending p = [] <-> ep_count p = 0.
Proof.
  intros Hc. pose proof (pending_length p Hc) as Hl. split.
  - intros E. by rewrite E in Hl.
  - intros E. rewrite E in Hl. destruct (pending p); [done|]. simpl in Hl. lia.
Qed.

Lemma Inv_popped s s' C w p a :
  Inv s C -> endpoints s !! w = Some p -> slot_allocated s !! w = Some a -> ep_ok a p (C (QWait w)) -> 0 < ep_count p ->
  endpoints s' = <[w := popped p]> (endpoints s) -> slot_allocated s' = slot_allocated s -> tasks s' = tasks s ->
  harts s' = harts s -> task_slots_used s' = task_slots_used s -> delay_queues s' = delay_queues s ->
  (forall q, get_rq q s' = get_rq q s) -> ordered (lock_log s') -> Inv s' C.
Proof.
  intros HI Hp Ha Hok Hpos He Es Et Eh Eu Ed Er Hlog.
  eapply (Inv_endpoint s s' C w p (popped p) a); try done; [by rewrite Es|by apply popped_ok|by rewrite Es].
Qed.

Lemma pop_message_spec w p a m (Q : Message -> KState -> Prop) e s l :
  endpoints s !! w = Some p -> ep_ok a p l -> queue p !! Z.to_nat (ep_head p) = Some m ->
  Q m (set_field endpoints (alter popped w) s) -> wp False (pop_message w) Q e s.
Proof.
  intros Hp Hok Hm HQ. unfold pop_message. apply wp_bind. eapply wp_get_endpoint; [exact Hp|]. apply wp_bind.
  eapply wp_deref; [exact Hm|]. apply wp_bind, wp_mod_endpoint; [by exists p|]. by apply wp_ret.
Qed.

Lemma try_recv_spec handle X C (Q : Z * option Message -> KState -> Prop) e s :
  let h := from_raw handle in let w := Z.to_nat (eh_index h) in
  Inv s C -> Running X s -> lock_fits (LEndpoint w) (held s) ->
  (handle_well_formed h = false -> Q (kErrorInvalidArgument, None) s) ->
  (handle_well_formed h = true -> forall r s', Inv s' C -> Running X s' -> ipc_frame s s' ->
     recv_post w h s C r s' -> Q r s') ->
  wp False (try_recv handle true) Q e s.
Proof.
  intros h w HI HR Hlock HQf HQ. unfold try_recv. fold h. fold w.
  destruct (handle_well_formed h) eqn:Ewf; cbn [negb orb]; [|apply wp_ret; by apply HQf].
  pose proof (well_formed_index h Ewf) as Hw. fold w in Hw.
  destruct (endpoint_exists s C w HI Hw) as (p&Hp&Hwc&a&Ha&Hok). specialize (HQ eq_refl).
  pose proof (ep_count_range _ _ _ Hok) as Hcr.
  apply wp_with_lock; [done|].
  set (s1 := s <| lock_log := (LEndpoint w, held s) :: lock_log s |> <| held := LEndpoint w :: held s |>).
  assert (forall r, recv_post w h s C r (s1 <| held := held s |>) ->
    held s1 = LEndpoint w :: held s /\ Q r (s1 <| held := held s |>)) as Hstay.
  { intros r Hpost. split; [done|].
    apply (HQ r _); [by apply Inv_held, Inv_lock|by apply (Running_frame X s)|by split|done]. }
  apply wp_bind. eapply wp_get_endpoint; [exact Hp|]. rewrite live_neg.
  destruct (live p h) eqn:Elive; cbn [negb].
  2: { apply wp_ret, Hstay. exists p. rewrite Elive. cbn [negb]. by split_and!. }
  destruct (Z.eqb_spec (ep_count p) 0) as [E0|Hne].
  { apply wp_ret, Hstay. exists p. rewrite Elive, (proj2 (pending_nil p ltac:(lia)) E0). cbn [negb]. by split_and!. }
  destruct (pending_pop a p (C (QWait w)) Hok ltac:(lia)) as (m&Hm&Epend).
  apply wp_bind, (pop_message_spec w p a m _ _ _ (C (QWait w))); [done..|]. apply wp_ret. split; [done|].
  match goal with |- Q _ ?x => set (s2 := x) end.
  assert (endpoints s2 = <[w := popped p]> (endpoints s)) as He2
    by (unfold s2; rproj; by rewrite (alter_insert _ w _ p Hp)).
  apply (HQ _ s2); [|by apply (Running_frame X s)|by split|].
  - eapply (Inv_popped s s2 C w p a); try done; [lia|]. constructor; [done|apply HI].
  - exists p. rewrite Elive, Epend. cbn [negb]. split_and!; try done. by exists (popped p).
Qed.
