(* ===== verification/IpcProps.v ===== *)
(** * Endpoint IPC: receive, create, destroy, and the properties

    Specifications of the operations of [Ipc] that block, wake or recycle,
    against the abstract queues, and the theorems about the component. *)
From Stdlib Require Import ZArith Lia.
From stdpp Require Import base tactics sets functions gmap list.
From S2P Require Import Prelude DList KernelTypes KernelInv Demo RunQueue DelayQueue Scheduler Ipc.
Local Open Scope Z_scope.

(** ** recv *)

(** The task in slot [i] is not idle and runs on the calling hart. *)
Record calling (e : Env) (i it : nat) (hl : HartLocal) (t : Task) (s : KState) : Prop := {
  ca_hart : harts s !! e_hart e = Some hl; ca_sched : h_scheduler hl = true;
  ca_current : current_task hl = Some i; ca_idle : idle_task hl = Some it;
  ca_task : tasks s !! i = Some t; ca_user : t_idle t = false;
}.

Definition queue_receiver (w i : nat) (C : queues) : queues := <[QWait w := C (QWait w) ++ [i]]> C.

(** The abstract effect of [recv] by task [i] on hart [h]. *)
Definition recv_outcome (w : nat) (handle : Z) (h it i : nat) (s : KState) (C : queues)
    (r : RecvResult) (s' : KState) (C' : queues) : Prop :=
  exists p, endpoints s !! w = Some p /\
  if negb (live p (from_raw handle)) then
    r = mkRecvResult RecvStatus.rejected zero_message kErrorInvalidArgument /\ C' = C /\
    tasks s' = alter (set_x 10 (u64 kErrorInvalidArgument)) i (tasks s) /\ endpoints s' = endpoints s /\
    harts s' = harts s
  else match pending p with
       | m :: rest =>
           r = mkRecvResult RecvStatus.delivered m 0 /\ C' = C /\ harts s' = harts s /\
           tasks s' = alter (message_registers 0 m) i (tasks s) /\
           exists p', endpoints s' = <[w := p']> (endpoints s) /\ pending p' = rest /\
             ep_identity p' = ep_identity p
       | [] =>
           r = mkRecvResult RecvStatus.blocked zero_message 0 /\
           C' = (pick h it (queue_receiver w i C)).2 /\
           (exists l', harts s' !! h = Some l' /\ current_task l' = Some (pick h it (queue_receiver w i C)).1 /\
              h_scheduler l' = true /\ 0 <= timeslice_ticks l' <= kIdleTimesliceTicks) /\
           (exists t t', tasks s !! i = Some t /\ tasks s' !! i = Some t' /\
              t_state t' = TaskState.blocked_message /\ t_state_info t' = handle /\ t_context t' = t_context t) /\
           (forall j, j <> i -> j <> (pick h it (queue_receiver w i C)).1 -> core <$> tasks s' !! j = core <$> tasks s !! j) /\
           exists p', endpoints s' = <[w := p']> (endpoints s) /\ ep_view p' = ep_view p
       end.

(** Registers of the running task are written. *)
Lemma write_running f e i it hl t s C :
  Inv s C -> Running None s -> calling e i it hl t s ->
  (forall t, t_state (f t) = t_state t /\ t_cpu (f t) = t_cpu t /\ t_idle (f t) = t_idle t /\
     forall k, links_of k (f t) = links_of k t /\ flag_of k (f t) = flag_of k t) ->
  length (ctx_x (t_context (f t))) = 32%nat ->
  Inv (set_field tasks (alter f i) s) C /\ Running None (set_field tasks (alter f i) s).
Proof.
  intros HI HR [Hh Hs Hc Hit Ht Hu] Hf Hlen. destruct (run_task _ _ HR _ hl i ltac:(done) Hh Hc) as (t0&Ht0&Hst&_&Hfl&_).
  simplify_eq. destruct (Hf t) as (E1&_&E3&E4). split.
  - eapply (Inv_mod_task s C i t f); try done. by right.
  - apply Running_mod_task; [done|]. intros t'. destruct (Hf t') as (?&?&?&Hk). split_and!; try done. intros k. apply Hk.
Qed.

Lemma set_x_neutral n v t :
  t_state (set_x n v t) = t_state t /\ t_cpu (set_x n v t) = t_cpu t /\ t_idle (set_x n v t) = t_idle t /\
  forall k, links_of k (set_x n v t) = links_of k t /\ flag_of k (set_x n v t) = flag_of k t.
Proof. by split_and!; [..|intros []]. Qed.

Lemma message_registers_neutral a0 m t :
  let f := message_registers a0 m in
  t_state (f t) = t_state t /\ t_cpu (f t) = t_cpu t /\ t_idle (f t) = t_idle t /\
  forall k, links_of k (f t) = links_of k t /\ flag_of k (f t) = flag_of k t.
Proof. by split_and!; [..|intros []]. Qed.

Lemma message_registers_length a0 m t :
  length (ctx_x (t_context (message_registers a0 m t))) = length (ctx_x (t_context t)).
Proof. unfold message_registers, set_x. rproj. by rewrite !length_insert. Qed.

Lemma pick_other h it C w : (pick h it C).2 (QWait w) = C (QWait w).
Proof. unfold pick. repeat case_match; simpl; by rewrite ?fn_lookup_insert_ne. Qed.

(** The caller blocks: it enters the queue of receivers and the hart takes its
    next task. *)
Lemma recv_block_spec w p handle i it hl t C (Q : RecvResult -> KState -> Prop) e s :
  Inv s C -> Running None s -> calling e i it hl t s -> (w < kMaxEndpoints)%nat -> endpoints s !! w = Some p ->
  ep_count p = 0 -> lock_fits (LRunQueue Global) (held s) ->
  (forall s' t' p', Inv s' (pick (e_hart e) it (queue_receiver w i C)).2 -> Running None s' ->
     rest s' = rest s -> held s' = held s ->
     (exists l', harts s' !! e_hart e = Some l' /\ current_task l' = Some (pick (e_hart e) it (queue_receiver w i C)).1 /\
        h_scheduler l' = true /\ 0 <= timeslice_ticks l' <= kIdleTimesliceTicks) ->
     tasks s' !! i = Some t' -> t_state t' = TaskState.blocked_message -> t_state_info t' = handle ->
     t_context t' = t_context t -> endpoints s' = <[w := p']> (endpoints s) -> ep_view p' = ep_view p ->
     (forall j, j <> i -> j <> (pick (e_hart e) it (queue_receiver w i C)).1 -> core <$> tasks s' !! j = core <$> tasks s !! j) ->
     Q (mkRecvResult RecvStatus.blocked zero_message 0) s') ->
  wp False (waiter_push w i;; (mod_task i (<| t_state := TaskState.blocked_message |>);;
    (mod_task i (<| t_state_info := handle |>);; (scheduler_of i;;
     (_ ← set_next_runnable; mret (mkRecvResult RecvStatus.blocked zero_message 0)))))) Q e s.
Proof.
  intros HI HR [Hh Hs Hc Hit Ht Hu] Hw Hp H0 Hlock HQ.
  destruct (run_task _ _ HR _ hl i ltac:(done) Hh Hc) as (t0&Ht0&Hst&Hcpu&Hf&Hus&_).
  rewrite Ht in Ht0. injection Ht0 as <-.
  apply (waiter_block_spec w p i t handle C); try done; [by exists (e_hart e), hl|].
  intros s1 t1 p1 HI1 Hfr1 Hot1 Ht1 Hcore1 He1 Hv1. fold (queue_receiver w i C) in HI1.
  assert (t_state_info t1 = handle) as Einfo by exact (f_equal t_state_info Hcore1).
  apply core_inv in Hcore1 as (Es&Ei&Ecpu&_&Ectx&_).
  assert (Running (Some (e_hart e)) s1) as HR1.
  { apply (Running_update _ s s1 i); [by apply Running_weaken|done| |apply Hfr1|apply rest_used, Hfr1].
    intros h l Hne Hl Hc'. apply Hne. f_equal. by apply (run_inj _ _ HR h (e_hart e) l hl i). }
  apply wp_bind, (scheduler_of_spec i t1); [done| |].
  { exists (e_hart e), hl. by rewrite Ecpu, (wf_harts _ _ Hfr1). }
  apply wp_bind, (set_next_runnable_spec hl it (queue_receiver w i C)); try done.
  { by rewrite (wf_harts _ _ Hfr1). }
  { by rewrite (wf_held _ _ Hfr1). }
  intros s2 HI2 HR2 [_ (l'&Hl'&Hcur&Hticks) [_ Hot2]] Hsf2. apply wp_ret.
  assert (h_scheduler l' = true) as Hsl'.
  { pose proof (sf_own _ _ _ Hsf2) as E. rewrite Hl', (wf_harts _ _ Hfr1), Hh in E.
    apply (inj Some), hart_frame_bind in E. unfold hart_bind in E. congruence. }
  set (j := (pick (e_hart e) it (queue_receiver w i C)).1) in *.
  assert (i ∈ (pick (e_hart e) it (queue_receiver w i C)).2 (QWait w)) as Hiq.
  { assert ((pick (e_hart e) it (queue_receiver w i C)).2 (QWait w) = C (QWait w) ++ [i]) as ->; [|set_solver].
    rewrite pick_other. unfold queue_receiver. by rewrite fn_lookup_insert. }
  assert (i <> j) as Hij by (intros Eij; eapply (Running_not_queued None s2 _ i); eauto; [apply HI2|congruence]).
  assert (forall x, x <> i -> x <> j -> core <$> tasks s2 !! x = core <$> tasks s !! x) as Hoth.
  { intros x Hxi Hxj. rewrite Hot2 by done. by apply Hot1. }
  specialize (Hot2 i Hij). rewrite Ht1 in Hot2. apply fmap_Some in Hot2 as (t2&Ht2&E2). symmetry in E2.
  assert (t_state_info t2 = t_state_info t1) as Einfo2 by exact (f_equal t_state_info E2).
  apply core_inv in E2 as (Es2&_&_&_&Ectx2&_).
  apply (HQ s2 t2 p1); try done; try congruence; [..|by rewrite (sf_eps _ _ _ Hsf2)].
  - rewrite (sf_rest _ _ _ Hsf2). apply Hfr1.
  - rewrite (sf_held _ _ _ Hsf2). apply Hfr1.
  - by exists l'.
  - by rewrite Es2, Es.
  - by rewrite Ectx2, Ectx.
Qed.

Lemma recv_spec handle i it hl t C (Q : RecvResult -> KState -> Prop) e s :
  let w := Z.to_nat (eh_index (from_raw handle)) in
  Inv s C -> Running None s -> calling e i it hl t s -> lock_fits (LEndpoint w) (held s) ->
  (handle_well_formed (from_raw handle) = false -> forall s', Inv s' C -> Running None s' ->
     s' = set_field tasks (alter (set_x 10 (u64 kErrorInvalidArgument)) i) s ->
     Q (mkRecvResult RecvStatus.rejected zero_message kErrorInvalidArgument) s') ->
  (handle_well_formed (from_raw handle) = true -> forall r s' C', Inv s' C' -> Running None s' ->
     rest s' = rest s -> held s' = held s -> recv_outcome w handle (e_hart e) it i s C r s' C' -> Q r s') ->
  wp False (recv i handle) Q e s.
Proof.
  intros w HI HR Hca Hlock HQf HQ. pose proof Hca as [Hh Hs Hc Hit Ht Hu].
  destruct (run_task _ _ HR _ hl i ltac:(done) Hh Hc) as (t0&Ht0&Hst&Hcpu&Hf&Hus&_).
  rewrite Ht in Ht0. injection Ht0 as <-. pose proof (inv_context _ _ HI i t Ht) as Hx.
  assert (length (ctx_x (t_context (set_x 10 (u64 kErrorInvalidArgument) t))) = 32%nat) as Hx'
    by (unfold set_x; rproj; by rewrite length_insert).
  unfold recv. fold w. apply wp_bind. eapply wp_get_task; [exact Ht|].
  rewrite (Hf LkWait : w_queued (t_message_wait t) = false).
  destruct (handle_well_formed (from_raw handle)) eqn:Ewf; cbn [negb].
  2: { destruct (write_running _ e i it hl t s C HI HR Hca (set_x_neutral 10 (u64 kErrorInvalidArgument)) Hx').
       apply wp_bind, wp_mod_task; [by exists t|]. apply wp_ret. by apply HQf. }
  pose proof (well_formed_index _ Ewf) as Hw. fold w in Hw. specialize (HQ eq_refl).
  destruct (endpoint_exists s C w HI Hw) as (p&Hp&Hwc&a&Ha&Hok). pose proof (ep_count_range _ _ _ Hok) as Hcr.
  apply wp_with_lock; [done|].
  set (s1 := s <| lock_log := (LEndpoint w, held s) :: lock_log s |> <| held := LEndpoint w :: held s |>).
  assert (Inv s1 C) as HI1 by (by apply Inv_lock).
  assert (Running None s1) as HR1 by (by apply (Running_frame None s)).
  assert (calling e i it hl t s1) as Hca1 by (by split).
  apply wp_bind. eapply wp_get_endpoint; [exact Hp|]. rewrite live_neg.
  destruct (live p (from_raw handle)) eqn:Elive; cbn [negb].
  2: { destruct (write_running _ e i it hl t s1 C HI1 HR1 Hca1 (set_x_neutral 10 (u64 kErrorInvalidArgument)) Hx').
       apply wp_bind, wp_mod_task; [by exists t|]. apply wp_ret. split; [done|].
       eapply (HQ _ _ C); [by apply Inv_held|by eapply Running_frame|done|done|].
       exists p. rewrite Elive. cbn [negb]. by split_and!. }
  apply wp_bind, (check_passes a p (C (QWait w))); [done|done|].
  destruct (Z.ltb_spec 0 (ep_count p)) as [Hpos|Hz].
  - destruct (pending_pop a p (C (QWait w)) Hok ltac:(lia)) as (m&Hm&Epend).
    apply wp_bind, (pop_message_spec w p a m _ _ _ (C (QWait w))); [done..|].
    set (s2 := set_field endpoints (alter popped w) s1).
    assert (endpoints s2 = <[w := popped p]> (endpoints s)) as He2
      by (unfold s2; rproj; by rewrite (alter_insert _ w _ p Hp)).
    assert (Inv s2 C) as HI2 by (eapply (Inv_popped s1 s2 C w p a); try done; apply HI1).
    destruct (write_running (message_registers 0 m) e i it hl t s2 C HI2) as [HI3 HR3];
      [by apply (Running_frame None s)|by split|apply message_registers_neutral|by rewrite message_registers_length|].
    apply wp_bind, wp_mod_task; [by exists t|]. apply wp_ret. split; [done|].
    eapply (HQ _ _ C); [by apply Inv_held|by eapply Running_frame|done|done|].
    exists p. rewrite Elive, Epend. cbn [negb]. split_and!; try done. by exists (popped p).
  - apply (recv_block_spec w p handle i it hl t C); try done; [lia|apply fits_cons; [done|simpl; lia]|].
    intros s' t' p' HI' HR' Er Ehd Hcur Ht' Hst' Hinfo Hctx He' Hv' Hoth. split; [done|].
    eapply (HQ _ _ (pick (e_hart e) it (queue_receiver w i C)).2); [by apply Inv_held|by eapply Running_frame|done|done|].
    exists p. rewrite Elive, (proj2 (pending_nil p ltac:(lia))) by lia. cbn [negb].
    split_and!; try done; [by exists t, t'|by exists p'].
Qed.

(** ** destroy_endpoint *)

(** The receivers [l] of endpoint [w] go to their run queues, in order. *)
Fixpoint woken (ts : list Task) (w : nat) (l : list nat) (C : queues) : queues :=
  match l with
  | [] => C
  | i :: l' => woken ts w l' (enqueue (target_of ts i) i (<[QWait w := l']> C))
  end.

(** What waking the receivers [l] with [EIDRM] does to the tasks. *)
Record woken_tasks (l : list nat) (s s' : KState) : Prop := {
  wt_woken : forall i t, i ∈ l -> tasks s !! i = Some t -> exists t', tasks s' !! i = Some t' /\
    t_context t' = t_context (set_x 10 (u64 kErrorIdrm) t) /\ t_state_info t' = 0;
  wt_other : forall j, j ∉ l -> core <$> tasks s' !! j = core <$> tasks s !! j;
  wt_length : length (tasks s') = length (tasks s);
}.

Lemma idrm_resumable t : length (ctx_x (t_context t)) = 32%nat ->
  resumable t (set_x 10 (u64 kErrorIdrm) (t <| t_state_info := 0 |>)).
Proof. intros Hl. unfold set_x. split_and!; try done. rproj. by rewrite length_insert. Qed.

(** The queue a task goes to does not depend on its registers. *)
Lemma woken_ext ts ts' w l C :
  (forall i, i ∈ l -> target_of ts' i = target_of ts i) -> woken ts' w l C = woken ts w l C.
Proof.
  revert C. induction l as [|i l IH]; intros C H; [done|]. cbn [woken].
  rewrite H by set_solver. apply IH. intros j Hj. apply H. set_solver.
Qed.

Lemma wake_all_spec fuel w l p C (Q : unit -> KState -> Prop) e s :
  Inv s C -> (w < kMaxEndpoints)%nat -> endpoints s !! w = Some p -> C (QWait w) = l -> (length l < fuel)%nat ->
  lock_fits (LRunQueue Global) (held s) ->
  (forall s' p', Inv s' (woken (tasks s) w l C) -> ipc_frame s s' -> slot_allocated s' = slot_allocated s ->
     woken_tasks l s s' -> endpoints s' = <[w := p']> (endpoints s) -> ep_view p' = ep_view p -> Q tt s') ->
  wp False (wake_all fuel w) Q e s.
Proof.
  revert l p C s. induction fuel as [|fuel IH]; intros l p C s HI Hw Hp HCq Hfuel Hlock HQ; [lia|].
  cbn [wake_all]. apply wp_bind, (waiter_pop_spec w p C); [done..| |].
  { intros E. rewrite E in HCq. subst l. apply wp_ret. eapply (HQ s p); try done.
    - by split; [intros ?? ?%elem_of_nil|..]. - by rewrite list_insert_id. }
  intros i l' t s1 t1 p1 E Ht HI1 Hfr1 Hot1 Ht1 Hcore1 He1 Hv1. rewrite E in HCq. subst l. simpl in Hfuel.
  assert (t_context t1 = t_context t) as Ectx by exact (f_equal t_context Hcore1).
  apply wp_bind, wp_mod_task; [by exists t1|]. apply wp_bind, wp_mod_task; [rproj; by apply lookup_alter_is_Some|].
  eapply (rouse_spec w i l' t t1 (set_x 10 (u64 kErrorIdrm) (t1 <| t_state_info := 0 |>)) C _ _ e s s1); try done.
  - rproj. by rewrite (alter_insert _ i _ t1 Ht1), (alter_inserted _ i _ _ t1 Ht1).
  - apply idrm_resumable. exact (inv_context _ _ HI1 i t1 Ht1).
  - intros s3 t3 HI3 Hfr3 He3 Hsl3 Hot3 Ht3 Hctx3 Hinfo3.
    assert (NoDup (i :: l')) as [Hnin Hnd]%NoDup_cons by (rewrite <- E; apply (qs_nodup _ _ (inv_q _ _ HI))).
    assert (endpoints s3 !! w = Some p1) as Hp3
      by (rewrite He3, He1; apply list_lookup_insert_eq; by eapply lookup_lt_Some).
    destruct Hot3 as [Hlen3 Hoth3].
    eapply (IH l' p1 _ s3 HI3 Hw Hp3); [|lia|by rewrite (if_held _ _ Hfr3)|].
    { unfold enqueue. rewrite fn_lookup_insert_ne, fn_lookup_insert; done. }
    intros s4 p4 HI4 Hfr4 Hsl4 [Hwk4 Hot4 Hlen4] He4 Hv4. apply (HQ s4 p4).
    + cbn [woken]. rewrite <- (woken_ext (tasks s) (tasks s3)); [done|]. intros j Hj. apply core_target, Hoth3. set_solver.
    + destruct Hfr3, Hfr4. split; congruence.
    + by rewrite Hsl4.
    + split; [..|by rewrite Hlen4].
      * intros j t0 [->|Hj]%elem_of_cons Ht0.
        -- specialize (Hot4 i Hnin). rewrite Ht3 in Hot4. apply fmap_Some in Hot4 as (t4&Ht4&E4). symmetry in E4.
           exists t4. split; [done|]. rewrite (f_equal t_state_info E4 : t_state_info t4 = t_state_info t3), Hinfo3.
           apply core_inv in E4 as (_&_&_&_&->&_). rewrite Hctx3. split; [|done].
           rewrite Ht in Ht0. injection Ht0 as <-. by apply set_x_context.
        -- assert (j <> i) as Hji by (by intros ->).
           specialize (Hoth3 j Hji). rewrite Ht0 in Hoth3. apply fmap_Some in Hoth3 as (t3'&Ht3'&E3). symmetry in E3.
           destruct (Hwk4 j t3' Hj Ht3') as (t4&?&Hc4&?). exists t4. split_and!; try done. rewrite Hc4.
           apply set_x_context. exact (f_equal t_context E3).
      * intros j Hj. rewrite Hot4, Hoth3; set_solver.
    + by rewrite He4, He3, He1, list_insert_insert_eq.
    + congruence.
Qed.

(** The endpoint that [destroy_endpoint] leaves: closed, and either of the next
    generation or retired for good. *)
Definition buried (p : Endpoint) : Endpoint :=
  let q := (clear_queue p) <| ep_head := 0 |> <| ep_count := 0 |> <| owner := 0 |> <| active := false |> in
  if kMaxGeneration <=? generation p then q <| retired := true |>
  else q <| generation := u32 (generation q + 1) |>.

Lemma buried_ok a p l : ep_ok a p l -> active p = true -> ep_ok (kMaxGeneration <=? generation p) (buried p) l.
Proof.
  intros [] Hact. unfold buried, clear_queue. assert (retired p = false) as Hr
    by (destruct (retired p); [destruct ep_retired; congruence|done]).
  assert (Forall message_ok (replicate 16 zero_message)) as Hz by (by apply Forall_replicate).
  destruct (Z.leb_spec kMaxGeneration (generation p)) as [Hg|Hg]; split; rproj; try done; try lia.
  - rewrite u32_small by (unfold is_u32, kMaxGeneration in *; lia). lia.
  - by rewrite Hr.
Qed.

Lemma buried_fields p : waiting_head (buried p) = waiting_head p /\ waiting_tail (buried p) = waiting_tail p /\
  waiting_count (buried p) = waiting_count p /\ active (buried p) = false.
Proof. unfold buried. by destruct (kMaxGeneration <=? generation p). Qed.

Lemma woken_empty ts w l C : C (QWait w) = l -> woken ts w l C (QWait w) = [].
Proof.
  revert C. induction l as [|i l IH]; intros C HC; [done|]. apply IH. unfold enqueue.
  rewrite fn_lookup_insert_ne, fn_lookup_insert; done.
Qed.

Lemma woken_other ts w l C q : q <> QWait w -> (forall r, q <> QRun r) -> woken ts w l C q = C q.
Proof.
  revert C. induction l as [|i l IH]; intros C Hw Hr; [done|]. cbn [woken]. rewrite IH by done. unfold enqueue.
  rewrite !fn_lookup_insert_ne; [done|done|apply not_eq_sym, Hr].
Qed.

(** The abstract effect of [destroy_endpoint]. *)
Definition destroy_post (w : nat) (h : EndpointHandle) (caller : Z) (s : KState) (C : queues)
    (r : Z) (s' : KState) (C' : queues) : Prop :=
  exists p, endpoints s !! w = Some p /\
  if negb (live p h) then r = kErrorInvalidArgument /\ C' = C /\ quiet_frame s s'
  else if negb (owner p =? caller) then r = kErrorAccess /\ C' = C /\ quiet_frame s s'
  else r = 0 /\ C' = woken (tasks s) w (C (QWait w)) C /\ woken_tasks (C (QWait w)) s s' /\
       exists p', endpoints s' = <[w := p']> (endpoints s) /\ ep_view p' = ep_view (buried p).

Lemma ipc_frame_held hs s s' : ipc_frame (s <| held := hs |>) s' -> ipc_frame s (s' <| held := held s |>).
Proof. intros []. by split. Qed.

Lemma destroy_endpoint_spec caller handle X C (Q : Z -> KState -> Prop) e s :
  let h := from_raw handle in let w := Z.to_nat (eh_index h) in
  Inv s C -> Running X s -> lock_fits LEndpointTable (held s) ->
  (handle_well_formed h = false -> Q kErrorInvalidArgument s) ->
  (handle_well_formed h = true -> forall r s' C', Inv s' C' -> Running X s' -> ipc_frame s s' ->
     destroy_post w h caller s C r s' C' -> Q r s') ->
  wp False (destroy_endpoint caller handle) Q e s.
Proof.
  intros h w HI HR Hlock HQf HQ. unfold destroy_endpoint. fold h. fold w.
  destruct (handle_well_formed h) eqn:Ewf; cbn [negb]; [|apply wp_ret; by apply HQf].
  pose proof (well_formed_index h Ewf) as Hw. fold w in Hw. specialize (HQ eq_refl).
  destruct (endpoint_exists s C w HI Hw) as (p&Hp&Hwc&a&Ha&Hok).
  apply wp_with_lock; [done|]. apply wp_with_lock; [apply fits_cons; [done|simpl; lia]|]. rproj.
  match goal with |- wp _ _ _ _ ?x => set (s1 := x) end.
  assert (Inv s1 C) as HI1.
  { eapply Inv_same; [exact HI|done..|]. unfold s1. rproj. constructor; [apply fits_cons; [done|simpl; lia]|].
    constructor; [done|apply HI]. }
  assert (forall r, destroy_post w h caller s C r (s1 <| held := held s |>) C -> Q r (s1 <| held := held s |>)) as Hstay.
  { intros r Hpost. apply (HQ r _ C); [by apply Inv_held|by apply (Running_frame X s)|by split|done]. }
  apply wp_bind, wp_gets, wp_bind. eapply wp_deref; [exact Ha|].
  apply wp_bind. eapply wp_get_endpoint; [exact Hp|]. rewrite <- orb_assoc, live_neg.
  destruct (live p h) eqn:Elive; cbn [negb].
  2: { rewrite orb_true_r. apply wp_ret. split; [done|]. split; [done|]. apply (Hstay kErrorInvalidArgument).
       exists p. rewrite Elive. cbn [negb]. by split_and!. }
  assert (active p = true) as Hact by (unfold live in Elive; by apply andb_true_iff in Elive as [? _]).
  assert (a = true) as -> by (by rewrite (ep_allocated _ _ _ Hok), Hact). cbn [negb orb].
  destruct (owner p =? caller) eqn:Eown; cbn [negb].
  2: { apply wp_ret. split; [done|]. split; [done|]. apply (Hstay kErrorAccess).
       exists p. rewrite Elive, Eown. cbn [negb]. by split_and!. }
  assert (forall s2, endpoints s2 = <[w := buried p]> (endpoints s) -> tasks s2 = tasks s -> harts s2 = harts s ->
    rest s2 = rest s -> clock_reads s2 = clock_reads s -> held s2 = held s1 -> lock_log s2 = lock_log s1 ->
    delay_queues s2 = delay_queues s -> (forall q, get_rq q s2 = get_rq q s) ->
    slot_allocated s2 = <[w := kMaxGeneration <=? generation p]> (slot_allocated s) ->
    wp False (wake_all task_fuel w;; mret 0)
      (fun a s' => held s' = LEndpoint w :: LEndpointTable :: held s /\
         held (s' <| held := LEndpointTable :: held s |>) = LEndpointTable :: held s /\
         Q a ((s' <| held := LEndpointTable :: held s |>) <| held := held s |>)) e s2) as Hgo.
  { intros s2 He Et Eh Er Ec Ehd Elog Ed Erq Esl. destruct (buried_fields p) as (B1&B2&B3&_).
    assert (slot_allocated s2 !! w = Some (kMaxGeneration <=? generation p)) as Ha2
      by (rewrite Esl; apply list_lookup_insert_eq; by eapply lookup_lt_Some).
    assert (Inv s2 C) as HI2.
    { eapply (Inv_endpoint s s2 C w p (buried p)); try done; [by eapply buried_ok| |by apply rest_used|].
      - intros e' Hne. by rewrite Esl, list_lookup_insert_ne.
      - rewrite Elog. apply (inv_log _ _ HI1). }
    apply wp_bind. eapply (wake_all_spec task_fuel w (C (QWait w)) (buried p) C); try done.
    - rewrite He. apply list_lookup_insert_eq. by eapply lookup_lt_Some.
    - pose proof (qstruct_length s C (QWait w) (inv_q _ _ HI)) as Hl. rewrite (inv_tasks _ _ HI) in Hl. unfold task_fuel. lia.
    - rewrite Ehd. repeat apply fits_cons; simpl; try lia. done.
    - intros s3 p3 HI3 Hfr3 Hsl3 Hwt3 He3 Hv3. apply wp_ret.
      split; [rewrite (if_held _ _ Hfr3), Ehd; done|]. split; [done|].
      rewrite Et in HI3. destruct Hwt3 as [W1 W2 W3], Hfr3 as [F1 F2 F3 F4]. rewrite Et in W1, W2, W3.
      eapply (HQ 0 _ (woken (tasks s) w (C (QWait w)) C)); [by do 2 apply Inv_held| | |].
      + apply (Running_queued X (C (QWait w)) s _ C); try done; [apply HI|by eauto|rproj; congruence|].
        apply rest_used. trans (rest s3); [done|congruence].
      + split; try done; rproj; congruence.
      + exists p. rewrite Elive, Eown. cbn [negb]. split_and!; try done. exists p3. split; [|done]. rproj.
        by rewrite He3, He, list_insert_insert_eq. }
  apply wp_bind, wp_mod_endpoint; [by exists p|]. unfold buried, clear_queue in Hgo.
  destruct (kMaxGeneration <=? generation p) eqn:Eg; apply wp_bind.
  - apply wp_mod_endpoint; [rproj; apply lookup_alter_is_Some; by exists p|]. apply Hgo; try done.
    + rproj. by rewrite (alter_insert _ w _ p Hp), (alter_inserted _ w _ _ p Hp).
    + rproj. by rewrite list_insert_id.
  - apply wp_bind, wp_mod_endpoint; [rproj; apply lookup_alter_is_Some; by exists p|]. apply wp_modify. apply Hgo; try done.
    rproj. by rewrite (alter_insert _ w _ p Hp), (alter_inserted _ w _ _ p Hp).
Qed.

(** ** create_endpoint *)

(** Nobody waits on an endpoint that is closed. *)
Definition EpIdle (s : KState) (C : queues) : Prop :=
  forall w p, endpoints s !! w = Some p -> active p = false -> C (QWait w) = [].

(** The endpoint that [create_endpoint] opens in the slot of [p]. *)
Definition opened (tid : Z) (p : Endpoint) : Endpoint :=
  mkEndpoint true false (if generation p =? 0 then 1 else generation p) tid 0 0 zero_queue None None 0.

(** Slot [i] is the first free one. *)
Definition first_free_slot (s : KState) (i : nat) : Prop :=
  slot_allocated s !! i = Some false /\ forall j, (j < i)%nat -> slot_allocated s !! j = Some true.

Definition create_post (tid : Z) (s : KState) (r : Z * option Z) (s' : KState) : Prop :=
  (r = (kErrorNoSpace, None) /\ quiet_frame s s' /\
     forall j, (j < kMaxEndpoints)%nat -> slot_allocated s !! j = Some true) \/
  (exists i p, first_free_slot s i /\ endpoints s !! i = Some p /\ (i < kMaxEndpoints)%nat /\ active p = false /\
     retired p = false /\ r = (0, Some (raw (mkHandle (Z.of_nat i) (generation (opened tid p))))) /\
     endpoints s' = <[i := opened tid p]> (endpoints s) /\ slot_allocated s' = <[i := true]> (slot_allocated s) /\
     tasks s' = tasks s).

Lemma opened_ok tid a p : ep_ok a p [] -> ep_ok true (opened tid p) [].
Proof.
  intros []. unfold opened. split; simpl; try done; try lia; [by apply Forall_replicate|..]; intros;
    destruct (Z.eqb_spec (generation p) 0); unfold kMaxGeneration in *; lia.
Qed.

Lemma idle_header s C w p : Inv s C -> (w < kMaxEndpoints)%nat -> endpoints s !! w = Some p -> C (QWait w) = [] ->
  waiting_head p = None /\ waiting_tail p = None /\ waiting_count p = 0.
Proof.
  intros HI Hw Hp HC. destruct (qs_rep _ _ (inv_q _ _ HI) (QWait w) Hw) as (hd&tl&(p0&Hp0&E1&E2&E3)&Hd).
  rewrite Hp in Hp0. injection Hp0 as <-. rewrite HC in Hd, E3. destruct Hd as (->&->&_). done.
Qed.

(** The slot is claimed and its endpoint opened, under the endpoint's lock. *)
Lemma create_slot_spec tid i p a C (Q : Z * option Z -> KState -> Prop) e s :
  Inv s C -> EpIdle s C -> (i < kMaxEndpoints)%nat -> endpoints s !! i = Some p -> slot_allocated s !! i = Some a ->
  active p = false -> lock_fits (LEndpoint i) (held s) ->
  (forall s', Inv s' C -> ipc_frame s s' -> tasks s' = tasks s -> endpoints s' = <[i := opened tid p]> (endpoints s) ->
     slot_allocated s' = <[i := true]> (slot_allocated s) ->
     Q (0, Some (raw (mkHandle (Z.of_nat i) (generation (opened tid p))))) s') ->
  wp False (with_lock (LEndpoint i) (
    modify (fun s => s <| slot_allocated := <[i := true]> (slot_allocated s) |>);;
    mod_endpoint i (fun p =>
      clear_queue (p <| active := true |> <| retired := false |> <| owner := tid |>
        <| ep_head := 0 |> <| ep_count := 0 |> <| waiting_head := None |>
        <| waiting_tail := None |> <| waiting_count := 0 |>));;
    mod_endpoint i (fun p => if generation p =? 0 then p <| generation := 1 |> else p);;
    p' ← get_endpoint i;
    mret (0, Some (raw (mkHandle (Z.of_nat i) (generation p')))))) Q e s.
Proof.
  intros HI Hidle Hi Hp Ha Hact Hlock HQ. pose proof (Hidle i p Hp Hact) as HC.
  destruct (idle_header s C i p HI Hi Hp HC) as (E1&E2&E3).
  destruct (inv_ep _ _ HI i p Hp) as (a0&Ha0&Hok). rewrite HC in Hok.
  apply wp_with_lock; [done|]. apply wp_bind, wp_modify. apply wp_bind, wp_mod_endpoint; [by exists p|].
  apply wp_bind, wp_mod_endpoint; [rproj; apply lookup_alter_is_Some; by exists p|]. apply wp_bind.
  match goal with |- wp _ _ _ _ ?x => set (s1 := x) end.
  assert (endpoints s1 = <[i := opened tid p]> (endpoints s)) as He1.
  { unfold s1. rproj. rewrite (alter_insert _ i _ p Hp), (alter_inserted _ i _ _ p Hp). f_equal.
    unfold opened, clear_queue, zero_queue. simpl. by destruct (generation p =? 0). }
  assert (endpoints s1 !! i = Some (opened tid p)) as Hp1 by (rewrite He1; apply list_lookup_insert_eq; by eapply lookup_lt_Some).
  eapply wp_get_endpoint; [exact Hp1|]. apply wp_ret. split; [done|]. apply HQ; try done.
  apply Inv_held. assert (slot_allocated s1 !! i = Some true) as Ha1
    by (unfold s1; rproj; apply list_lookup_insert_eq; by eapply lookup_lt_Some).
  eapply (Inv_endpoint s s1 C i p (opened tid p) true); try done.
  - rewrite HC. by eapply opened_ok.
  - intros e' Hne. unfold s1. rproj. by rewrite list_lookup_insert_ne.
  - unfold s1. rproj. constructor; [done|apply HI].
Qed.

Lemma create_scan_spec tid n i C (Q : Z * option Z -> KState -> Prop) e s :
  Inv s C -> EpIdle s C -> lock_fits (LEndpoint 0) (held s) -> (i + n = kMaxEndpoints)%nat ->
  (forall j, (j < i)%nat -> slot_allocated s !! j = Some true) ->
  (forall r s', Inv s' C -> ipc_frame s s' -> create_post tid s r s' -> Q r s') ->
  wp False (create_scan tid i n) Q e s.
Proof.
  revert i. induction n as [|n IH]; intros i HI Hidle Hlock Hn Hbefore HQ; cbn [create_scan].
  { apply wp_ret, HQ; [done|by split|]. left. split_and!; [done|by split|]. intros j Hj. apply Hbefore. lia. }
  destruct (endpoint_exists s C i HI ltac:(lia)) as (p&Hp&_&a&Ha&Hok).
  apply wp_bind, wp_gets, wp_bind. eapply wp_deref; [exact Ha|]. apply wp_bind. eapply wp_get_endpoint; [exact Hp|].
  pose proof (ep_allocated _ _ _ Hok) as Eal.
  destruct (a || retired p) eqn:Eskip.
  - assert (a = true) as -> by (destruct a, (retired p); try done; by rewrite orb_true_r in Eal).
    apply (IH (S i)); try done; [lia|]. intros j Hj. destruct (decide (j = i)) as [->|]; [done|]. apply Hbefore. lia.
  - apply orb_false_iff in Eskip as [-> Hret]. rewrite Hret, orb_false_r in Eal.
    eapply (create_slot_spec tid i p false C); try done; [lia|].
    intros s' HI' Hfr Et He Hsl. apply HQ; [done|done|]. right. exists i, p. split_and!; try done. lia.
Qed.

Lemma create_endpoint_spec tid X C (Q : Z * option Z -> KState -> Prop) e s :
  Inv s C -> EpIdle s C -> Running X s -> lock_fits LEndpointTable (held s) ->
  (forall r s', Inv s' C -> Running X s' -> ipc_frame s s' -> create_post tid s r s' -> Q r s') ->
  wp False (create_endpoint tid true) Q e s.
Proof.
  intros HI Hidle HR Hlock HQ. unfold create_endpoint. cbn [negb]. apply wp_with_lock; [done|].
  eapply (create_scan_spec tid kMaxEndpoints 0 C); [by apply Inv_lock|done|apply fits_cons; [done|simpl; lia]|lia|lia|].
  intros r s' HI' [F1 F2 F3 F4] Hpost. split; [done|].
  assert (tasks s' = tasks s) as Et.
  { destruct Hpost as [(_&[]&_)|(i&p&_&_&_&_&_&_&_&_&?)]; done. }
  apply HQ; [by apply Inv_held|apply (Running_frame X s); [done|done|done|by apply rest_used]|by split|].
  destruct Hpost as [(->&[]&?)|(i&p&[]&?&?&?&?&?&?&?&?)]; [left; by split_and!|right; by exists i, p].
Qed.

(** ** Histories of endpoint calls *)

Lemma EpIdle_update s s' C C' w p p' :
  EpIdle s C -> endpoints s !! w = Some p -> endpoints s' = <[w := p']> (endpoints s) ->
  (active p' = false -> C' (QWait w) = []) -> (forall v, v <> w -> C' (QWait v) = C (QWait v)) -> EpIdle s' C'.
Proof.
  intros Hidle Hp He Hw Hv v q Hq Hact. rewrite He in Hq. destruct (decide (v = w)) as [->|Hne].
  - rewrite list_lookup_insert_eq in Hq by (by eapply lookup_lt_Some). injection Hq as <-. by apply Hw.
  - rewrite list_lookup_insert_ne in Hq by done. rewrite Hv by done. by eapply Hidle.
Qed.

(** An endpoint slot only ever moves to later generations, and a retired one
    stays retired. *)
Definition older (p p' : Endpoint) : Prop :=
  generation p <= generation p' /\ (retired p = true -> retired p' = true).
Definition ages (s s' : KState) : Prop :=
  forall w p, endpoints s !! w = Some p -> exists p', endpoints s' !! w = Some p' /\ older p p'.

#[export] Instance ages_preorder : PreOrder ages.
Proof.
  split.
  - intros s w p Hp. by exists p.
  - intros s1 s2 s3 H12 H23 w p Hp. destruct (H12 w p Hp) as (p2&Hp2&?&?), (H23 w p2 Hp2) as (p3&Hp3&?&?).
    exists p3. split; [done|]. split; [lia|auto].
Qed.

Lemma ages_same s s' : endpoints s' = endpoints s -> ages s s'.
Proof. intros E w p Hp. exists p. rewrite E. by split. Qed.

Lemma ages_update s s' w p p' :
  endpoints s !! w = Some p -> endpoints s' = <[w := p']> (endpoints s) -> older p p' -> ages s s'.
Proof.
  intros Hp He Ho v q Hq. rewrite He. destruct (decide (v = w)) as [->|Hne].
  - rewrite Hp in Hq. injection Hq as <-. exists p'. split; [|done]. apply list_lookup_insert_eq. by eapply lookup_lt_Some.
  - rewrite list_lookup_insert_ne by done. by exists q.
Qed.

(** What is true between two kernel entries. *)
Definition healthy (s : KState) (C : queues) : Prop := Inv s C /\ EpIdle s C /\ Running None s /\ held s = [].

(** Both facts about one endpoint that keeps its identity. *)
Lemma same_identity s s' C C' w p p' :
  EpIdle s C -> endpoints s !! w = Some p -> endpoints s' = <[w := p']> (endpoints s) ->
  ep_identity p' = ep_identity p -> (C (QWait w) = [] \/ active p = true -> C' (QWait w) = [] \/ active p = true) ->
  (forall v, v <> w -> C' (QWait v) = C (QWait v)) -> EpIdle s' C' /\ ages s s'.
Proof.
  intros Hidle Hp He Hid Hw Hv. unfold ep_identity in Hid. injection Hid as E1 E2 E3 _. split.
  - eapply EpIdle_update; eauto. intros Hact. rewrite E1 in Hact. destruct Hw as [?|?]; [left; by eapply Hidle|done|congruence].
  - eapply ages_update; eauto. split; [lia|by rewrite E2].
Qed.

Lemma view_identity p p' : ep_view p' = ep_view p -> ep_identity p' = ep_identity p.
Proof. intros E. exact (f_equal ep_identity E). Qed.

Lemma live_active p h : live p h = true -> active p = true.
Proof. unfold live. by intros [? _]%andb_true_iff. Qed.

Lemma EpIdle_same s s' C : EpIdle s C -> endpoints s' = endpoints s -> EpIdle s' C.
Proof. intros H E w p. rewrite E. apply H. Qed.

Lemma send_ages w h m s C r s' C' : EpIdle s C -> send_post w h m s C r s' C' -> EpIdle s' C' /\ ages s s'.
Proof.
  intros Hidle (p&Hp&H). destruct (live p h) eqn:El; cbn [negb] in H.
  2: { destruct H as (_&->&[_ He _]). split; [by eapply EpIdle_same|by apply ages_same]. }
  apply live_active in El. destruct (C (QWait w)) as [|i l] eqn:EC.
  - destruct H as (->&_&H). destruct (kEndpointQueueDepth <=? ep_count p).
    + destruct H as (_&[_ He _]). split; [by eapply EpIdle_same|by apply ages_same].
    + destruct H as (_&p'&He&_&Hid). eapply same_identity; eauto.
  - destruct H as (_&->&_&_&p'&He&Hid%view_identity). eapply same_identity; eauto.
    intros v Hv. unfold enqueue. rewrite !fn_lookup_insert_ne; congruence.
Qed.

Lemma try_recv_ages w h s C r s' : EpIdle s C -> recv_post w h s C r s' -> EpIdle s' C /\ ages s s'.
Proof.
  intros Hidle (p&Hp&H). destruct (live p h) eqn:El; cbn [negb] in H.
  2: { destruct H as (_&[_ He _]). split; [by eapply EpIdle_same|by apply ages_same]. }
  destruct (pending p) as [|m l].
  - destruct H as (_&[_ He _]). split; [by eapply EpIdle_same|by apply ages_same].
  - destruct H as (_&_&p'&He&_&Hid). eapply same_identity; eauto.
Qed.

Lemma recv_ages w handle h it i s C r s' C' :
  EpIdle s C -> recv_outcome w handle h it i s C r s' C' -> EpIdle s' C' /\ ages s s'.
Proof.
  intros Hidle (p&Hp&H). destruct (live p (from_raw handle)) eqn:El; cbn [negb] in H.
  2: { destruct H as (_&->&_&He&_). split; [by eapply EpIdle_same|by apply ages_same]. }
  apply live_active in El. destruct (pending p) as [|m l].
  - destruct H as (_&->&_&_&_&p'&He&Hid%view_identity). eapply same_identity; eauto.
    intros v Hv. rewrite pick_other. unfold queue_receiver. rewrite fn_lookup_insert_ne; congruence.
  - destruct H as (_&->&_&_&p'&He&_&Hid). eapply same_identity; eauto.
Qed.

Lemma older_buried a p l : ep_ok a p l -> older p (buried p).
Proof.
  intros []. unfold buried, older, clear_queue. destruct (Z.leb_spec kMaxGeneration (generation p)); rproj; [split; [lia|done]|].
  rewrite u32_small by (unfold is_u32, kMaxGeneration in *; lia). split; [lia|done].
Qed.

Lemma destroy_ages w h caller s C r s' C' :
  Inv s C -> EpIdle s C -> destroy_post w h caller s C r s' C' -> EpIdle s' C' /\ ages s s'.
Proof.
  intros HI Hidle (p&Hp&H). destruct (live p h) eqn:El; cbn [negb] in H.
  2: { destruct H as (_&->&[_ He _]). split; [by eapply EpIdle_same|by apply ages_same]. }
  destruct (owner p =? caller); cbn [negb] in H.
  2: { destruct H as (_&->&[_ He _]). split; [by eapply EpIdle_same|by apply ages_same]. }
  destruct H as (_&->&_&p'&He&Hid%view_identity). destruct (inv_ep _ _ HI w p Hp) as (a&_&Hok).
  pose proof (older_buried _ _ _ Hok) as [Ho1 Ho2]. unfold ep_identity in Hid. injection Hid as E1 E2 E3 _. split.
  - eapply EpIdle_update; eauto; [intros _; by apply woken_empty|]. intros v Hv. apply woken_other; [congruence|done].
  - eapply ages_update; eauto. unfold older. by rewrite E2, E3.
Qed.

Lemma create_ages tid s C r s' : EpIdle s C -> create_post tid s r s' -> EpIdle s' C /\ ages s s'.
Proof.
  intros Hidle [(_&[_ He _]&_)|(i&p&_&Hp&_&_&Hret&_&He&_&_)].
  { split; [by eapply EpIdle_same|by apply ages_same]. }
  split; [by eapply EpIdle_update|]. eapply ages_update; eauto. unfold opened, older. simpl. rewrite Hret.
  split; [|done]. destruct (Z.eqb_spec (generation p) 0); lia.
Qed.

(** The five calls, made by the task in slot [i]. *)
Inductive ipc_call :=
| CallCreate
| CallDestroy (handle : Z)
| CallSend (handle w0 w1 w2 w3 : Z)
| CallTryRecv (handle : Z)
| CallRecv (handle : Z).

Definition run_call (i : nat) (c : ipc_call) : K unit :=
  t ← get_task i;
  match c with
  | CallCreate => _ ← create_endpoint (t_tid t) true; mret tt
  | CallDestroy handle => _ ← destroy_endpoint (t_tid t) handle; mret tt
  | CallSend handle w0 w1 w2 w3 => _ ← send (t_tid t) handle [w0; w1; w2; w3]; mret tt
  | CallTryRecv handle => _ ← try_recv handle true; mret tt
  | CallRecv handle => _ ← recv i handle; mret tt
  end.

Lemma run_call_spec e i it hl t c C s :
  healthy s C -> calling e i it hl t s ->
  wp False (run_call i c) (fun _ s' => (exists C', healthy s' C') /\ ages s s') e s.
Proof.
  intros (HI&Hidle&HR&Hheld) Hca. pose proof Hca as [_ _ _ _ Ht _].
  assert (forall l, lock_fits l (held s)) as Hl by (intros l; rewrite Hheld; constructor).
  assert (forall s' C', Inv s' C' -> Running None s' -> held s' = held s -> EpIdle s' C' /\ ages s s' ->
    (exists C', healthy s' C') /\ ages s s') as Hfin.
  { intros s' C' HI' HR' Ehd [Hid' Hag]. split; [|done]. exists C'. split_and!; try done. congruence. }
  unfold run_call. apply wp_bind. eapply wp_get_task; [exact Ht|]. destruct c; apply wp_bind.
  - apply (create_endpoint_spec _ None C); try done. intros r s' HI' HR' Hfr Hpost. apply wp_ret.
    apply (Hfin s' C); [done|done|apply Hfr|by eapply create_ages].
  - apply (destroy_endpoint_spec _ handle None C); try done.
    { intros _. apply wp_ret. split; [by exists C|done]. }
    intros _ r s' C' HI' HR' Hfr Hpost. apply wp_ret.
    apply (Hfin s' C'); [done|done|apply Hfr|by eapply destroy_ages].
  - apply (send_spec _ handle _ None C); try done.
    { intros _. apply wp_ret. split; [by exists C|done]. }
    intros _ r s' C' HI' HR' Hfr Hpost. apply wp_ret.
    apply (Hfin s' C'); [done|done|apply Hfr|by eapply send_ages].
  - apply (try_recv_spec handle None C); try done.
    { intros _. apply wp_ret. split; [by exists C|done]. }
    intros _ r s' HI' HR' Hfr Hpost. apply wp_ret.
    apply (Hfin s' C); [done|done|apply Hfr|by eapply try_recv_ages].
  - apply (recv_spec handle i it hl t C); try done.
    { intros _ s' HI' HR' Es. apply wp_ret. apply (Hfin s' C); try done; [by subst s'|]. subst s'.
      split; [by eapply EpIdle_same|by apply ages_same]. }
    intros _ r s' C' HI' HR' _ Ehd Hpost. apply wp_ret.
    apply (Hfin s' C'); [done|done|done|by eapply recv_ages].
Qed.

(** A history interleaves endpoint calls of running tasks, on any hart, with
    kernel activity that leaves the endpoint table alone. *)
Inductive history : KState -> KState -> Prop :=
| history_start s : history s s
| history_call s s1 s2 e i it hl t c :
    history s s1 -> calling e i it hl t s1 -> run_call i c e s1 = Done tt s2 -> history s s2
| history_other s s1 s2 C :
    history s s1 -> endpoints s2 = endpoints s1 -> healthy s2 C -> history s s2.

Lemma history_healthy s s' C : healthy s C -> history s s' -> (exists C', healthy s' C') /\ ages s s'.
Proof.
  intros Hh H. induction H as [s|s s1 s2 e i it hl t c H IH Hca Hrun|s s1 s2 C' H IH He Hh'].
  - split; [by exists C|done].
  - destruct (IH Hh) as [[C1 Hh1] Hag1]. pose proof (run_call_spec e i it hl t c C1 s1 Hh1 Hca) as Hwp.
    unfold wp in Hwp. rewrite Hrun in Hwp. destruct Hwp as [? Hag2]. split; [done|]. by trans s1.
  - destruct (IH Hh) as [_ Hag1]. split; [by exists C'|]. trans s1; [done|by apply ages_same].
Qed.

(** The life a handle names is over. *)
Definition gone (h : EndpointHandle) (p : Endpoint) : Prop := eh_generation h < generation p \/ retired p = true.

Lemma gone_older h p p' : gone h p -> older p p' -> gone h p'.
Proof. intros [?|?] [? ?]; [left; lia|right; auto]. Qed.

Lemma gone_dead a l h p : ep_ok a p l -> gone h p -> live p h = false.
Proof.
  intros Hok Hg. unfold live. destruct Hg as [?|Hr].
  - rewrite (proj2 (Z.eqb_neq _ _)), andb_false_r by lia. done.
  - by destruct (ep_retired _ _ _ Hok Hr) as [-> _].
Qed.

Lemma destroyed_gone a p l p' h :
  ep_ok a p l -> live p h = true -> ep_view p' = ep_view (buried p) -> gone h p'.
Proof.
  intros Hok [Hact Hg%Z.eqb_eq]%andb_true_iff Hid%view_identity. unfold ep_identity in Hid. injection Hid as _ E2 E3 _.
  unfold gone. rewrite E2, E3, <- Hg. unfold buried, clear_queue. pose proof (ep_generation _ _ _ Hok).
  destruct (Z.leb_spec kMaxGeneration (generation p)); rproj; [by right|].
  rewrite u32_small by (unfold is_u32, kMaxGeneration in *; lia). left. lia.
Qed.

Lemma destroyed_is_gone caller handle C e s s1 :
  let h := from_raw handle in
  healthy s C -> destroy_endpoint caller handle e s = Done 0 s1 -> exists C1, healthy s1 C1 /\ handle_well_formed h = true /\
    exists p1, endpoints s1 !! Z.to_nat (eh_index h) = Some p1 /\ gone h p1.
Proof.
  intros h (HI&Hidle&HR&Hhd) Hrun.
  pose proof (destroy_endpoint_spec caller handle None C (fun r s' => r = 0 -> exists C1, healthy s' C1 /\ handle_well_formed h = true /\
    exists p1, endpoints s' !! Z.to_nat (eh_index h) = Some p1 /\ gone h p1) e s HI HR) as Hwp.
  unfold wp in Hwp. rewrite Hrun in Hwp. apply Hwp; [by rewrite Hhd; constructor|done| |done].
  fold h. intros Hwf r s' C' HI' HR' Hfr Hpost ->. destruct (destroy_ages _ _ _ _ _ _ _ _ HI Hidle Hpost) as [Hid' _].
  exists C'. split; [split_and!; try done; by rewrite (if_held _ _ Hfr)|]. split; [done|].
  destruct Hpost as (p&Hp&H). destruct (live p h) eqn:El; cbn [negb] in H; [|by destruct H].
  destruct (owner p =? caller); cbn [negb] in H; [|by destruct H]. destruct H as (_&_&_&p'&He&Hv).
  exists p'. rewrite He, list_lookup_insert_eq by (by eapply lookup_lt_Some). split; [done|].
  destruct (inv_ep _ _ HI _ p Hp) as (a&_&Hok). by eapply destroyed_gone.
Qed.

(** ** Handles *)

Lemma from_raw_raw h : is_u32 (eh_index h) -> is_u32 (eh_generation h) -> from_raw (raw h) = h.
Proof.
  destruct h as [i g]. unfold from_raw, raw. simpl. intros Hi Hg. rewrite Z.shiftl_mul_pow2 by lia.
  rewrite u64_small by word_lia.
  assert (Z.lor (g * 2 ^ 32) i = g * 2 ^ 32 + i) as ->.
  { symmetry. rewrite <- Z.shiftl_mul_pow2 by lia. apply Z.add_nocarry_lor. apply Z.bits_inj'. intros n Hn.
    rewrite Z.land_spec, Z.bits_0. destruct (Z.ltb_spec n 32).
    - by rewrite Z.shiftl_spec_low.
    - rewrite <- (Z.mod_small i (2 ^ 32)), Z.mod_pow2_bits_high, andb_false_r by (done || lia). done. }
  rewrite Z.shiftr_div_pow2 by lia. f_equal; word_lia.
Qed.

Lemma raw_from_raw v : is_u64 v -> raw (from_raw v) = v.
Proof.
  intros Hv. unfold from_raw, raw. simpl. apply Z.bits_inj'. intros n Hn.
  rewrite Z.lor_spec. unfold u64, u32. destruct (Z.ltb_spec n 32).
  - rewrite !Z.mod_pow2_bits_low, Z.shiftl_spec_low by lia. done.
  - rewrite (Z.mod_pow2_bits_high v 32 n), orb_false_r by lia. destruct (Z.ltb_spec n 64).
    + rewrite Z.mod_pow2_bits_low, Z.shiftl_spec, Z.mod_pow2_bits_low, Z.shiftr_spec by lia. f_equal. lia.
    + rewrite Z.mod_pow2_bits_high by lia. rewrite <- (Z.mod_small v (2 ^ 64)), Z.mod_pow2_bits_high by (done || lia). done.
Qed.

(** ** A bounded FIFO *)

(** What an endpoint without blocked receivers is for its users: a queue of at
    most 16 messages.  A request is a message to send or a poll. *)
Definition fifo_step (q : list Message) (o : option Message) : list Message * (Z * option Message) :=
  match o with
  | Some m => if bool_decide (length q < 16)%nat then (q ++ [m], (0, None)) else (q, (kErrorAgain, None))
  | None => match q with [] => (q, (kErrorAgain, None)) | m :: q' => (q', (0, Some m)) end
  end.
Fixpoint fifo_run (q : list Message) (os : list (option Message)) : list (Z * option Message) :=
  match os with [] => [] | o :: os' => (fifo_step q o).2 :: fifo_run (fifo_step q o).1 os' end.

(** The same requests made to an endpoint. *)
Definition request (handle : Z) (o : option Message) : K (Z * option Message) :=
  match o with
  | Some m => r ← send (sender m) handle (words m); mret (r, None)
  | None => try_recv handle true
  end.
Fixpoint requests (handle : Z) (os : list (option Message)) : K (list (Z * option Message)) :=
  match os with
  | [] => mret []
  | o :: os' => r ← request handle o; rs ← requests handle os'; mret (r :: rs)
  end.

(** The handle names an open endpoint that holds [q] and has no receivers. *)
Definition holds (handle : Z) (q : list Message) (s : KState) (C : queues) : Prop :=
  exists p, endpoints s !! Z.to_nat (eh_index (from_raw handle)) = Some p /\ live p (from_raw handle) = true /\
    pending p = q /\ C (QWait (Z.to_nat (eh_index (from_raw handle)))) = [].

Lemma live_identity p p' h : ep_identity p' = ep_identity p -> live p' h = live p h.
Proof. unfold ep_identity, live. intros E. by injection E as -> _ -> _. Qed.

(** No endpoint was created or destroyed. *)
Definition identities_kept (s s' : KState) : Prop :=
  forall v, ep_identity <$> endpoints s' !! v = ep_identity <$> endpoints s !! v.

Lemma identities_update s s' w p p' : endpoints s !! w = Some p -> endpoints s' = <[w := p']> (endpoints s) ->
  ep_identity p' = ep_identity p -> identities_kept s s'.
Proof.
  intros Hp He Hid v. rewrite He. destruct (decide (v = w)) as [->|Hne]; [|by rewrite list_lookup_insert_ne].
  rewrite list_lookup_insert_eq, Hp by (by eapply lookup_lt_Some). simpl. by rewrite Hid.
Qed.

Lemma request_spec handle o q C e s (Q : Z * option Message -> KState -> Prop) :
  handle_well_formed (from_raw handle) = true -> Inv s C -> Running None s -> (forall l, lock_fits l (held s)) ->
  holds handle q s C -> (forall m, o = Some m -> message_ok m) ->
  (forall s', Inv s' C -> Running None s' -> held s' = held s -> identities_kept s s' ->
     holds handle (fifo_step q o).1 s' C -> Q (fifo_step q o).2 s') ->
  wp False (request handle o) Q e s.
Proof.
  intros Hwf HI HR Hl (p&Hp&Hlive&Hq&HC) Hm HQ. set (w := Z.to_nat (eh_index (from_raw handle))) in *.
  assert (forall p' s', endpoints s' = <[w := p']> (endpoints s) -> ep_identity p' = ep_identity p -> identities_kept s s' /\ holds handle (pending p') s' C) as Hnew.
  { intros p' s' He Hid. split; [by eapply identities_update|]. exists p'. fold w. rewrite He, list_lookup_insert_eq by (by eapply lookup_lt_Some).
    split_and!; try done. by rewrite (live_identity p p'). }
  assert (forall s', endpoints s' = endpoints s -> identities_kept s s' /\ holds handle q s' C) as Hold.
  { intros s' He. split; [by intros v; rewrite He|]. exists p. fold w. by rewrite He. }
  destruct o as [m|]; unfold request.
  - apply wp_bind, (send_spec _ handle _ None C); try done; [by apply Hm|congruence|].
    intros _ r s' C' HI' HR' Hfr (p0&Hp0&H). fold w in Hp0. rewrite Hp in Hp0. injection Hp0 as <-.
    rewrite Hlive in H. fold w in H. rewrite HC in H. cbn [negb] in H. destruct H as (->&_&H). apply wp_ret.
    destruct (inv_ep _ _ HI w p Hp) as (a&_&Hok). pose proof (ep_count_range _ _ _ Hok) as Hcr.
    pose proof (pending_length p ltac:(lia)) as Hlen. rewrite Hq in Hlen. unfold kEndpointQueueDepth in H.
    unfold fifo_step in HQ. destruct (Z.leb_spec 16 (ep_count p)) as [Hf|Hf].
    + rewrite bool_decide_false in HQ by lia. destruct H as (->&[_ He _]). apply HQ; [done|done|apply Hfr|by apply Hold..].
    + rewrite bool_decide_true in HQ by lia. destruct H as (->&p'&He&Epend&Hid). destruct (Hnew p' s' He Hid) as [Hk Hh].
      apply HQ; [done|done|apply Hfr|done|]. destruct m as [sd ws]. cbn [sender words fst] in *. by rewrite <- Hq, <- Epend.
  - apply (try_recv_spec handle None C); try done; [congruence|].
    intros _ r s' HI' HR' Hfr (p0&Hp0&H). fold w in Hp0. rewrite Hp in Hp0. injection Hp0 as <-.
    rewrite Hlive, Hq in H. cbn [negb] in H. destruct q as [|m q'].
    + destruct H as (->&[_ He _]). apply HQ; [done|done|apply Hfr|by apply Hold..].
    + destruct H as (->&_&p'&He&Epend&Hid). destruct (Hnew p' s' He Hid) as [Hk Hh].
      apply HQ; [done|done|apply Hfr|done|]. cbn [fifo_step fst]. by rewrite <- Epend.
Qed.

Lemma requests_spec handle os q C e s :
  handle_well_formed (from_raw handle) = true -> Inv s C -> Running None s -> (forall l, lock_fits l (held s)) ->
  holds handle q s C -> Forall (fun o => forall m, o = Some m -> message_ok m) os ->
  wp False (requests handle os) (fun rs s' => rs = fifo_run q os /\ Inv s' C /\ Running None s') e s.
Proof.
  revert q s. induction os as [|o os IH]; intros q s Hwf HI HR Hl Hq Hos; cbn [requests]; [by apply wp_ret|].
  apply Forall_cons in Hos as [Ho Hos]. apply wp_bind, (request_spec handle o q C); try done.
  intros s' HI' HR' Ehd _ Hq'. apply wp_bind. eapply wp_mono; [by apply (IH (fifo_step q o).1); [..|rewrite Ehd|done|done]|done|].
  intros rs s2 (->&?&?). apply wp_ret. by split_and!.
Qed.

(** ** Concrete states *)

(** Task 3, on hart 0, has created endpoint 0; its handle is [demo_handle]. *)
Definition demo_handle : Z := 0x100000000.
Definition demo_open : KState := state_after (create_endpoint 3 true) (demo_env 0) demo.

Lemma demo_idle : EpIdle demo quiet.
Proof. done. Qed.

Lemma demo_open_healthy : healthy demo_open quiet.
Proof.
  apply (wp_state_after (create_endpoint 3 true) (fun s => healthy s quiet)).
  apply (create_endpoint_spec 3 None quiet); [apply demo_inv|apply demo_idle|apply demo_running|constructor|].
  intros r s' HI HR Hfr Hpost. destruct (create_ages _ _ _ _ _ demo_idle Hpost) as [Hid _].
  split_and!; try done. exact (if_held _ _ Hfr).
Qed.

(** Then it blocks in [recv]. *)
Definition demo_waiting : KState := state_after (recv 2 demo_handle) (demo_env 0) demo_open.

Lemma demo_calling : calling (demo_env 0) 2 0 (demo_hart 0) (demo_task 3 0 false) demo_open.
Proof. by split; vm_compute. Qed.

Lemma demo_waiting_healthy : healthy demo_waiting (queue_receiver 0 2 quiet).
Proof.
  destruct demo_open_healthy as (HI&Hid&HR&Hhd).
  apply (wp_state_after (recv 2 demo_handle) (fun s => healthy s (queue_receiver 0 2 quiet))).
  apply (recv_spec demo_handle 2 0 (demo_hart 0) (demo_task 3 0 false) quiet); [done|done|apply demo_calling|by rewrite Hhd; constructor|done|].
  intros _ r s' C' HI' HR' _ Ehd Hpost. destruct (recv_ages _ _ _ _ _ _ _ _ _ _ Hid Hpost) as [Hid' _].
  destruct Hpost as (p&Hp&H). assert (p = opened 3 zero_endpoint) as -> by (vm_compute in Hp; by injection Hp as <-).
  cbn in H. destruct H as (_&->&_). split_and!; try done.
Qed.

(** ** Properties *)

(** C12: [send] meets its contract.  A malformed, stale or closed handle is
    refused with [EINVAL] and nothing changes; with a receiver blocked on the
    endpoint, the longest waiting one leaves the queue, gets status, payload
    and sender in its result registers and becomes ready; otherwise the message
    goes to the back of the pending messages, or is refused with [EAGAIN] when
    16 are pending.  The kernel invariant holds and the locks are released. *)
Theorem send_correct sender_tid handle payload C e s :
  let h := from_raw handle in let w := Z.to_nat (eh_index h) in
  Inv s C -> Running None s -> length payload = 4%nat -> lock_fits (LEndpoint w) (held s) ->
  exists r s' C', send sender_tid handle payload e s = Done r s' /\ Inv s' C' /\ Running None s' /\ held s' = held s /\
    if handle_well_formed h then send_post w h (mkMessage sender_tid payload) s C r s' C'
    else r = kErrorInvalidArgument /\ s' = s.
Proof.
  intros h w HI HR Hlen Hlock.
  destruct (wp_done (send sender_tid handle payload) (fun r s' => exists C', Inv s' C' /\ Running None s' /\ held s' = held s /\
    if handle_well_formed h then send_post w h (mkMessage sender_tid payload) s C r s' C'
    else r = kErrorInvalidArgument /\ s' = s) e s) as (r&s'&Hrun&C'&?); [|by exists r, s', C'].
  apply (send_spec sender_tid handle payload None C); try done; fold h; fold w.
  - intros ->. by exists C.
  - intros ->. intros r s' C' HI' HR' Hfr Hpost. exists C'. split_and!; try done. apply Hfr.
Qed.

Lemma send_correct_witness :
  exists s' C', send 4 demo_handle [7; 8; 9; 10] (demo_env 1) demo_waiting = Done 0 s' /\ Inv s' C' /\ 2%nat ∈ C' (QRun Global).
Proof.
  destruct demo_waiting_healthy as (HI&_&HR&Hhd).
  destruct (send_correct 4 demo_handle [7; 8; 9; 10] (queue_receiver 0 2 quiet) (demo_env 1) demo_waiting)
    as (r&s'&C'&Hrun&HI'&_&_&p&Hp&H).
  - exact HI.
  - exact HR.
  - reflexivity.
  - rewrite Hhd. constructor.
  - exists s', C'.
    assert (live p (from_raw demo_handle) = true) as Hl by (vm_compute in Hp; injection Hp as <-; reflexivity).
    rewrite Hl in H. cbn in H. destruct H as (->&->&_). split; [exact Hrun|]. split; [exact HI'|].
    vm_compute. left.
Defined.

(** C13: [recv] by the running task meets its contract.  A malformed, stale or
    closed handle is rejected with [EINVAL] in [a0]; a pending message is taken
    oldest first and placed in the caller's registers; with none pending the
    caller is blocked at the back of the endpoint's receivers, its registers
    kept, and the hart runs the task the scheduling policy picks.  It never
    parks, and invariant and locks are as before. *)
Theorem recv_correct handle i it hl t C e s :
  let w := Z.to_nat (eh_index (from_raw handle)) in
  Inv s C -> Running None s -> calling e i it hl t s -> lock_fits (LEndpoint w) (held s) ->
  exists r s' C', recv i handle e s = Done r s' /\ Inv s' C' /\ Running None s' /\ held s' = held s /\
    if handle_well_formed (from_raw handle) then recv_outcome w handle (e_hart e) it i s C r s' C'
    else r = mkRecvResult RecvStatus.rejected zero_message kErrorInvalidArgument /\
         s' = set_field tasks (alter (set_x 10 (u64 kErrorInvalidArgument)) i) s.
Proof.
  intros w HI HR Hca Hlock.
  destruct (wp_done (recv i handle) (fun r s' => exists C', Inv s' C' /\ Running None s' /\ held s' = held s /\
    if handle_well_formed (from_raw handle) then recv_outcome w handle (e_hart e) it i s C r s' C'
    else r = mkRecvResult RecvStatus.rejected zero_message kErrorInvalidArgument /\
         s' = set_field tasks (alter (set_x 10 (u64 kErrorInvalidArgument)) i) s) e s)
    as (r&s'&Hrun&C'&?); [|by exists r, s', C'].
  apply (recv_spec handle i it hl t C); try done; fold w.
  - intros -> s' HI' HR' ->. by exists C.
  - intros -> r s' C' HI' HR' _ Ehd Hpost. by exists C'.
Qed.

Lemma recv_correct_witness :
  exists r s' C', recv 2 demo_handle (demo_env 0) demo_open = Done r s' /\ Inv s' C' /\ rr_status r = RecvStatus.blocked.
Proof.
  destruct demo_open_healthy as (HI&_&HR&Hhd).
  destruct (recv_correct demo_handle 2 0 (demo_hart 0) (demo_task 3 0 false) quiet (demo_env 0) demo_open)
    as (r&s'&C'&Hrun&HI'&_&_&p&Hp&H).
  - exact HI.
  - exact HR.
  - exact demo_calling.
  - rewrite Hhd. constructor.
  - exists r, s', C'. split; [exact Hrun|]. split; [exact HI'|].
    assert (p = opened 3 zero_endpoint) as -> by (vm_compute in Hp; injection Hp as <-; reflexivity).
    cbn in H. destruct H as (->&_). reflexivity.
Defined.

(** C5: An endpoint is a bounded FIFO.  Any sequence of [send] and [try_recv]
    on an open endpoint without blocked receivers gives exactly the results of
    a queue of capacity 16: messages come out in the order they went in, each
    once, [EAGAIN] marks a full or an empty queue, and the ring indices never
    lose or duplicate one, wrap-around included. *)
Theorem endpoint_refines_bounded_fifo handle os q C e s :
  handle_well_formed (from_raw handle) = true -> Inv s C -> Running None s -> held s = [] ->
  holds handle q s C -> Forall (fun o => forall m, o = Some m -> message_ok m) os ->
  exists s', requests handle os e s = Done (fifo_run q os) s' /\ Inv s' C /\ Running None s'.
Proof.
  intros Hwf HI HR Hhd Hq Hos.
  destruct (wp_done _ _ e s (requests_spec handle os q C e s Hwf HI HR
    ltac:(intros l; rewrite Hhd; constructor) Hq Hos)) as (rs&s'&Hrun&->&?). by exists s'.
Qed.

Lemma endpoint_refines_bounded_fifo_witness :
  let m := mkMessage 3 [1; 2; 3; 4] in let m' := mkMessage 4 [5; 6; 7; 8] in
  exists s', requests demo_handle [Some m; Some m'; None; None; None] (demo_env 0) demo_open
    = Done [(0, None); (0, None); (0, Some m); (0, Some m'); (kErrorAgain, None)] s' /\ Inv s' quiet.
Proof.
  intros m m'. destruct demo_open_healthy as (HI&_&HR&Hhd).
  destruct (endpoint_refines_bounded_fifo demo_handle [Some m; Some m'; None; None; None] [] quiet (demo_env 0) demo_open)
    as (s'&Hrun&HI'&_).
  - reflexivity.
  - exact HI.
  - exact HR.
  - exact Hhd.
  - exists (opened 3 zero_endpoint). split; [vm_compute; reflexivity|]. split; [reflexivity|]. split; reflexivity.
  - repeat constructor; intros x Hx; try discriminate Hx; injection Hx as <-; reflexivity.
  - exists s'. split; [exact Hrun|exact HI'].
Defined.

(** C20: [destroy_endpoint] meets its contract.  A malformed, stale or closed
    handle gives [EINVAL] and a caller that is not the owner [EACCES], without
    effect; otherwise the pending messages are dropped, every blocked receiver
    is woken with [EIDRM] (the loop ends: at most 16 tasks can wait), the
    endpoint is closed and its slot moves to the next generation, or is retired
    at the last one. *)
Theorem destroy_endpoint_correct caller handle C e s :
  let h := from_raw handle in let w := Z.to_nat (eh_index h) in
  Inv s C -> Running None s -> lock_fits LEndpointTable (held s) ->
  exists r s' C', destroy_endpoint caller handle e s = Done r s' /\ Inv s' C' /\ Running None s' /\ held s' = held s /\
    if handle_well_formed h then destroy_post w h caller s C r s' C' else r = kErrorInvalidArgument /\ s' = s.
Proof.
  intros h w HI HR Hlock.
  destruct (wp_done (destroy_endpoint caller handle) (fun r s' => exists C', Inv s' C' /\ Running None s' /\ held s' = held s /\
    if handle_well_formed h then destroy_post w h caller s C r s' C' else r = kErrorInvalidArgument /\ s' = s) e s)
    as (r&s'&Hrun&C'&?); [|by exists r, s', C'].
  apply (destroy_endpoint_spec caller handle None C); try done; fold h; fold w.
  - intros ->. by exists C.
  - intros -> r s' C' HI' HR' Hfr Hpost. exists C'. split_and!; try done. apply Hfr.
Qed.

Lemma destroy_endpoint_correct_witness :
  exists s' C', destroy_endpoint 3 demo_handle (demo_env 1) demo_waiting = Done 0 s' /\ Inv s' C' /\
    C' (QWait 0) = [] /\ C' (QRun Global) = [2%nat].
Proof.
  destruct demo_waiting_healthy as (HI&_&HR&Hhd).
  destruct (destroy_endpoint_correct 3 demo_handle (queue_receiver 0 2 quiet) (demo_env 1) demo_waiting)
    as (r&s'&C'&Hrun&HI'&_&_&p&Hp&H).
  - exact HI.
  - exact HR.
  - rewrite Hhd. constructor.
  - exists s', C'.
    assert (live p (from_raw demo_handle) = true /\ owner p = 3) as [Hl Ho] by (vm_compute in Hp; injection Hp as <-; split; reflexivity).
    rewrite Hl, Ho in H. cbn in H. destruct H as (->&->&_). split; [exact Hrun|]. split; [exact HI'|].
    split; vm_compute; reflexivity.
Defined.

(** C21: [create_endpoint] claims the first free slot, opens an empty endpoint
    owned by the caller there and returns the handle of its current generation;
    it reports [ENOSPC], without effect, exactly when all 16 slots are taken.
    The handle decodes to that slot and generation, passes the format check, and
    is live. *)
Theorem create_endpoint_correct tid C e s :
  Inv s C -> EpIdle s C -> Running None s -> lock_fits LEndpointTable (held s) ->
  exists r s', create_endpoint tid true e s = Done r s' /\ Inv s' C /\ EpIdle s' C /\ Running None s' /\
    create_post tid s r s' /\
    (forall v, r.2 = Some v -> handle_well_formed (from_raw v) = true /\ exists p,
       endpoints s' !! Z.to_nat (eh_index (from_raw v)) = Some p /\ live p (from_raw v) = true /\ pending p = [] /\ owner p = tid).
Proof.
  intros HI Hidle HR Hlock.
  destruct (wp_done (create_endpoint tid true) (fun r s' => Inv s' C /\ Running None s' /\ create_post tid s r s') e s)
    as (r&s'&Hrun&HI'&HR'&Hpost); [by apply (create_endpoint_spec tid None C)|].
  exists r, s'. destruct (create_ages _ _ _ _ _ Hidle Hpost) as [Hid' _]. split_and!; try done.
  intros v Hv. destruct Hpost as [(->&_)|(i&p&_&Hp&Hi&Hact&_&->&He&_)]; [done|]. apply (inj Some) in Hv. subst v.
  destruct (inv_ep _ _ HI i p Hp) as (a&_&Hok). rewrite (Hidle i p Hp Hact) in Hok.
  pose proof (opened_ok tid _ _ Hok) as Hok'. pose proof (ep_generation _ _ _ Hok') as Hg.
  pose proof (ep_active _ _ _ Hok' eq_refl) as Hg1. unfold kMaxEndpoints, kMaxGeneration in *.
  rewrite from_raw_raw by (cbn [eh_index eh_generation]; unfold is_u32; lia). cbn [eh_index eh_generation]. rewrite Nat2Z.id. split.
  - unfold handle_well_formed, kMaxEndpoints, kMaxGeneration. cbn [eh_index eh_generation].
    rewrite (proj2 (Z.ltb_lt _ _)), (proj2 (Z.eqb_neq _ _)), (proj2 (Z.leb_le _ _)) by lia. done.
  - exists (opened tid p). rewrite He, list_lookup_insert_eq by (by eapply lookup_lt_Some).
    split_and!; try done. unfold live. simpl. apply Z.eqb_refl.
Qed.

Lemma create_endpoint_correct_witness :
  exists s', create_endpoint 3 true (demo_env 0) demo = Done (0, Some demo_handle) s' /\ Inv s' quiet /\ EpIdle s' quiet.
Proof.
  destruct (create_endpoint_correct 3 quiet (demo_env 0) demo) as (r&s'&Hrun&HI&Hid&_).
  - exact demo_inv.
  - exact demo_idle.
  - exact demo_running.
  - constructor.
  - exists s'. assert (r = (0, Some demo_handle)) as -> by (vm_compute in Hrun; injection Hrun as <- _; reflexivity).
    split; [exact Hrun|]. split; [exact HI|exact Hid].
Defined.

(** C6: No use after destroy.  Once [destroy_endpoint] has accepted a handle,
    then after any history of endpoint calls by any tasks on any harts,
    interleaved with other kernel activity, sending to that handle is refused
    with [EINVAL], and [create_endpoint] never hands it out again. *)
Theorem destroyed_handle_stays_dead caller handle C e s s1 s2 :
  healthy s C -> destroy_endpoint caller handle e s = Done 0 s1 -> history s1 s2 ->
  (forall e' tid w0 w1 w2 w3, exists s3, send tid handle [w0; w1; w2; w3] e' s2 = Done kErrorInvalidArgument s3) /\
  (forall e' tid v s3, create_endpoint tid true e' s2 = Done (0, Some v) s3 -> v <> handle).
Proof.
  intros (HI&Hidle&HR&Hhd) Hrun Hhist. set (h := from_raw handle). set (w := Z.to_nat (eh_index h)).
  destruct (destroyed_is_gone caller handle C e s s1) as (C1&Hh1&Hwf&p1&Hp1&Hgone1); [by split_and!|done|].
  destruct (history_healthy s1 s2 C1 Hh1 Hhist) as [(C2&HI2&Hid2&HR2&Hhd2) Hag].
  destruct (Hag w p1 Hp1) as (p2&Hp2&Hold). pose proof (gone_older h p1 p2 Hgone1 Hold) as Hgone2.
  assert (forall l, lock_fits l (held s2)) as Hl by (intros l; rewrite Hhd2; constructor).
  split.
  - intros e' tid w0 w1 w2 w3. destruct (inv_ep _ _ HI2 w p2 Hp2) as (a&_&Hok2).
    destruct (wp_done (send tid handle [w0; w1; w2; w3]) (fun r _ => r = kErrorInvalidArgument) e' s2)
      as (r&s3&Hr&->); [|by exists s3].
    apply (send_spec tid handle _ None C2); try done. intros _ r s' C' _ _ _ (p&Hp&H). fold h w in Hp.
    rewrite Hp2 in Hp. injection Hp as <-. fold h in H. rewrite (gone_dead _ _ _ _ Hok2 Hgone2) in H. by destruct H.
  - intros e' tid v s3 Hc Ev.
    assert (create_post tid s2 (0, Some v) s3) as Hpost.
    { pose proof (create_endpoint_spec tid None C2 (fun r s' => create_post tid s2 r s') e' s2 HI2 Hid2 HR2 (Hl _)) as Hwp.
      unfold wp in Hwp. rewrite Hc in Hwp. by apply Hwp. }
    destruct Hpost as [(?&_)|(i&p&_&Hp&Hi&Hact&Hret&E&_)]; [done|]. injection E as E.
    destruct (inv_ep _ _ HI2 i p Hp) as (a&_&Hok). rewrite (Hid2 i p Hp Hact) in Hok.
    pose proof (ep_generation _ _ _ (opened_ok tid _ _ Hok)) as Hg. pose proof (ep_active _ _ _ (opened_ok tid _ _ Hok) eq_refl) as Hg1.
    assert (h = mkHandle (Z.of_nat i) (generation (opened tid p))) as Eh.
    { unfold h. rewrite <- Ev, E. apply from_raw_raw; simpl; unfold is_u32, kMaxEndpoints, kMaxGeneration in *; simpl in *; lia. }
    assert (w = i) as Ew by (unfold w; rewrite Eh; apply Nat2Z.id). rewrite Ew, Hp in Hp2. injection Hp2 as <-.
    destruct Hgone2 as [Hlt|Hr]; [|congruence]. rewrite Eh in Hlt. unfold opened in Hlt. simpl in Hlt.
    destruct (Z.eqb_spec (generation p) 0); pose proof (ep_generation _ _ _ Hok); lia.
Qed.

Lemma destroyed_handle_stays_dead_witness :
  exists s1, destroy_endpoint 3 demo_handle (demo_env 0) demo_open = Done 0 s1 /\
    forall e' tid v s3, create_endpoint tid true e' s1 = Done (0, Some v) s3 -> v <> demo_handle.
Proof.
  destruct (destroy_endpoint 3 demo_handle (demo_env 0) demo_open) as [r s1| | |] eqn:E; [|vm_compute in E; discriminate E..].
  assert (r = 0) as -> by (vm_compute in E; injection E as <- _; reflexivity).
  exists s1. split; [reflexivity|].
  exact (proj2 (destroyed_handle_stays_dead 3 demo_handle quiet (demo_env 0) demo_open s1 s1 demo_open_healthy E
    (history_start s1))).
Defined.

(** Handles round-trip through their 64-bit encoding: decoding the raw
    value of a handle gives it back, and every 64-bit value is the raw value of
    what it decodes to, so a handle can be passed through registers. *)
Lemma handle_roundtrip h v :
  is_u32 (eh_index h) -> is_u32 (eh_generation h) -> is_u64 v ->
  from_raw (raw h) = h /\ raw (from_raw v) = v.
Proof. intros Hi Hg Hv. split; [by apply from_raw_raw|by apply raw_from_raw]. Qed.

Lemma handle_roundtrip_witness :
  from_raw (raw (mkHandle 3 7)) = mkHandle 3 7 /\ raw (from_raw demo_handle) = demo_handle.
Proof.
  apply (handle_roundtrip (mkHandle 3 7) demo_handle).
  - split; [vm_compute; discriminate|reflexivity].
  - split; [vm_compute; discriminate|reflexivity].
  - split; [vm_compute; discriminate|reflexivity].
Defined.
