(* ===== verification/TaskManager.v ===== *)
(** * Task manager

    Models the class [TaskManager] of [microkernel/core/task_manager.{h,cpp}]:
    the bounded task and tracker tables, the tracker tree, creation, end,
    wait and detach. *)
From stdpp Require Import base tactics list gmap.
From Stdlib Require Import ZArith Lia.
From S2P Require Import Prelude DList Memory Lifecycle PageManager Sv39 Vmm KernelTypes RunQueue DelayQueue Scheduler TaskContext.
Local Open Scope Z_scope.

(** Byte-wise clearing of [size] bytes at [address], as a memory function;
    [clear_bytes_loop] is the loop of the source. *)
Definition clear_bytes (address size : Z) (m : Mem) : Mem :=
  fun a => if (address <=? a) && (a <? address + size) then 0 else m a.

Fixpoint clear_bytes_loop (count : nat) (address : Z) (m : Mem) : Mem :=
  match count with
  | O => m
  | S n => clear_bytes_loop n (address + 1) (put8 m address 0)
  end.

Lemma clear_bytes_loop_spec count address m a :
  clear_bytes_loop count address m a = clear_bytes address (Z.of_nat count) m a.
Proof.
  revert address m. induction count as [|n IH]; intros address m; unfold clear_bytes.
  - simpl. destruct (Z.leb_spec address a), (Z.ltb_spec a (address + Z.of_nat 0)); try done. lia.
  - cbn [clear_bytes_loop]. rewrite IH. unfold clear_bytes, put8.
    destruct (Z.leb_spec (address + 1) a), (Z.ltb_spec a (address + 1 + Z.of_nat n)), (Z.leb_spec address a),
      (Z.ltb_spec a (address + Z.of_nat (S n))), (Z.eqb_spec a address); cbn [andb]; try done; lia.
Qed.

Definition kclear_bytes (address size : Z) : K unit :=
  modify (fun s => s <| memsys := (memsys s) <| ms_mem := clear_bytes address size (ms_mem (memsys s)) |> |>).

Definition kmap_boot_task_stack (base size : Z) : K bool := fun _ s =>
  let '(ok, vm', ms') := map_boot_task_stack base size (vmm s) (memsys s) in
  Done ok (s <| vmm := vm' |> <| memsys := ms' |>).

Definition task_stack (index : nat) : K Z :=
  e ← ask; mret (task_stacks_base (e_syms e) + Z.of_nat index * kTaskStackSize).

(** ** Initialisation *)

Fixpoint map_task_stacks (index count : nat) : K bool :=
  match count with
  | O => mret true
  | S n =>
      stack_bottom ← task_stack index;
      ok ← kmap_boot_task_stack stack_bottom kTaskStackSize;
      if ok : bool then map_task_stacks (S index) n else mret false
  end.

Definition TaskManager_initialize : K bool :=
  with_lock LTaskManager (
    i ← gets tm_initialized;
    if i : bool then mret true
    else
      modify (fun s => s <| tasks := replicate kMaxTasks zero_task |>
                         <| trackers := replicate kMaxTasks zero_tracker |>
                         <| task_slots_used := replicate kMaxTasks false |>
                         <| tracker_slots_used := replicate kMaxTasks false |>);;
      base ← task_stack 0;
      kclear_bytes base (Z.of_nat kMaxTasks * kTaskStackSize);;
      ok ← map_task_stacks 0 kMaxTasks;
      if negb ok then mret false
      else
        modify (fun s => s <| root_tasks := None |> <| next_tid := 1 |>
                           <| initial_task_id := 0 |> <| tm_initialized := true |>);;
        mret true).

(** ** Slots *)

(** First index whose flag is clear. *)
Fixpoint first_free (used : list bool) (index : nat) : option nat :=
  match used with
  | [] => None
  | true :: used' => first_free used' (S index)
  | false :: _ => Some index
  end.

Definition allocate_task_locked : K (option nat) :=
  used ← gets task_slots_used;
  match first_free used 0 with
  | None => mret None
  | Some index =>
      modify (fun s => s <| task_slots_used := <[index := true]> (task_slots_used s) |>);;
      mod_task index (fun _ => zero_task);;
      mret (Some index)
  end.

Definition allocate_tracker_locked : K (option nat) :=
  used ← gets tracker_slots_used;
  match first_free used 0 with
  | None => mret None
  | Some index =>
      modify (fun s => s <| tracker_slots_used := <[index := true]> (tracker_slots_used s) |>);;
      mod_tracker index (fun _ => zero_tracker);;
      mret (Some index)
  end.

Definition release_task_locked (task : nat) : K unit :=
  if (kMaxTasks <=? task)%nat then park
  else
    t ← get_task task;
    if t_queued t || d_queued (t_delay t) || w_queued (t_message_wait t) then park
    else
      (if t_stack_bottom t =? 0 then mret tt else kclear_bytes (t_stack_bottom t) kTaskStackSize);;
      mod_task task (fun _ => zero_task);;
      modify (fun s => s <| task_slots_used := <[task := false]> (task_slots_used s) |>).

Definition release_tracker_locked (tracker : nat) : K unit :=
  if (kMaxTasks <=? tracker)%nat then park
  else
    mod_tracker tracker (fun _ => zero_tracker);;
    modify (fun s => s <| tracker_slots_used := <[tracker := false]> (tracker_slots_used s) |>).

(** ** The tracker tree *)

(** [head]: the sibling list a parent (or the root) owns. *)
Definition get_children_head (parent : option nat) : K (option nat) :=
  match parent with
  | None => gets root_tasks
  | Some p => k ← get_tracker p; mret (k_first_child k)
  end.
Definition set_children_head (parent : option nat) (v : option nat) : K unit :=
  match parent with
  | None => modify (<| root_tasks := v |>)
  | Some p => mod_tracker p (<| k_first_child := v |>)
  end.

Definition link_tracker_locked (tracker : nat) (parent : option nat) : K unit :=
  mod_tracker tracker (<| k_parent := parent |>);;
  mod_tracker tracker (<| k_previous_sibling := None |>);;
  head ← get_children_head parent;
  mod_tracker tracker (<| k_next_sibling := head |>);;
  match head with
  | Some h => mod_tracker h (<| k_previous_sibling := Some tracker |>)
  | None => mret tt
  end;;
  set_children_head parent (Some tracker).

Definition unlink_tracker_locked (tracker : nat) : K unit :=
  k ← get_tracker tracker;
  match k_previous_sibling k with
  | Some p => mod_tracker p (<| k_next_sibling := k_next_sibling k |>)
  | None => set_children_head (k_parent k) (k_next_sibling k)
  end;;
  match k_next_sibling k with
  | Some n => mod_tracker n (<| k_previous_sibling := k_previous_sibling k |>)
  | None => mret tt
  end;;
  mod_tracker tracker (<| k_previous_sibling := None |>);;
  mod_tracker tracker (<| k_next_sibling := None |>).

(** [remove_tracker_locked] after its first unlink: the [while] loop over the
    children, with the recursive call for completed orphans, and the release.
    One unit of [fuel] per iteration and per call. *)
Fixpoint remove_children (fuel : nat) (tracker : nat) (new_parent : option nat) : K unit :=
  match fuel with
  | O => diverge
  | S fuel' =>
      k ← get_tracker tracker;
      match k_first_child k with
      | None => release_tracker_locked tracker
      | Some child =>
          unlink_tracker_locked child;;
          link_tracker_locked child new_parent;;
          c ← get_tracker child;
          (if bool_decide (new_parent = None) && bool_decide (k_task c = None) then
             if bool_decide (k_status c = ExitStatus.crashed) then park
             else
               unlink_tracker_locked child;;
               remove_children fuel' child None
           else mret tt);;
          remove_children fuel' tracker new_parent
      end
  end.

Definition tracker_fuel : nat := 2 * kMaxTasks + 1.

Definition remove_tracker_locked (tracker : nat) : K unit :=
  k ← get_tracker tracker;
  unlink_tracker_locked tracker;;
  remove_children tracker_fuel tracker (k_parent k).

(** Walk along a sibling list to the first tracker that satisfies [p]. *)
Fixpoint find_sibling (fuel : nat) (p : TaskTracker -> bool) (child : option nat) : K (option nat) :=
  match fuel with
  | O => diverge
  | S fuel' =>
      match child with
      | None => mret None
      | Some c =>
          k ← get_tracker c;
          if p k then mret (Some c) else find_sibling fuel' p (k_next_sibling k)
      end
  end.

Definition find_child_locked (parent : nat) (tid : Z) : K (option nat) :=
  k ← get_tracker parent;
  if 0 <=? tid then find_sibling (S kMaxTasks) (fun c => k_key c =? tid) (k_first_child k)
  else
    done_child ← find_sibling (S kMaxTasks) (fun c => bool_decide (k_task c = None)) (k_first_child k);
    match done_child with
    | Some c => mret (Some c)
    | None => mret (k_first_child k)
    end.

(** ** Creation *)

Definition create_task_locked (entry argument : Z) (address_space : AddressSpace) (owner_hart : nat)
    (kernel_parent idle with_stack : bool) : K (option nat) :=
  i ← gets tm_initialized;
  vm ← gets vmm;
  if negb i || negb (as_valid address_space) || negb (is_boot_user_entry entry vm) then mret None
  else
    ot ← allocate_task_locked;
    ok ← allocate_tracker_locked;
    match ot, ok with
    | Some task, Some tracker =>
        bottom ← (if with_stack then task_stack task else mret 0);
        let top := if with_stack then bottom + kTaskStackSize else 0 in
        mapped ← (if with_stack then
                    kclear_bytes bottom kTaskStackSize;;
                    kmap_boot_task_stack bottom kTaskStackSize
                  else mret true);
        if negb mapped then
          release_tracker_locked tracker;; release_task_locked task;; mret None
        else
          tid ← gets next_tid;
          modify (fun s => s <| next_tid := u64 (next_tid s + 1) |>);;
          mod_task task (fun t =>
            t <| t_cpu := Some owner_hart |> <| t_address_space := address_space |> <| t_tid := tid |>
              <| t_affinity_pinned := 0 |> <| t_state := TaskState.ready |> <| t_state_info := 0 |>
              <| t_tracker := Some tracker |> <| t_stack_bottom := bottom |> <| t_stack_top := top |>
              <| t_detached := false |> <| t_idle := idle |> <| t_queued := false |>
              <| t_previous := None |> <| t_next := None |> <| t_message_wait := zero_wait_node |>);;
          e ← ask;
          initialize_user task entry argument top (user_task_end_stub (e_syms e)) (satp_value address_space);;
          mod_tracker tracker (fun k =>
            k <| k_key := tid |> <| k_task := Some task |> <| k_status := ExitStatus.running |>
              <| k_return_value := 0 |> <| k_wait := zero_wait |> <| k_entry_point := entry |>);;
          parent_task ← (if kernel_parent then mret None else get_current_task);
          parent ← match parent_task with
                   | None => mret None
                   | Some p => t ← get_task p; mret (t_tracker t)
                   end;
          link_tracker_locked tracker parent;;
          mret (Some task)
    | _, _ =>
        match ot with Some task => release_task_locked task | None => mret tt end;;
        match ok with Some tracker => release_tracker_locked tracker | None => mret tt end;;
        mret None
    end.

Definition create_idle_task (owner_hart : nat) : K (option nat) :=
  with_lock LTaskManager (
    vm ← gets vmm;
    e ← ask;
    create_task_locked (user_idle_task (e_syms e)) 0 (boot_address_space vm) owner_hart true true false).

Definition create_task (entry argument : Z) (address_space : AddressSpace) (owner_hart : nat)
    (kernel_parent : bool) : K (option nat) :=
  with_lock LTaskManager (
    create_task_locked entry argument address_space owner_hart kernel_parent false true).

(** ** End, wait, detach *)

(** The critical section of [end_task]: the result is recorded, the tracker is
    removed or kept for the parent, and the slot is freed. *)
Definition end_task_locked (task : nat) (return_value : Z) (status : ExitStatus.t) : K unit :=
  t ← get_task task;
  tracker ← deref (t_tracker t);
  mod_tracker tracker (fun k => k <| k_status := status |> <| k_return_value := return_value |>
                                  <| k_task := None |>);;
  k ← get_tracker tracker;
  (if t_detached t then
     if bool_decide (status = ExitStatus.crashed) then park else remove_tracker_locked tracker
   else
     waiting ← match k_parent k with
               | None => mret false
               | Some p => pk ← get_tracker p; mret (wi_active (k_wait pk))
               end;
     if waiting : bool then
       parent ← deref (k_parent k);
       pk ← get_tracker parent;
       if (wi_tid (k_wait pk) <? 0) || (wi_tid (k_wait pk) =? sext 64 (t_tid t)) then
         match k_task pk with
         | None => park
         | Some parent_task =>
             mod_tracker parent (fun k => k <| k_wait := (k_wait k) <| wi_active := false |> |>);;
             mod_task parent_task (set_x 10 (t_tid t));;
             remove_tracker_locked tracker;;
             scheduler_of parent_task;;
             ok ← add_task parent_task;
             if ok : bool then mret tt else park
         end
       else mret tt
     else if bool_decide (k_parent k = None) then
       if bool_decide (status = ExitStatus.crashed) then park else remove_tracker_locked tracker
     else mret tt);;
  release_task_locked task.

Definition end_task (task : nat) (return_value : Z) (status : ExitStatus.t) : K unit :=
  c ← get_current_task;
  t ← get_task task;
  let ending_current := bool_decide (c = Some task) in
  if negb ending_current && (t_queued t || bool_decide (t_state t = TaskState.running)) then park
  else
    mod_task task (<| t_state := TaskState.ended |>);;
    when ending_current (scheduler_of task;; _ ← set_next_runnable; mret tt);;
    with_lock LTaskManager (end_task_locked task return_value status).

Module WaitResult.
Inductive t := completed | blocked | no_child.
#[global] Instance eq_dec : EqDecision t.
Proof. solve_decision. Defined.
End WaitResult.

Definition wait_task (task : nat) (tid : Z) : K WaitResult.t :=
  c ← get_current_task;
  if bool_decide (c <> Some task) then park
  else
    with_lock LTaskManager (
      t ← get_task task;
      tracker ← deref (t_tracker t);
      child ← find_child_locked tracker tid;
      match child with
      | None => mret WaitResult.no_child
      | Some ch =>
          k ← get_tracker ch;
          match k_task k with
          | None =>
              mod_task task (set_x 10 (k_key k));;
              remove_tracker_locked ch;;
              mret WaitResult.completed
          | Some _ =>
              mod_tracker tracker (<| k_wait := mkWaitInfo true tid 0 0 |>);;
              mod_task task (<| t_state := TaskState.blocked_join |>);;
              mod_task task (<| t_state_info := u64 tid |>);;
              scheduler_of task;;
              _ ← set_next_runnable;
              mret WaitResult.blocked
          end
      end).

Definition detach_task (task : nat) : K bool :=
  c ← get_current_task;
  if bool_decide (c <> Some task) then park
  else
    with_lock LTaskManager (
      t ← get_task task;
      if bool_decide (t_state t = TaskState.ended) then mret false
      else mod_task task (<| t_detached := true |>);; mret true).

Definition set_initial_task (task : nat) : K unit :=
  t ← get_task task; modify (<| initial_task_id := t_tid t |>).
