(* ===== verification/Trackers.v ===== *)
(** * The tracker forest

    The trackers of [microkernel/core/task_manager.cpp] form a forest: every
    tracker in use is in exactly one sibling list, that of its parent or the
    root list, threaded through [previous_sibling]/[next_sibling] from
    [first_child] or [root_tasks_].  [forest] states this against an abstract
    map from parents to their lists of children, and the file shows what
    linking, unlinking, searching and removing do to that map. *)
From Stdlib Require Import ZArith Lia.
From stdpp Require Import base tactics sets functions gmap list.
From S2P Require Import Prelude DList KernelTypes KernelInv TaskManager.
Local Open Scope Z_scope.

(** ** Representation *)

Definition sibling_links (ks : list TaskTracker) : links :=
  fun i => (fun k => (k_previous_sibling k, k_next_sibling k)) <$> ks !! i.

(** The head pointer of the list of children of [p]. *)
Definition kids_head (ks : list TaskTracker) (root : option nat) (p : option nat) : option (option nat) :=
  match p with None => Some root | Some x => k_first_child <$> ks !! x end.

Abbreviation family := (option nat -> list nat).

(** [X] holds the trackers in use that are in no list at the moment. *)
Record forest (ks : list TaskTracker) (root : option nat) (used : list bool) (F : family) (X : gset nat) : Prop := {
  fo_len : length ks = kMaxTasks;
  fo_used_len : length used = kMaxTasks;
  fo_list : forall p hd, kids_head ks root p = Some hd -> dlist (sibling_links ks) hd (last (F p)) (F p);
  fo_nodup : forall p, NoDup (F p);
  fo_parent : forall p c, c ∈ F p -> k_parent <$> ks !! c = Some p;
  fo_member : forall c, (exists p, c ∈ F p) <-> used !! c = Some true /\ c ∉ X;
  fo_dom : forall x, F (Some x) <> [] -> used !! x = Some true;
}.

(** A tracker without its place in the forest. *)
Definition entry (k : TaskTracker) : TaskTracker :=
  k <| k_parent := None |> <| k_first_child := None |> <| k_previous_sibling := None |> <| k_next_sibling := None |>.

Lemma entry_inv k k' : entry k' = entry k ->
  k_key k' = k_key k /\ k_task k' = k_task k /\ k_status k' = k_status k /\ k_wait k' = k_wait k.
Proof. unfold entry. simpl. intros H. injection H as. done. Qed.

Section facts.
Context {ks : list TaskTracker} {root : option nat} {used : list bool} {F : family} {X : gset nat}.
Context (HF : forest ks root used F X).

Lemma forest_tracker x : used !! x = Some true -> exists k, ks !! x = Some k.
Proof.
  intros Hx. apply lookup_lt_Some in Hx. rewrite (fo_used_len _ _ _ _ _ HF), <- (fo_len _ _ _ _ _ HF) in Hx.
  by apply lookup_lt_is_Some in Hx.
Qed.

Lemma forest_disjoint p q c : c ∈ F p -> c ∈ F q -> p = q.
Proof.
  intros H1%(fo_parent _ _ _ _ _ HF) H2%(fo_parent _ _ _ _ _ HF). congruence.
Qed.

Lemma forest_outside x p : x ∈ X -> x ∉ F p.
Proof. intros Hx Hp. assert (exists p, x ∈ F p) as [_ Hn]%(fo_member _ _ _ _ _ HF) by (by exists p). done. Qed.

Lemma forest_in p c : c ∈ F p -> used !! c = Some true.
Proof. intros Hc. by apply (fo_member _ _ _ _ _ HF c); exists p. Qed.

Lemma forest_head p : (forall x, p = Some x -> used !! x = Some true) -> kids_head ks root p = Some (head (F p)).
Proof.
  intros Hp. assert (is_Some (kids_head ks root p)) as [hd Hhd].
  { destruct p as [x|]; [|by eexists]. destruct (forest_tracker x (Hp x eq_refl)) as [k Hk]. simpl. rewrite Hk. by eexists. }
  rewrite Hhd. f_equal. by destruct (fo_list _ _ _ _ _ HF p hd Hhd) as (->&_).
Qed.

Lemma forest_kids x k : ks !! x = Some k -> k_first_child k = head (F (Some x)).
Proof. intros Hk. by destruct (fo_list _ _ _ _ _ HF (Some x) (k_first_child k)) as (->&_); [simpl; by rewrite Hk|]. Qed.

(** A member of a list and its neighbours. *)
Lemma forest_split p l1 c l2 k :
  F p = l1 ++ c :: l2 -> ks !! c = Some k ->
  k_parent k = p /\ k_previous_sibling k = last l1 /\ k_next_sibling k = head l2.
Proof.
  intros E Hk. assert (c ∈ F p) as Hc by (rewrite E; set_solver).
  pose proof (fo_parent _ _ _ _ _ HF p c Hc) as Hp. rewrite Hk in Hp. injection Hp as <-. split; [done|].
  destruct (fo_list _ _ _ _ _ HF (k_parent k) (head (F (k_parent k)))) as (_&_&Hch).
  { apply forest_head. intros x Ex. apply (fo_dom _ _ _ _ _ HF). rewrite <- Ex, E. by destruct l1. }
  rewrite E in Hch. apply chain_lookup in Hch. unfold sibling_links in Hch. rewrite Hk in Hch. simpl in Hch.
  injection Hch as -> ->. unfold last_or, head_or. split; [by destruct (last l1)|by destruct (head l2)].
Qed.
End facts.

(** ** The two surgeries, on tables *)

(** What linking [x] in front of the children [hd] of [p] leaves at [j]. *)
Definition linked (x : nat) (p hd : option nat) (j : nat) (k : TaskTracker) : TaskTracker :=
  let k1 := if decide (j = x) then k <| k_parent := p |> <| k_previous_sibling := None |> <| k_next_sibling := hd |> else k in
  let k2 := if decide (hd = Some j) then k1 <| k_previous_sibling := Some x |> else k1 in
  if decide (p = Some j) then k2 <| k_first_child := Some x |> else k2.

Lemma forest_link ks ks' root used F X x p :
  forest ks root used F X -> x ∈ X -> used !! x = Some true -> (forall y, p = Some y -> used !! y = Some true) ->
  length ks' = length ks -> (forall j, ks' !! j = linked x p (head (F p)) j <$> ks !! j) ->
  forest ks' (if p then root else Some x) used (<[p := x :: F p]> F) (X ∖ {[x]}) /\
  (forall j, entry <$> ks' !! j = entry <$> ks !! j).
Proof.
  intros HF Hx Hus Hp Hlen Hks.
  assert (forall q, x ∉ F q) as Hnx by (intros q; by apply (forest_outside HF)).
  assert (forall y, head (F p) = Some y -> y ∈ F p) as Hhd by (intros y; apply head_elem).
  assert (head (F p) <> Some x) as Hhx by (intros E; by apply (Hnx p), Hhd).
  split.
  2: { intros j. rewrite Hks. destruct (ks !! j) as [k|]; [|done]. simpl. f_equal. unfold linked. by repeat case_decide. }
  assert (forall j, j <> x -> head (F p) <> Some j -> sibling_links ks' j = sibling_links ks j) as Hsame.
  { intros j Hjx Hjh. unfold sibling_links. rewrite Hks. destruct (ks !! j) as [k|]; [|done]. simpl. unfold linked.
    rewrite (decide_False (P := j = x)), (decide_False (P := head (F p) = Some j)) by done. by case_decide. }
  split.
  - rewrite Hlen. apply HF.
  - apply HF.
  - intros q hd Hq. destruct (decide (q = p)) as [->|Hne].
    + rewrite fn_lookup_insert. assert (hd = Some x) as ->.
      { destruct p as [y|]; [|by injection Hq as <-]. simpl in Hq. rewrite Hks in Hq.
        destruct (ks !! y); [|done]. simpl in Hq. injection Hq as <-. unfold linked. by rewrite (decide_True (P := Some y = Some y)). }
      assert (dlist (sibling_links ks) (head (F p)) (last (F p)) (F p)) as Hd
        by (apply (fo_list _ _ _ _ _ HF), (forest_head HF); done).
      assert (last (x :: F p) = (if F p then Some x else last (F p))) as -> by (by destruct (F p)).
      apply (dlist_insert (sibling_links ks) (sibling_links ks') (head (F p)) (last (F p)) [] (F p) x).
      * apply HF.
      * done.
      * unfold sibling_links. rewrite Hks. destruct (forest_tracker HF x Hus) as [k Hk]. rewrite Hk. simpl. f_equal.
        unfold linked. rewrite (decide_True (P := x = x)), (decide_False (P := head (F p) = Some x)) by done. by case_decide.
      * intros y Hy. by apply elem_of_nil in Hy.
      * intros y Hy. assert (y <> x) as Hyx by (intros ->; by apply (Hnx p)).
        case_decide as Hh; [|rewrite Hsame by done; by rewrite option_fmap_id].
        unfold sibling_links. rewrite Hks. destruct (ks !! y) as [k|]; [|done]. simpl. f_equal. unfold linked.
        rewrite (decide_False (P := y = x)), (decide_True (P := head (F p) = Some y)) by done. by case_decide.
    + rewrite fn_lookup_insert_ne by done.
      assert (kids_head ks root q = Some hd) as Hq0.
      { destruct q as [y|]; simpl in *; [|by destruct p]. rewrite Hks in Hq. destruct (ks !! y) as [k|]; [|done].
        simpl in *. rewrite <- Hq. f_equal. unfold linked. rewrite (decide_False (P := p = Some y)) by congruence.
        by repeat case_decide. }
      eapply dlist_agree; [|by apply (fo_list _ _ _ _ _ HF)]. intros j Hj. apply Hsame.
      * intros ->. by apply (Hnx q).
      * intros E%Hhd. apply Hne. by apply (forest_disjoint HF q p j).
  - intros q. destruct (decide (q = p)) as [->|Hne].
    + rewrite fn_lookup_insert. constructor; [apply Hnx|apply HF].
    + rewrite fn_lookup_insert_ne by done. apply HF.
  - intros q c Hc. rewrite Hks.
    assert ((c = x /\ q = p) \/ (c <> x /\ c ∈ F q)) as [[-> ->]|[Hcx Hcq]].
    { destruct (decide (q = p)) as [->|Hne]; [rewrite fn_lookup_insert in Hc|rewrite fn_lookup_insert_ne in Hc by done].
      - apply elem_of_cons in Hc as [->|Hc]; [by left|]. right. split; [|done]. intros ->. by apply (Hnx p).
      - right. split; [|done]. intros ->. by apply (Hnx q). }
    + destruct (forest_tracker HF x Hus) as [k Hk]. rewrite Hk. simpl. f_equal. unfold linked.
      rewrite (decide_True (P := x = x)) by done. by repeat case_decide.
    + rewrite <- (fo_parent _ _ _ _ _ HF q c Hcq). destruct (ks !! c) as [k|]; [|done]. simpl. f_equal.
      unfold linked. rewrite (decide_False (P := c = x)) by done. by repeat case_decide.
  - intros c. destruct (decide (c = x)) as [->|Hcx].
    + split; [intros _; split; [done|set_solver]|]. intros _. exists p. rewrite fn_lookup_insert. set_solver.
    + trans (exists q, c ∈ F q); [|rewrite (fo_member _ _ _ _ _ HF); set_solver].
      split; intros [q Hq]; exists q; (destruct (decide (q = p)) as [->|Hne];
        [rewrite fn_lookup_insert in *|rewrite fn_lookup_insert_ne in * by done]); set_solver.
  - intros y. destruct (decide (Some y = p)) as [<-|Hne]; [intros _; by apply Hp|].
    rewrite fn_lookup_insert_ne by done. apply HF.
Qed.

(** What unlinking [x], between [pv] and [nx] among the children of [p],
    leaves at [j]. *)
Definition unlinked_at (x : nat) (p pv nx : option nat) (j : nat) (k : TaskTracker) : TaskTracker :=
  let k1 := match pv with
            | Some q => if decide (j = q) then k <| k_next_sibling := nx |> else k
            | None => if decide (p = Some j) then k <| k_first_child := nx |> else k
            end in
  let k2 := if decide (nx = Some j) then k1 <| k_previous_sibling := pv |> else k1 in
  if decide (j = x) then k2 <| k_previous_sibling := None |> <| k_next_sibling := None |> else k2.

Lemma forest_unlink ks ks' root root' used F X x p l1 l2 :
  forest ks root used F X -> F p = l1 ++ x :: l2 ->
  length ks' = length ks -> (forall j, ks' !! j = unlinked_at x p (last l1) (head l2) j <$> ks !! j) ->
  root' = match last l1, p with None, None => head l2 | _, _ => root end ->
  forest ks' root' used (<[p := l1 ++ l2]> F) ({[x]} ∪ X) /\
  (forall j, entry <$> ks' !! j = entry <$> ks !! j) /\ (forall j, k_parent <$> ks' !! j = k_parent <$> ks !! j).
Proof.
  intros HF HFp Hlen Hks ->.
  assert (x ∈ F p) as Hx by (rewrite HFp; set_solver).
  pose proof (fo_nodup _ _ _ _ _ HF p) as Hnd. rewrite HFp in Hnd.
  assert (NoDup (l1 ++ l2) /\ x ∉ l1 ++ l2) as [Hnd' Hxl].
  { rewrite <- Permutation_middle in Hnd. by apply NoDup_cons in Hnd as [? ?]. }
  assert (forall y, last l1 = Some y -> y ∈ l1) as Hlast by (intros y; apply last_elem).
  assert (forall y, head l2 = Some y -> y ∈ l2) as Hhead by (intros y; apply head_elem).
  assert (forall q j, q <> p -> j ∈ F q -> j ∉ F p) as Hdis by (intros q j Hne H1 H2; apply Hne; by eapply (forest_disjoint HF)).
  split_and!.
  2: { intros j. rewrite Hks. destruct (ks !! j) as [k|]; [|done]. simpl. f_equal. unfold unlinked_at.
       destruct (last l1); by repeat case_decide. }
  2: { intros j. rewrite Hks. destruct (ks !! j) as [k|]; [|done]. simpl. f_equal. unfold unlinked_at.
       destruct (last l1); by repeat case_decide. }
  assert (forall j, j ∉ F p -> sibling_links ks' j = sibling_links ks j) as Hout.
  { intros j Hj. rewrite HFp in Hj. unfold sibling_links. rewrite Hks. destruct (ks !! j) as [k|]; [|done]. simpl. unfold unlinked_at.
    rewrite (decide_False (P := j = x)), (decide_False (P := head l2 = Some j)).
    - destruct (last l1) as [q|] eqn:E; [|by case_decide]. rewrite decide_False; [done|]. intros ->. specialize (Hlast q eq_refl). set_solver.
    - intros E%Hhead. set_solver.
    - set_solver. }
  split.
  - rewrite Hlen. apply HF.
  - apply HF.
  - intros q hd Hq. destruct (decide (q = p)) as [->|Hne].
    + rewrite fn_lookup_insert.
      assert (dlist (sibling_links ks) (head (F p)) (last (F p)) (F p)) as Hd.
      { apply (fo_list _ _ _ _ _ HF), (forest_head HF). intros y ->. apply (fo_dom _ _ _ _ _ HF). rewrite HFp. by destruct l1. }
      assert (hd = (if l1 then head l2 else head (F p))) as ->.
      { assert (kids_head ks root p = Some (head (F p))) as H0.
        { apply (forest_head HF). intros y ->. apply (fo_dom _ _ _ _ _ HF). rewrite HFp. by destruct l1. }
        destruct p as [y|]; simpl in *.
        - rewrite Hks in Hq. destruct (ks !! y) as [k|] eqn:Ek; [|done]. simpl in *. injection Hq as <-. injection H0 as H0.
          unfold unlinked_at. destruct l1 as [|z l1].
          + cbn [last]. rewrite (decide_True (P := Some y = Some y)) by done. by repeat case_decide.
          + rewrite last_cons, <- H0. by destruct (last l1); repeat case_decide.
        - injection H0 as ->. injection Hq as <-. destruct l1 as [|z l1]; [done|]. rewrite last_cons. by destruct (last l1). }
      assert (last (l1 ++ l2) = (if l2 then last l1 else last (F p))) as ->.
      { rewrite HFp. destruct l2; [by rewrite app_nil_r|]. by rewrite !last_app_cons, last_cons_cons. }
      rewrite HFp in *. apply (dlist_remove (sibling_links ks) _ _ _ l1 x l2); try done.
      * intros y Hy. assert (y <> x) as Hyx by set_solver. assert (head l2 <> Some y) as Hyh.
        { intros E%Hhead. apply NoDup_app in Hnd' as (_&Hd'&_). by apply (Hd' y). }
        unfold sibling_links. rewrite Hks. destruct (ks !! y) as [k|]; [|by case_decide]. simpl. unfold unlinked_at.
        rewrite (decide_False (P := y = x)), (decide_False (P := head l2 = Some y)) by done.
        destruct (last l1) as [q|] eqn:E; [|by apply last_None in E as ->; apply elem_of_nil in Hy].
        repeat case_decide; simplify_eq; done.
      * intros y Hy. assert (y <> x) as Hyx by set_solver. assert (last l1 <> Some y) as Hyh.
        { intros E%Hlast. apply NoDup_app in Hnd' as (_&Hd'&_). by apply (Hd' y). }
        unfold sibling_links. rewrite Hks. destruct (ks !! y) as [k|]; [|by case_decide]. simpl. unfold unlinked_at.
        rewrite (decide_False (P := y = x)) by done.
        destruct (last l1) as [q|]; repeat case_decide; simplify_eq; done.
    + rewrite fn_lookup_insert_ne by done.
      assert (kids_head ks root q = Some hd) as Hq0.
      { destruct q as [y|]; simpl in *.
        - rewrite Hks in Hq. destruct (ks !! y) as [k|]; [|done]. simpl in *. rewrite <- Hq. f_equal. unfold unlinked_at.
          destruct (last l1); repeat case_decide; simplify_eq; done.
        - rewrite <- Hq. f_equal. destruct (last l1); [done|]. by destruct p. }
      eapply dlist_agree; [|by apply (fo_list _ _ _ _ _ HF)]. intros j Hj. apply Hout. by eapply Hdis.
  - intros q. destruct (decide (q = p)) as [->|Hne]; [by rewrite fn_lookup_insert|]. rewrite fn_lookup_insert_ne by done. apply HF.
  - intros q c Hc. assert (c ∈ F q) as Hcq.
    { destruct (decide (q = p)) as [->|Hne]; [rewrite fn_lookup_insert in Hc; rewrite HFp; set_solver|].
      by rewrite fn_lookup_insert_ne in Hc. }
    rewrite <- (fo_parent _ _ _ _ _ HF q c Hcq), Hks. destruct (ks !! c) as [k|]; [|done]. simpl. f_equal.
    unfold unlinked_at. destruct (last l1); by repeat case_decide.
  - intros c. destruct (decide (c = x)) as [->|Hcx].
    + split; [|set_solver]. intros [q Hq]. exfalso. destruct (decide (q = p)) as [->|Hne].
      * by rewrite fn_lookup_insert in Hq.
      * rewrite fn_lookup_insert_ne in Hq by done. by apply (Hdis q x).
    + trans (exists q, c ∈ F q); [|rewrite (fo_member _ _ _ _ _ HF); set_solver].
      split; intros [q Hq]; exists q; (destruct (decide (q = p)) as [->|Hne];
        [rewrite fn_lookup_insert in *; rewrite HFp in *|rewrite fn_lookup_insert_ne in * by done]); set_solver.
  - intros y. destruct (decide (Some y = p)) as [<-|Hne]; [|rewrite fn_lookup_insert_ne by done; apply HF].
    intros _. apply (fo_dom _ _ _ _ _ HF). rewrite HFp. by destruct l1.
Qed.

(** Freeing a tracker that is in no list and has no children. *)
Lemma forest_release ks root used F X x :
  forest ks root used F X -> x ∈ X -> F (Some x) = [] ->
  forest (<[x := zero_tracker]> ks) root (<[x := false]> used) F (X ∖ {[x]}).
Proof.
  intros HF Hx HFx.
  assert (forall p c, c ∈ F p -> c <> x) as Hne by (intros p c Hc ->; by apply (forest_outside HF x p)).
  assert (forall j, j <> x -> <[x := zero_tracker]> ks !! j = ks !! j) as Hks by (intros j Hj; by rewrite list_lookup_insert_ne).
  split.
  - rewrite length_insert. apply HF.
  - rewrite length_insert. apply HF.
  - intros p hd Hp. destruct (decide (p = Some x)) as [->|Hpx].
    + rewrite HFx. simpl in Hp. destruct (decide (x < length ks)%nat) as [Hlt|Hge].
      * rewrite list_lookup_insert_eq in Hp by done. injection Hp as <-. apply dlist_nil.
      * rewrite list_insert_ge in Hp by lia. destruct (ks !! x) as [k|] eqn:Ek; [|done]. apply lookup_lt_Some in Ek. lia.
    + assert (kids_head ks root p = Some hd) as Hp0 by (destruct p as [y|]; [simpl in *; by rewrite Hks in Hp by congruence|done]).
      eapply dlist_agree; [|by apply (fo_list _ _ _ _ _ HF)]. intros j Hj. unfold sibling_links. rewrite Hks; [done|by eapply Hne].
  - apply HF.
  - intros p c Hc. rewrite Hks by (by eapply Hne). by apply HF.
  - intros c. rewrite (fo_member _ _ _ _ _ HF). destruct (decide (c = x)) as [->|Hcx].
    + split; [set_solver|]. intros [Hf _]. rewrite list_lookup_insert in Hf. case_decide as Hd; [done|]. apply lookup_lt_Some in Hf. by destruct Hd.
    + rewrite list_lookup_insert_ne by done. set_solver.
  - intros y Hy. rewrite list_lookup_insert_ne by (intros ->; by rewrite HFx in Hy). by apply (fo_dom _ _ _ _ _ HF).
Qed.

(** Taking a free slot. *)
Lemma forest_allocate ks root used F X x k :
  forest ks root used F X -> used !! x = Some false -> k_first_child k = None ->
  forest (<[x := k]> ks) root (<[x := true]> used) F ({[x]} ∪ X).
Proof.
  intros HF Hu Hk. pose proof (lookup_lt_Some _ _ _ Hu) as Hlt. rewrite (fo_used_len _ _ _ _ _ HF) in Hlt.
  assert (forall p c, c ∈ F p -> c <> x) as Hne.
  { intros p c Hc ->. apply (forest_in HF) in Hc. congruence. }
  assert (F (Some x) = []) as HFx.
  { destruct (decide (F (Some x) = [])) as [|Hn]; [done|]. apply (fo_dom _ _ _ _ _ HF) in Hn. congruence. }
  split.
  - rewrite length_insert. apply HF.
  - rewrite length_insert. apply HF.
  - intros p hd Hp. destruct (decide (p = Some x)) as [->|Hpx].
    + rewrite HFx. simpl in Hp. rewrite list_lookup_insert_eq in Hp by (rewrite (fo_len _ _ _ _ _ HF); done).
      injection Hp as <-. rewrite Hk. apply dlist_nil.
    + assert (kids_head ks root p = Some hd) as Hp0.
      { destruct p as [y|]; [simpl in *; by rewrite list_lookup_insert_ne in Hp by congruence|done]. }
      eapply dlist_agree; [|by apply (fo_list _ _ _ _ _ HF)]. intros j Hj. unfold sibling_links.
      rewrite list_lookup_insert_ne; [done|]. intros ->. by eapply (Hne p).
  - apply HF.
  - intros p c Hc. rewrite list_lookup_insert_ne by (intros ->; by eapply (Hne p)). by apply HF.
  - intros c. rewrite (fo_member _ _ _ _ _ HF). destruct (decide (c = x)) as [->|Hcx].
    + split; [intros []; congruence|set_solver].
    + rewrite list_lookup_insert_ne by done. set_solver.
  - intros y Hy. apply (fo_dom _ _ _ _ _ HF) in Hy. rewrite list_lookup_insert_ne; [done|]. congruence.
Qed.

(** Changes outside the links. *)
Lemma forest_entry ks root used F X x f :
  forest ks root used F X ->
  (forall k, k_parent (f k) = k_parent k /\ k_first_child (f k) = k_first_child k /\
     k_previous_sibling (f k) = k_previous_sibling k /\ k_next_sibling (f k) = k_next_sibling k) ->
  forest (alter f x ks) root used F X.
Proof.
  intros HF Hf.
  assert (forall j, sibling_links (alter f x ks) j = sibling_links ks j) as Hl.
  { intros j. unfold sibling_links. rewrite lookup_alter_if. destruct (ks !! j) as [k|]; [|done]. simpl.
    case_decide; [|done]. destruct (Hf k) as (_&_&->&->). done. }
  destruct HF as [H1 H2 H3 H4 H5 H6 H7]. split; auto.
  - by rewrite length_alter.
  - intros p hd Hp. eapply dlist_agree; [intros; apply Hl|]. apply H3. destruct p as [y|]; [|done]. simpl in *.
    rewrite lookup_alter_if in Hp. destruct (ks !! y) as [k|]; [|done]. simpl in *. case_decide; [|done].
    by destruct (Hf k) as (_&<-&_).
  - intros p c Hc. rewrite lookup_alter_if. specialize (H5 p c Hc). destruct (ks !! c) as [k|]; [|done]. simpl in *.
    case_decide; [|done]. by destruct (Hf k) as (->&_).
Qed.

(** ** The operations *)

Lemma wp_get_tracker pk e i k (Q : TaskTracker -> KState -> Prop) s :
  trackers s !! i = Some k -> Q k s -> wp pk (get_tracker i) Q e s.
Proof. intros Hk HQ. unfold get_tracker. wp_steps. done. Qed.
Lemma wp_mod_tracker pk e i f (Q : unit -> KState -> Prop) s :
  is_Some (trackers s !! i) -> Q tt (set_field trackers (alter f i) s) -> wp pk (mod_tracker i f) Q e s.
Proof. intros [k Hk] HQ. unfold mod_tracker. apply wp_bind. by apply (wp_get_tracker _ _ i k). Qed.

(** [s] with another tracker table; everything else is untouched. *)
Definition with_forest (ks : list TaskTracker) (root : option nat) (used : list bool) (s : KState) : KState :=
  s <| trackers := ks |> <| root_tasks := root |> <| tracker_slots_used := used |>.

Abbreviation tree s := (forest (trackers s) (root_tasks s) (tracker_slots_used s)).

(** Links alone changed. *)
Definition relinked (ks ks' : list TaskTracker) : Prop := forall j, entry <$> ks' !! j = entry <$> ks !! j.

Lemma relinked_trans ks1 ks2 ks3 : relinked ks1 ks2 -> relinked ks2 ks3 -> relinked ks1 ks3.
Proof. intros H1 H2 j. by rewrite H2, H1. Qed.

Ltac tside := rproj; rewrite ?lookup_alter_is_Some; eauto.
Ltac tstep :=
  lazymatch goal with
  | |- wp _ (mod_tracker _ _) _ _ _ => apply wp_mod_tracker; [by tside|]
  | |- wp _ (get_tracker _) _ _ _ => eapply wp_get_tracker; [rproj; eassumption|]
  | |- _ => wp_step
  end.
Ltac tsteps := repeat (tstep; cbv beta).

(** The first of [l] whose tracker satisfies the test. *)
Fixpoint first_such (ks : list TaskTracker) (test : TaskTracker -> bool) (l : list nat) : option nat :=
  match l with
  | [] => None
  | c :: l' => match ks !! c with
               | Some k => if test k then Some c else first_such ks test l'
               | None => None
               end
  end.

Lemma first_such_elem ks test l c : first_such ks test l = Some c -> c ∈ l /\ exists k, ks !! c = Some k /\ test k = true.
Proof.
  induction l as [|d l IH]; [done|]. cbn [first_such]. destruct (ks !! d) as [k|] eqn:Ek; [|done].
  destruct (test k) eqn:Et; [|set_solver]. intros [= <-]. split; [set_solver|by exists k].
Qed.

Lemma family_length ks root used F X p : forest ks root used F X -> (length (F p) < S kMaxTasks)%nat.
Proof.
  intros HF. assert (length (F p) <= kMaxTasks)%nat; [|lia]. apply NoDup_bounded_length; [apply HF|].
  intros x Hx%(forest_in HF)%lookup_lt_Some. by rewrite (fo_used_len _ _ _ _ _ HF) in Hx.
Qed.

Section operations.
Context (pk : Prop) (e : Env).

Lemma link_tracker_spec x p F X (Q : unit -> KState -> Prop) s :
  tree s F X -> x ∈ X -> tracker_slots_used s !! x = Some true ->
  (forall y, p = Some y -> tracker_slots_used s !! y = Some true) ->
  (forall ks' root', forest ks' root' (tracker_slots_used s) (<[p := x :: F p]> F) (X ∖ {[x]}) ->
     relinked (trackers s) ks' -> Q tt (with_forest ks' root' (tracker_slots_used s) s)) ->
  wp pk (link_tracker_locked x p) Q e s.
Proof.
  intros HF Hx Hus Hp HQ. destruct (forest_tracker HF x Hus) as [k Hk].
  assert (forall y, head (F p) = Some y -> y <> x /\ is_Some (trackers s !! y)) as Hh.
  { intros y Hy%head_elem. split; [intros ->; by apply (forest_outside HF x p)|].
    destruct (forest_tracker HF y) as [ky Hky]; [by eapply (forest_in HF)|]. by exists ky. }
  unfold link_tracker_locked. tsteps.
  assert (forall s1, (forall j, k_first_child <$> trackers s1 !! j = k_first_child <$> trackers s !! j) -> root_tasks s1 = root_tasks s ->
    forall Q', Q' (head (F p)) s1 -> wp pk (get_children_head p) Q' e s1) as Hget.
  { intros s1 E1 E2 Q' HQ'. pose proof (forest_head HF p Hp) as Ehd. destruct p as [y|]; simpl in *.
    - rewrite <- E1 in Ehd. destruct (trackers s1 !! y) as [ky|] eqn:Ey; [|done]. injection Ehd as Ehd.
      tsteps. by rewrite Ehd.
    - apply wp_gets. rewrite E2. by injection Ehd as ->. }
  apply Hget; [|done|].
  { intros j. rproj. rewrite !lookup_alter_if. destruct (trackers s !! j); [|done]. simpl. by case_decide. }
  tsteps.
  assert (forall s2, trackers s2 = trackers (set_field trackers (alter (<| k_next_sibling := head (F p) |>) x)
      (set_field trackers (alter (<| k_previous_sibling := None |>) x) (set_field trackers (alter (<| k_parent := p |>) x) s))) ->
    s2 = with_forest (trackers s2) (root_tasks s) (tracker_slots_used s) s ->
    wp pk (match head (F p) with Some h => mod_tracker h (<| k_previous_sibling := Some x |>) | None => mret tt end)
      (fun _ s3 => wp pk (set_children_head p (Some x)) Q e s3) e s2) as Htail; [|by apply Htail].
  intros s2 E2 Es2. rproj_in E2.
  set (ks3 := match head (F p) with Some h => alter (<| k_previous_sibling := Some x |>) h (trackers s2) | None => trackers s2 end).
  assert (wp pk (set_children_head p (Some x)) Q e (s2 <| trackers := ks3 |>)) as Hlast.
  { set (ks4 := match p with Some y => alter (<| k_first_child := Some x |>) y ks3 | None => ks3 end).
    destruct (forest_link (trackers s) ks4 (root_tasks s) (tracker_slots_used s) F X x p) as [HF' Hen]; try done.
    { unfold ks4, ks3. rewrite E2. destruct p, (head _); by rewrite ?length_alter. }
    { intros j. unfold ks4, ks3. rewrite E2. unfold linked.
      destruct p as [y|], (head _) as [h|] eqn:Eh; rewrite !lookup_alter_if; destruct (trackers s !! j) as [kj|]; try done; simpl; f_equal;
        repeat case_decide; simplify_eq; try done; by destruct (Hh x). }
    specialize (HQ ks4 _ HF' Hen). destruct p as [y|]; cbn [set_children_head].
    - apply wp_mod_tracker; [|by rewrite Es2 in *]. rproj. destruct (forest_tracker HF y (Hp y eq_refl)) as [ky Hky].
      unfold ks3. rewrite E2. destruct (head _); rewrite ?lookup_alter_is_Some; by exists ky.
    - apply wp_modify. by rewrite Es2 in *. }
  destruct (head (F p)) as [h|] eqn:Eh; simpl.
  - apply wp_mod_tracker; [|done]. destruct (Hh h eq_refl) as [_ Hs]. rewrite E2, !lookup_alter_is_Some. done.
  - apply wp_ret. unfold ks3 in Hlast. by destruct s2.
Qed.

Lemma unlink_tracker_spec x p l1 l2 F X (Q : unit -> KState -> Prop) s :
  tree s F X -> F p = l1 ++ x :: l2 ->
  (forall ks' root', forest ks' root' (tracker_slots_used s) (<[p := l1 ++ l2]> F) ({[x]} ∪ X) ->
     relinked (trackers s) ks' -> (forall j, k_parent <$> ks' !! j = k_parent <$> trackers s !! j) ->
     Q tt (with_forest ks' root' (tracker_slots_used s) s)) ->
  wp pk (unlink_tracker_locked x) Q e s.
Proof.
  intros HF HFp HQ. assert (x ∈ F p) as Hx by (rewrite HFp; set_solver).
  destruct (forest_tracker HF x) as [k Hk]; [by eapply (forest_in HF)|].
  destruct (forest_split HF p l1 x l2 k HFp Hk) as (Ep&Epv&Enx).
  assert (forall y, y ∈ l1 \/ y ∈ l2 -> is_Some (trackers s !! y)) as Hin.
  { intros y Hy. destruct (forest_tracker HF y) as [ky Hky]; [|by exists ky]. eapply (forest_in HF p). rewrite HFp. set_solver. }
  unfold unlink_tracker_locked. tsteps. rewrite Ep, Epv, Enx.
  set (ks1 := match last l1, p with
              | Some q, _ => alter (<| k_next_sibling := head l2 |>) q (trackers s)
              | None, Some y => alter (<| k_first_child := head l2 |>) y (trackers s)
              | None, None => trackers s
              end).
  set (root' := match last l1, p with None, None => head l2 | _, _ => root_tasks s end).
  set (s1 := with_forest ks1 root' (tracker_slots_used s) s).
  assert (forall j, is_Some (ks1 !! j) <-> is_Some (trackers s !! j)) as Hs1.
  { intros j. unfold ks1. destruct (last l1), p; by rewrite ?lookup_alter_is_Some. }
  assert (wp pk (match last l1 with
                 | Some p0 => mod_tracker p0 (<| k_next_sibling := head l2 |>)
                 | None => set_children_head p (head l2)
                 end) (fun _ s' => s' = s1) e s) as Hfirst.
  { unfold s1, ks1, root'. destruct (last l1) as [q|] eqn:El.
    - apply wp_mod_tracker; [|by destruct s]. apply Hin. left. by apply last_elem.
    - destruct p as [y|]; simpl; [|apply wp_modify; by destruct s].
      apply wp_mod_tracker; [|by destruct s]. destruct (forest_tracker HF y) as [ky Hky]; [|by exists ky].
      apply (fo_dom _ _ _ _ _ HF). rewrite HFp. by destruct l1. }
  eapply wp_mono; [exact Hfirst|done|]. intros _ s' ->. apply wp_bind.
  set (ks2 := match head l2 with Some n => alter (<| k_previous_sibling := last l1 |>) n ks1 | None => ks1 end).
  assert (wp pk (match head l2 with
                 | Some n => mod_tracker n (<| k_previous_sibling := last l1 |>)
                 | None => mret tt
                 end) (fun _ s' => s' = with_forest ks2 root' (tracker_slots_used s) s) e s1) as Hsecond.
  { unfold ks2. destruct (head l2) as [n|] eqn:Eh; [|by apply wp_ret].
    apply wp_mod_tracker; [|done]. apply Hs1, Hin. right. by apply head_elem. }
  eapply wp_mono; [exact Hsecond|done|]. intros _ s' ->.
  assert (is_Some (ks2 !! x)) as Hx2.
  { unfold ks2. destruct (head l2); rewrite ?lookup_alter_is_Some; apply Hs1; by exists k. }
  apply wp_bind, wp_mod_tracker; [done|]. apply wp_mod_tracker; [rproj; by rewrite lookup_alter_is_Some|].
  destruct (forest_unlink (trackers s) (alter (<| k_next_sibling := None |>) x (alter (<| k_previous_sibling := None |>) x ks2))
    (root_tasks s) root' (tracker_slots_used s) F X x p l1 l2) as (HF'&Hen&Hpa); try done.
  { rewrite !length_alter. unfold ks2, ks1. destruct (head l2), (last l1), p; by rewrite ?length_alter. }
  { intros j. rewrite !lookup_alter_if. unfold ks2, ks1, unlinked_at.
    destruct (head l2) as [n|] eqn:Eh, (last l1) as [q|] eqn:El, p as [y|];
      rewrite ?lookup_alter_if; destruct (trackers s !! j) as [kj|]; try done; simpl; f_equal; repeat case_decide; simplify_eq; try done. }
  exact (HQ _ _ HF' Hen Hpa).
Qed.

Lemma release_tracker_spec x F X (Q : unit -> KState -> Prop) s :
  tree s F X -> x ∈ X -> tracker_slots_used s !! x = Some true -> F (Some x) = [] ->
  (forest (<[x := zero_tracker]> (trackers s)) (root_tasks s) (<[x := false]> (tracker_slots_used s)) F (X ∖ {[x]}) ->
     Q tt (with_forest (<[x := zero_tracker]> (trackers s)) (root_tasks s) (<[x := false]> (tracker_slots_used s)) s)) ->
  wp pk (release_tracker_locked x) Q e s.
Proof.
  intros HF Hx Hus HFx HQ. destruct (forest_tracker HF x Hus) as [k Hk]. unfold release_tracker_locked.
  pose proof (lookup_lt_Some _ _ _ Hk) as Hlt. rewrite (fo_len _ _ _ _ _ HF) in Hlt.
  rewrite (proj2 (Nat.leb_gt _ _)) by done. tsteps.
  rewrite <- (alter_insert (fun _ => zero_tracker) x _ k Hk) in HQ. apply HQ.
  rewrite (alter_insert _ x _ k Hk). by apply forest_release.
Qed.

(** The search returns the first sibling that satisfies the test. *)
Lemma find_sibling_spec fuel test l1 l2 F X p (Q : option nat -> KState -> Prop) s :
  tree s F X -> F p = l1 ++ l2 -> (length l2 < fuel)%nat -> Q (first_such (trackers s) test l2) s ->
  wp pk (find_sibling fuel test (head l2)) Q e s.
Proof.
  intros HF. revert l1 l2. induction fuel as [|fuel IH]; intros l1 l2 HFp Hlen HQ; [lia|]. cbn [find_sibling].
  destruct l2 as [|c l2]; cbn [head first_such] in *; [by apply wp_ret|].
  destruct (forest_tracker HF c) as [k Hk]; [eapply (forest_in HF p); rewrite HFp; set_solver|]. rewrite Hk in HQ.
  tsteps. destruct (test k); [by apply wp_ret|].
  destruct (forest_split HF p l1 c l2 k HFp Hk) as (_&_&->). apply (IH (l1 ++ [c])); [by rewrite <- app_assoc|simpl in Hlen; lia|done].
Qed.

(** [find_child_locked]: the child with the given id; for a negative id the
    first completed child, else the first one. *)
Lemma find_child_spec x tid F X (Q : option nat -> KState -> Prop) s :
  tree s F X -> tracker_slots_used s !! x = Some true ->
  Q (if 0 <=? tid then first_such (trackers s) (fun c => k_key c =? tid) (F (Some x))
     else match first_such (trackers s) (fun c => bool_decide (k_task c = None)) (F (Some x)) with
          | Some c => Some c
          | None => head (F (Some x))
          end) s ->
  wp pk (find_child_locked x tid) Q e s.
Proof.
  intros HF Hus HQ. destruct (forest_tracker HF x Hus) as [k Hk]. unfold find_child_locked. tsteps.
  rewrite (forest_kids HF x k Hk). assert (length (F (Some x)) < S kMaxTasks)%nat as Hlen by (by eapply family_length).
  destruct (0 <=? tid).
  - by apply (find_sibling_spec _ _ [] (F (Some x)) F X (Some x)).
  - tsteps. apply (find_sibling_spec _ _ [] (F (Some x)) F X (Some x)); try done. by destruct (first_such _ _ _); apply wp_ret.
Qed.
End operations.

(** ** Removal *)

Lemma forest_ext ks root used F F' X : (forall p, F' p = F p) -> forest ks root used F X -> forest ks root used F' X.
Proof.
  intros E [H1 H2 H3 H4 H5 H6 H7]. split; auto.
  - intros p hd Hp. rewrite !E. by apply H3.
  - intros p. rewrite E. apply H4.
  - intros p c. rewrite E. apply H5.
  - intros c. rewrite <- H6. by setoid_rewrite E.
  - intros x. rewrite E. apply H7.
Qed.

(** No tracker is below itself: [d] decreases towards the roots. *)
Definition ranked (d : nat -> nat) (F : family) : Prop := forall p c, c ∈ F (Some p) -> (d p < d c)%nat.
Definition acyclic (F : family) : Prop := exists d, ranked d F.

(** The number of trackers that have a parent. *)
Definition nested (F : family) : nat := length (seq 0 kMaxTasks ≫= fun x => F (Some x)).

Lemma nested_bound ks root used F X : forest ks root used F X -> (nested F <= kMaxTasks)%nat.
Proof.
  intros HF. apply NoDup_bounded_length.
  - apply NoDup_bind; [|intros; apply HF|apply NoDup_seq]. intros x y c _ _ H1 H2.
    pose proof (forest_disjoint HF _ _ c H1 H2). congruence.
  - intros c (x&Hc&_)%list_elem_of_bind. apply (forest_in HF), lookup_lt_Some in Hc. by rewrite (fo_used_len _ _ _ _ _ HF) in Hc.
Qed.

Lemma nested_update F x l :
  (x < kMaxTasks)%nat -> (nested (<[Some x := l]> F) + length (F (Some x)) = nested F + length l)%nat.
Proof.
  intros Hx. unfold nested. assert (x ∈ seq 0 kMaxTasks) as Hin by (apply elem_of_seq; lia).
  pose proof (NoDup_seq 0 kMaxTasks) as Hnd. induction (seq 0 kMaxTasks) as [|y xs IH]; [by apply elem_of_nil in Hin|].
  apply NoDup_cons in Hnd as [Hy Hnd]. cbn [mbind list_bind]. rewrite !length_app. apply elem_of_cons in Hin as [->|Hin].
  - rewrite fn_lookup_insert. assert ((xs ≫= fun x => <[Some y := l]> F (Some x)) = (xs ≫= fun x => F (Some x))) as ->; [|lia].
    clear -Hy. induction xs as [|z xs IH]; [done|]. cbn [mbind list_bind].
    rewrite fn_lookup_insert_ne by (intros [= ->]; apply Hy; set_solver). f_equal. apply IH. set_solver.
  - specialize (IH Hin Hnd). rewrite fn_lookup_insert_ne by (intros [= ->]; done). lia.
Qed.

Lemma nested_root F l : nested (<[None := l]> F) = nested F.
Proof. done. Qed.

(** A tracker whose task has ended, and one whose task lives. *)
Definition completed (ks : list TaskTracker) (j : nat) : Prop := k_task <$> ks !! j = Some None.
Definition live_tracker (ks : list TaskTracker) (j : nat) : Prop := exists i, k_task <$> ks !! j = Some (Some i).

Lemma entry_task (ks ks' : list TaskTracker) (j : nat) : entry <$> ks' !! j = entry <$> ks !! j -> k_task <$> ks' !! j = k_task <$> ks !! j.
Proof.
  destruct (ks' !! j) as [k'|], (ks !! j) as [k|]; try done. intros E%(inj Some). simpl. f_equal. by apply entry_inv.
Qed.

Lemma entry_zero (ks : list TaskTracker) (j : nat) : entry <$> ks !! j = Some zero_tracker -> completed ks j.
Proof. unfold completed. destruct (ks !! j) as [k|]; [|done]. intros E%(inj Some). simpl. f_equal. exact (f_equal k_task E). Qed.

(** The effect of removing the root tracker [x]: [x] and, through it, its
    completed descendants are freed; the others keep their children, and those
    that lost their parent become roots. *)
Record reaping (ks : list TaskTracker) (used : list bool) (F : family) (X : gset nat) (x : nat)
    (ks' : list TaskTracker) (used' : list bool) (F' : family) : Prop := {
  rp_gone : used' !! x = Some false /\ entry <$> ks' !! x = Some zero_tracker;
  rp_each : forall j, j <> x ->
    (used' !! j = used !! j /\ entry <$> ks' !! j = entry <$> ks !! j /\ F' (Some j) = F (Some j)) \/
    (used' !! j = Some false /\ entry <$> ks' !! j = Some zero_tracker /\ j ∉ X /\ completed ks j /\
     exists q, j ∈ F (Some q) /\ used' !! q = Some false);
  rp_kept : forall c, c ∈ F None -> c ∈ F' None;
  rp_root : forall c, c ∈ F' None -> c ∈ F None \/ live_tracker ks c;
  rp_nested : (nested F' <= nested F)%nat;
}.

Section reaping.
Context {ks : list TaskTracker} {root : option nat} {used : list bool} {F : family} {X : gset nat} {x c : nat} {l : list nat}.
Context (HF : forest ks root used F X) (HFx : F (Some x) = c :: l) (Hx : x ∈ X).

Lemma nested_child F' : F' (Some x) = l -> (forall j, j <> x -> F' (Some j) = F (Some j)) -> (nested F' < nested F)%nat.
Proof.
  intros E1 E2. assert (x < kMaxTasks)%nat as Hlt.
  { assert (used !! x = Some true) as H by (apply (fo_dom _ _ _ _ _ HF); by rewrite HFx).
    apply lookup_lt_Some in H. by rewrite (fo_used_len _ _ _ _ _ HF) in H. }
  pose proof (nested_update F x l Hlt) as Hn. rewrite HFx in Hn. simpl in Hn.
  assert (nested F' = nested (<[Some x := l]> F)) as ->; [|lia]. unfold nested. f_equal.
  induction (seq 0 kMaxTasks) as [|y xs IH]; [done|]. cbn [mbind list_bind]. f_equal; [|apply IH].
  destruct (decide (y = x)) as [->|Hne]; [by rewrite fn_lookup_insert|]. rewrite fn_lookup_insert_ne by congruence. by apply E2.
Qed.

(** The first child lives: it becomes a root. *)
Lemma reaping_live ks2 F2 ks' used' F' :
  (forall j, entry <$> ks2 !! j = entry <$> ks !! j) -> live_tracker ks c ->
  F2 None = c :: F None -> F2 (Some x) = l -> (forall j, j <> x -> F2 (Some j) = F (Some j)) ->
  reaping ks2 used F2 X x ks' used' F' -> reaping ks used F X x ks' used' F'.
Proof.
  intros Hen Hlive HN HFx2 Hoth [[G1 G2] Heach Hkept Hroot Hn].
  assert (forall j, completed ks2 j -> completed ks j) as Hco by (intros j; unfold completed; by rewrite (entry_task ks ks2 j (Hen j))).
  split; [done|..].
  - intros j Hj. destruct (Heach j Hj) as [(E1&E2&E3)|(E1&E2&E3&E4&q&Hq&E5)].
    + left. rewrite E1, E2, E3. split_and!; auto.
    + right. split_and!; auto. exists q. split; [|done]. destruct (decide (q = x)) as [->|Hne]; [|by rewrite <- Hoth].
      rewrite HFx. rewrite HFx2 in Hq. set_solver.
  - intros y Hy. apply Hkept. rewrite HN. set_solver.
  - intros y Hy. destruct (Hroot y Hy) as [H1|[i Hi]].
    + rewrite HN in H1. apply elem_of_cons in H1 as [->|H1]; auto.
    + right. exists i. by rewrite <- (entry_task ks ks2 y (Hen y)).
  - pose proof (nested_child F2 HFx2 Hoth). lia.
Qed.

(** The first child is completed: it is removed first. *)
Lemma reaping_dead ks3 F3 ks4 root4 used4 F4 ks5 used5 F5 :
  (forall j, entry <$> ks3 !! j = entry <$> ks !! j) -> completed ks c ->
  F3 None = F None -> F3 (Some x) = l -> (forall j, j <> x -> F3 (Some j) = F (Some j)) ->
  forest ks4 root4 used4 F4 X ->
  reaping ks3 used F3 ({[c]} ∪ X) c ks4 used4 F4 -> reaping ks4 used4 F4 X x ks5 used5 F5 ->
  reaping ks used F X x ks5 used5 F5.
Proof.
  intros Hen Hdead HN HFx3 Hoth HF4 [[A1 A2] Aeach Akept Aroot An] [[B1 B2] Beach Bkept Broot Bn].
  assert (c ∈ F (Some x)) as Hcx by (rewrite HFx; set_solver).
  assert (c ∉ X) as HcX by (intros H; by apply (forest_outside HF c (Some x))).
  assert (forall j, completed ks3 j -> completed ks j) as Hco by (intros j; unfold completed; by rewrite (entry_task ks ks3 j (Hen j))).
  assert (forall q j, j ∈ F3 (Some q) -> j ∈ F (Some q)) as HF3.
  { intros q j. destruct (decide (q = x)) as [->|Hne]; [rewrite HFx3, HFx; set_solver|by rewrite Hoth]. }
  assert (forall q j, j ∈ F4 (Some q) -> j ∈ F (Some q)) as HF4'.
  { intros q j Hj. assert (used4 !! q = Some true) as Hq by (apply (fo_dom _ _ _ _ _ HF4); intros E; rewrite E in Hj; by apply elem_of_nil in Hj).
    destruct (decide (q = c)) as [->|Hqc]; [congruence|]. destruct (Aeach q Hqc) as [(_&_&E)|(E&_)]; [|congruence].
    apply HF3. by rewrite <- E. }
  assert (forall q, used4 !! q = Some false -> used5 !! q = Some false) as Hstay.
  { intros q Hq. destruct (decide (q = x)) as [->|Hqx]; [done|]. destruct (Beach q Hqx) as [(->&_)|(->&_)]; done. }
  assert (forall j, completed ks4 j -> j = c \/ used4 !! j = Some false \/ completed ks j) as Hco4.
  { intros j Hj. destruct (decide (j = c)) as [->|Hjc]; [by left|]. right.
    destruct (Aeach j Hjc) as [(_&E&_)|(E&_)]; [|by left]. right. apply Hco. unfold completed. by rewrite <- (entry_task ks3 ks4 j E). }
  split; [done|..].
  - intros j Hj. destruct (decide (j = c)) as [->|Hjc].
    + right. split_and!; [by apply Hstay| |done|done|by exists x].
      destruct (Beach c Hj) as [(_&->&_)|(_&->&_)]; done.
    + destruct (Aeach j Hjc) as [(E1&E2&E3)|(E1&E2&E3&E4&q&Hq&E5)], (Beach j Hj) as [(D1&D2&D3)|(D1&D2&D3&D4&r&Hr&D5)].
      * left. rewrite D1, E1, D2, E2, D3, E3. split_and!; auto.
      * right. split_and!; try done; [|exists r; auto]. apply Hco. unfold completed. by rewrite <- (entry_task ks3 ks4 j E2).
      * right. split_and!; [by apply Hstay|by rewrite D2|set_solver|by apply Hco|exists q; auto].
      * right. split_and!; [done..|by apply Hco|exists q; auto].
  - intros y Hy. apply Bkept, Akept. by rewrite HN.
  - intros y Hy. destruct (Broot y Hy) as [H1|[i Hi]].
    + destruct (Aroot y H1) as [H2|[i Hi]]; [left; by rewrite <- HN|]. right. exists i. by rewrite <- (entry_task ks ks3 y (Hen y)).
    + right. exists i. rewrite <- Hi, <- (entry_task ks ks3 y (Hen y)). symmetry. apply entry_task.
      destruct (decide (y = c)) as [->|Hyc].
      { apply entry_zero in A2. unfold completed in A2. congruence. }
      destruct (Aeach y Hyc) as [(_&E&_)|(_&E&_)]; [done|]. apply entry_zero in E. unfold completed in E. congruence.
  - pose proof (nested_child F3 HFx3 Hoth). lia.
Qed.
End reaping.

Section removal.
Context (pk : Prop) (e : Env).

(** The children of a removed tracker go to its parent, last child first. *)
Lemma adopt_spec d fuel x p l F X (Q : unit -> KState -> Prop) s :
  tree s F X -> x ∈ X -> tracker_slots_used s !! x = Some true -> tracker_slots_used s !! p = Some true ->
  ranked d F -> (d p < d x)%nat -> F (Some x) = l -> (length l < fuel)%nat ->
  (forall ks' root', forest ks' root' (<[x := false]> (tracker_slots_used s))
       (<[Some p := reverse l ++ F (Some p)]> (<[Some x := []]> F)) (X ∖ {[x]}) ->
     ks' !! x = Some zero_tracker -> (forall j, j <> x -> entry <$> ks' !! j = entry <$> trackers s !! j) ->
     Q tt (with_forest ks' root' (<[x := false]> (tracker_slots_used s)) s)) ->
  wp pk (remove_children fuel x (Some p)) Q e s.
Proof.
  revert l F s. induction fuel as [|fuel IH]; intros l F s HF Hx Hux Hup Hd Hpx HFx Hlen HQ; [lia|].
  assert (p <> x) as Hne by (intros ->; lia). destruct (forest_tracker HF x Hux) as [k Hk].
  cbn [remove_children]. tsteps. rewrite (forest_kids HF x k Hk), HFx. destruct l as [|c l]; cbn [head].
  - apply (release_tracker_spec _ _ x F X); try done. intros HF'. apply HQ.
    + eapply forest_ext; [|exact HF']. intros q. destruct (decide (q = Some p)) as [->|]; [by rewrite fn_lookup_insert|].
      rewrite fn_lookup_insert_ne by done. destruct (decide (q = Some x)) as [->|]; [by rewrite fn_lookup_insert|].
      by rewrite fn_lookup_insert_ne.
    + apply list_lookup_insert_eq. by eapply lookup_lt_Some.
    + intros j Hj. by rewrite list_lookup_insert_ne.
  - assert (c ∈ F (Some x)) as Hc by (rewrite HFx; set_solver). pose proof (Hd x c Hc) as Hdc.
    apply wp_bind, (unlink_tracker_spec _ _ c (Some x) [] l F X); try done. intros ks1 r1 HF1 Hre1 _. cbn [app] in HF1.
    set (F1 := <[Some x := l]> F) in *.
    apply wp_bind, (link_tracker_spec _ _ c (Some p) F1 ({[c]} ∪ X)); [done|set_solver|by eapply (forest_in HF)|by intros y [= <-]|].
    intros ks2 r2 HF2 Hre2. set (s2 := with_forest ks2 r2 _ _).
    assert (F1 (Some p) = F (Some p)) as EFp by (unfold F1; rewrite fn_lookup_insert_ne by congruence; done).
    set (F2 := <[Some p := c :: F1 (Some p)]> F1) in *.
    assert (exists kc, trackers s2 !! c = Some kc) as [kc Hkc].
    { apply (forest_tracker (ks := trackers s2) HF2). by eapply (forest_in HF). }
    tsteps. rewrite (bool_decide_false (Some p = None)) by done. cbn [andb]. tsteps.
    apply (IH l F2 s2); try done.
    + eapply (forest_ext _ _ _ F2); [done|]. replace X with (({[c]} ∪ X) ∖ {[c]}); [exact HF2|].
      assert (c ∉ X) by (intros HcX; by apply (forest_outside HF c (Some x))). set_solver.
    + intros q y. unfold F2, F1. destruct (decide (q = p)) as [->|Hqp].
      * rewrite fn_lookup_insert. intros [->|Hy]%elem_of_cons; [lia|]. fold F1 in Hy. rewrite EFp in Hy. by apply Hd.
      * rewrite fn_lookup_insert_ne by congruence. destruct (decide (q = x)) as [->|Hqx].
        -- rewrite fn_lookup_insert. intros Hy. apply Hd. rewrite HFx. set_solver.
        -- rewrite fn_lookup_insert_ne by congruence. apply Hd.
    + unfold F2, F1. rewrite fn_lookup_insert_ne by congruence. by rewrite fn_lookup_insert.
    + simpl in Hlen. lia.
    + intros ks3 r3 HF3 Hz Hen3. apply (HQ ks3 r3); [|done|].
      * eapply forest_ext; [|exact HF3]. intros q. destruct (decide (q = Some p)) as [->|Hqp].
        -- rewrite !fn_lookup_insert. unfold F2. rewrite fn_lookup_insert, EFp, reverse_cons, <- app_assoc. done.
        -- rewrite !(fn_lookup_insert_ne _ (Some p)) by congruence. destruct (decide (q = Some x)) as [->|Hqx].
           ++ by rewrite !fn_lookup_insert.
           ++ rewrite !(fn_lookup_insert_ne _ (Some x)) by congruence. unfold F2, F1.
              by rewrite !fn_lookup_insert_ne by congruence.
      * intros j Hj. rewrite (Hen3 j Hj). transitivity (entry <$> ks1 !! j); [apply Hre2|apply Hre1].
Qed.

(** The children of a removed root become roots, completed ones are removed. *)
Lemma reap_spec fuel x F X (Q : unit -> KState -> Prop) s :
  tree s F X -> x ∈ X -> tracker_slots_used s !! x = Some true -> (nested F < fuel)%nat ->
  (forall j k, trackers s !! j = Some k -> k_status k = ExitStatus.crashed -> pk) ->
  (forall ks' root' used' F', forest ks' root' used' F' (X ∖ {[x]}) ->
     reaping (trackers s) (tracker_slots_used s) F X x ks' used' F' -> Q tt (with_forest ks' root' used' s)) ->
  wp pk (remove_children fuel x None) Q e s.
Proof.
  revert x F X Q s. induction fuel as [|fuel IH]; intros x F X Q s HF Hx Hux Hlen Hcr HQ; [lia|].
  destruct (forest_tracker HF x Hux) as [k Hk].
  cbn [remove_children]. tsteps. rewrite (forest_kids HF x k Hk). destruct (F (Some x)) as [|c l] eqn:HFx; cbn [head].
  { apply (release_tracker_spec _ _ x F X); try done. intros HF'. eapply HQ; [exact HF'|]. split; try done; auto.
    - rewrite !list_lookup_insert_eq; [done|by eapply lookup_lt_Some..].
    - intros j Hj. left. by rewrite !list_lookup_insert_ne. }
  assert (c ∈ F (Some x)) as Hc by (rewrite HFx; set_solver).
  assert (c ∉ X) as HcX by (intros H; by apply (forest_outside HF c (Some x))).
  assert (tracker_slots_used s !! c = Some true) as Huc by (by eapply (forest_in HF)).
  apply wp_bind, (unlink_tracker_spec _ _ c (Some x) [] l F X); try done. intros ks1 r1 HF1 Hre1 _. cbn [app] in HF1.
  set (F1 := <[Some x := l]> F) in *.
  apply wp_bind, (link_tracker_spec _ _ c None F1 ({[c]} ∪ X)); [done|set_solver|done|done|].
  intros ks2 r2 HF2 Hre2. set (s2 := with_forest ks2 r2 _ _). set (F2 := <[None := c :: F1 None]> F1) in *.
  replace (({[c]} ∪ X) ∖ {[c]}) with X in HF2 by set_solver.
  assert (relinked (trackers s) ks2) as Hre by (by eapply relinked_trans).
  destruct (forest_tracker HF2 c Huc) as [kc Hkc]. tsteps. cbn [andb]. rewrite (bool_decide_true (None = None)) by done. cbn [andb].
  assert (F1 (Some x) = l /\ forall j, j <> x -> F1 (Some j) = F (Some j)) as [E1 E2].
  { unfold F1. split; [by rewrite fn_lookup_insert|]. intros j Hj. by rewrite fn_lookup_insert_ne by congruence. }
  assert (nested F1 < nested F)%nat as Hn by (by eapply (nested_child HF HFx)).
  assert (forall s' : KState, relinked (trackers s) (trackers s') -> forall j k, trackers s' !! j = Some k -> k_status k = ExitStatus.crashed -> pk) as Hcr'.
  { intros s' Hre' j k' Hk' Hst. specialize (Hre' j). rewrite Hk' in Hre'. symmetry in Hre'.
    apply fmap_Some in Hre' as (k0&Hk0&E). apply entry_inv in E as (_&_&E&_). eapply Hcr; [exact Hk0|congruence]. }
  assert (entry <$> trackers s !! c = Some (entry kc)) as Hec by (rewrite <- (Hre c), Hkc; done).
  assert (k_task <$> trackers s !! c = Some (k_task kc)) as Htc by (rewrite <- (entry_task _ _ c (Hre c)), Hkc; done).
  case_bool_decide as Hdead.
  2: { apply wp_ret. destruct (k_task kc) as [ti|] eqn:Eti; [|done].
    apply (IH x F2 X _ s2); try done; [unfold F2; rewrite nested_root; lia|by apply Hcr'|].
    intros ks5 r5 used5 F5 HF5 Hrp. apply (HQ ks5 r5 used5 F5); [done|].
    eapply (reaping_live HF HFx Hx ks2 F2); try done; by exists ti. }
  case_bool_decide as Hst.
  { apply wp_park. by eapply (Hcr' s2 Hre c kc). }
  apply wp_bind, (unlink_tracker_spec _ _ c None [] (F1 None) F2 X); [done|unfold F2; by rewrite fn_lookup_insert|].
  intros ks3 r3 HF3 Hre3 _. cbn [app] in HF3. set (F3 := <[None := F1 None]> F2) in *.
  assert (relinked (trackers s) ks3) as Hre' by (by eapply relinked_trans).
  apply (IH c F3 ({[c]} ∪ X) _ (with_forest ks3 r3 (tracker_slots_used s2) s2)); try done; [set_solver|unfold F3, F2; rewrite !nested_root; lia|by apply Hcr'|].
  intros ks4 r4 used4 F4 HF4 Hrp4. replace (({[c]} ∪ X) ∖ {[c]}) with X in HF4 by set_solver.
  assert (x <> c) as Hxc by (intros ->; done).
  destruct (rp_each _ _ _ _ _ _ _ _ Hrp4 x Hxc) as [(U1&U2&U3)|(_&_&U&_)]; [|set_solver].
  apply (IH x F4 X _ (with_forest ks4 r4 used4 _)); try done.
  - etransitivity; [exact U1|done].
  - pose proof (rp_nested _ _ _ _ _ _ _ _ Hrp4) as H. unfold F3, F2 in H. rewrite !nested_root in H. lia.
  - intros j k' Hk' Hst'. destruct (decide (j = c)) as [->|Hjc].
    + destruct (rp_gone _ _ _ _ _ _ _ _ Hrp4) as [_ E]. change (ks4 !! c = Some k') in Hk'. rewrite Hk' in E.
      apply (inj Some) in E. pose proof (f_equal k_status E) as E'. simpl in E'. congruence.
    + change (ks4 !! j = Some k') in Hk'. destruct (rp_each _ _ _ _ _ _ _ _ Hrp4 j Hjc) as [(_&E&_)|(_&E&_)]; rewrite Hk' in E.
      * symmetry in E. apply fmap_Some in E as (k0&Hk0&E). apply entry_inv in E as (_&_&E&_).
        eapply (Hcr' (with_forest ks3 r3 (tracker_slots_used s2) s2)); [done|exact Hk0|congruence].
      * apply (inj Some) in E. pose proof (f_equal k_status E) as E'. simpl in E'. congruence.
  - intros ks5 r5 used5 F5 HF5 Hrp5. apply (HQ ks5 r5 used5 F5); [done|].
    eapply (reaping_dead HF HFx Hx ks3 F3 ks4 r4 used4 F4); try done.
    unfold completed. by rewrite Htc, Hdead.
Qed.
End removal.

(** ** remove_tracker_locked *)

(** What removal of [x] promises, whoever its parent is. *)
Record pruned (ks : list TaskTracker) (used : list bool) (F : family) (x : nat)
    (ks' : list TaskTracker) (used' : list bool) (F' : family) : Prop := {
  pr_gone : used' !! x = Some false /\ entry <$> ks' !! x = Some zero_tracker;
  pr_each : forall j, j <> x ->
    (used' !! j = used !! j /\ entry <$> ks' !! j = entry <$> ks !! j) \/
    (used' !! j = Some false /\ entry <$> ks' !! j = Some zero_tracker /\ completed ks j);
  pr_root : forall c, c ∈ F' None -> (c ∈ F None /\ c <> x) \/ live_tracker ks c;
}.

(** The exact effect on the family. *)
Definition family_after (p : option nat) (ks : list TaskTracker) (used : list bool) (F : family) (x : nat) (l : list nat)
    (ks' : list TaskTracker) (used' : list bool) (F' : family) : Prop :=
  match p with
  | Some y => forall q, F' q = (<[Some y := reverse (F (Some x)) ++ l]> (<[Some x := []]> F)) q
  | None => reaping ks used (<[None := l]> F) {[x]} x ks' used' F'
  end.

Lemma reaping_family ks root used F X x ks' root' used' F' d :
  reaping ks used F X x ks' used' F' -> forest ks' root' used' F' (X ∖ {[x]}) -> forest ks root used F X -> ranked d F -> ranked d F'.
Proof.
  intros Hrp HF' HF Hd p c Hc. apply Hd.
  assert (used' !! p = Some true) as Hp by (apply (fo_dom _ _ _ _ _ HF'); intros E; rewrite E in Hc; by apply elem_of_nil in Hc).
  destruct (decide (p = x)) as [->|Hne]; [destruct (rp_gone _ _ _ _ _ _ _ _ Hrp); congruence|].
  destruct (rp_each _ _ _ _ _ _ _ _ Hrp p Hne) as [(_&_&E)|(E&_)]; [by rewrite <- E|congruence].
Qed.

Lemma remove_tracker_spec x p l1 l2 F (pk : Prop) (Q : unit -> KState -> Prop) e s :
  tree s F ∅ -> acyclic F -> F p = l1 ++ x :: l2 ->
  (p = None -> forall j k, trackers s !! j = Some k -> k_status k = ExitStatus.crashed -> pk) ->
  (forall ks' root' used' F', forest ks' root' used' F' ∅ -> acyclic F' ->
     pruned (trackers s) (tracker_slots_used s) F x ks' used' F' ->
     family_after p (trackers s) (tracker_slots_used s) F x (l1 ++ l2) ks' used' F' -> Q tt (with_forest ks' root' used' s)) ->
  wp pk (remove_tracker_locked x) Q e s.
Proof.
  intros HF [d Hd] HFp Hcr HQ. assert (x ∈ F p) as Hx by (rewrite HFp; set_solver).
  pose proof (forest_in HF p x Hx) as Hux. destruct (forest_tracker HF x Hux) as [k Hk].
  destruct (forest_split HF p l1 x l2 k HFp Hk) as (Ep&_&_). unfold remove_tracker_locked. tsteps. rewrite Ep.
  apply (unlink_tracker_spec _ _ x p l1 l2 F ∅); try done. intros ks1 r1 HF1 Hre1 _.
  replace ({[x]} ∪ ∅) with ({[x]} : gset nat) in HF1 by set_solver.
  set (F1 := <[p := l1 ++ l2]> F) in *. set (s1 := with_forest ks1 r1 _ s).
  assert (x ∉ l1 ++ l2) as Hxl.
  { pose proof (fo_nodup _ _ _ _ _ HF p) as Hnd. rewrite HFp, <- Permutation_middle in Hnd. by apply NoDup_cons in Hnd as [? _]. }
  assert (ranked d F1) as Hd1.
  { intros q c. unfold F1. destruct (decide (Some q = p)) as [<-|Hne]; [rewrite fn_lookup_insert|by rewrite fn_lookup_insert_ne; [apply Hd|]].
    intros Hc. apply Hd. rewrite HFp. set_solver. }
  assert (forall j, completed ks1 j -> completed (trackers s) j) as Hco
    by (intros j; unfold completed; by rewrite (entry_task _ _ j (Hre1 j))).
  destruct p as [y|].
  - pose proof (Hd y x Hx) as Hyx. assert (y <> x) as Hne by (intros ->; lia).
    assert (F1 (Some x) = F (Some x)) as EFx by (unfold F1; by rewrite fn_lookup_insert_ne by congruence).
    apply (adopt_spec _ _ d tracker_fuel x y (F (Some x)) F1 {[x]}); try done.
    + set_solver.
    + apply (fo_dom _ _ _ _ _ HF). rewrite HFp. by destruct l1.
    + pose proof (family_length _ _ _ _ _ (Some x) HF). unfold tracker_fuel. lia.
    + intros ks2 r2 HF2 Hz Hen. replace ({[x]} ∖ {[x]}) with (∅ : gset nat) in HF2 by set_solver.
      eapply (HQ ks2 r2 _ _ HF2).
      * exists d. intros q c. destruct (decide (q = y)) as [->|Hqy].
        -- rewrite fn_lookup_insert. intros [Hc|Hc]%elem_of_app; [|by apply Hd1]. rewrite reverse_Permutation in Hc.
           specialize (Hd x c Hc). lia.
        -- rewrite fn_lookup_insert_ne by congruence. destruct (decide (q = x)) as [->|Hqx];
             [rewrite fn_lookup_insert; intros H; by apply elem_of_nil in H|]. rewrite fn_lookup_insert_ne by congruence. apply Hd1.
      * split.
        -- rewrite Hz. split; [|done]. apply list_lookup_insert_eq. by eapply lookup_lt_Some.
        -- intros j Hj. left. rewrite list_lookup_insert_ne by done. split; [done|]. etransitivity; [by apply Hen|apply Hre1].
        -- intros c. rewrite !fn_lookup_insert_ne by done. unfold F1. rewrite fn_lookup_insert_ne by done. intros Hc. left.
           split; [done|]. intros ->. by pose proof (forest_disjoint HF _ _ x Hx Hc).
      * intros q. unfold F1. destruct (decide (q = Some y)) as [->|Hqy]; [by rewrite !fn_lookup_insert|].
        rewrite !(fn_lookup_insert_ne _ (Some y)) by congruence. destruct (decide (q = Some x)) as [->|Hqx]; [by rewrite !fn_lookup_insert|].
        rewrite !(fn_lookup_insert_ne _ (Some x)) by congruence. by rewrite fn_lookup_insert_ne by congruence.
  - apply (reap_spec _ _ tracker_fuel x F1 {[x]}); try done.
    + set_solver.
    + pose proof (nested_bound _ _ _ _ _ HF1). unfold tracker_fuel. lia.
    + intros j k' Hk' Hst. specialize (Hre1 j). change (ks1 !! j = Some k') in Hk'. rewrite Hk' in Hre1. symmetry in Hre1.
      apply fmap_Some in Hre1 as (k0&Hk0&E). apply entry_inv in E as (_&_&E&_). eapply (Hcr eq_refl); [exact Hk0|congruence].
    + intros ks2 r2 used2 F2 HF2 Hrp. change (trackers s1) with ks1 in Hrp.
      assert (ranked d F2) as Hd2 by (by eapply reaping_family).
      replace ({[x]} ∖ {[x]}) with (∅ : gset nat) in HF2 by set_solver.
      assert (forall j, live_tracker ks1 j -> live_tracker (trackers s) j) as Hli
        by (intros j; unfold live_tracker; by rewrite (entry_task _ _ j (Hre1 j))).
      assert (reaping (trackers s) (tracker_slots_used s) F1 {[x]} x ks2 used2 F2) as Hrp'.
      { destruct Hrp as [? Heach ? Hroot ?]. split; auto.
        - intros j Hj. destruct (Heach j Hj) as [(?&E&?)|(?&?&?&?&?)]; [left|right; split_and!; auto].
          split_and!; auto. etransitivity; [exact E|apply Hre1].
        - intros c Hc. destruct (Hroot c Hc); auto. }
      eapply (HQ ks2 r2 used2 F2 HF2); [by exists d| |exact Hrp'].
      destruct Hrp' as [? Heach ? Hroot ?]. split; [done|..].
      * intros j Hj. destruct (Heach j Hj) as [(?&?&?)|(?&?&?&?&?)]; [by left|by right].
      * intros c Hc. destruct (Hroot c Hc) as [H1|H1]; [|by right]. left. unfold F1 in H1. rewrite fn_lookup_insert in H1.
        split; [rewrite HFp; set_solver|]. by intros ->.
Qed.
