(* ===== verification/Arch.v ===== *)
(** * RISC-V architecture support

    Models [microkernel/arch/riscv/{isa.h, trap_cause.h, instruction_decode.h,
    instruction_decode.cpp}]: decoding of [mcause] and [misa], instruction
    lengths, and recognition of EBREAK and C.EBREAK in memory. *)
From stdpp Require Import base tactics list.
From Stdlib Require Import ZArith Lia.
From S2P Require Import Prelude Memory.
Local Open Scope Z_scope.

Definition xlen_bits : Z := 64.
Definition xlen_most_significant_bit : Z := Z.shiftl 1 (xlen_bits - 1).
Definition mcause_interrupt_mask : Z := xlen_most_significant_bit.
Definition mcause_code_mask : Z := mcause_interrupt_mask - 1.

Definition decode_misa_mxl (misa : Z) : Z := Z.land (Z.shiftr misa (xlen_bits - 2)) 3.

Module ExceptionCode.
Inductive t :=
  | instruction_address_misaligned | instruction_access_fault | illegal_instruction | breakpoint
  | load_address_misaligned | load_access_fault | store_address_misaligned | store_access_fault
  | environment_call_from_u | environment_call_from_s | environment_call_from_m
  | instruction_page_fault | load_page_fault | store_page_fault.
Definition code (c : t) : Z :=
  match c with
  | instruction_address_misaligned => 0 | instruction_access_fault => 1 | illegal_instruction => 2 | breakpoint => 3
  | load_address_misaligned => 4 | load_access_fault => 5 | store_address_misaligned => 6 | store_access_fault => 7
  | environment_call_from_u => 8 | environment_call_from_s => 9 | environment_call_from_m => 11
  | instruction_page_fault => 12 | load_page_fault => 13 | store_page_fault => 15
  end.
End ExceptionCode.
Module InterruptCode.
Inductive t :=
  | supervisor_software | machine_software | supervisor_timer | machine_timer | supervisor_external | machine_external.
Definition code (c : t) : Z :=
  match c with
  | supervisor_software => 1 | machine_software => 3 | supervisor_timer => 5
  | machine_timer => 7 | supervisor_external => 9 | machine_external => 11
  end.
End InterruptCode.

(** [TrapCause] wraps the raw [mcause]. *)
Definition is_interrupt (raw : Z) : bool := negb (Z.land raw mcause_interrupt_mask =? 0).
Definition cause_code (raw : Z) : Z := Z.land raw mcause_code_mask.
Definition is_exception_code (raw : Z) (expected : ExceptionCode.t) : bool :=
  negb (is_interrupt raw) && (cause_code raw =? ExceptionCode.code expected).
Definition is_interrupt_code (raw : Z) (expected : InterruptCode.t) : bool :=
  is_interrupt raw && (cause_code raw =? InterruptCode.code expected).

(** ** Instructions *)

Module InstructionLength.
Inductive t := unsupported | bytes_2 | bytes_4.
End InstructionLength.
Module BreakpointInstruction.
Inductive t := none | compressed | standard.
End BreakpointInstruction.
Record BreakpointDecode := mkDecode {
  bd_instruction : BreakpointInstruction.t; bd_length : InstructionLength.t
}.

Definition recognized (d : BreakpointDecode) : bool :=
  match bd_instruction d with BreakpointInstruction.none => false | _ => true end.

Definition compressed_ebreak_encoding : Z := 0x9002.
Definition standard_ebreak_encoding : Z := 0x00100073.

Definition decode_instruction_length (first_parcel : Z) : InstructionLength.t :=
  if negb (Z.land first_parcel 3 =? 3) then InstructionLength.bytes_2
  else if negb (Z.land first_parcel 0x1F =? 0x1F) then InstructionLength.bytes_4
  else InstructionLength.unsupported.

Definition instruction_length_bytes (l : InstructionLength.t) : Z :=
  match l with
  | InstructionLength.unsupported => 0
  | InstructionLength.bytes_2 => 2
  | InstructionLength.bytes_4 => 4
  end.

Definition load_little_endian_u16 (m : Mem) (address : Z) : Z :=
  Z.lor (m address) (u16 (Z.shiftl (m (u64 (address + 1))) 8)).

Definition decode_breakpoint_at (m : Mem) (pc : Z) : BreakpointDecode :=
  let first_parcel := load_little_endian_u16 m pc in
  match decode_instruction_length first_parcel with
  | InstructionLength.bytes_2 =>
      mkDecode (if first_parcel =? compressed_ebreak_encoding
                then BreakpointInstruction.compressed else BreakpointInstruction.none)
        InstructionLength.bytes_2
  | InstructionLength.bytes_4 =>
      let second_parcel := load_little_endian_u16 m (u64 (pc + 2)) in
      let instruction := Z.lor first_parcel (u32 (Z.shiftl second_parcel 16)) in
      mkDecode (if instruction =? standard_ebreak_encoding
                then BreakpointInstruction.standard else BreakpointInstruction.none)
        InstructionLength.bytes_4
  | InstructionLength.unsupported =>
      mkDecode BreakpointInstruction.none InstructionLength.unsupported
  end.
