(* ===== verification/Syscall.v ===== *)
(** * Task system calls and trap dispatch

    Models [microkernel/core/task_syscall.cpp] ([try_handle] with every system
    call), [arch/riscv/task_syscall_abi.h] and the dispatcher of
    [microkernel/core/trap.cpp], as in the M00-08.01 build; the trap-frame self
    test ([SelfTests]) is not active. *)
From stdpp Require Import base tactics list gmap strings.
From Stdlib Require Import ZArith Lia Ascii.
From S2P Require Import Prelude DList Memory PageManager Sv39 Vmm Format Console KernelTypes RunQueue DelayQueue Scheduler TaskContext TimeManager Ipc TaskManager Arch.
Local Open Scope Z_scope.

Module Num.
Definition YIELD : Z := 0.
Definition CREATE : Z := 1.
Definition END : Z := 2.
Definition WAIT : Z := 3.
Definition DETACH : Z := 4.
Definition SLEEP : Z := 5.
Definition ENDPOINT_CREATE : Z := 6.
Definition ENDPOINT_DESTROY : Z := 7.
Definition SEND : Z := 8.
Definition CALL : Z := 9.
Definition RECV : Z := 10.
Definition TRY_RECV : Z := 11.
Definition REPLY : Z := 12.
End Num.

Definition kErrorNoMemory : Z := -12.
Definition kErrorDeadlock : Z := -35.
Definition kErrorNoSyscall : Z := -38.
Definition kErrorNotSupported : Z := -95.
Definition error_value (error : Z) : Z := u64 error.

Definition JIXIA_M00_08_CHILD_ARGUMENT : Z := 0x08010001.
Definition JIXIA_M00_08_INIT_RESULT : Z := 0x0801CAFE.

(** Print a marker once, guarded by a report flag. *)
Definition mark (set : Reports -> Reports) (message : list ascii) : K unit :=
  kprintk message [];; modify (fun s => s <| reports := set (reports s) |>).

Definition marker (s : string) : list ascii := text s ++ [newline].
Arguments marker s%_string.

(** ** The handlers: each returns [rescheduled] *)

Definition sys_yield (caller : nat) : K bool :=
  t ← get_task caller;
  let caller_tid := t_tid t in
  mod_task caller (set_x 10 0);;
  scheduler_of caller;; return_runnable;;
  scheduler_of caller;; selected ← set_next_runnable;
  t' ← get_task caller;
  sel ← get_task selected;
  r ← gets reports;
  (if t_idle t' && negb (g_idle_reported r)
   then mark (<| g_idle_reported := true |>) (marker "M00_08_IDLE_TASK: PASS")
   else if negb (t_tid sel =? caller_tid) && negb (g_context_switch_reported r)
   then mark (<| g_context_switch_reported := true |>)
          (marker "M00_08_TASK_YIELD: PASS" ++ marker "M00_08_CONTEXT_SWITCH: PASS")
   else mret tt);;
  mret true.

Definition sys_create (caller : nat) : K bool :=
  t ← get_task caller;
  let entry := get_x 10 t in
  let argument := get_x 11 t in
  vm ← gets vmm;
  if negb (is_boot_user_entry entry vm) then
    mod_task caller (set_x 10 (error_value kErrorNotSupported));; mret false
  else
    cpu ← deref (t_cpu t);
    child ← create_task entry argument (t_address_space t) cpu false;
    match child with
    | None => mod_task caller (set_x 10 (error_value kErrorNoMemory));; mret false
    | Some c =>
        scheduler_of caller;;
        ok ← add_task c;
        if negb ok then park
        else
          ct ← get_task c;
          mod_task caller (set_x 10 (t_tid ct));;
          r ← gets reports;
          when (negb (g_create_reported r))
            (mark (<| g_create_reported := true |>) (marker "M00_08_TASK_CREATE: PASS"));;
          mret false
    end.

Definition sys_end (caller : nat) : K bool :=
  t ← get_task caller;
  let ending_tid := t_tid t in
  let return_value := get_x 10 t in
  initial ← gets initial_task_id;
  let initial_task := ending_tid =? initial in
  let detached := t_detached t in
  r ← gets reports;
  when (negb initial_task && (return_value =? JIXIA_M00_08_CHILD_ARGUMENT) && negb (g_end_reported r))
    (mark (<| g_end_reported := true |>) (marker "M00_08_TASK_END: PASS"));;
  end_task caller return_value ExitStatus.exited_clean;;
  when (initial_task && detached && (return_value =? JIXIA_M00_08_INIT_RESULT))
    (kprintk (marker "M00_08_TASK_LIFECYCLE: PASS") []);;
  mret true.

Definition sys_wait (caller : nat) : K bool :=
  t ← get_task caller;
  let tid := sext 64 (get_x 10 t) in
  let status_address := get_x 11 t in
  let return_value_address := get_x 12 t in
  if negb (status_address =? 0) || negb (return_value_address =? 0) then
    mod_task caller (set_x 10 (error_value kErrorNotSupported));; mret false
  else
    result ← wait_task caller tid;
    r ← gets reports;
    (if bool_decide (result = WaitResult.no_child) then
       mod_task caller (set_x 10 (error_value kErrorDeadlock))
     else if bool_decide (result = WaitResult.completed) && negb (g_wait_reported r) then
       mark (<| g_wait_reported := true |>) (marker "M00_08_TASK_WAIT: PASS")
     else if bool_decide (result = WaitResult.blocked) && negb (g_wait_block_reported r) then
       mark (<| g_wait_block_reported := true |>) (marker "M00_08_TASK_WAIT_BLOCK: PASS")
     else mret tt);;
    mret (bool_decide (result = WaitResult.blocked)).

Definition sys_detach (caller : nat) : K bool :=
  ok ← detach_task caller;
  mod_task caller (set_x 10 (if ok : bool then 0 else 1));;
  t ← get_task caller;
  r ← gets reports;
  when ((get_x 10 t =? 0) && negb (g_detach_reported r))
    (mark (<| g_detach_reported := true |>) (marker "M00_08_TASK_DETACH: PASS"));;
  mret false.

Definition sys_sleep (caller : nat) : K bool :=
  t ← get_task caller;
  let seconds := get_x 10 t in
  let nanoseconds := get_x 11 t in
  mod_task caller (set_x 10 0);;
  ok ← delay_task caller seconds nanoseconds;
  if negb ok then mod_task caller (set_x 10 (error_value kErrorInvalidArgument));; mret false
  else scheduler_of caller;; _ ← set_next_runnable; mret true.

Definition sys_endpoint_create (caller : nat) : K bool :=
  t ← get_task caller;
  '(result, handle) ← create_endpoint (t_tid t) true;
  mod_task caller (set_x 10 (if result <? 0 then error_value result else default 0 handle));;
  mret false.

Definition sys_endpoint_destroy (caller : nat) : K bool :=
  t ← get_task caller;
  result ← destroy_endpoint (t_tid t) (get_x 10 t);
  mod_task caller (set_x 10 (if result <? 0 then error_value result else 0));;
  mret false.

Definition sys_send (caller : nat) : K bool :=
  t ← get_task caller;
  result ← send (t_tid t) (get_x 10 t) [get_x 11 t; get_x 12 t; get_x 13 t; get_x 14 t];
  mod_task caller (set_x 10 (if result <? 0 then error_value result else 0));;
  mret false.

Definition sys_try_recv (caller : nat) : K bool :=
  t ← get_task caller;
  '(result, message) ← try_recv (get_x 10 t) true;
  (if result <? 0 then mod_task caller (set_x 10 (error_value result))
   else
     (* [message] starts as [Message{}] and is filled on success *)
     let m := default zero_message message in
     mod_task caller (fun t =>
       set_x 15 (sender m) (set_x 14 (nth 3 (words m) 0) (set_x 13 (nth 2 (words m) 0)
         (set_x 12 (nth 1 (words m) 0) (set_x 11 (nth 0 (words m) 0) (set_x 10 0 t)))))));;
  mret false.

Definition sys_recv (caller : nat) : K bool :=
  t ← get_task caller;
  result ← recv caller (get_x 10 t);
  mret (match rr_status result with RecvStatus.blocked => true | _ => false end).

Definition sys_reserved (caller : nat) : K bool :=
  mod_task caller (set_x 10 (error_value kErrorNoSyscall));; mret false.

Definition sys_invalid (caller : nat) (number : Z) : K bool :=
  kprintk (marker "Invalid task syscall: %lu") [AWord number];;
  end_task caller 0 ExitStatus.crashed;;
  mret true.

(** The [switch]. *)
Definition syscall_switch (number : Z) (caller : nat) : K bool :=
  if number =? Num.YIELD then sys_yield caller
  else if number =? Num.CREATE then sys_create caller
  else if number =? Num.END then sys_end caller
  else if number =? Num.WAIT then sys_wait caller
  else if number =? Num.DETACH then sys_detach caller
  else if number =? Num.SLEEP then sys_sleep caller
  else if number =? Num.ENDPOINT_CREATE then sys_endpoint_create caller
  else if number =? Num.ENDPOINT_DESTROY then sys_endpoint_destroy caller
  else if number =? Num.SEND then sys_send caller
  else if number =? Num.TRY_RECV then sys_try_recv caller
  else if number =? Num.RECV then sys_recv caller
  else if (number =? Num.CALL) || (number =? Num.REPLY) then sys_reserved caller
  else sys_invalid caller number.

(** [None]: not a system call of a user task. *)
Definition try_handle (frame : TrapFrame) : K (option TrapFrame) :=
  if negb (is_exception_code (fr_mcause frame) ExceptionCode.environment_call_from_u)
     || negb (Z.land (fr_mstatus frame) kMstatusMppMask =? 0)
  then mret None
  else
    c ← get_current_task;
    match c with
    | None => mret None
    | Some caller =>
        save_current_context frame;;
        mod_task caller (fun t => t <| t_context := (t_context t) <| ctx_mepc := u64 (ctx_mepc (t_context t) + 4) |> |>);;
        t ← get_task caller;
        rescheduled ← syscall_switch (get_x 17 t) caller;
        frame' ← restore_current_context frame;
        when rescheduled arm_current_timeslice;;
        mret (Some frame')
    end.

(** ** trap.cpp *)

Definition try_handle_machine_timer_interrupt (frame : TrapFrame) : K (option TrapFrame) :=
  if negb (is_interrupt_code (fr_mcause frame) InterruptCode.machine_timer) then mret None
  else
    handle_interrupt;;
    if Z.land (fr_mstatus frame) kMstatusMppMask =? 0
    then f ← handle_timer_interrupt frame; mret (Some f)
    else mret (Some frame).

Definition try_recover_breakpoint (frame : TrapFrame) : K (option TrapFrame) :=
  if negb (is_exception_code (fr_mcause frame) ExceptionCode.breakpoint) then mret None
  else
    ms ← gets memsys;
    let decoded := decode_breakpoint_at (ms_mem ms) (fr_mepc frame) in
    if negb (recognized decoded) then mret None
    else mret (Some (frame <| fr_mepc := u64 (fr_mepc frame + instruction_length_bytes (bd_length decoded)) |>)).

(** [fatal] reports and stops the hart. *)
Definition fatal (frame_address : Z) (frame : TrapFrame) : K TrapFrame :=
  kprintk (newline :: marker "[Jixia][Microkernel][fatal trap]"
           ++ marker "frame     : %p" ++ marker "kind      : %s" ++ marker "mstatus   : %p"
           ++ marker "mcause    : %p" ++ marker "code      : %lu" ++ marker "mepc      : %p"
           ++ marker "mtval     : %p" ++ marker "saved sp  : %p" ++ marker "saved ra  : %p")
    [AWord frame_address;
     AText (Some (if is_interrupt (fr_mcause frame) then text "interrupt" else text "exception"));
     AWord (fr_mstatus frame); AWord (fr_mcause frame); AWord (cause_code (fr_mcause frame));
     AWord (fr_mepc frame); AWord (fr_mtval frame); AWord (nth 2 (fr_x frame) 0);
     AWord (nth 1 (fr_x frame) 0)];;
  park.

Definition dispatch (frame_address : Z) (frame : TrapFrame) : K TrapFrame :=
  r1 ← try_handle frame;
  match r1 with
  | Some f => mret f
  | None =>
      r2 ← try_handle_machine_timer_interrupt frame;
      match r2 with
      | Some f => mret f
      | None =>
          r3 ← try_recover_breakpoint frame;
          match r3 with
          | Some f => mret f
          | None => fatal frame_address frame
          end
      end
  end.
