(* ===== verification/Frame.v ===== *)
(** * What scheduling and messages never touch

    A small calculus for properties that hold of a kernel operation because
    of what it assigns, whatever the state: [keeps m] says that a run of [m]
    that returns leaves memory, page tables, the task and tracker tables'
    allocation, the tracker tree and the identity of every task and hart as
    they were.  It is closed under the combinators of the kernel monad, so the
    operations of the scheduler, the time manager and the endpoints satisfy it
    by their shape. *)
From Stdlib Require Import ZArith Lia.
From stdpp Require Import base tactics sets functions gmap list.
From S2P Require Import Prelude Console KernelTypes KernelInv RunQueue DelayQueue Scheduler TaskContext TimeManager Ipc TaskManager Arch Syscall.
Local Open Scope Z_scope.

(** ** The relation *)

(** The identity of a task: what it has from creation to end. *)
Definition kin (t : Task) :=
  (t_tid t, t_tracker t, t_idle t, t_affinity_pinned t, t_address_space t, t_stack_bottom t, t_stack_top t).

(** The identity of a hart. *)
Definition hart_kin (l : HartLocal) :=
  (hart_id l, h_index l, h_scheduler l, scheduler_extra l, delay_list l, idle_task l, trap_stack_top l).

(** The state that belongs to the task manager and to memory. *)
Definition tables (s : KState) :=
  (trackers s, task_slots_used s, tracker_slots_used s, root_tasks s, next_tid s, initial_task_id s,
   tm_initialized s, time_initialized s, (vmm s, memsys s)).

Record static (s s' : KState) : Prop := {
  st_tables : tables s' = tables s;
  st_tasks : forall i, kin <$> tasks s' !! i = kin <$> tasks s !! i;
  st_harts : forall h, hart_kin <$> harts s' !! h = hart_kin <$> harts s !! h;
  st_csrs : length (csrs s') = length (csrs s);
}.

#[export] Instance static_preorder : PreOrder static.
Proof.
  split; [by split|]. intros s1 s2 s3 [] []. split; [congruence|..|congruence].
  - intros i. rewrite st_tasks1. done.
  - intros h. rewrite st_harts1. done.
Qed.

Definition keeps {A} (m : K A) : Prop :=
  forall e s, match m e s with Done _ s' => static s s' | _ => True end.

(** ** Combinators *)

Lemma keeps_run {A} (m : K A) e s a s' : keeps m -> m e s = Done a s' -> static s s'.
Proof. intros Hm E. specialize (Hm e s). by rewrite E in Hm. Qed.

Lemma keeps_bind {A B} (m : K A) (k : A -> K B) : keeps m -> (forall a, keeps (k a)) -> keeps (mbind k m).
Proof.
  intros Hm Hk e s. specialize (Hm e s). unfold mbind, M_bind. destruct (m e s) as [a s1| | |]; try done.
  specialize (Hk a e s1). destruct (k a e s1); try done. by transitivity s1.
Qed.

Lemma keeps_ret {A} (a : A) : keeps (mret a : K A).
Proof. intros e s. by split. Qed.
Lemma keeps_gets {A} (f : KState -> A) : keeps (gets f).
Proof. intros e s. by split. Qed.
Lemma keeps_ask : keeps ask.
Proof. intros e s. by split. Qed.
Lemma keeps_park {A} : keeps (park : K A).
Proof. done. Qed.
Lemma keeps_diverge {A} : keeps (diverge : K A).
Proof. done. Qed.
Lemma keeps_undefined {A} : keeps (undefined : K A).
Proof. done. Qed.
Lemma keeps_deref {A} (o : option A) : keeps (deref o : K A).
Proof. destruct o; [apply keeps_ret|done]. Qed.
Lemma keeps_when b (m : K unit) : keeps m -> keeps (when b m).
Proof. destruct b; [done|]. intros _. apply keeps_ret. Qed.
Lemma keeps_modify f : (forall s, static s (f s)) -> keeps (modify f).
Proof. intros H e s. apply H. Qed.

Lemma keeps_get_task i : keeps (get_task i).
Proof. apply keeps_bind; [apply keeps_gets|]. intros. apply keeps_deref. Qed.
Lemma keeps_get_hart i : keeps (get_hart i).
Proof. apply keeps_bind; [apply keeps_gets|]. intros. apply keeps_deref. Qed.
Lemma keeps_get_endpoint i : keeps (get_endpoint i).
Proof. apply keeps_bind; [apply keeps_gets|]. intros. apply keeps_deref. Qed.
Lemma keeps_get_run_queue q : keeps (get_run_queue q).
Proof. apply keeps_bind; [apply keeps_gets|]. intros. apply keeps_deref. Qed.
Lemma keeps_get_csr i : keeps (get_csr i).
Proof. apply keeps_bind; [apply keeps_gets|]. intros. apply keeps_deref. Qed.

Lemma alter_image {A B} (p : A -> B) f i (l : list A) :
  (forall x, p (f x) = p x) -> forall j, p <$> alter f i l !! j = p <$> l !! j.
Proof.
  intros Hf j. rewrite lookup_alter_if. destruct (l !! j); [|done]. simpl. case_decide; simpl; by rewrite ?Hf.
Qed.

Lemma keeps_mod_task i f : (forall t, kin (f t) = kin t) -> keeps (mod_task i f).
Proof.
  intros Hf. apply keeps_bind; [apply keeps_get_task|]. intros _. apply keeps_modify. intros s. split; try done.
  by apply alter_image.
Qed.
Lemma keeps_mod_hart i f : (forall l, hart_kin (f l) = hart_kin l) -> keeps (mod_hart i f).
Proof.
  intros Hf. apply keeps_bind; [apply keeps_get_hart|]. intros _. apply keeps_modify. intros s. split; try done.
  by apply alter_image.
Qed.
Lemma keeps_mod_endpoint i f : keeps (mod_endpoint i f).
Proof. apply keeps_bind; [apply keeps_get_endpoint|]. intros _. by apply keeps_modify. Qed.
Lemma keeps_mod_csr i f : keeps (mod_csr i f).
Proof.
  apply keeps_bind; [apply keeps_get_csr|]. intros _. apply keeps_modify. intros s. split; try done.
  rproj. by rewrite length_alter.
Qed.
Lemma keeps_mod_run_queue q f : keeps (mod_run_queue q f).
Proof. apply keeps_bind; [apply keeps_get_run_queue|]. intros _. apply keeps_modify. by destruct q. Qed.

Lemma keeps_with_lock {A} l (m : K A) : keeps m -> keeps (with_lock l m).
Proof.
  intros Hm. unfold with_lock, lock, unlock. apply keeps_bind.
  - apply keeps_bind; [apply keeps_gets|]. intros hs. case_bool_decide; [done|]. by apply keeps_modify.
  - intros _. apply keeps_bind; [done|]. intros a. apply keeps_bind; [by apply keeps_modify|].
    intros _. apply keeps_ret.
Qed.

Lemma keeps_kprintk format args : keeps (kprintk format args).
Proof. intros e s. unfold kprintk. by destruct (printk format args (console s)). Qed.

Create HintDb frame.
#[export] Hint Resolve keeps_ret keeps_gets keeps_ask keeps_park keeps_diverge keeps_undefined keeps_deref
  keeps_get_task keeps_get_hart keeps_get_endpoint keeps_get_run_queue keeps_get_csr keeps_mod_endpoint
  keeps_mod_csr keeps_mod_run_queue keeps_kprintk : frame.

(** Takes an operation apart down to its primitives. *)
Ltac keeps_step :=
  lazymatch goal with
  | |- keeps (mbind _ _) => apply keeps_bind; [|intros ?]
  | |- keeps (with_lock _ _) => apply keeps_with_lock
  | |- keeps (when _ _) => apply keeps_when
  | |- keeps (mod_task _ _) => apply keeps_mod_task; by intros ?
  | |- keeps (mod_hart _ _) => apply keeps_mod_hart; by intros ?
  | |- keeps (modify _) => apply keeps_modify; by intros ?
  | |- keeps (let _ := _ in _) => cbv zeta
  | |- keeps (match ?x with _ => _ end) => destruct x
  | |- keeps (if ?x then _ else _) => destruct x
  end.
Ltac keeps := repeat first [solve [eauto with frame nocore]|keeps_step].

(** ** Scheduler and time manager *)

Lemma keeps_current_hart : keeps current_hart.
Proof. unfold current_hart. keeps. Qed.
#[export] Hint Resolve keeps_current_hart : frame.
Lemma keeps_current : keeps current.
Proof. unfold current. keeps. Qed.
#[export] Hint Resolve keeps_current : frame.
Lemma keeps_read_time : keeps read_time.
Proof. unfold read_time. keeps. Qed.
#[export] Hint Resolve keeps_read_time : frame.

Lemma keeps_RunQueue_insert q i : keeps (RunQueue_insert q i).
Proof. unfold RunQueue_insert. keeps. Qed.
Lemma keeps_RunQueue_remove q : keeps (RunQueue_remove q).
Proof. unfold RunQueue_remove. keeps. Qed.
Lemma keeps_RunQueue_size q : keeps (RunQueue_size q).
Proof. unfold RunQueue_size. keeps. Qed.
#[export] Hint Resolve keeps_RunQueue_insert keeps_RunQueue_remove keeps_RunQueue_size : frame.

Lemma keeps_get_delay_head h : keeps (get_delay_head h).
Proof. unfold get_delay_head. keeps. Qed.
#[export] Hint Resolve keeps_get_delay_head : frame.
Lemma keeps_set_delay_head h v : keeps (set_delay_head h v).
Proof. unfold set_delay_head. keeps. Qed.
Lemma keeps_delay_scan fuel p c d : keeps (delay_scan fuel p c d).
Proof. revert p c. induction fuel; intros p c; cbn [delay_scan]; keeps. Qed.
#[export] Hint Resolve keeps_set_delay_head keeps_delay_scan : frame.
Lemma keeps_DelayQueue_insert h i d : keeps (DelayQueue_insert h i d).
Proof. unfold DelayQueue_insert. keeps. Qed.
Lemma keeps_remove_expired h now : keeps (remove_expired h now).
Proof. unfold remove_expired. keeps. Qed.
Lemma keeps_ticks_until_next h now m : keeps (ticks_until_next h now m).
Proof. unfold ticks_until_next. keeps. Qed.
#[export] Hint Resolve keeps_DelayQueue_insert keeps_remove_expired keeps_ticks_until_next : frame.

Lemma keeps_get_current_task : keeps get_current_task.
Proof. unfold get_current_task. keeps. Qed.
Lemma keeps_set_current_task i : keeps (set_current_task i).
Proof. unfold set_current_task. keeps. Qed.
Lemma keeps_idle_timeslice_ticks l : keeps (idle_timeslice_ticks l).
Proof. unfold idle_timeslice_ticks. keeps. Qed.
Lemma keeps_add_task i : keeps (add_task i).
Proof. unfold add_task. keeps. Qed.
Lemma keeps_scheduler_of i : keeps (scheduler_of i).
Proof. unfold scheduler_of. keeps. Qed.
#[export] Hint Resolve keeps_get_current_task keeps_set_current_task keeps_idle_timeslice_ticks keeps_add_task
  keeps_scheduler_of : frame.
Lemma keeps_return_runnable : keeps return_runnable.
Proof. unfold return_runnable. keeps. Qed.
Lemma keeps_set_next_runnable : keeps set_next_runnable.
Proof. unfold set_next_runnable. keeps. Qed.
#[export] Hint Resolve keeps_return_runnable keeps_set_next_runnable : frame.

Lemma keeps_delay_task i a b : keeps (delay_task i a b).
Proof. unfold delay_task. keeps. Qed.
Lemma keeps_release_loop fuel q now : keeps (release_loop fuel q now).
Proof. induction fuel; cbn [release_loop]; keeps. Qed.
#[export] Hint Resolve keeps_delay_task keeps_release_loop : frame.
Lemma keeps_check_release_tasks : keeps check_release_tasks.
Proof. unfold check_release_tasks. keeps. Qed.
Lemma keeps_arm_task_deadline d : keeps (arm_task_deadline d).
Proof. unfold arm_task_deadline, set_compare, enable_machine_timer_interrupt. keeps. Qed.
#[export] Hint Resolve keeps_check_release_tasks keeps_arm_task_deadline : frame.
Lemma keeps_arm_current_timeslice : keeps arm_current_timeslice.
Proof. unfold arm_current_timeslice. keeps. Qed.
Lemma keeps_save_current_context f : keeps (save_current_context f).
Proof. unfold save_current_context, read_satp. keeps. Qed.
Lemma keeps_restore_current_context f : keeps (restore_current_context f).
Proof. unfold restore_current_context. keeps. Qed.
#[export] Hint Resolve keeps_arm_current_timeslice keeps_save_current_context keeps_restore_current_context : frame.
Lemma keeps_handle_timer_interrupt f : keeps (handle_timer_interrupt f).
Proof. unfold handle_timer_interrupt. keeps. Qed.
Lemma keeps_handle_interrupt : keeps handle_interrupt.
Proof. unfold handle_interrupt, disable_machine_timer_interrupt, disarm, set_compare. keeps. Qed.
#[export] Hint Resolve keeps_handle_timer_interrupt keeps_handle_interrupt : frame.

(** ** Endpoints *)

Lemma keeps_waiter_push w i : keeps (waiter_push w i).
Proof. unfold waiter_push. keeps. Qed.
Lemma keeps_waiter_pop w : keeps (waiter_pop w).
Proof. unfold waiter_pop. keeps. Qed.
Lemma keeps_pop_message w : keeps (pop_message w).
Proof. unfold pop_message. keeps. Qed.
Lemma keeps_write_recv_registers i a m : keeps (write_recv_registers i a m).
Proof. unfold write_recv_registers. keeps. Qed.
Lemma keeps_check_endpoint_invariant p : keeps (check_endpoint_invariant p).
Proof. unfold check_endpoint_invariant. keeps. Qed.
#[export] Hint Resolve keeps_waiter_push keeps_waiter_pop keeps_pop_message keeps_write_recv_registers
  keeps_check_endpoint_invariant : frame.
Lemma keeps_create_scan o i n : keeps (create_scan o i n).
Proof. revert i. induction n; intros i; cbn [create_scan]; keeps. Qed.
Lemma keeps_wake_all fuel w : keeps (wake_all fuel w).
Proof. induction fuel; cbn [wake_all]; keeps. Qed.
#[export] Hint Resolve keeps_create_scan keeps_wake_all : frame.
Lemma keeps_create_endpoint o b : keeps (create_endpoint o b).
Proof. unfold create_endpoint. keeps. Qed.
Lemma keeps_destroy_endpoint c h : keeps (destroy_endpoint c h).
Proof. unfold destroy_endpoint. keeps. Qed.
Lemma keeps_send t h p : keeps (send t h p).
Proof. unfold send. keeps. Qed.
Lemma keeps_try_recv h b : keeps (try_recv h b).
Proof. unfold try_recv. keeps. Qed.
Lemma keeps_recv i h : keeps (recv i h).
Proof. unfold recv. keeps. Qed.
#[export] Hint Resolve keeps_create_endpoint keeps_destroy_endpoint keeps_send keeps_try_recv keeps_recv : frame.

(** ** System calls *)

Lemma keeps_detach_task i : keeps (detach_task i).
Proof. unfold detach_task. keeps. Qed.
Lemma keeps_mark set m : keeps (mark set m).
Proof. unfold mark. keeps. Qed.
#[export] Hint Resolve keeps_detach_task keeps_mark : frame.
