(* ===== verification/Lifetime.v ===== *)
(** * Creation, end and wait

    The invariant that ties the task table to the tracker forest, and the
    operations of [microkernel/core/task_manager.cpp] that move tasks through
    their life: [create_task], [end_task], [wait_task] and [detach_task].
    Each is shown to keep the kernel invariant and the lineage, and what it
    does to the forest and to the caller is stated branch by branch. *)
From Stdlib Require Import ZArith Lia.
From stdpp Require Import base tactics sets functions gmap list.
From S2P Require Import Prelude DList Memory Lifecycle PageManager Sv39 Vmm KernelTypes KernelInv Demo RunQueue DelayQueue Scheduler TaskContext TimeManager Ipc IpcProps TaskManager Trackers Arch Syscall Frame.
Local Open Scope Z_scope.

(** ** The lineage invariant *)

(** A task blocked in [wait_task]. *)
Definition waiting (s : KState) (t : Task) : Prop :=
  t_state t = TaskState.blocked_join /\ t_idle t = false /\ cpu_bound s t.

(** Task [X] and tracker [Z] are in the middle of being dismantled. *)
Record Lineage (X Z : option nat) (s : KState) (F : family) : Prop := {
  li_tree : tree s F ∅;
  li_acyclic : acyclic F;
  li_root : forall c, c ∈ F None -> Some c <> Z -> live_tracker (trackers s) c;
  li_slots : length (task_slots_used s) = kMaxTasks;
  li_task : forall i, Some i <> X -> task_slots_used s !! i = Some true ->
    exists t k tr, tasks s !! i = Some t /\ t_tracker t = Some k /\
      tracker_slots_used s !! k = Some true /\ trackers s !! k = Some tr /\ k_task tr = Some i;
  li_tracker : forall k tr i, tracker_slots_used s !! k = Some true -> trackers s !! k = Some tr -> k_task tr = Some i ->
    Some i <> X /\ task_slots_used s !! i = Some true /\ exists t, tasks s !! i = Some t /\ t_tracker t = Some k;
  li_wait : forall k tr, tracker_slots_used s !! k = Some true -> trackers s !! k = Some tr -> wi_active (k_wait tr) = true ->
    exists i t, k_task tr = Some i /\ tasks s !! i = Some t /\ waiting s t;
}.

(** Two tasks never share a tracker. *)
Lemma lineage_inj X Z s F i j ti tj k :
  Lineage X Z s F -> Some i <> X -> Some j <> X -> task_slots_used s !! i = Some true -> task_slots_used s !! j = Some true ->
  tasks s !! i = Some ti -> tasks s !! j = Some tj -> t_tracker ti = Some k -> t_tracker tj = Some k -> i = j.
Proof.
  intros HL Hi Hj Ui Uj Ti Tj Ki Kj.
  destruct (li_task _ _ _ _ HL i Hi Ui) as (t1&k1&tr1&E1&E2&_&E3&E4), (li_task _ _ _ _ HL j Hj Uj) as (t2&k2&tr2&D1&D2&_&D3&D4).
  congruence.
Qed.

Lemma live_entry (ks ks' : list TaskTracker) j :
  entry <$> ks' !! j = entry <$> ks !! j -> live_tracker ks j -> live_tracker ks' j.
Proof. intros E [i Hi]. exists i. by rewrite (entry_task ks ks' j E). Qed.

(** Tasks that are not waiting for a child may change outside their identity. *)
Lemma Lineage_frame X Z s s' F :
  Lineage X Z s F -> static s s' ->
  (forall k tr i t, tracker_slots_used s !! k = Some true -> trackers s !! k = Some tr -> wi_active (k_wait tr) = true ->
     k_task tr = Some i -> tasks s !! i = Some t -> waiting s t -> exists t', tasks s' !! i = Some t' /\ waiting s' t') ->
  Lineage X Z s' F.
Proof.
  intros [L1 L2 L3 L4 L5 L6 L7] [Htab Hkin _ _] Hw. unfold tables in Htab.
  injection Htab as E1 E2 E3 E4 _ _ _ _ _ _.
  assert (forall i t, tasks s !! i = Some t -> exists t', tasks s' !! i = Some t' /\ t_tracker t' = t_tracker t) as Hk.
  { intros i t Ht. specialize (Hkin i). rewrite Ht in Hkin. apply fmap_Some in Hkin as (t'&Ht'&E). exists t'. split; [done|].
    unfold kin in E. congruence. }
  split; rewrite ?E1, ?E2, ?E3, ?E4; auto.
  - intros i Hi Hu. destruct (L5 i Hi Hu) as (t&k&tr&Ht&?&?&?&?). destruct (Hk i t Ht) as (t'&Ht'&Et). exists t', k, tr.
    by rewrite Et.
  - intros k tr i Hu Htr Hi. destruct (L6 k tr i Hu Htr Hi) as (?&?&t&Ht&?). split_and!; auto.
    destruct (Hk i t Ht) as (t'&Ht'&Et). exists t'. by rewrite Et.
  - intros k tr Hu Htr Ha. destruct (L7 k tr Hu Htr Ha) as (i&t&Hi&Ht&Hwt).
    destruct (Hw k tr i t Hu Htr Ha Hi Ht Hwt) as (t'&?&?). by exists i, t'.
Qed.

(** ** Waiting tasks are left alone *)

(** Every waiting task is as it was. *)
Definition joiners (s s' : KState) : Prop :=
  forall x t, tasks s !! x = Some t -> waiting s t -> core <$> tasks s' !! x = Some (core t).

Lemma cpu_bound_static s s' t : static s s' -> cpu_bound s t -> cpu_bound s' t.
Proof.
  intros Hst (c&hl&Hc&Hl&Hs). pose proof (st_harts _ _ Hst c) as E. rewrite Hl in E.
  apply fmap_Some in E as (l'&Hl'&E). exists c, l'. split_and!; auto. unfold hart_kin in E. congruence.
Qed.

Lemma waiting_core s s' t t' : static s s' -> core t' = core t -> waiting s t -> waiting s' t'.
Proof.
  intros Hst (E1&E2&E3&_)%core_inv (W1&W2&W3). unfold waiting. rewrite E1, E2. split_and!; auto.
  apply (cpu_bound_static s); [done|]. unfold cpu_bound. by rewrite E3.
Qed.

Lemma joiners_trans s1 s2 s3 : joiners s1 s2 -> static s1 s2 -> joiners s2 s3 -> joiners s1 s3.
Proof.
  intros H1 Hst H2 x t Ht Hw. specialize (H1 x t Ht Hw). apply fmap_Some in H1 as (t2&Ht2&E).
  rewrite E. apply H2; [done|]. by eapply waiting_core.
Qed.

Lemma joiners_Lineage X Z s s' F : Lineage X Z s F -> static s s' -> joiners s s' -> Lineage X Z s' F.
Proof.
  intros HL Hst Hj. eapply Lineage_frame; [done..|]. intros k tr i t _ _ _ _ Ht Hw.
  specialize (Hj i t Ht Hw). apply fmap_Some in Hj as (t'&Ht'&E). exists t'. split; [done|]. by eapply waiting_core.
Qed.

Lemma joiners_only i s s' :
  only_task i s s' -> (forall t, tasks s !! i = Some t -> ~ waiting s t) -> joiners s s'.
Proof.
  intros [_ Hot] Hi x t Ht Hw. destruct (decide (x = i)) as [->|Hne]; [by destruct (Hi t Ht)|].
  rewrite Hot by done. by rewrite Ht.
Qed.

Lemma joiners_same s s' : tasks s' = tasks s -> joiners s s'.
Proof. intros E x t Ht _. by rewrite E, Ht. Qed.

(** Neither a queued task, nor the task of a hart, nor an idle one waits. *)
Lemma waiting_joining s t : waiting s t -> joining t.
Proof. by intros (?&?&_). Qed.

Lemma undisturbed_joiners s s' : undisturbed s s' -> joiners s s'.
Proof. intros H x t Ht Hw. by eapply H, waiting_joining. Qed.

Lemma queued_not_waiting s C q i t : Inv s C -> i ∈ C q -> tasks s !! i = Some t -> ~ waiting s t.
Proof. intros HI Hi Ht Hw%waiting_joining. by eapply queued_not_joining. Qed.

Lemma running_not_waiting s h hl i t :
  Running None s -> harts s !! h = Some hl -> current_task hl = Some i -> tasks s !! i = Some t -> ~ waiting s t.
Proof. intros HR Hh Hc Ht Hw%waiting_joining. by eapply running_not_joining. Qed.

Lemma pick_not_waiting s C h hl it t :
  Inv s C -> harts s !! h = Some hl -> h_scheduler hl = true -> idle_task hl = Some it ->
  tasks s !! (pick h it C).1 = Some t -> ~ waiting s t.
Proof. intros HI Hh Hs Hit Ht Hw%waiting_joining. by eapply pick_not_joining. Qed.

(** A property by shape, added to a specification. *)
Lemma wp_keeps {A} pk (m : K A) (Q : A -> KState -> Prop) e s :
  keeps m -> wp pk m (fun a s' => static s s' -> Q a s') e s -> wp pk m Q e s.
Proof. intros Hm. specialize (Hm e s). unfold wp. destruct (m e s); auto. Qed.

(** ** The task table *)

(** A slot outside every queue is filled or freed. *)
Lemma Inv_slot s s' C i t t' b :
  Inv s C -> tasks s !! i = Some t -> (forall k, flag_of k t = false) -> (forall k, flag_of k t' = false) ->
  length (ctx_x (t_context t')) = 32%nat -> tasks s' = <[i := t']> (tasks s) ->
  task_slots_used s' = <[i := b]> (task_slots_used s) ->
  (forall h hl, harts s !! h = Some hl -> h_scheduler hl = true -> idle_task hl <> Some i) ->
  harts s' = harts s -> endpoints s' = endpoints s -> slot_allocated s' = slot_allocated s ->
  delay_queues s' = delay_queues s -> (forall q, get_rq q s' = get_rq q s) -> ordered (lock_log s') -> Inv s' C.
Proof.
  intros HI Ht Hf Hf' Hctx Ets Eu Hidle Eh Ee Es Ed Er Hlog. pose proof (inv_q _ _ HI) as HC.
  pose proof (qstruct_free s C i t HC Ht Hf) as Hfree.
  assert (tasks s' !! i = Some t') as Hi by (rewrite Ets; apply list_lookup_insert_eq; by eapply lookup_lt_Some).
  assert (forall j, j <> i -> tasks s' !! j = tasks s !! j /\ task_slots_used s' !! j = task_slots_used s !! j) as Hoth
    by (intros j Hj; rewrite Ets, Eu, !list_lookup_insert_ne; done).
  assert (forall q j, j ∈ C q -> j <> i) as Hne by (intros q j Hj ->; by apply (Hfree q)).
  destruct HI as [_ I1 I2 I3 I4 I5 I6 I7 I8]. split; rewrite ?Ee, ?Es; auto.
  - destruct HC as [Q1 Q2 Q3 Q4 Q5]. split; auto.
    + intros q Hv. destruct (Q1 q Hv) as (hd&tl&Hh&Hd). exists hd, tl. split.
      * revert Hh. destruct q as [r|h|w]; simpl; by rewrite ?Er, ?Ed, ?Ee.
      * eapply dlist_agree; [|exact Hd]. intros x Hx. unfold task_links. destruct (Hoth x (Hne q x Hx)) as [-> _]. done.
    + intros k j tj Hj. destruct (decide (j = i)) as [->|Hji].
      * rewrite Hi in Hj. injection Hj as <-. rewrite Hf'. split; [done|]. intros (q&_&Hq). by destruct (Hfree q).
      * destruct (Hoth j Hji) as [E _]. rewrite E in Hj. by apply Q5.
  - intros q j tj Hj Htj. destruct (Hoth j (Hne q j Hj)) as [E ->]. rewrite E in Htj.
    destruct (I1 q j tj Hj Htj) as (?&?&Hc&?). split_and!; auto. unfold cpu_bound. by rewrite Eh.
  - intros h. eapply by_deadline_agree; [|apply I2]. intros j Hj. unfold deadline_of. by destruct (Hoth j (Hne _ j Hj)) as [-> _].
  - by rewrite Ets, length_insert.
  - intros j tj Hj. destruct (decide (j = i)) as [->|Hji]; [congruence|]. destruct (Hoth j Hji) as [E _]. rewrite E in Hj. eauto.
  - rewrite Eh. intros h hl Hl Hs. destruct (I5 h hl Hl Hs) as (?&?&?&it&Hit&[Hid Hus]). split_and!; auto. exists it. split; [done|].
    assert (it <> i) as Hni by (intros ->; by apply (Hidle h hl Hl Hs)). destruct (Hoth it Hni) as [E1 E2].
    split; [by rewrite E1|by rewrite E2].
  - by rewrite Eh.
Qed.

Lemma Running_slot X s s' i t' b :
  Running X s -> tasks s' = <[i := t']> (tasks s) -> task_slots_used s' = <[i := b]> (task_slots_used s) -> harts s' = harts s ->
  (forall h hl, Some h <> X -> harts s !! h = Some hl -> current_task hl <> Some i) -> Running X s'.
Proof.
  intros [R1 R2] Et Eu Eh Hni. split; rewrite Eh; [|done]. intros h hl j HX Hl Hc.
  assert (j <> i) as Hj by (intros ->; by apply (Hni h hl HX Hl)).
  rewrite Et, Eu, !list_lookup_insert_ne by done. by apply (R1 h hl j).
Qed.

(** ** Steps of the lineage *)

(** The tracker's task has ended. *)
Lemma Lineage_bury s F i t k tr f :
  Lineage None None s F -> task_slots_used s !! i = Some true -> tasks s !! i = Some t -> t_tracker t = Some k ->
  trackers s !! k = Some tr -> wi_active (k_wait tr) = false ->
  (forall k, k_parent (f k) = k_parent k /\ k_first_child (f k) = k_first_child k /\
     k_previous_sibling (f k) = k_previous_sibling k /\ k_next_sibling (f k) = k_next_sibling k) ->
  k_task (f tr) = None -> k_wait (f tr) = k_wait tr ->
  Lineage (Some i) (Some k) (set_field trackers (alter f k) s) F.
Proof.
  intros [L1 L2 L3 L4 L5 L6 L7] Hu Ht Hk Htr Hw Hf Hft Hfw.
  assert (forall k', k' <> k -> alter f k (trackers s) !! k' = trackers s !! k') as Hoth by (intros; by rewrite list_lookup_alter_ne).
  assert (alter f k (trackers s) !! k = Some (f tr)) as Hk' by (by rewrite list_lookup_alter_eq, Htr).
  split; auto.
  - by apply forest_entry.
  - intros c Hc Hck. destruct (L3 c Hc ltac:(done)) as [j Hj]. exists j. rproj. rewrite Hoth by congruence. done.
  - intros j Hj Huj. destruct (L5 j ltac:(done) Huj) as (tj&kj&trj&?&Hkj&?&Htrj&?). exists tj, kj, trj. split_and!; auto. rproj.
    rewrite Hoth; [done|]. intros ->. rewrite Htr in Htrj. injection Htrj as <-.
    destruct (L5 i ltac:(done) Hu) as (t0&k0&tr0&?&?&?&?&?). congruence.
  - intros k' tr' j Hu' Htr' Hj. rproj_in Htr'. destruct (decide (k' = k)) as [->|Hne]; [congruence|].
    rewrite Hoth in Htr' by done. destruct (L6 k' tr' j Hu' Htr' Hj) as (_&?&tj&?&?). split_and!; eauto. congruence.
  - intros k' tr' Hu' Htr' Ha. rproj_in Htr'. destruct (decide (k' = k)) as [->|Hne]; [congruence|].
    rewrite Hoth in Htr' by done. by apply (L7 k' tr').
Qed.

(** Changes of a tracker that start no wait. *)
Lemma Lineage_entry X Z s F p f :
  Lineage X Z s F ->
  (forall k, k_parent (f k) = k_parent k /\ k_first_child (f k) = k_first_child k /\
     k_previous_sibling (f k) = k_previous_sibling k /\ k_next_sibling (f k) = k_next_sibling k) ->
  (forall k, k_task (f k) = k_task k /\ (wi_active (k_wait (f k)) = true -> wi_active (k_wait k) = true)) ->
  Lineage X Z (set_field trackers (alter f p) s) F.
Proof.
  intros [L1 L2 L3 L4 L5 L6 L7] Hf Hg.
  assert (forall k tr', alter f p (trackers s) !! k = Some tr' -> exists tr, trackers s !! k = Some tr /\ k_task tr' = k_task tr /\
    (wi_active (k_wait tr') = true -> wi_active (k_wait tr) = true)) as Hback.
  { intros k tr' Hk. rewrite lookup_alter_if in Hk. apply fmap_Some in Hk as (tr&Htr&->). exists tr. split; [done|].
    case_decide; [apply Hg|by split]. }
  assert (forall k, k_task <$> alter f p (trackers s) !! k = k_task <$> trackers s !! k) as Htask.
  { intros k. apply alter_image. intros tr. apply Hg. }
  split; auto.
  - by apply forest_entry.
  - intros c Hc Hz. destruct (L3 c Hc Hz) as [i Hi]. exists i. rproj. by rewrite Htask.
  - intros i Hi Hu. destruct (L5 i Hi Hu) as (t&k&tr&?&?&?&Htr&Htk). specialize (Htask k). rewrite Htr in Htask.
    apply fmap_Some in Htask as (tr'&Htr'&E). exists t, k, tr'. split_and!; auto. simpl in E. congruence.
  - intros k tr' i Hu Htr' Hi. destruct (Hback k tr' Htr') as (tr&Htr&E&_). apply (L6 k tr); [done..|congruence].
  - intros k tr' Hu Htr' Ha. destruct (Hback k tr' Htr') as (tr&Htr&E&Hact). rewrite E. apply (L7 k tr); auto.
Qed.

(** A completed tracker is removed. *)
Lemma Lineage_prune X Z s F x ks' root' used' F' :
  Lineage X Z s F -> completed (trackers s) x -> Z = None \/ Z = Some x ->
  forest ks' root' used' F' ∅ -> acyclic F' -> pruned (trackers s) (tracker_slots_used s) F x ks' used' F' ->
  Lineage X None (with_forest ks' root' used' s) F'.
Proof.
  intros [L1 L2 L3 L4 L5 L6 L7] Hcx HZ HF' Hac [[G1 G2] Heach Hroot].
  assert (forall j i, k_task <$> trackers s !! j = Some (Some i) ->
    used' !! j = tracker_slots_used s !! j /\ entry <$> ks' !! j = entry <$> trackers s !! j) as Hlive.
  { intros j i Hj. destruct (decide (j = x)) as [->|Hne]; [unfold completed in Hcx; congruence|].
    destruct (Heach j Hne) as [?|(_&_&Hc)]; [done|]. unfold completed in Hc. congruence. }
  assert (forall k tr', used' !! k = Some true -> ks' !! k = Some tr' ->
    tracker_slots_used s !! k = Some true /\ exists tr, trackers s !! k = Some tr /\ entry tr' = entry tr) as Hback.
  { intros k tr' Hu Htr'. destruct (decide (k = x)) as [->|Hne]; [congruence|].
    destruct (Heach k Hne) as [(E1&E2)|(E&_)]; [|congruence]. split; [congruence|]. rewrite Htr' in E2. symmetry in E2.
    apply fmap_Some in E2 as (tr&Htr&E2). by exists tr. }
  split; auto.
  - intros c Hc _. assert (live_tracker (trackers s) c) as [i Hi].
    { destruct (Hroot c Hc) as [[H1 H2]|H1]; [|done]. apply L3; [done|]. destruct HZ; congruence. }
    destruct (Hlive c i Hi) as [_ E]. exists i. rewrite <- Hi. by apply (entry_task (trackers s) ks').
  - intros i Hi Hu. destruct (L5 i Hi Hu) as (t&k&tr&?&?&Huk&Htr&Htk).
    destruct (Hlive k i) as [E1 E2]; [by rewrite Htr; simpl; rewrite Htk|]. rewrite Htr in E2.
    apply fmap_Some in E2 as (tr'&Htr'&E). apply entry_inv in E as (_&E&_). exists t, k, tr'. split_and!; auto; simpl; congruence.
  - intros k tr' i Hu Htr' Hi. destruct (Hback k tr' Hu Htr') as (Huk&tr&Htr&(_&E&_)%entry_inv). apply (L6 k tr); [done..|congruence].
  - intros k tr' Hu Htr' Ha. destruct (Hback k tr' Hu Htr') as (Huk&tr&Htr&(_&E&_&Ew)%entry_inv). rewrite E.
    apply (L7 k tr); [done..|congruence].
Qed.

(** A zombie that is nobody's root may stay. *)
Lemma Lineage_zombie X k s F : Lineage X (Some k) s F -> k ∉ F None -> Lineage X None s F.
Proof. intros [L1 L2 L3 L4 L5 L6 L7] Hk. split; auto. intros c Hc _. apply L3; [done|]. congruence. Qed.

(** The slot of the ended task is freed. *)
Lemma Lineage_free i s s' F t' :
  Lineage (Some i) None s F -> trackers s' = trackers s -> root_tasks s' = root_tasks s ->
  tracker_slots_used s' = tracker_slots_used s -> harts s' = harts s ->
  tasks s' = <[i := t']> (tasks s) -> task_slots_used s' = <[i := false]> (task_slots_used s) -> Lineage None None s' F.
Proof.
  intros [L1 L2 L3 L4 L5 L6 L7] E1 E2 E3 E4 E5 E6.
  assert (forall j, j <> i -> tasks s' !! j = tasks s !! j /\ task_slots_used s' !! j = task_slots_used s !! j) as Hoth
    by (intros j Hj; rewrite E5, E6, !list_lookup_insert_ne; done).
  split; rewrite ?E1, ?E2, ?E3; auto.
  - by rewrite E6, length_insert.
  - intros j _ Hu. destruct (decide (j = i)) as [->|Hj].
    { rewrite E6, list_lookup_insert in Hu. case_decide as Hd; [done|]. apply lookup_lt_Some in Hu. by destruct Hd. }
    destruct (Hoth j Hj) as [-> E]. rewrite E in Hu. apply L5; [congruence|done].
  - intros k tr j Hu Htr Hj. destruct (L6 k tr j Hu Htr Hj) as (Hne&Huj&t&Ht&?). assert (j <> i) as Hji by congruence.
    destruct (Hoth j Hji) as [-> ->]. split_and!; eauto.
  - intros k tr Hu Htr Ha. destruct (L7 k tr Hu Htr Ha) as (j&t&Hj&Ht&Hw). destruct (L6 k tr j Hu Htr Hj) as (Hne&_).
    exists j, t. destruct (Hoth j ltac:(congruence)) as [-> _]. split_and!; auto. unfold waiting, cpu_bound. by rewrite E4.
Qed.

(** ** Freeing a slot *)

(** What operations on the task table leave alone, apart from memory. *)
Record table_frame (s s' : KState) : Prop := {
  tf_harts : harts s' = harts s; tf_eps : endpoints s' = endpoints s; tf_slots : slot_allocated s' = slot_allocated s;
  tf_delay : delay_queues s' = delay_queues s; tf_rq : forall q, get_rq q s' = get_rq q s; tf_log : lock_log s' = lock_log s;
  tf_held : held s' = held s; tf_csrs : csrs s' = csrs s; tf_time : time_initialized s' = time_initialized s;
}.

Lemma release_task_spec pk i t (Q : unit -> KState -> Prop) e s :
  tasks s !! i = Some t -> length (tasks s) = kMaxTasks -> (forall k, flag_of k t = false) ->
  (forall s', tasks s' = <[i := zero_task]> (tasks s) -> task_slots_used s' = <[i := false]> (task_slots_used s) ->
     table_frame s s' -> trackers s' = trackers s -> root_tasks s' = root_tasks s ->
     tracker_slots_used s' = tracker_slots_used s -> next_tid s' = next_tid s -> Q tt s') ->
  wp pk (release_task_locked i) Q e s.
Proof.
  intros Ht Hlen Hf HQ. unfold release_task_locked. pose proof (lookup_lt_Some _ _ _ Ht) as Hlt. rewrite Hlen in Hlt.
  rewrite (proj2 (Nat.leb_gt _ _)) by done. ksteps.
  rewrite (Hf LkRun : t_queued t = false), (Hf LkDelay : d_queued (t_delay t) = false),
    (Hf LkWait : w_queued (t_message_wait t) = false). cbn [orb]. apply wp_bind.
  assert (forall s1, tasks s1 = tasks s -> task_slots_used s1 = task_slots_used s -> table_frame s s1 ->
    trackers s1 = trackers s -> root_tasks s1 = root_tasks s -> tracker_slots_used s1 = tracker_slots_used s ->
    next_tid s1 = next_tid s -> wp pk (mod_task i (fun _ => zero_task);; modify (fun s => s <| task_slots_used := <[i := false]> (task_slots_used s) |>)) Q e s1) as Htail.
  { intros s1 E1 E2 [] E3 E4 E5 E6. apply wp_bind, wp_mod_task; [rewrite E1; by exists t|]. apply wp_modify, HQ; try done.
    - rproj. by rewrite E1, (alter_insert _ i _ t Ht).
    - rproj. by rewrite E2. }
  case_match; [apply wp_ret|unfold kclear_bytes; apply wp_modify]; by apply Htail.
Qed.

(** ** The end of a task *)

(** The task that the end of [t], with tracker [k], wakes. *)
Definition joiner_of (s : KState) (t : Task) (k : nat) : option nat :=
  if t_detached t then None else
  match trackers s !! k with
  | Some tr => match k_parent tr with
               | Some p => match trackers s !! p with
                           | Some pt => if wi_active (k_wait pt) &&
                                          ((wi_tid (k_wait pt) <? 0) || (wi_tid (k_wait pt) =? sext 64 (t_tid t)))
                                        then k_task pt else None
                           | None => None
                           end
               | None => None
               end
  | None => None
  end.

(** The tracker of the ended task is removed, unless it stays for a parent
    that has not asked for it yet. *)
Definition kept_zombie (s : KState) (t : Task) (k : nat) : bool :=
  negb (t_detached t) && bool_decide (joiner_of s t k = None) &&
  match trackers s !! k with Some tr => bool_decide (k_parent tr <> None) | None => false end.

(** The queues after the end: a waiting parent is made ready. *)
Definition after_end (s : KState) (t : Task) (k : nat) (C : queues) : queues :=
  match joiner_of s t k with Some pt => enqueue (target_of (tasks s) pt) pt C | None => C end.

(** Some ended task crashed and nobody has collected it. *)
Definition crash_pending (s : KState) : Prop := exists j k, trackers s !! j = Some k /\ k_status k = ExitStatus.crashed.

(** The kernel state around operations of the task manager. *)
Record Sound (s : KState) (C : queues) (F : family) : Prop := {
  so_inv : Inv s C; so_idle : EpIdle s C; so_running : Running None s; so_lineage : Lineage None None s F;
}.

(** The postcondition of the critical section. *)
Record ended (i k : nat) (t : Task) (return_value : Z) (status : ExitStatus.t) (s : KState) (C : queues) (F : family)
    (s' : KState) (F' : family) : Prop := {
  en_sound : Sound s' (after_end s t k C) F';
  en_slot : task_slots_used s' = <[i := false]> (task_slots_used s) /\ tasks s' !! i = Some zero_task;
  en_zombie : if kept_zombie s t k
              then F' = F /\ tracker_slots_used s' = tracker_slots_used s /\
                   exists tr, trackers s' !! k = Some tr /\ k_task tr = None /\ k_status tr = status /\
                     k_return_value tr = return_value /\ k_key <$> trackers s !! k = Some (k_key tr)
              else tracker_slots_used s' !! k = Some false;
  en_woken : forall pt, joiner_of s t k = Some pt -> exists t', tasks s' !! pt = Some t' /\ t_state t' = TaskState.ready /\
               get_x 10 t' = t_tid t;
  en_others : forall x, x <> i -> joiner_of s t k <> Some x -> core <$> tasks s' !! x = core <$> tasks s !! x;
  en_harts : harts s' = harts s; en_held : held s' = held s; en_csrs : csrs s' = csrs s;
  en_time : time_initialized s' = time_initialized s;
}.

(** The fields that neither invariant reads. *)
Lemma Inv_trackers s C ks root used : Inv s C -> Inv (with_forest ks root used s) C.
Proof. intros HI. eapply Inv_same; [exact HI|done..|apply HI]. Qed.

Lemma free_sound pk i t s C F (Q : unit -> KState -> Prop) e :
  Inv s C -> EpIdle s C -> Running None s -> Lineage (Some i) None s F -> tasks s !! i = Some t ->
  (forall k, flag_of k t = false) -> t_idle t = false ->
  (forall h hl, harts s !! h = Some hl -> current_task hl <> Some i) ->
  (forall s', Sound s' C F -> tasks s' = <[i := zero_task]> (tasks s) -> task_slots_used s' = <[i := false]> (task_slots_used s) ->
     table_frame s s' -> trackers s' = trackers s -> tracker_slots_used s' = tracker_slots_used s -> Q tt s') ->
  wp pk (release_task_locked i) Q e s.
Proof.
  intros HI Hei HR HL Ht Hf Hid Hnc HQ. apply (release_task_spec _ i t); [done|apply HI|done|].
  intros s' E1 E2 Hfr E3 E4 E5 _. apply HQ; try done. destruct Hfr. split.
  - apply (Inv_slot s s' C i t zero_task false); try done; [by intros []| |by rewrite tf_log0; apply HI].
    intros h hl Hl Hs Hit. destruct (inv_bind _ _ HI h hl Hl Hs) as (_&_&_&it&Hit'&[(ti&Hti&Hidl&_) _]).
    rewrite Hit in Hit'. injection Hit' as <-. congruence.
  - by eapply EpIdle_same.
  - apply (Running_slot None s s' i zero_task false); try done. intros h hl _ Hl. by eapply Hnc.
  - by eapply (Lineage_free i s s' F zero_task).
Qed.

(** Facts about a task that is ending on no hart. *)
Record ending (i k : nat) (t : Task) (tr : TaskTracker) (p : option nat) (s : KState) (C : queues) (F : family) : Prop := {
  ed_inv : Inv s C; ed_epidle : EpIdle s C; ed_running : Running None s;
  ed_task : tasks s !! i = Some t; ed_flags : forall k, flag_of k t = false; ed_idle : t_idle t = false;
  ed_current : forall h hl, harts s !! h = Some hl -> current_task hl <> Some i;
  ed_lineage : Lineage (Some i) (Some k) s F;
  ed_tracker : trackers s !! k = Some tr; ed_used : tracker_slots_used s !! k = Some true;
  ed_member : k ∈ F p; ed_done : k_task tr = None; ed_parent : k_parent tr = p;
}.

(** The tracker goes, then the slot. *)
Lemma remove_free_spec (pk : Prop) i k t tr p s C F (m : K unit) (Q : unit -> KState -> Prop) e :
  ending i k t tr p s C F -> (p = None -> crash_pending s -> pk) ->
  (forall ks' root' used' F', let s1 := with_forest ks' root' used' s in
     Lineage (Some i) None s1 F' -> used' !! k = Some false ->
     (forall j, live_tracker (trackers s) j -> entry <$> ks' !! j = entry <$> trackers s !! j) -> wp pk m Q e s1) ->
  wp pk (remove_tracker_locked k;; m) Q e s.
Proof.
  intros [] Hcr HQ. destruct (list_elem_of_split _ _ ed_member0) as (l1&l2&HFp).
  assert (completed (trackers s) k) as Hco by (unfold completed; rewrite ed_tracker0; simpl; by rewrite ed_done0).
  apply wp_bind, (remove_tracker_spec k p l1 l2 F); try apply ed_lineage0; [done| |].
  { intros Hp j kj Hj Hst. apply Hcr; [done|]. by exists j, kj. }
  intros ks' root' used' F' HF' Hac Hpr _. eapply (HQ ks' root' used' F').
  - eapply Lineage_prune; eauto.
  - apply Hpr.
  - intros j [x Hj]. destruct (decide (j = k)) as [->|Hne]; [unfold completed in Hco; congruence|].
    destruct (pr_each _ _ _ _ _ _ _ Hpr j Hne) as [(_&E)|(_&_&Hc)]; [done|]. unfold completed in Hc. congruence.
Qed.

(** Changes of a task that nobody's wait refers to. *)
Lemma Lineage_wake X Z s s' F j tj p pt :
  Lineage X Z s F -> tasks s !! j = Some tj -> t_tracker tj = Some p -> trackers s !! p = Some pt ->
  wi_active (k_wait pt) = false -> static s s' -> only_task j s s' -> Lineage X Z s' F.
Proof.
  intros HL Hj Hp Hpt Hw Hst [_ Hot]. eapply Lineage_frame; [done..|]. intros k tr x tx Hu Htr Ha Hx Htx Hwx.
  destruct (li_tracker _ _ _ _ HL k tr x Hu Htr Hx) as (_&_&tx'&Htx'&Hk). rewrite Htx in Htx'. injection Htx' as <-.
  assert (x <> j) as Hne by (intros ->; congruence). specialize (Hot x Hne). rewrite Htx in Hot.
  apply fmap_Some in Hot as (t'&Ht'&E). exists t'. split; [done|]. by eapply waiting_core.
Qed.

Lemma static_mod_task i f s : (forall t, kin (f t) = kin t) -> static s (set_field tasks (alter f i) s).
Proof. intros Hf. split; try done. by apply alter_image. Qed.

Lemma waiting_flags s C j t : Inv s C -> tasks s !! j = Some t -> waiting s t -> forall k, flag_of k t = false.
Proof.
  intros HI Ht Hw k. destruct (flag_of k t) eqn:E; [|done].
  apply (qs_flag _ _ (inv_q _ _ HI) k j t Ht) in E as (q&_&Hq). by destruct (queued_not_waiting s C q j t HI Hq Ht).
Qed.

Lemma get_set_x n v t : (n < length (ctx_x (t_context t)))%nat -> get_x n (set_x n v t) = v.
Proof. intros Hn. unfold get_x, set_x. rproj. rewrite nth_lookup, list_lookup_insert_eq by done. done. Qed.

Section ending.
Context (pk : Prop) (i k : nat) (t : Task) (tr : TaskTracker) (rv : Z) (status : ExitStatus.t) (s : KState) (C : queues) (F : family) (e : Env).
Context (HI : Inv s C) (Hei : EpIdle s C) (HR : Running None s) (HL : Lineage None None s F).
Context (Ht : tasks s !! i = Some t) (Hst : t_state t = TaskState.ended) (Hf : forall k, flag_of k t = false) (Hid : t_idle t = false).
Context (Hu : task_slots_used s !! i = Some true).
Context (Hnc : forall h hl, harts s !! h = Some hl -> current_task hl <> Some i).
Context (Hlock : lock_fits (LRunQueue Global) (held s)).
Context (Hk : t_tracker t = Some k) (Huk : tracker_slots_used s !! k = Some true) (Htr : trackers s !! k = Some tr) (Htk : k_task tr = Some i).
Context (Hpk : crash_pending s \/ status = ExitStatus.crashed -> pk).

Definition finished (k : TaskTracker) : TaskTracker :=
  k <| k_status := status |> <| k_return_value := rv |> <| k_task := None |>.

Lemma own_wait : wi_active (k_wait tr) = false.
Proof.
  destruct (wi_active (k_wait tr)) eqn:E; [|done].
  destruct (li_wait _ _ _ _ HL k tr Huk Htr E) as (j&tj&Hj&Htj&Hw&_). congruence.
Qed.

Lemma finished_ending : ending i k t (finished tr) (k_parent tr) (set_field trackers (alter finished k) s) C F.
Proof.
  pose proof own_wait as Hw. assert (exists p, k ∈ F p) as [p Hp] by (apply (fo_member _ _ _ _ _ (li_tree _ _ _ _ HL)); by split; [|set_solver]).
  pose proof (fo_parent _ _ _ _ _ (li_tree _ _ _ _ HL) p k Hp) as Ep. rewrite Htr in Ep. injection Ep as Ep.
  split; try done.
  - eapply Inv_same; [exact HI|done..|apply HI].
  - by apply (Running_frame None s).
  - by eapply (Lineage_bury s F i t k tr finished).
  - rproj. by rewrite list_lookup_alter_eq, Htr.
  - by rewrite Ep.
Qed.

Lemma finished_crash : crash_pending (set_field trackers (alter finished k) s) -> pk.
Proof.
  intros (j&kj&Hj&Hc). apply Hpk. rproj_in Hj. rewrite lookup_alter_if in Hj. apply fmap_Some in Hj as (k0&Hk0&->).
  case_decide; [by right|]. left. by exists j, k0.
Qed.

(** No one waits: the tracker is removed. *)
Lemma end_removed_spec (Q : unit -> KState -> Prop) :
  joiner_of s t k = None -> kept_zombie s t k = false -> 
  (forall s' F', ended i k t rv status s C F s' F' -> Q tt s') ->
  wp pk (remove_tracker_locked k;; release_task_locked i) Q e (set_field trackers (alter finished k) s).
Proof.
  intros Hj Hz HQ. pose proof finished_ending as He. pose proof He as [].
  eapply remove_free_spec; [exact He|intros _; apply finished_crash|]. intros ks' root' used' F' s1 HL1 Hgone _.
  apply (free_sound _ i t s1 C F'); try done; [by apply Inv_trackers|by apply (Running_frame None s)|].
  intros s' Hso E1 E2 [] E3 E4. apply (HQ s' F'). split; try done.
  - unfold after_end. by rewrite Hj.
  - split; [done|]. rewrite E1. apply list_lookup_insert_eq. by eapply lookup_lt_Some.
  - rewrite Hz, E4. done.
  - by rewrite Hj.
  - intros x Hx _. by rewrite E1, list_lookup_insert_ne.
Qed.

(** The tracker stays for the parent. *)
Lemma end_zombie_spec (Q : unit -> KState -> Prop) :
  kept_zombie s t k = true -> (forall s' F', ended i k t rv status s C F s' F' -> Q tt s') ->
  wp pk (release_task_locked i) Q e (set_field trackers (alter finished k) s).
Proof.
  intros Hz HQ. pose proof Hz as Hz'. unfold kept_zombie in Hz'.
  rewrite !andb_true_iff, Htr in Hz'. destruct Hz' as ((_&Hj%bool_decide_eq_true_1)&Hp%bool_decide_eq_true_1).
  pose proof finished_ending as [].
  apply (free_sound _ i t _ C F); try done.
  { eapply Lineage_zombie; [done|]. intros Hn. pose proof (forest_disjoint (li_tree _ _ _ _ HL) _ _ k ed_member0 Hn) as E. done. }
  intros s' Hso E1 E2 [] E3 E4. apply (HQ s' F). split; try done.
  - unfold after_end. by rewrite Hj.
  - split; [done|]. rewrite E1. apply list_lookup_insert_eq. by eapply lookup_lt_Some.
  - rewrite Hz. split_and!; [done..|]. exists (finished tr). rewrite E3. split_and!; try done. by rewrite Htr.
  - by rewrite Hj.
  - intros x Hx _. by rewrite E1, list_lookup_insert_ne.
Qed.

(** The parent is woken. *)
Lemma end_woken_spec p pt j (Q : unit -> KState -> Prop) :
  t_detached t = false -> k_parent tr = Some p -> trackers s !! p = Some pt -> wi_active (k_wait pt) = true ->
  joiner_of s t k = Some j -> k_task pt = Some j ->
  (forall s' F', ended i k t rv status s C F s' F' -> Q tt s') ->
  wp pk (mod_tracker p (fun k => k <| k_wait := (k_wait k) <| wi_active := false |> |>);;
         (mod_task j (set_x 10 (t_tid t));; (remove_tracker_locked k;; (scheduler_of j;;
          (ok ← add_task j; if ok : bool then mret tt else park)))))
    (fun _ s1 => wp pk (release_task_locked i) Q e s1) e (set_field trackers (alter finished k) s).
Proof.
  intros Hdet Hp Hpt Hact Hjo Htp HQ. set (quiet_wait := fun k : TaskTracker => k <| k_wait := (k_wait k) <| wi_active := false |> |>). pose proof finished_ending as [].
  set (sA := set_field trackers (alter finished k) s) in *. rewrite Hp in *.
  assert (tracker_slots_used s !! p = Some true) as Hup.
  { apply (fo_dom _ _ _ _ _ (li_tree _ _ _ _ HL)). intros E. rewrite E in ed_member0. by apply elem_of_nil in ed_member0. }
  assert (p <> k) as Hpk'.
  { destruct (li_acyclic _ _ _ _ HL) as [d Hd]. specialize (Hd p k ed_member0). intros ->. lia. }
  destruct (li_wait _ _ _ _ HL p pt Hup Hpt Hact) as (j'&tj&Hj'&Htj&Hw). rewrite Htp in Hj'. injection Hj' as <-.
  destruct (li_tracker _ _ _ _ HL p pt j Hup Hpt Htp) as (_&Huj&tj'&Htj'&Hkj). rewrite Htj in Htj'. injection Htj' as <-.
  assert (j <> i) as Hji by (intros ->; destruct Hw as (Hw&_); congruence).
  pose proof (waiting_flags s C j tj HI Htj Hw) as Hfj. destruct Hw as (Hwst&Hwid&Hwcpu).
  assert (trackers sA !! p = Some pt) as HpA by (unfold sA; rproj; by rewrite list_lookup_alter_ne).
  apply wp_bind, wp_mod_tracker; [by exists pt|]. set (sB := set_field trackers (alter quiet_wait p) sA).
  assert (Lineage (Some i) (Some k) sB F) as HLB by (by apply Lineage_entry).
  assert (trackers sB !! p = Some (quiet_wait pt)) as HpB by (unfold sB; rproj; by rewrite list_lookup_alter_eq, HpA).
  apply wp_bind, wp_mod_task; [by exists tj|]. set (tj1 := set_x 10 (t_tid t) tj).
  set (sC := set_field tasks (alter (set_x 10 (t_tid t)) j) sB).
  assert (Inv sC C) as HIC.
  { apply (Inv_mod_task sB C j tj); try done; [eapply Inv_same; [exact HI|done..|apply HI]| |by right].
    unfold set_x. rproj. rewrite length_insert. exact (inv_context _ _ HI j tj Htj). }
  assert (Running None sC) as HRC by (apply Running_mod_task; [by apply (Running_frame None s)|done]).
  assert (Lineage (Some i) (Some k) sC F) as HLC.
  { eapply (Lineage_wake _ _ sB sC F j tj p (quiet_wait pt)); try done; [by apply static_mod_task|apply only_task_mod]. }
  assert (tasks sC !! j = Some tj1) as HjC by (unfold sC; rproj; rewrite list_lookup_alter_eq; change (tasks sB) with (tasks s); by rewrite Htj).
  assert (ending i k t (finished tr) (Some p) sC C F) as HeC.
  { split; try done.
    - unfold sC. rproj. by rewrite list_lookup_alter_ne.
    - unfold sC, sB. rproj. by rewrite list_lookup_alter_ne. }
  eapply remove_free_spec; [exact HeC|done|]. intros ks' root' used' F' s1 HL1 Hgone Hlive.
  assert (exists pt1, trackers s1 !! p = Some pt1 /\ wi_active (k_wait pt1) = false) as (pt1&Hpt1&Hact1).
  { assert (trackers sC !! p = Some (quiet_wait pt)) as HpC by done.
    specialize (Hlive p). rewrite HpC in Hlive. assert (live_tracker (trackers sC) p) as Hlp.
    { exists j. rewrite HpC. simpl. by rewrite Htp. }
    specialize (Hlive Hlp). apply fmap_Some in Hlive as (pt1&Hpt1&E). exists pt1. split; [done|]. symmetry in E.
    apply entry_inv in E as (_&_&_&->). done. }
  apply wp_bind, wp_any, (scheduler_of_spec j tj1); [done|done|]. apply wp_bind, wp_keeps; [apply keeps_add_task|].
  assert (Inv s1 C) as HI1 by (by apply Inv_trackers).
  apply wp_any, (add_task_spec j tj1 C); try done; [by unfold tj1, set_x; rproj; rewrite Hwst|].
  intros s2 t2 HI2 Hrf Hot Ht2 Hc2 Hst2. apply wp_ret.
  assert (forall h hl, harts s !! h = Some hl -> current_task hl <> Some j) as Hncj.
  { intros h hl Hl Hc. by eapply (running_not_waiting s h hl j tj). }
  assert (Running None s2) as HR2.
  { apply (Running_update None s1 s2 j); try done; [by apply (Running_frame None sC)|intros h hl _; apply Hncj|apply Hrf|apply rest_used, Hrf]. }
  assert (Lineage (Some i) None s2 F') as HL2 by (by eapply (Lineage_wake _ _ s1 s2 F' j tj1 p pt1)).
  assert (exists ti, tasks s2 !! i = Some ti /\ core ti = core t) as (ti&Hti&Hci).
  { destruct Hot as [_ Hot]. specialize (Hot i ltac:(done)). assert (tasks s1 !! i = Some t) as Hi1.
    { exact (ed_task _ _ _ _ _ _ _ _ HeC). }
    rewrite Hi1 in Hot. apply fmap_Some in Hot as (ti&?&?). by exists ti. }
  apply core_inv in Hci as (_&Eid&_&_&_&_&_&Efl). apply core_inv in Hc2 as (Es2&_&_&_&Ectx2&_).
  assert (target_queue tj1 = target_of (tasks s) j) as Etq by (unfold target_of; by rewrite Htj).
  rewrite Etq in HI2. assert (after_end s t k C = enqueue (target_of (tasks s) j) j C) as Eae by (unfold after_end; by rewrite Hjo).
  rewrite <- Eae in HI2. apply (free_sound _ i ti s2 (after_end s t k C) F'); try done.
  - intros w pp. rewrite (rf_eps _ _ Hrf), Eae. unfold enqueue. rewrite fn_lookup_insert_ne by done. apply Hei.
  - intros k'. by rewrite Efl.
  - by rewrite Eid.
  - rewrite (rf_harts _ _ Hrf). apply Hnc.
  - intros s' Hso E1 E2 [] E3 E4. apply (HQ s' F').
    assert (tasks s' !! j = Some t2) as Hj' by (rewrite E1, list_lookup_insert_ne by done; done).
    destruct (rest_csrs _ _ (rf_rest _ _ Hrf)) as [Ecs _]. split; try done.
    + split; [rewrite E2; f_equal; by rewrite (rest_used _ _ (rf_rest _ _ Hrf))|]. rewrite E1. apply list_lookup_insert_eq. by eapply lookup_lt_Some.
    + unfold kept_zombie. rewrite Hjo, (bool_decide_false (Some j = None)), andb_false_r by done. cbn [andb]. rewrite E4.
      pose proof (st_tables _ _ Hst2) as Etab. unfold tables in Etab. injection Etab as _ _ Etu _ _ _ _ _ _ _. rewrite Etu. done.
    + intros pt0 E0. rewrite Hjo in E0. injection E0 as <-. exists t2. split_and!; [done|by rewrite Es2|]. rewrite <- (get_set_x 10 (t_tid t) tj).
      * unfold get_x. by rewrite Ectx2.
      * rewrite (inv_context _ _ HI j tj Htj). lia.
    + intros x Hx Hxj. rewrite E1, list_lookup_insert_ne by done. destruct Hot as [_ Hot]. rewrite Hot by congruence.
      change (tasks s1) with (tasks sC). unfold sC. rproj. by rewrite list_lookup_alter_ne by congruence.
    + rewrite tf_harts0. apply Hrf.
    + rewrite tf_held0. apply Hrf.
    + by rewrite tf_csrs0, Ecs.
    + rewrite tf_time0. pose proof (st_tables _ _ Hst2) as Etab. unfold tables in Etab. injection Etab as _ _ _ _ _ _ _ Eti _ _. exact Eti.
Qed.

Lemma end_task_locked_spec (Q : unit -> KState -> Prop) :
  (forall s' F', ended i k t rv status s C F s' F' -> Q tt s') -> wp pk (end_task_locked i rv status) Q e s.
Proof.
  intros HQ. unfold end_task_locked. ksteps. apply (wp_mod_tracker pk e k finished); [by exists tr|].
  apply wp_bind. eapply wp_get_tracker; [rproj; rewrite list_lookup_alter_eq, Htr; reflexivity|].
  change (k_parent (finished tr)) with (k_parent tr).
  destruct (t_detached t) eqn:Hdet.
  { case_bool_decide as Hcr; [apply wp_bind, wp_park; auto|].
    apply end_removed_spec; [|unfold kept_zombie; by rewrite Hdet|done]. unfold joiner_of. by rewrite Hdet. }
  destruct (k_parent tr) as [p|] eqn:Hp.
  2: { apply wp_bind, wp_bind, wp_ret. rewrite bool_decide_true by done. case_bool_decide as Hcr; [apply wp_park; auto|].
    apply (wp_bind_inv pk (remove_tracker_locked k) (fun _ => release_task_locked i)).
    apply end_removed_spec; [unfold joiner_of; by rewrite Hdet, Htr, Hp|unfold kept_zombie; by rewrite Htr, Hp, andb_false_r|done]. }
  pose proof finished_ending as [_ _ _ _ _ _ _ _ _ _ Hm _ _]. rewrite Hp in Hm.
  assert (tracker_slots_used s !! p = Some true) as Hup.
  { apply (fo_dom _ _ _ _ _ (li_tree _ _ _ _ HL)). intros E. rewrite E in Hm. by apply elem_of_nil in Hm. }
  destruct (forest_tracker (li_tree _ _ _ _ HL) p Hup) as [pt Hpt].
  assert (p <> k) as Hpk'.
  { destruct (li_acyclic _ _ _ _ HL) as [d Hd]. specialize (Hd p k Hm). intros ->. lia. }
  assert (trackers (set_field trackers (alter finished k) s) !! p = Some pt) as HpA by (rproj; by rewrite list_lookup_alter_ne).
  assert (joiner_of s t k = None -> kept_zombie s t k = true) as Hzomb.
  { intros E. unfold kept_zombie. by rewrite Hdet, E, Htr, Hp. }
  assert (joiner_of s t k = (if wi_active (k_wait pt) && ((wi_tid (k_wait pt) <? 0) || (wi_tid (k_wait pt) =? sext 64 (t_tid t)))
    then k_task pt else None)) as Ej by (unfold joiner_of; by rewrite Hdet, Htr, Hp, Hpt).
  apply wp_bind, wp_bind, wp_bind. eapply wp_get_tracker; [exact HpA|]. apply wp_ret.
  destruct (wi_active (k_wait pt)) eqn:Hact; cbn [andb] in Ej.
  2: { rewrite bool_decide_false by done. apply wp_ret. apply end_zombie_spec; auto. }
  apply wp_bind, wp_ret, wp_bind. eapply wp_get_tracker; [exact HpA|].
  destruct (_ || _); [|apply wp_ret, end_zombie_spec; auto].
  destruct (li_wait _ _ _ _ HL p pt Hup Hpt Hact) as (j&tj&Hj&_). rewrite Hj in *.
  by eapply (end_woken_spec p pt j).
Qed.
End ending.

(** ** Leaving the hart *)

Lemma pick_ne s C h hl it i t :
  Inv s C -> harts s !! h = Some hl -> h_scheduler hl = true -> idle_task hl = Some it ->
  tasks s !! i = Some t -> (forall k, flag_of k t = false) -> t_idle t = false -> (pick h it C).1 <> i.
Proof.
  intros HI Hh Hs Hit Ht Hf Hid. pose proof (qstruct_free s C i t (inv_q _ _ HI) Ht Hf) as Hfree. unfold pick.
  destruct (C (QRun (Local h))) as [|x l] eqn:E1; [destruct (C (QRun Global)) as [|x l] eqn:E2|]; simpl.
  - destruct (inv_bind _ _ HI h hl Hh Hs) as (_&_&_&it'&Hit'&[(ti&Hti&Hidl&_) _]). intros ->. congruence.
  - intros ->. apply (Hfree (QRun Global)). rewrite E2. set_solver.
  - intros ->. apply (Hfree (QRun (Local h))). rewrite E1. set_solver.
Qed.

(** Hart [e_hart e] has taken another task after [s]; task [i] is [t] still. *)
Record switched (e : Env) (i : nat) (t : Task) (s : KState) (s' : KState) (C' : queues) : Prop := {
  sw_inv : Inv s' C'; sw_epidle : EpIdle s' C'; sw_running : Running None s';
  sw_static : static s s'; sw_joiners : joiners s s';
  sw_task : core <$> tasks s' !! i = Some (core t); sw_held : held s' = held s; sw_csrs : csrs s' = csrs s;
  sw_time : time_initialized s' = time_initialized s; sw_used : task_slots_used s' = task_slots_used s;
  sw_trackers : trackers s' = trackers s;
  sw_hart : exists l', harts s' !! e_hart e = Some l' /\ h_scheduler l' = true /\
    is_Some (current_task l') /\ 0 <= timeslice_ticks l' <= kIdleTimesliceTicks;
  sw_current : forall h hl, harts s' !! h = Some hl -> current_task hl <> Some i;
}.

Lemma switch_spec {A} pk it hl i t s C e (k : nat -> K A) (Q : A -> KState -> Prop) :
  Inv s C -> EpIdle s C -> Running (Some (e_hart e)) s -> harts s !! e_hart e = Some hl -> h_scheduler hl = true ->
  idle_task hl = Some it -> tasks s !! i = Some t -> (forall k, flag_of k t = false) -> t_idle t = false ->
  t_cpu t = Some (e_hart e) -> lock_fits (LRunQueue Global) (held s) ->
  (forall h l, h <> e_hart e -> harts s !! h = Some l -> current_task l <> Some i) ->
  (forall s', switched e i t s s' (pick (e_hart e) it C).2 -> wp pk (k (pick (e_hart e) it C).1) Q e s') ->
  wp pk (scheduler_of i;; (j ← set_next_runnable; k j)) Q e s.
Proof.
  intros HI Hei HR Hh Hs Hit Ht Hf Hid Hcpu Hlock Hoth HQ.
  apply wp_bind, wp_any, (scheduler_of_spec i t); [done|by exists (e_hart e), hl|].
  apply wp_bind, wp_keeps; [apply keeps_set_next_runnable|].
  apply wp_any, (set_next_runnable_spec hl it C); try done.
  intros s' HI' HR' Hdi Hsf Hst. pose proof (pick_ne s C _ hl it i t HI Hh Hs Hit Ht Hf Hid) as Hne.
  destruct Hdi as [(tj&Htj&_) (l'&Hl'&Hc'&Hticks) Hot]. apply HQ.
  destruct (rest_csrs _ _ (sf_rest _ _ _ Hsf)) as [Ecs _]. pose proof (st_tables _ _ Hst) as Etab.
  unfold tables in Etab. injection Etab as Etr Eus _ _ _ _ _ Eti _ _.
  assert (h_scheduler l' = true) as Hsl'.
  { pose proof (sf_own _ _ _ Hsf) as E. rewrite Hl', Hh in E. apply (inj Some), hart_frame_bind in E. unfold hart_bind in E. congruence. }
  split; try done.
  - intros w p. rewrite (sf_eps _ _ _ Hsf), pick_other. apply Hei.
  - eapply (joiners_only (pick (e_hart e) it C).1); [done|]. intros t0 Ht0. by eapply pick_not_waiting.
  - destruct Hot as [_ Hot]. rewrite Hot by done. by rewrite Ht.
  - apply Hsf.
  - exists l'. split_and!; try done; try lia.
  - intros h l Hl Hc. destruct (decide (h = e_hart e)) as [->|Hhe]; [congruence|].
    rewrite (sf_other _ _ _ Hsf h Hhe) in Hl. by eapply Hoth.
Qed.

(** The running task [i] is taken off its hart, with state [st]. *)
Lemma off_hart e i it hl t s C st info :
  Inv s C -> Running None s -> calling e i it hl t s -> st <> TaskState.running ->
  let t' := t <| t_state := st |> <| t_state_info := info |> in
  forall s', tasks s' = <[i := t']> (tasks s) -> harts s' = harts s -> task_slots_used s' = task_slots_used s ->
    endpoints s' = endpoints s -> slot_allocated s' = slot_allocated s -> delay_queues s' = delay_queues s ->
    (forall q, get_rq q s' = get_rq q s) -> ordered (lock_log s') ->
    Inv s' C /\ Running (Some (e_hart e)) s' /\ tasks s' !! i = Some t' /\ (forall k, flag_of k t' = false) /\
    t_cpu t' = Some (e_hart e) /\ t_idle t' = false /\ task_slots_used s !! i = Some true /\
    (forall h l, h <> e_hart e -> harts s !! h = Some l -> current_task l <> Some i).
Proof.
  intros HI HR [Hh Hs Hc Hit Ht Hu] Hst t' s' Ets Eh Eu Ee Es Ed Er Hlog.
  destruct (run_task _ _ HR _ hl i ltac:(done) Hh Hc) as (t0&Ht0&_&Hcpu&Hf&Hus&_). rewrite Ht in Ht0. injection Ht0 as <-.
  assert (only_task i s s') as Hot by (split; [by rewrite Ets, length_insert|intros j Hj; by rewrite Ets, list_lookup_insert_ne]).
  assert (forall h l, h <> e_hart e -> harts s !! h = Some l -> current_task l <> Some i) as Hoth.
  { intros h l Hne Hl Hc'. apply Hne. by apply (run_inj _ _ HR h (e_hart e) l hl i). }
  split_and!; try done.
  - eapply (Inv_task s s' C i t t'); try done; [exact (inv_context _ _ HI i t Ht)|by right].
  - apply (Running_update _ s s' i); [by apply Running_weaken|done| |done|done]. intros h l Hne. apply Hoth. congruence.
  - rewrite Ets. apply list_lookup_insert_eq. by eapply lookup_lt_Some.
Qed.

(** ** end_task *)

Lemma joiner_of_same s s' t t' k :
  trackers s' = trackers s -> t_detached t' = t_detached t -> t_tid t' = t_tid t -> joiner_of s' t' k = joiner_of s t k.
Proof. intros E1 E2 E3. unfold joiner_of. by rewrite E1, E2, E3. Qed.

Lemma kept_zombie_same s s' t t' k :
  trackers s' = trackers s -> t_detached t' = t_detached t -> t_tid t' = t_tid t -> kept_zombie s' t' k = kept_zombie s t k.
Proof. intros E1 E2 E3. unfold kept_zombie. by rewrite (joiner_of_same s s' t t' k), E1, E2. Qed.

(** The invariants do not see locks. *)
Lemma Lineage_locks X Z s F hs log : Lineage X Z s F -> Lineage X Z (s <| lock_log := log |> <| held := hs |>) F.
Proof. intros HL. eapply Lineage_frame; [exact HL|by split|]. intros k tr i t _ _ _ _ Ht Hw. by exists t. Qed.

(** The identity of the harts. *)
Definition same_harts (s s' : KState) : Prop := forall h, hart_kin <$> harts s' !! h = hart_kin <$> harts s !! h.

(** What is left of task [i], whose tracker was [k], in [s']; [e_hart e] runs
    another task. *)
Record departed (e : Env) (i k : nat) (t : Task) (return_value : Z) (status : ExitStatus.t) (s s' : KState) : Prop := {
  dp_sound : exists C' F', Sound s' C' F';
  dp_slot : task_slots_used s' = <[i := false]> (task_slots_used s) /\ tasks s' !! i = Some zero_task;
  dp_tracker : if kept_zombie s t k
               then exists tr, trackers s' !! k = Some tr /\ k_task tr = None /\ k_status tr = status /\
                      k_return_value tr = return_value /\ tracker_slots_used s' !! k = Some true
               else tracker_slots_used s' !! k = Some false;
  dp_woken : forall pt, joiner_of s t k = Some pt -> exists t', tasks s' !! pt = Some t' /\
               t_state t' = TaskState.ready /\ get_x 10 t' = t_tid t;
  dp_hart : exists l', harts s' !! e_hart e = Some l' /\ h_scheduler l' = true /\ is_Some (current_task l') /\
               0 <= timeslice_ticks l' <= kIdleTimesliceTicks;
  dp_held : held s' = held s; dp_csrs : csrs s' = csrs s; dp_time : time_initialized s' = time_initialized s;
  dp_harts : same_harts s s';
}.

Lemma end_task_spec (pk : Prop) i k it hl t rv status s C F e (Q : unit -> KState -> Prop) :
  Sound s C F -> calling e i it hl t s -> lock_fits LTaskManager (held s) -> t_tracker t = Some k ->
  (crash_pending s \/ status = ExitStatus.crashed -> pk) ->
  (forall s', departed e i k t rv status s s' -> Q tt s') -> wp pk (end_task i rv status) Q e s.
Proof.
  intros [HI Hei HR HL] Hca Hlock Hk Hpk HQ. pose proof Hca as [Hh Hs Hc Hit Ht Hu].
  assert (held s = []) as Hhd.
  { destruct (held s) as [|l hs]; [done|]. apply Forall_cons in Hlock as [Hl _]. simpl in Hl. lia. }
  unfold end_task, get_current_task, current. ksteps. rewrite Hc, bool_decide_true by done. cbn [negb andb].
  ksteps. set (s1 := set_field tasks _ s). set (t1 := t <| t_state := TaskState.ended |>).
  destruct (off_hart e i it hl t s C TaskState.ended (t_state_info t) HI HR Hca ltac:(done) s1)
    as (HI1&HR1&Ht1&Hf1&Hcpu1&Hid1&Hus&Hoth1); try done.
  { unfold s1. rproj. rewrite (alter_insert _ i _ t Ht). done. }
  { apply HI. }
  apply (wp_bind_inv pk (scheduler_of i) (fun _ => _ ← set_next_runnable; mret tt)).
  eapply (switch_spec _ it hl i t1 s1 C); try done; [change (held s1) with (held s); rewrite Hhd; constructor|].
  intros s2 [HI2 Hei2 HR2 Hst2 Hjo2 Hi2 Hhd2 Hcs2 Hti2 Hus2 Htr2 Hha2 Hnc2]. ksteps.
  apply fmap_Some in Hi2 as (t2&Ht2&E2). symmetry in E2. pose proof (f_equal t_tracker E2) as Ek2. pose proof (f_equal t_detached E2) as Ed2.
  apply core_inv in E2 as (Est2&Eid2&_&Etid2&_&_&_&Ef2).
  assert (static s s1) as Hst1 by (by apply static_mod_task).
  assert (Lineage None None s2 F) as HL2.
  { apply (joiners_Lineage _ _ s1); [|done..]. apply (joiners_Lineage _ _ s); [done..|].
    eapply (joiners_only i); [apply only_task_mod|]. intros t0 Ht0. by eapply running_not_waiting. }
  apply wp_with_lock; [by rewrite Hhd2; change (held s1) with (held s)|].
  set (s3 := s2 <| lock_log := _ |> <| held := _ |>).
  assert (Lineage None None s3 F) as HL3 by (by apply Lineage_locks).
  destruct (li_task _ _ _ _ HL3 i ltac:(done)) as (t3&k3&tr&Ht3&Hk3&Huk&Htr&Htk).
  { change (task_slots_used s2 !! i = Some true). rewrite Hus2. done. }
  assert (t3 = t2) as -> by (change (tasks s2 !! i = Some t3) in Ht3; congruence).
  assert (k3 = k) as -> by (simpl in Ek2; congruence).
  assert (trackers s3 = trackers s) as Etr3 by (change (trackers s2 = trackers s); by rewrite Htr2).
  apply (end_task_locked_spec pk i k t2 tr rv status s3 (pick (e_hart e) it C).2 F e); try done.
  - apply Inv_lock; [done|]. by rewrite Hhd2; change (held s1) with (held s).
  - by apply (Running_frame None s2).
  - intros k'. by rewrite Ef2.
  - by rewrite Eid2.
  - change (task_slots_used s2 !! i = Some true). by rewrite Hus2.
  - change (lock_fits (LRunQueue Global) (LTaskManager :: held s2)). rewrite Hhd2. change (held s1) with (held s). rewrite Hhd.
    constructor; [simpl; lia|constructor].
  - intros [Hcr|Hcr]; apply Hpk; [left|by right]. destruct Hcr as (j&kj&Hj&Hc'). rewrite Etr3 in Hj. by exists j, kj.
  - intros s4 F4 [[HI4 Hei4 HR4 HL4] [E4a E4b] Hz4 Hw4 _ Eh4 Ehd4 Ecs4 Eti4]. split; [done|]. set (s5 := s4 <| held := held s2 |>).
    assert (joiner_of s3 t2 k = joiner_of s t k /\ kept_zombie s3 t2 k = kept_zombie s t k) as [Ej Ez]
      by (split; [by apply joiner_of_same|by apply kept_zombie_same]).
    apply HQ. split.
    + exists (after_end s3 t2 k (pick (e_hart e) it C).2), F4. split; [by apply Inv_held|done|by apply (Running_frame None s4)|].
      eapply Lineage_frame; [exact HL4|by split|]. intros k' tr' j tj _ _ _ _ Htj Hw. by exists tj.
    + split; [|done]. change (task_slots_used s4 = <[i:=false]> (task_slots_used s)). rewrite E4a.
      change (task_slots_used s3) with (task_slots_used s2). by rewrite Hus2.
    + rewrite <- Ez. destruct (kept_zombie s3 t2 k); [|done]. destruct Hz4 as (_&Eu&tr'&?&?&?&?&_). exists tr'. split_and!; try done.
      change (tracker_slots_used s4 !! k = Some true). by rewrite Eu.
    + intros pt. rewrite <- Ej. intros Hj. destruct (Hw4 pt Hj) as (t'&?&?&E). exists t'. split_and!; try done. by rewrite E, Etid2.
    + destruct Hha2 as (l'&?&?&?&?). exists l'. split_and!; try done; try lia. change (harts s4 !! e_hart e = Some l'). by rewrite Eh4.
    + change (held s2 = held s). by rewrite Hhd2.
    + change (csrs s4 = csrs s). by rewrite Ecs4.
    + change (time_initialized s4 = time_initialized s). by rewrite Eti4.
    + intros h. change (harts s5) with (harts s4). rewrite Eh4. change (harts s3) with (harts s2). by rewrite (st_harts _ _ Hst2).
Qed.

(** ** wait_task *)

(** The running task starts to wait. *)
Lemma Lineage_wait s s' F i k t t' f :
  Lineage None None s F -> tasks s !! i = Some t -> t_tracker t = Some k -> task_slots_used s !! i = Some true ->
  tasks s' = <[i := t']> (tasks s) -> trackers s' = alter f k (trackers s) -> root_tasks s' = root_tasks s ->
  task_slots_used s' = task_slots_used s -> tracker_slots_used s' = tracker_slots_used s -> harts s' = harts s ->
  (forall k, k_parent (f k) = k_parent k /\ k_first_child (f k) = k_first_child k /\
     k_previous_sibling (f k) = k_previous_sibling k /\ k_next_sibling (f k) = k_next_sibling k) ->
  (forall k, k_task (f k) = k_task k) -> t_tracker t' = Some k -> waiting s t' -> Lineage None None s' F.
Proof.
  intros HL Ht Hk Hu E1 E2 E3 E4 E5 E6 Hf Hft Hk' Hw. pose proof HL as [L1 L2 L3 L4 L5 L6 L7].
  assert (forall j, j <> i -> tasks s' !! j = tasks s !! j) as Hoth by (intros j Hj; by rewrite E1, list_lookup_insert_ne).
  assert (tasks s' !! i = Some t') as Hi by (rewrite E1; apply list_lookup_insert_eq; by eapply lookup_lt_Some).
  assert (forall j, k_task <$> trackers s' !! j = k_task <$> trackers s !! j) as Htask by (intros j; rewrite E2; by apply alter_image).
  assert (waiting s' t') as Hw' by (unfold waiting, cpu_bound in *; by rewrite E6).
  assert (forall j tr', trackers s' !! j = Some tr' -> exists tr, trackers s !! j = Some tr /\ k_task tr' = k_task tr /\
    (j <> k -> tr' = tr)) as Hback.
  { intros j tr' Hj. rewrite E2, lookup_alter_if in Hj. apply fmap_Some in Hj as (tr&Htr&->). exists tr. split; [done|].
    case_decide; [split; [apply Hft|congruence]|by split]. }
  split; rewrite ?E3, ?E4, ?E5; auto.
  - rewrite E2. by apply forest_entry.
  - intros c Hc Hz. destruct (L3 c Hc Hz) as [j Hj]. exists j. by rewrite Htask.
  - intros j Hj Huj. destruct (L5 j Hj Huj) as (tj&kj&tr&Htj&Hkj&?&Htr&Htk). specialize (Htask kj). rewrite Htr in Htask.
    apply fmap_Some in Htask as (tr'&Htr'&E). destruct (decide (j = i)) as [->|Hji].
    + exists t', k, tr'. rewrite Ht in Htj. injection Htj as <-. rewrite Hk in Hkj. injection Hkj as <-. split_and!; try done. simpl in E. congruence.
    + exists tj, kj, tr'. rewrite Hoth by done. split_and!; try done. simpl in E. congruence.
  - intros j tr' x Huj Htr' Hx. destruct (Hback j tr' Htr') as (tr&Htr&E&_). destruct (L6 j tr x Huj Htr ltac:(congruence)) as (?&?&tx&Htx&?).
    split_and!; try done. destruct (decide (x = i)) as [->|Hxi]; [|exists tx; by rewrite Hoth].
    exists t'. split; [done|]. congruence.
  - intros j tr' Huj Htr' Ha. destruct (Hback j tr' Htr') as (tr&Htr&E&Hsame). destruct (decide (j = k)) as [->|Hjk].
    + exists i, t'. split_and!; try done. rewrite E. destruct (L5 i ltac:(done) Hu) as (t0&k0&tr0&?&?&?&?&?). congruence.
    + rewrite (Hsame Hjk) in Ha. destruct (L7 j tr Huj Htr Ha) as (x&tx&Hx&Htx&Hwx). rewrite E. exists x, tx. split_and!; try done.
      * rewrite Hoth; [done|]. intros ->. destruct (L6 j tr i Huj Htr Hx) as (_&_&t0&?&?). congruence.
      * unfold waiting, cpu_bound in *. by rewrite E6.
Qed.

(** The child that a wait for [tid] concerns. *)
Definition awaited (ks : list TaskTracker) (F : family) (k : nat) (tid : Z) : option nat :=
  if 0 <=? tid then first_such ks (fun c => k_key c =? tid) (F (Some k))
  else match first_such ks (fun c => bool_decide (k_task c = None)) (F (Some k)) with
       | Some c => Some c
       | None => head (F (Some k))
       end.

Lemma awaited_child ks F k tid ch : awaited ks F k tid = Some ch -> ch ∈ F (Some k).
Proof.
  unfold awaited. case_match; [intros E; by apply first_such_elem in E as [? _]|].
  destruct (first_such ks _ _) eqn:E; [intros [= <-]; by apply first_such_elem in E as [? _]|]. apply head_elem.
Qed.

(** The three results of a wait by task [i], whose tracker is [k]. *)
Definition waited (e : Env) (i k : nat) (t : Task) (tid : Z) (s : KState) (C : queues) (F : family)
    (r : WaitResult.t) (s' : KState) : Prop :=
  match awaited (trackers s) F k tid with
  | None => r = WaitResult.no_child /\ Sound s' C F /\ tasks s' = tasks s /\ trackers s' = trackers s /\ harts s' = harts s
  | Some ch =>
      exists tr, trackers s !! ch = Some tr /\
      match k_task tr with
      | None => r = WaitResult.completed /\ (exists F', Sound s' C F') /\ harts s' = harts s /\
                tasks s' = <[i := set_x 10 (k_key tr) t]> (tasks s) /\ tracker_slots_used s' !! ch = Some false
      | Some _ => r = WaitResult.blocked /\ (exists C', Sound s' C' F) /\
                  (exists t', tasks s' !! i = Some t' /\ t_state t' = TaskState.blocked_join /\ t_context t' = t_context t) /\
                  k_wait <$> trackers s' !! k = Some (mkWaitInfo true tid 0 0) /\
                  exists l', harts s' !! e_hart e = Some l' /\ h_scheduler l' = true /\ is_Some (current_task l') /\
                    0 <= timeslice_ticks l' <= kIdleTimesliceTicks
      end
  end /\ held s' = held s /\ csrs s' = csrs s /\ time_initialized s' = time_initialized s /\ same_harts s s'.

Lemma Sound_locks s C F hs log : Sound s C F -> ordered log -> Sound (s <| lock_log := log |> <| held := hs |>) C F.
Proof.
  intros [] Hlog. split; [eapply Inv_same; [done..|exact Hlog]|done|by apply (Running_frame None s)|by apply Lineage_locks].
Qed.

Lemma Sound_held s C F hs : Sound s C F -> Sound (s <| held := hs |>) C F.
Proof.
  intros [HI]. split; [by apply Inv_held|done|by apply (Running_frame None s)|].
  eapply Lineage_frame; [done|by split|]. intros k tr i t _ _ _ _ Ht Hw. by exists t.
Qed.

Section waiting.
Context (e : Env) (i k it : nat) (hl : HartLocal) (t : Task) (tid : Z) (s : KState) (C : queues) (F : family).
Context (Hso : Sound s C F) (Hca : calling e i it hl t s) (Hlock : lock_fits (LRunQueue Global) (held s)).
Context (Hk : t_tracker t = Some k) (Huk : tracker_slots_used s !! k = Some true).

Lemma wait_completed_spec {A} ch tr (m : K A) (Q : A -> KState -> Prop) :
  ch ∈ F (Some k) -> trackers s !! ch = Some tr -> k_task tr = None ->
  (forall s' F', Sound s' C F' -> harts s' = harts s -> tasks s' = <[i := set_x 10 (k_key tr) t]> (tasks s) ->
     tracker_slots_used s' !! ch = Some false -> held s' = held s -> csrs s' = csrs s -> time_initialized s' = time_initialized s ->
     wp False m Q e s') ->
  wp False (mod_task i (set_x 10 (k_key tr));; (remove_tracker_locked ch;; m)) Q e s.
Proof.
  intros Hch Htr Hdone HQ. pose proof Hso as [HI Hei HR HL]. pose proof Hca as [Hh Hs Hc Hit Ht Hu].
  destruct (run_task _ _ HR _ hl i ltac:(done) Hh Hc) as (t0&Ht0&Hst&_&Hf&_). rewrite Ht in Ht0. injection Ht0 as <-.
  apply wp_bind, wp_mod_task; [by exists t|]. set (s1 := set_field tasks _ s).
  assert (Inv s1 C) as HI1.
  { apply (Inv_mod_task s C i t); try done; [|left; unfold set_x; rproj; by rewrite Hst].
    unfold set_x. rproj. rewrite length_insert. exact (inv_context _ _ HI i t Ht). }
  assert (Running None s1) as HR1 by (by apply Running_mod_task).
  assert (Lineage None None s1 F) as HL1.
  { eapply (joiners_Lineage _ _ s); [done|by apply static_mod_task|]. eapply (joiners_only i); [apply only_task_mod|].
    intros t0 Ht0. by eapply running_not_waiting. }
  destruct (list_elem_of_split _ _ Hch) as (l1&l2&HFp).
  apply wp_bind, (remove_tracker_spec ch (Some k) l1 l2 F); try apply HL1; [done..|].
  intros ks' root' used' F' HF' Hac Hpr _. apply (HQ _ F'); try done.
  - split; [by apply Inv_trackers|done|by apply (Running_frame None s1)|].
    eapply Lineage_prune; try done; [|by left]. unfold completed. change (trackers s1) with (trackers s). rewrite Htr. simpl. by rewrite Hdone.
  - unfold s1. change (tasks (with_forest _ _ _ ?x)) with (tasks x). rproj. by apply alter_insert.
  - apply Hpr.
Qed.

Lemma wait_blocked_spec {A} (m : nat -> K A) (Q : A -> KState -> Prop) :
  (forall j s' C', Sound s' C' F -> (exists t', tasks s' !! i = Some t' /\ t_state t' = TaskState.blocked_join /\ t_context t' = t_context t) ->
     k_wait <$> trackers s' !! k = Some (mkWaitInfo true tid 0 0) ->
     (exists l', harts s' !! e_hart e = Some l' /\ h_scheduler l' = true /\ is_Some (current_task l') /\
        0 <= timeslice_ticks l' <= kIdleTimesliceTicks) ->
     held s' = held s -> csrs s' = csrs s -> time_initialized s' = time_initialized s -> same_harts s s' -> wp False (m j) Q e s') ->
  wp False (mod_tracker k (<| k_wait := mkWaitInfo true tid 0 0 |>);;
            (mod_task i (<| t_state := TaskState.blocked_join |>);; (mod_task i (<| t_state_info := u64 tid |>);;
             (scheduler_of i;; (j ← set_next_runnable; m j))))) Q e s.
Proof.
  intros HQ. pose proof Hso as [HI Hei HR HL]. pose proof Hca as [Hh Hs Hc Hit Ht Hu].
  destruct (forest_tracker (li_tree _ _ _ _ HL) k Huk) as [tr Htr].
  apply wp_bind, wp_mod_tracker; [by exists tr|]. apply wp_bind, wp_mod_task; [by exists t|].
  apply wp_bind, wp_mod_task; [rproj; rewrite lookup_alter_is_Some; by exists t|]. set (s1 := set_field tasks _ _).
  set (t1 := t <| t_state := TaskState.blocked_join |> <| t_state_info := u64 tid |>).
  assert (tasks s1 = <[i := t1]> (tasks s)) as Ets.
  { unfold s1. rproj. rewrite (alter_insert _ i (tasks s) t Ht). by rewrite (alter_inserted _ i _ _ t Ht). }
  destruct (off_hart e i it hl t s C TaskState.blocked_join (u64 tid) HI HR Hca ltac:(done) s1)
    as (HI1&HR1&Ht1&Hf1&Hcpu1&Hid1&Hus&Hoth1); try done; [apply HI|].
  assert (Lineage None None s1 F) as HL1.
  { eapply (Lineage_wait s s1 F i k t t1); try done. split_and!; try done. by exists (e_hart e), hl. }
  eapply (switch_spec _ it hl i t1 s1 C); try done. intros s2 []. apply (HQ _ s2 (pick (e_hart e) it C).2); try done.
  - split; try done. by apply (joiners_Lineage _ _ s1).
  - apply fmap_Some in sw_task0 as (t2&Ht2&E). symmetry in E. apply core_inv in E as (Es&_&_&_&Ectx&_). exists t2. by rewrite Es, Ectx.
  - rewrite sw_trackers0. unfold s1. rproj. by rewrite list_lookup_alter_eq, Htr.
  - exact (st_harts _ _ sw_static0).
Qed.
End waiting.

Lemma wait_task_spec i k it hl t tid s C F e (Q : WaitResult.t -> KState -> Prop) :
  Sound s C F -> calling e i it hl t s -> lock_fits LTaskManager (held s) -> t_tracker t = Some k ->
  (forall r s', waited e i k t tid s C F r s' -> Q r s') -> wp False (wait_task i tid) Q e s.
Proof.
  intros Hso Hca Hlock Hk HQ. pose proof Hso as [HI Hei HR HL]. pose proof Hca as [Hh Hs Hc Hit Ht Hu].
  assert (held s = []) as Hhd.
  { destruct (held s) as [|l hs]; [done|]. apply Forall_cons in Hlock as [Hl _]. simpl in Hl. lia. }
  destruct (run_task _ _ HR _ hl i ltac:(done) Hh Hc) as (t0&Ht0&_&_&_&Hus&_).
  destruct (li_task _ _ _ _ HL i ltac:(done) Hus) as (t1&k1&tr1&Ht1&Hk1&Huk&_).
  assert (k1 = k) as -> by congruence. clear t0 t1 Ht0 Ht1 Hk1 tr1.
  unfold wait_task, get_current_task, current. ksteps. rewrite Hc, bool_decide_false by tauto.
  apply wp_with_lock; [done|]. set (s1 := s <| lock_log := _ |> <| held := _ |>).
  assert (Sound s1 C F) as Hso1 by (apply Sound_locks; [done|]; constructor; [done|apply HI]).
  assert (calling e i it hl t s1) as Hca1 by done.
  assert (lock_fits (LRunQueue Global) (held s1)) as Hlock1.
  { change (lock_fits (LRunQueue Global) (LTaskManager :: held s)). rewrite Hhd. constructor; [simpl; lia|constructor]. }
  apply wp_bind. eapply wp_get_task; [exact Ht|]. apply wp_bind. eapply wp_deref; [exact Hk|].
  apply wp_bind, (find_child_spec _ _ k tid F ∅); [apply Hso1|done|]. fold (awaited (trackers s1) F k tid).
  change (trackers s1) with (trackers s). destruct (awaited (trackers s) F k tid) as [ch|] eqn:Eaw.
  2: { apply wp_ret. split; [done|]. apply HQ. split; [|done]. rewrite Eaw. split_and!; try done. by apply Sound_held. }
  assert (ch ∈ F (Some k)) as Hch by (by eapply awaited_child).
  destruct (forest_tracker (li_tree _ _ _ _ HL) ch) as [tr Htr]; [by eapply (forest_in (li_tree _ _ _ _ HL))|].
  apply wp_bind. eapply wp_get_tracker; [exact Htr|]. destruct (k_task tr) as [x|] eqn:Ektr.
  - apply (wait_blocked_spec e i k it hl t tid s1 C F); try done. intros j s2 C2 Hso2 Hi2 Hw2 Hl2 Ehd Ecs Eti Esh. apply wp_ret.
    split; [done|]. apply HQ. split; [|done]. rewrite Eaw. exists tr. split; [done|]. rewrite Ektr. split_and!; try done.
    exists C2. by apply Sound_held.
  - apply (wait_completed_spec e i k it hl t s1 C F); try done. intros s2 F2 Hso2 Eh Et Eu Ehd Ecs Eti. apply wp_ret.
    split; [done|]. apply HQ. split; [|split_and!; try done; intros h; change (harts _) with (harts s2) at 1; by rewrite Eh]. rewrite Eaw. exists tr. split; [done|]. rewrite Ektr. split_and!; try done.
    exists F2. by apply Sound_held.
Qed.

(** ** Slots *)

Lemma first_free_spec used n :
  match first_free used n with
  | Some i => exists j, i = (n + j)%nat /\ used !! j = Some false
  | None => Forall (fun b => b = true) used
  end.
Proof.
  revert n. induction used as [|b used IH]; intros n; cbn [first_free]; [constructor|]. destruct b.
  - specialize (IH (S n)). destruct (first_free used (S n)); [|by constructor].
    destruct IH as (j&->&Hj). exists (S j). split; [lia|done].
  - exists 0%nat. split; [lia|done].
Qed.

Lemma first_free_Some used i : first_free used 0 = Some i -> used !! i = Some false.
Proof. intros E. pose proof (first_free_spec used 0) as H. rewrite E in H. by destruct H as (j&->&?). Qed.

(** An unused task slot is in no queue, on no hart, and nobody's idle task. *)
Lemma unused_task s C F i t :
  Sound s C F -> task_slots_used s !! i = Some false -> tasks s !! i = Some t ->
  (forall k, flag_of k t = false) /\ (forall h hl, harts s !! h = Some hl -> current_task hl <> Some i) /\
  (forall h hl, harts s !! h = Some hl -> h_scheduler hl = true -> idle_task hl <> Some i).
Proof.
  intros [HI _ HR _] Hu Ht. split_and!.
  - intros k. destruct (flag_of k t) eqn:E; [|done]. apply (qs_flag _ _ (inv_q _ _ HI) k i t Ht) in E as (q&_&Hq).
    destruct (inv_member _ _ HI q i t Hq Ht) as (_&_&_&?). congruence.
  - intros h hl Hl Hc. destruct (run_task _ _ HR h hl i ltac:(done) Hl Hc) as (?&_&_&_&_&?&_). congruence.
  - intros h hl Hl Hs Hit. destruct (inv_bind _ _ HI h hl Hl Hs) as (_&_&_&it&Hit'&[_ ?]). congruence.
Qed.

(** Slot [i] and tracker slot [k] were free and now hold [t'] and [tr']; [b]
    tells whether they are in use. *)
Record installed (i k : nat) (t' : Task) (tr' : TaskTracker) (b : bool) (s s' : KState) : Prop := {
  il_tasks : tasks s' = <[i := t']> (tasks s); il_used : task_slots_used s' = <[i := b]> (task_slots_used s);
  il_free : task_slots_used s !! i = Some false; il_kfree : tracker_slots_used s !! k = Some false;
  il_kused : tracker_slots_used s' = <[k := b]> (tracker_slots_used s);
  il_entries : forall j, j <> k -> entry <$> trackers s' !! j = entry <$> trackers s !! j;
  il_entry : entry <$> trackers s' !! k = Some (entry tr');
  il_frame : table_frame s s';
}.

Lemma installed_inv i k t' tr' b s s' C F :
  Sound s C F -> installed i k t' tr' b s s' -> (forall k, flag_of k t' = false) -> length (ctx_x (t_context t')) = 32%nat ->
  Inv s' C /\ EpIdle s' C /\ Running None s'.
Proof.
  intros Hso [E1 E2 Hfr _ _ _ _ []] Hf' Hctx. pose proof Hso as [HI Hei HR _].
  destruct (lookup_lt_is_Some_2 (tasks s) i) as [t Ht].
  { apply lookup_lt_Some in Hfr. rewrite (li_slots _ _ _ _ (so_lineage _ _ _ Hso)) in Hfr. by rewrite (inv_tasks _ _ HI). }
  destruct (unused_task s C F i t Hso Hfr Ht) as (Hf&Hnc&Hni). split_and!.
  - eapply (Inv_slot s s' C i t t' b); try done. by rewrite tf_log0; apply HI.
  - by eapply EpIdle_same.
  - apply (Running_slot None s s' i t' b); try done. intros h hl _. apply Hnc.
Qed.

(** The slots were given back. *)
Lemma Lineage_spare i k t' tr' s s' F :
  Lineage None None s F -> installed i k t' tr' false s s' -> tree s' F ∅ -> Lineage None None s' F.
Proof.
  intros [L1 L2 L3 L4 L5 L6 L7] [E1 E2 Hfr Hkf E3 Hen _ Htf] HF.
  assert (forall j, j <> i -> tasks s' !! j = tasks s !! j) as Hoth by (intros j Hj; by rewrite E1, list_lookup_insert_ne).
  assert (task_slots_used s' = task_slots_used s) as Eu by (rewrite E2; by apply list_insert_id).
  assert (tracker_slots_used s' = tracker_slots_used s) as Eku by (rewrite E3; by apply list_insert_id).
  assert (forall j tr1, tracker_slots_used s !! j = Some true -> trackers s' !! j = Some tr1 ->
    exists tr, trackers s !! j = Some tr /\ entry tr1 = entry tr) as Hback.
  { intros j tr1 Hu Hj. specialize (Hen j ltac:(congruence)). rewrite Hj in Hen. symmetry in Hen. apply fmap_Some in Hen as (tr&?&?). by exists tr. }
  split; rewrite ?Eu; auto.
  - intros c Hc _. destruct (L3 c Hc ltac:(done)) as [x Hx]. exists x. rewrite <- Hx. apply entry_task, Hen.
    intros ->. apply (forest_in L1) in Hc. congruence.
  - intros j _ Hu. destruct (L5 j ltac:(done) Hu) as (t&kj&tr&?&?&Hku&Htr&Htk). specialize (Hen kj ltac:(congruence)). rewrite Htr in Hen.
    apply fmap_Some in Hen as (tr1&Htr1&E). apply entry_inv in E as (_&E&_). exists t, kj, tr1. rewrite Hoth, Eku by congruence.
    split_and!; try done. congruence.
  - intros kj tr1 x Hku Htr1 Hx. rewrite Eku in Hku. destruct (Hback kj tr1 Hku Htr1) as (tr&Htr&(_&E&_)%entry_inv).
    destruct (L6 kj tr x Hku Htr ltac:(congruence)) as (?&Hux&?). split_and!; try done. by rewrite Hoth by congruence.
  - intros kj tr1 Hku Htr1 Ha. rewrite Eku in Hku. destruct (Hback kj tr1 Hku Htr1) as (tr&Htr&(_&E&_&Ew)%entry_inv).
    destruct (L7 kj tr Hku Htr ltac:(congruence)) as (x&tx&Hx&Htx&Hw). exists x, tx.
    destruct (L6 kj tr x Hku Htr Hx) as (_&Hux&_). rewrite Hoth by congruence. split_and!; try congruence.
    unfold waiting, cpu_bound in *. by rewrite (tf_harts _ _ Htf).
Qed.

(** The new task and its tracker, below [p]. *)
Lemma Lineage_create i k t' tr' p s s' F :
  length (tasks s) = kMaxTasks -> Lineage None None s F -> installed i k t' tr' true s s' -> tree s' (<[p := k :: F p]> F) ∅ ->
  (forall y, p = Some y -> tracker_slots_used s !! y = Some true) ->
  t_tracker t' = Some k -> k_task tr' = Some i -> wi_active (k_wait tr') = false -> Lineage None None s' (<[p := k :: F p]> F).
Proof.
  intros Hlen HL [E1 E2 Hfr Hkf E3 Hen Hek Htf] HF Hp Hk' Hti Hwa. pose proof HL as [L1 L2 L3 L4 L5 L6 L7].
  assert (forall j, j <> i -> tasks s' !! j = tasks s !! j /\ task_slots_used s' !! j = task_slots_used s !! j) as Hoth
    by (intros j Hj; rewrite E1, E2, !list_lookup_insert_ne; done).
  assert (forall j, j <> k -> tracker_slots_used s' !! j = tracker_slots_used s !! j) as Hkoth
    by (intros j Hj; by rewrite E3, list_lookup_insert_ne).
  assert (tracker_slots_used s' !! k = Some true) as Huk by (rewrite E3; apply list_lookup_insert_eq; by eapply lookup_lt_Some).
  assert (forall j tr1, trackers s' !! j = Some tr1 -> (j = k /\ entry tr1 = entry tr') \/
    (j <> k /\ exists tr, trackers s !! j = Some tr /\ entry tr1 = entry tr)) as Hback.
  { intros j tr1 Hj. destruct (decide (j = k)) as [->|Hjk]; [left; rewrite Hj in Hek; split; [done|by apply (inj Some) in Hek]|right].
    split; [done|]. specialize (Hen j Hjk). rewrite Hj in Hen. symmetry in Hen. apply fmap_Some in Hen as (tr&?&?). by exists tr. }
  assert (forall q c, c ∈ F q -> c <> k) as Hnk by (intros q c Hc ->; apply (forest_in L1) in Hc; congruence).
  assert (F (Some k) = []) as HFk.
  { destruct (decide (F (Some k) = [])) as [|Hn]; [done|]. apply (fo_dom _ _ _ _ _ L1) in Hn. congruence. }
  split; auto.
  - destruct L2 as [d Hd]. exists (fun x => if decide (x = k) then match p with Some y => S (d y) | None => 0%nat end else d x).
    intros q c. destruct (decide (Some q = p)) as [<-|Hqp].
    + specialize (Hp q eq_refl). rewrite fn_lookup_insert. intros Hc. rewrite (decide_False (P := q = k)) by congruence.
      apply elem_of_cons in Hc as [->|Hc]; [rewrite decide_True by done; lia|].
      rewrite decide_False by (by eapply Hnk). by apply Hd.
    + rewrite fn_lookup_insert_ne by done. intros Hc. destruct (decide (q = k)) as [->|Hqk]; [rewrite HFk in Hc; by apply elem_of_nil in Hc|].
      rewrite decide_False by (by eapply Hnk). by apply Hd.
  - intros c Hc _. destruct (decide (c = k)) as [->|Hck].
    + exists i. destruct (trackers s' !! k) as [trk|]; [|done]. apply (inj Some), entry_inv in Hek as (_&E&_). simpl. by rewrite E, Hti.
    + assert (c ∈ F None) as HcN.
      { destruct p as [y|]; [by rewrite fn_lookup_insert_ne in Hc|]. rewrite fn_lookup_insert in Hc. by apply elem_of_cons in Hc as [->|Hc]. }
      destruct (L3 c HcN ltac:(done)) as [x Hx]. exists x. rewrite <- Hx. by apply entry_task, Hen.
  - by rewrite E2, length_insert.
  - intros j _ Hu. destruct (decide (j = i)) as [->|Hji].
    + destruct (trackers s' !! k) as [trk|] eqn:Etrk; [|done]. apply (inj Some), entry_inv in Hek as (_&E&_).
      exists t', k, trk. split_and!; try done; [|by rewrite E]. rewrite E1. apply list_lookup_insert_eq.
      rewrite E2 in Hu. apply lookup_lt_Some in Hu. rewrite length_insert, L4 in Hu. by rewrite Hlen.
    + destruct (Hoth j Hji) as [-> Ej]. rewrite Ej in Hu. destruct (L5 j ltac:(done) Hu) as (t&kj&tr&?&?&Hku&Htr&Htk).
      assert (kj <> k) as Hne by congruence. specialize (Hen kj Hne). rewrite Htr in Hen.
      apply fmap_Some in Hen as (tr1&Htr1&E). apply entry_inv in E as (_&E&_). exists t, kj, tr1. rewrite Hkoth by done.
      split_and!; try done. congruence.
  - intros kj tr1 x Hku Htr1 Hx. destruct (Hback kj tr1 Htr1) as [[-> (_&E&_)%entry_inv]|(Hkj&tr&Htr&(_&E&_)%entry_inv)].
    + assert (x = i) as -> by congruence. split; [done|].
      assert (i < length (task_slots_used s))%nat as Hlt by (by eapply lookup_lt_Some).
      split; [rewrite E2; by apply list_lookup_insert_eq|]. exists t'. split; [|done]. rewrite E1. apply list_lookup_insert_eq.
      by rewrite Hlen, <- L4.
    + rewrite Hkoth in Hku by done. destruct (L6 kj tr x Hku Htr ltac:(congruence)) as (?&Hux&?). destruct (Hoth x ltac:(congruence)) as [-> ->]. done.
  - intros kj tr1 Hku Htr1 Ha. destruct (Hback kj tr1 Htr1) as [[-> (_&_&_&E)%entry_inv]|(Hkj&tr&Htr&(_&E&_&Ew)%entry_inv)]; [congruence|].
    rewrite Hkoth in Hku by done. destruct (L7 kj tr Hku Htr ltac:(congruence)) as (x&tx&Hx&Htx&Hw). exists x, tx.
    destruct (L6 kj tr x Hku Htr Hx) as (_&Hux&_). destruct (Hoth x ltac:(congruence)) as [-> _]. split_and!; try congruence.
    unfold waiting, cpu_bound in *. by rewrite (tf_harts _ _ Htf).
Qed.

(** ** Creation *)

Lemma Lineage_unused i s F : Lineage None None s F -> task_slots_used s !! i = Some false -> Lineage (Some i) None s F.
Proof.
  intros [L1 L2 L3 L4 L5 L6 L7] Hu. split; auto. intros k tr x Hk Htr Hx. destruct (L6 k tr x Hk Htr Hx) as (_&?&?).
  split_and!; try done. congruence.
Qed.

(** A free tracker slot was cleared. *)
Lemma Lineage_trackers k s s' F :
  Lineage None None s F -> tree s' F ∅ -> tracker_slots_used s !! k = Some false ->
  tracker_slots_used s' = tracker_slots_used s -> (forall j, j <> k -> trackers s' !! j = trackers s !! j) ->
  tasks s' = tasks s -> task_slots_used s' = task_slots_used s -> harts s' = harts s -> Lineage None None s' F.
Proof.
  intros [L1 L2 L3 L4 L5 L6 L7] HF Hk Eku Hoth Et Eu Eh.
  assert (forall j, tracker_slots_used s !! j = Some true -> trackers s' !! j = trackers s !! j) as Hsame
    by (intros j Hj; apply Hoth; congruence).
  split; rewrite ?Et, ?Eu; auto.
  - intros c Hc Hz. destruct (L3 c Hc Hz) as [x Hx]. exists x. rewrite Hsame; [done|]. by eapply (forest_in L1).
  - intros i Hi Hu. destruct (L5 i Hi Hu) as (t&kj&tr&?&?&?&?&?). exists t, kj, tr. by rewrite Eku, Hsame.
  - intros kj tr x Hku Htr. rewrite Eku in Hku. rewrite Hsame in Htr by done. by apply L6.
  - intros kj tr Hku Htr Ha. rewrite Eku in Hku. rewrite Hsame in Htr by done. destruct (L7 kj tr Hku Htr Ha) as (x&tx&?&?&?). exists x, tx.
    split_and!; try done. unfold waiting, cpu_bound in *. by rewrite Eh.
Qed.

(** The tracker the new task is linked below. *)
Definition parent_of (s : KState) (hl : HartLocal) (kernel_parent : bool) : option nat :=
  if kernel_parent then None else
  match current_task hl with
  | None => None
  | Some c => match tasks s !! c with Some t => t_tracker t | None => None end
  end.

(** The new task. *)
Definition fresh_task (owner : nat) (asp : AddressSpace) (tid : Z) (k : nat) (bottom top : Z) (idle : bool) (c : TaskContext) : Task :=
  zero_task <| t_cpu := Some owner |> <| t_address_space := asp |> <| t_tid := tid |> <| t_affinity_pinned := 0 |>
    <| t_state := TaskState.ready |> <| t_state_info := 0 |> <| t_tracker := Some k |> <| t_stack_bottom := bottom |>
    <| t_stack_top := top |> <| t_detached := false |> <| t_idle := idle |> <| t_queued := false |>
    <| t_previous := None |> <| t_next := None |> <| t_message_wait := zero_wait_node |> <| t_context := c |>.

Definition fresh_tracker (tid : Z) (i : nat) (entry_point : Z) : TaskTracker :=
  zero_tracker <| k_key := tid |> <| k_task := Some i |> <| k_status := ExitStatus.running |> <| k_return_value := 0 |>
    <| k_wait := zero_wait |> <| k_entry_point := entry_point |>.

(** Memory when the stack of slot [i] is about to be mapped: it is cleared. *)
Definition stack_bottom (e : Env) (i : nat) : Z := task_stacks_base (e_syms e) + Z.of_nat i * kTaskStackSize.
Definition stack_cleared (e : Env) (i : nat) (ms : MemSys) : MemSys :=
  ms <| ms_mem := clear_bytes (stack_bottom e i) kTaskStackSize (ms_mem ms) |>.

(** When creation is granted: the manager is up, the address space is valid, the
    entry point lies in the user text, both tables have room, and the stack, if
    one is wanted, can be mapped. *)
Definition creatable (e : Env) (entry_point : Z) (asp : AddressSpace) (with_stack : bool) (s : KState) : bool :=
  tm_initialized s && as_valid asp && is_boot_user_entry entry_point (vmm s) &&
  match first_free (task_slots_used s) 0, first_free (tracker_slots_used s) 0 with
  | Some i, Some _ =>
      negb with_stack || (map_boot_task_stack (stack_bottom e i) kTaskStackSize (vmm s) (stack_cleared e i (memsys s))).1.1
  | _, _ => false
  end.

(** What creation does to memory. *)
Definition stack_mapped (e : Env) (i : nat) (with_stack : bool) (s s' : KState) : Prop :=
  tm_initialized s' = tm_initialized s /\
  if with_stack
  then map_boot_task_stack (stack_bottom e i) kTaskStackSize (vmm s) (stack_cleared e i (memsys s)) = (true, vmm s', memsys s')
  else vmm s' = vmm s /\ memsys s' = memsys s.

(** Creation succeeded: slot [i] and tracker [k]. *)
Record created (e : Env) (hl : HartLocal) (c : Csr) (i k : nat) (entry_point argument : Z) (asp : AddressSpace) (owner : nat)
    (kernel_parent idle with_stack : bool) (s : KState) (C : queues) (F : family) (s' : KState) : Prop := {
  cr_sound : Sound s' C (<[parent_of s hl kernel_parent := k :: F (parent_of s hl kernel_parent)]> F);
  cr_first : first_free (task_slots_used s) 0 = Some i /\ first_free (tracker_slots_used s) 0 = Some k;
  cr_memory : stack_mapped e i with_stack s s';
  cr_free : task_slots_used s !! i = Some false /\ tracker_slots_used s !! k = Some false;
  cr_used : task_slots_used s' = <[i := true]> (task_slots_used s) /\ tracker_slots_used s' = <[k := true]> (tracker_slots_used s);
  cr_task : let bottom := if with_stack then stack_bottom e i else 0 in
            let top := if with_stack then bottom + kTaskStackSize else 0 in
    tasks s' = <[i := fresh_task owner asp (next_tid s) k bottom top idle
      (user_context (mstatus c) entry_point argument top (user_task_end_stub (e_syms e)) (satp_value asp) zero_context)]> (tasks s);
  cr_tracker : entry <$> trackers s' !! k = Some (fresh_tracker (next_tid s) i entry_point);
  cr_next : next_tid s' = u64 (next_tid s + 1);
  cr_frame : table_frame s s';
}.

(** Creation failed: nothing in use has changed. *)
Record refused (s : KState) (C : queues) (F : family) (s' : KState) : Prop := {
  rf_sound : Sound s' C F; rf_used : task_slots_used s' = task_slots_used s;
  rf_kused : tracker_slots_used s' = tracker_slots_used s; rf_next : next_tid s' = next_tid s;
  rf_tasks : forall j, task_slots_used s !! j = Some true -> tasks s' !! j = tasks s !! j;
  rf_frame : table_frame s s';
}.

Lemma table_frame_trans s1 s2 s3 : table_frame s1 s2 -> table_frame s2 s3 -> table_frame s1 s3.
Proof. intros [] []. split; congruence. Qed.

(** Both slots are free and taken. *)
Lemma allocated_installed i k s F :
  tree s F ∅ -> task_slots_used s !! i = Some false -> tracker_slots_used s !! k = Some false -> is_Some (tasks s !! i) ->
  let s1 := set_field trackers (alter (fun _ => zero_tracker) k) (s <| task_slots_used := <[i := true]> (task_slots_used s) |>
    <| tasks := alter (fun _ => zero_task) i (tasks s) |> <| tracker_slots_used := <[k := true]> (tracker_slots_used s) |>) in
  installed i k zero_task zero_tracker true s s1 /\ tree s1 F {[k]}.
Proof.
  intros HF Hi Hk [t Ht] s1.
  assert (k < length (trackers s))%nat as Hlt.
  { apply lookup_lt_Some in Hk. by rewrite (fo_used_len _ _ _ _ _ HF), <- (fo_len _ _ _ _ _ HF) in Hk. }
  destruct (lookup_lt_is_Some_2 _ _ Hlt) as [tr Htr].
  assert (trackers s1 = <[k := zero_tracker]> (trackers s)) as Etr by (unfold s1; rproj; by rewrite (alter_insert _ k _ tr Htr)).
  split; [split|]; try done.
  - unfold s1. rproj. by rewrite (alter_insert _ i _ t Ht).
  - intros j Hj. by rewrite Etr, list_lookup_insert_ne.
  - by rewrite Etr, list_lookup_insert_eq.
  - rewrite Etr. replace ({[k]} : gset nat) with ({[k]} ∪ ∅ : gset nat) by set_solver. by apply forest_allocate.
Qed.

Lemma zero_task_ok : (forall k, flag_of k zero_task = false) /\ length (ctx_x (t_context zero_task)) = 32%nat.
Proof. split; [by intros []|done]. Qed.

(** Both slots are given back. *)
Lemma give_up_spec pk i k s s1 C F (Q : option nat -> KState -> Prop) e :
  Sound s C F -> installed i k zero_task zero_tracker true s s1 -> tree s1 F {[k]} -> next_tid s1 = next_tid s ->
  (forall s', refused s C F s' -> Q None s') ->
  wp pk (release_tracker_locked k;; (release_task_locked i;; mret None)) Q e s1.
Proof.
  intros Hso Hin HF Hnt HQ. pose proof Hin as [E1 E2 Hfr Hkf E3 Hen Hek Htf].
  assert (tracker_slots_used s1 !! k = Some true) as Huk by (rewrite E3; apply list_lookup_insert_eq; by eapply lookup_lt_Some).
  assert (i < length (tasks s))%nat as Hlt.
  { apply lookup_lt_Some in Hfr. rewrite (li_slots _ _ _ _ (so_lineage _ _ _ Hso)) in Hfr. by rewrite (inv_tasks _ _ (so_inv _ _ _ Hso)). }
  apply wp_bind, (release_tracker_spec _ _ k F {[k]}); [done|set_solver|done| |].
  { destruct (decide (F (Some k) = [])) as [|Hn]; [done|]. apply (fo_dom _ _ _ _ _ (li_tree _ _ _ _ (so_lineage _ _ _ Hso))) in Hn. congruence. }
  intros HF2. replace ({[k]} ∖ {[k]}) with (∅ : gset nat) in HF2 by set_solver.
  apply wp_bind, (release_task_spec _ i zero_task).
  - change (tasks s1 !! i = Some zero_task). rewrite E1. by apply list_lookup_insert_eq.
  - change (length (tasks s1) = kMaxTasks). rewrite E1, length_insert. apply Hso.
  - apply zero_task_ok.
  - intros s3 T1 T2 Htf3 T3 T4 T5 T6. apply wp_ret, HQ.
    assert (installed i k zero_task zero_tracker false s s3) as Hin3.
    { split; try done.
      - rewrite T1. change (tasks (with_forest _ _ _ s1)) with (tasks s1). by rewrite E1, list_insert_insert_eq.
      - rewrite T2. change (task_slots_used (with_forest _ _ _ s1)) with (task_slots_used s1). by rewrite E2, list_insert_insert_eq.
      - rewrite T5. change (<[k:=false]> (tracker_slots_used s1) = <[k:=false]> (tracker_slots_used s)). by rewrite E3, list_insert_insert_eq.
      - intros j Hj. rewrite T3. change (entry <$> <[k:=zero_tracker]> (trackers s1) !! j = entry <$> trackers s !! j).
        rewrite list_lookup_insert_ne by done. by apply Hen.
      - rewrite T3. change (entry <$> <[k:=zero_tracker]> (trackers s1) !! k = Some (entry zero_tracker)).
        rewrite list_lookup_insert_eq; [done|]. by destruct (trackers s1 !! k) eqn:Ek; [eapply lookup_lt_Some|].
      - eapply table_frame_trans; [exact Htf|]. destruct Htf3. by split. }
    destruct (installed_inv i k zero_task zero_tracker false s s3 C F Hso Hin3) as (HI3&Hei3&HR3); try apply zero_task_ok.
    pose proof Hin3 as [D1 D2 _ _ D3 _ _ D4]. split; try done.
    + split; try done. eapply Lineage_spare; [apply Hso|done|]. rewrite T3, T4, T5. exact HF2.
    + rewrite D2. by apply list_insert_id.
    + rewrite D3. by apply list_insert_id.
    + rewrite T6. exact Hnt.
    + intros j Hj. rewrite D1, list_lookup_insert_ne; [done|]. congruence.
Qed.

(** The context of a new task. *)
Lemma user_context_length ms entry_point argument top stub sv c :
  length (ctx_x (user_context ms entry_point argument top stub sv c)) = length (ctx_x c).
Proof. unfold user_context, clear. rproj. cbn [ctx_x]. by rewrite !length_insert, length_replicate. Qed.

Section create.
Context (pk : Prop) (e : Env) (hl : HartLocal) (c : Csr) (entry_point argument : Z) (asp : AddressSpace) (owner : nat).
Context (kernel_parent idle with_stack : bool) (s : KState) (C : queues) (F : family).
Context (Hso : Sound s C F) (Hh : harts s !! e_hart e = Some hl) (Hcsr : csrs s !! e_hart e = Some c).

Lemma parent_used y : parent_of s hl kernel_parent = Some y -> tracker_slots_used s !! y = Some true.
Proof.
  unfold parent_of. destruct kernel_parent; [done|]. destruct (current_task hl) as [c0|] eqn:Ec; [|done].
  destruct (run_task _ _ (so_running _ _ _ Hso) _ hl c0 ltac:(done) Hh Ec) as (t0&Ht0&_&_&_&Hus&_). rewrite Ht0. intros Hk.
  destruct (li_task _ _ _ _ (so_lineage _ _ _ Hso) c0 ltac:(done) Hus) as (t1&k1&tr&Ht1&Hk1&Hu1&_). congruence.
Qed.

Lemma install_spec i k s1 bottom top (Q : option nat -> KState -> Prop) :
  installed i k zero_task zero_tracker true s s1 -> tree s1 F {[k]} -> next_tid s1 = next_tid s ->
  first_free (task_slots_used s) 0 = Some i -> first_free (tracker_slots_used s) 0 = Some k -> stack_mapped e i with_stack s s1 ->
  bottom = (if with_stack then stack_bottom e i else 0) ->
  top = (if with_stack then bottom + kTaskStackSize else 0) ->
  (forall s', created e hl c i k entry_point argument asp owner kernel_parent idle with_stack s C F s' -> Q (Some i) s') ->
  wp pk (tid ← gets next_tid;
         modify (fun s => s <| next_tid := u64 (next_tid s + 1) |>);;
         mod_task i (fun t =>
           t <| t_cpu := Some owner |> <| t_address_space := asp |> <| t_tid := tid |>
             <| t_affinity_pinned := 0 |> <| t_state := TaskState.ready |> <| t_state_info := 0 |>
             <| t_tracker := Some k |> <| t_stack_bottom := bottom |> <| t_stack_top := top |>
             <| t_detached := false |> <| t_idle := idle |> <| t_queued := false |>
             <| t_previous := None |> <| t_next := None |> <| t_message_wait := zero_wait_node |>);;
         e ← ask;
         initialize_user i entry_point argument top (user_task_end_stub (e_syms e)) (satp_value asp);;
         mod_tracker k (fun k =>
           k <| k_key := tid |> <| k_task := Some i |> <| k_status := ExitStatus.running |>
             <| k_return_value := 0 |> <| k_wait := zero_wait |> <| k_entry_point := entry_point |>);;
         parent_task ← (if kernel_parent then mret None else get_current_task);
         parent ← match parent_task with
                  | None => mret None
                  | Some p => t ← get_task p; mret (t_tracker t)
                  end;
         link_tracker_locked k parent;;
         mret (Some i)) Q e s1.
Proof.
  intros Hin HF Hnt Hff Hfk Hmem Hbot Htop HQ. pose proof Hin as [E1 E2 Hfr Hkf E3 Hen Hek Htf].
  assert (i < length (tasks s))%nat as Hlt.
  { apply lookup_lt_Some in Hfr. rewrite (li_slots _ _ _ _ (so_lineage _ _ _ Hso)) in Hfr. by rewrite (inv_tasks _ _ (so_inv _ _ _ Hso)). }
  assert (tasks s1 !! i = Some zero_task) as Hi1 by (rewrite E1; by apply list_lookup_insert_eq).
  destruct (trackers s1 !! k) as [tr1|] eqn:Etr1; [|done].
  assert (tracker_slots_used s1 !! k = Some true) as Huk by (rewrite E3; apply list_lookup_insert_eq; by eapply lookup_lt_Some).
  apply wp_bind, wp_gets, wp_bind, wp_modify, wp_bind, wp_mod_task; [by exists zero_task|]. apply wp_bind, wp_ask.
  unfold initialize_user, read_mstatus. apply wp_bind, wp_bind, wp_bind, wp_current_hart, wp_bind.
  apply (wp_get_csr _ _ _ c); [rproj; by rewrite (tf_csrs _ _ Htf)|]. apply wp_ret.
  apply wp_mod_task; [rproj; rewrite lookup_alter_is_Some; by exists zero_task|].
  apply wp_bind, wp_mod_tracker; [by exists tr1|]. match goal with |- wp _ _ _ _ ?x => set (s5 := x) end.
  set (ctx := user_context (mstatus c) entry_point argument top (user_task_end_stub (e_syms e)) (satp_value asp) zero_context).
  set (t' := fresh_task owner asp (next_tid s) k bottom top idle ctx).
  assert (tasks s5 = <[i := t']> (tasks s)) as Et5.
  { unfold s5. rproj. rewrite (alter_insert _ i (tasks s1) zero_task Hi1), (alter_inserted _ i _ _ zero_task Hi1).
    rewrite E1, list_insert_insert_eq. f_equal. unfold t', fresh_task. by rewrite <- Hnt. }
  assert (forest (trackers s5) (root_tasks s1) (tracker_slots_used s1) F {[k]}) as HF5 by (unfold s5; rproj; by apply forest_entry).
  set (p := parent_of s hl kernel_parent).
  assert (wp pk (parent_task ← (if kernel_parent then mret None else get_current_task);
         match parent_task with None => mret None | Some p => t ← get_task p; mret (t_tracker t) end)
         (fun r s' => r = p /\ s' = s5) e s5) as Hparent.
  { unfold p, parent_of. destruct kernel_parent; [by apply wp_bind, wp_ret, wp_ret|].
    unfold get_current_task, current. apply wp_bind, wp_bind, wp_bind, wp_current_hart.
    apply (wp_get_hart _ _ _ hl); [unfold s5; rproj; by rewrite (tf_harts _ _ Htf)|]. apply wp_ret.
    destruct (current_task hl) as [c0|] eqn:Ec; [|by apply wp_ret].
    destruct (run_task _ _ (so_running _ _ _ Hso) _ hl c0 ltac:(done) Hh Ec) as (t0&Ht0&_&_&_&Hus&_). rewrite Ht0.
    apply wp_bind, (wp_get_task _ _ _ t0); [|by apply wp_ret]. rewrite Et5, list_lookup_insert_ne; [done|]. congruence. }
  apply (wp_bind_assoc pk _ (fun parent_task => match parent_task with None => mret None | Some p => t ← get_task p; mret (t_tracker t) end)).
  eapply wp_mono; [exact Hparent|done|]. intros _ s6 [-> ->].
  apply wp_bind, (link_tracker_spec _ _ k p F {[k]}); [exact HF5|set_solver|exact Huk| |].
  { intros y Hy. change (tracker_slots_used s1 !! y = Some true). pose proof (parent_used y Hy) as Hyu. rewrite E3.
    rewrite list_lookup_insert_ne; [done|]. congruence. }
  intros ks' root' HF6 Hre. replace ({[k]} ∖ {[k]}) with (∅ : gset nat) in HF6 by set_solver. set (s6 := with_forest _ _ _ s5).
  apply wp_ret, HQ.
  assert (entry <$> ks' !! k = Some (fresh_tracker (next_tid s) i entry_point)) as Hke.
  { rewrite (Hre k). unfold s5. rproj. rewrite list_lookup_alter_eq, Etr1. simpl. f_equal. rewrite <- Hnt.
    apply (inj Some) in Hek. unfold entry in *. simpl in *. injection Hek as. unfold fresh_tracker. simpl. done. }
  assert (table_frame s s6) as Htf6 by (destruct Htf; by split).
  assert (installed i k t' (fresh_tracker (next_tid s) i entry_point) true s s6) as Hin6.
  { split; try done. intros j Hj. transitivity (entry <$> trackers s5 !! j); [apply Hre|].
    unfold s5. rproj. rewrite list_lookup_alter_ne by done. by apply Hen. }
  destruct (installed_inv i k t' _ true s s6 C F Hso Hin6) as (HI6&Hei6&HR6).
  { by intros []. }
  { unfold t', fresh_task. rproj. unfold ctx. by rewrite user_context_length. }
  split; try done.
  - split; try done. eapply (Lineage_create i k t' _ p s s6 F); [apply Hso|apply Hso|exact Hin6|exact HF6|apply parent_used|done|done|done].
  - subst bottom top. exact Et5.
  - change (u64 (next_tid s1 + 1) = u64 (next_tid s + 1)). by rewrite Hnt.
Qed.
End create.

Section creation.
Context (pk : Prop) (e : Env) (hl : HartLocal) (c : Csr) (entry_point argument : Z) (asp : AddressSpace) (owner : nat).
Context (kernel_parent idle with_stack : bool) (s : KState) (C : queues) (F : family).
Context (Hso : Sound s C F) (Hh : harts s !! e_hart e = Some hl) (Hcsr : csrs s !! e_hart e = Some c).

(** Memory is no concern of the invariants. *)
Lemma installed_memory i k t' tr' b s0 s1 vm ms :
  installed i k t' tr' b s0 s1 -> installed i k t' tr' b s0 (s1 <| vmm := vm |> <| memsys := ms |>).
Proof. intros [E1 E2 E3 E4 E5 E6 E7 []]. by split. Qed.

Lemma refused_same : refused s C F s.
Proof. by split. Qed.

(** Only the task slot was free. *)
Lemma refused_task i s' :
  task_slots_used s !! i = Some false -> tasks s' = <[i := zero_task]> (tasks s) -> task_slots_used s' = task_slots_used s ->
  table_frame s s' -> trackers s' = trackers s -> root_tasks s' = root_tasks s ->
  tracker_slots_used s' = tracker_slots_used s -> next_tid s' = next_tid s -> refused s C F s'.
Proof.
  intros Hi E1 E2 Htf E3 E4 E5 E6. pose proof Hso as [HI Hei HR HL].
  assert (task_slots_used s' = <[i := false]> (task_slots_used s)) as E2' by (rewrite E2; symmetry; by apply list_insert_id).
  destruct (lookup_lt_is_Some_2 (tasks s) i) as [t Ht].
  { apply lookup_lt_Some in Hi. rewrite (li_slots _ _ _ _ HL) in Hi. by rewrite (inv_tasks _ _ HI). }
  destruct (unused_task s C F i t Hso Hi Ht) as (Hf&Hnc&Hni). pose proof Htf as []. split; try done.
  - split.
    + eapply (Inv_slot s s' C i t zero_task false); try done; [apply zero_task_ok|]. by rewrite tf_log0; apply HI.
    + by eapply EpIdle_same.
    + apply (Running_slot None s s' i zero_task false); try done. intros h l _. apply Hnc.
    + eapply (Lineage_free i s s' F zero_task); try done. by apply Lineage_unused.
  - intros j Hj. rewrite E1, list_lookup_insert_ne; [done|]. congruence.
Qed.

Lemma create_task_locked_spec (Q : option nat -> KState -> Prop) :
  (forall s', creatable e entry_point asp with_stack s = false -> refused s C F s' -> Q None s') ->
  (forall i k s', creatable e entry_point asp with_stack s = true -> created e hl c i k entry_point argument asp owner kernel_parent idle with_stack s C F s' -> Q (Some i) s') ->
  wp pk (create_task_locked entry_point argument asp owner kernel_parent idle with_stack) Q e s.
Proof.
  intros HQn HQs. pose proof Hso as [HI Hei HR HL]. unfold creatable in HQn, HQs. unfold create_task_locked.
  apply wp_bind, wp_gets, wp_bind, wp_gets. rewrite <- !negb_andb.
  destruct (tm_initialized s && as_valid asp && is_boot_user_entry entry_point (vmm s)) eqn:Eg; cbn [andb negb] in HQn, HQs |- *;
    [|by apply wp_ret, HQn, refused_same].
  apply wp_bind. unfold allocate_task_locked at 1. apply wp_bind, wp_gets.
  destruct (first_free (task_slots_used s) 0) as [i|] eqn:Ei.
  - pose proof Ei as Eff. apply first_free_Some in Ei. destruct (lookup_lt_is_Some_2 (tasks s) i) as [t Ht].
    { apply lookup_lt_Some in Ei. rewrite (li_slots _ _ _ _ HL) in Ei. by rewrite (inv_tasks _ _ HI). }
    apply wp_bind, wp_modify, wp_bind, wp_mod_task; [by exists t|]. apply wp_ret, wp_bind.
    unfold allocate_tracker_locked. apply wp_bind, wp_gets. rproj.
    destruct (first_free (tracker_slots_used s) 0) as [k|] eqn:Ek.
    + pose proof Ek as Efk. apply first_free_Some in Ek. destruct (allocated_installed i k s F (li_tree _ _ _ _ HL) Ei Ek ltac:(by exists t)) as [Hin HF1].
      apply wp_bind, wp_modify, wp_bind, wp_mod_tracker.
      { rproj. apply lookup_lt_is_Some_2. apply lookup_lt_Some in Ek.
        by rewrite (fo_used_len _ _ _ _ _ (li_tree _ _ _ _ HL)), <- (fo_len _ _ _ _ _ (li_tree _ _ _ _ HL)) in Ek. }
      apply wp_ret. match goal with |- wp _ _ _ _ ?x => set (s1 := x) end. change (installed i k zero_task zero_tracker true s s1) in Hin.
      change (tree s1 F {[k]}) in HF1.
      assert (next_tid s1 = next_tid s /\ tm_initialized s1 = tm_initialized s /\ vmm s1 = vmm s /\ memsys s1 = memsys s)
        as (Hnt&Htm&Hvm&Hms) by done. clearbody s1.
      destruct with_stack.
      * apply wp_bind. unfold task_stack. apply wp_bind, wp_ask, wp_ret. cbv zeta. apply wp_bind, wp_bind.
        unfold kclear_bytes. apply wp_modify. unfold wp at 1, kmap_boot_task_stack. rproj. rewrite Hvm, Hms.
        fold (stack_bottom e i) (stack_cleared e i (memsys s)). cbn [negb orb] in HQn, HQs.
        destruct (map_boot_task_stack _ _ _ _) as [[ok vm] ms] eqn:Emap. cbn [fst] in HQn, HQs. destruct ok; cbn [negb].
        -- eapply (install_spec pk e hl c entry_point argument asp owner kernel_parent idle true); [exact Hso|exact Hh|exact Hcsr| |exact HF1|done|done|done|by split|reflexivity|reflexivity|by intros; eapply HQs].
           apply installed_memory. destruct Hin as [E1 E2 E3 E4 E5 E6 E7 []]. by split.
        -- eapply (give_up_spec _ i k s); [done| |exact HF1|done|by intros; apply HQn]. apply installed_memory. destruct Hin as [E1 E2 E3 E4 E5 E6 E7 []]. by split.
      * apply wp_bind, wp_ret. cbv zeta. apply wp_bind, wp_ret. cbn [negb].
        eapply (install_spec pk e hl c entry_point argument asp owner kernel_parent idle false); [exact Hso|exact Hh|exact Hcsr|exact Hin|exact HF1|done|done|done|by split|reflexivity|reflexivity|by intros; eapply HQs].
    + apply wp_ret, wp_bind, (release_task_spec _ i zero_task).
      * rproj. rewrite list_lookup_alter_eq, Ht. done.
      * rproj. rewrite length_alter. apply HI.
      * apply zero_task_ok.
      * intros s2 T1 T2 Htf T3 T4 T5 T6. apply wp_bind, wp_ret, wp_ret, HQn; [done|]. apply (refused_task i); try done.
        -- rewrite T1. rproj. by rewrite (alter_insert _ i _ t Ht), list_insert_insert_eq.
        -- rewrite T2. rproj. rewrite list_insert_insert_eq. by apply list_insert_id.
        -- destruct Htf. by split.
  - apply wp_ret, wp_bind. unfold allocate_tracker_locked. apply wp_bind, wp_gets.
    destruct (first_free (tracker_slots_used s) 0) as [k|] eqn:Ek; [|by apply wp_ret, wp_bind, wp_ret, wp_bind, wp_ret, wp_ret, HQn, refused_same].
    apply first_free_Some in Ek.
    assert (k < length (trackers s))%nat as Hlt.
    { apply lookup_lt_Some in Ek. by rewrite (fo_used_len _ _ _ _ _ (li_tree _ _ _ _ HL)), <- (fo_len _ _ _ _ _ (li_tree _ _ _ _ HL)) in Ek. }
    destruct (lookup_lt_is_Some_2 _ _ Hlt) as [tr Htr].
    apply wp_bind, wp_modify, wp_bind, wp_mod_tracker; [rproj; by exists tr|]. apply wp_ret, wp_bind, wp_ret.
    apply wp_bind, (release_tracker_spec _ _ k F {[k]}).
    + rproj. rewrite (alter_insert _ k _ tr Htr). replace ({[k]} : gset nat) with ({[k]} ∪ ∅ : gset nat) by set_solver.
      apply forest_allocate; [apply HL|done|done].
    + set_solver.
    + rproj. apply list_lookup_insert_eq. by eapply lookup_lt_Some.
    + destruct (decide (F (Some k) = [])) as [|Hn]; [done|]. apply (fo_dom _ _ _ _ _ (li_tree _ _ _ _ HL)) in Hn. congruence.
    + rproj. replace ({[k]} ∖ {[k]}) with (∅ : gset nat) by set_solver. rewrite list_insert_insert_eq, (list_insert_id _ k false Ek).
      rewrite (alter_insert _ k _ tr Htr), list_insert_insert_eq. intros HF2. apply wp_ret, HQn; [done|]. split; try done.
      split; [eapply Inv_same; [exact HI|done..|apply HI]|done|by apply (Running_frame None s)|].
      eapply (Lineage_trackers k s); try done. intros j Hj. by apply list_lookup_insert_ne.
Qed.
End creation.
