(* ===== verification/SyscallProps.v ===== *)
(** * System calls keep the kernel invariant

    The system calls that concern scheduling and endpoints (everything but
    task creation, end and wait), from the trap to the return to user mode:
    each handler is shown to return with the invariant, and [try_handle] is
    composed of them. *)
From Stdlib Require Import ZArith Lia Ascii.
From stdpp Require Import base tactics sets functions gmap list strings.
From S2P Require Import Prelude DList Format Console KernelTypes KernelInv Demo RunQueue DelayQueue Scheduler TaskContext TimeManager Ipc IpcProps TaskManager Trackers Arch Syscall Frame Lifetime.
Local Open Scope Z_scope.

(** ** Messages *)

(** [s'] differs from [s] in the console and the report flags only. *)
Record print_frame (s s' : KState) : Prop := {
  pf_tasks : tasks s' = tasks s; pf_harts : harts s' = harts s; pf_eps : endpoints s' = endpoints s;
  pf_slots : slot_allocated s' = slot_allocated s; pf_delay : delay_queues s' = delay_queues s;
  pf_rq : forall q, get_rq q s' = get_rq q s; pf_used : task_slots_used s' = task_slots_used s;
  pf_held : held s' = held s; pf_log : lock_log s' = lock_log s; pf_csrs : csrs s' = csrs s;
  pf_time : time_initialized s' = time_initialized s;
}.

Lemma print_frame_refl s : print_frame s s.
Proof. by split. Qed.

Lemma kprintk_spec format args (Q : unit -> KState -> Prop) e s :
  fits (wanted (S (length format)) format) args = true ->
  (forall c, Q tt (s <| console := c |>)) -> wp False (kprintk format args) Q e s.
Proof.
  intros Hf HQ. destruct (printk_returns format args (console s) Hf) as (n&c&Hp). unfold wp, kprintk. rewrite Hp. apply HQ.
Qed.

Lemma mark_spec set format (Q : unit -> KState -> Prop) e s :
  fits (wanted (S (length format)) format) [] = true -> (forall s', print_frame s s' -> Q tt s') ->
  wp False (mark set format) Q e s.
Proof. intros Hf HQ. unfold mark. apply wp_bind, kprintk_spec; [done|]. intros c. apply wp_modify, HQ. by split. Qed.

(** ** What a handler owes *)

(** The state between the parts of a kernel entry. *)
Record entry_ok (e : Env) (s : KState) (C : queues) : Prop := {
  eo_inv : Inv s C; eo_idle : EpIdle s C; eo_running : Running None s; eo_held : held s = [];
  eo_time : time_initialized s = true; eo_csr : is_Some (csrs s !! e_hart e);
}.

(** The parts of a context that a system call must leave alone. *)
Definition resume_point (t : Task) := (ctx_mepc (t_context t), ctx_mstatus (t_context t), ctx_satp (t_context t)).

(** Hart [e_hart e] runs some task; unless rescheduled, still [i]; the caller
    will resume where it was. *)
Definition handled (e : Env) (i : nat) (t : Task) (s : KState) (rescheduled : bool) (s' : KState) : Prop :=
  exists C l j, entry_ok e s' C /\ harts s' !! e_hart e = Some l /\ h_scheduler l = true /\ current_task l = Some j /\
    (if rescheduled then 0 <= timeslice_ticks l <= kIdleTimesliceTicks else j = i) /\
    (exists t', tasks s' !! i = Some t' /\ resume_point t' = resume_point t) /\ csrs s' = csrs s /\ joiners s s'.

Lemma entry_print e s s' C : entry_ok e s C -> print_frame s s' -> entry_ok e s' C.
Proof.
  intros [] []. split; try congruence; [|by eapply EpIdle_same|by apply (Running_frame None s)].
  eapply Inv_same; try done. by rewrite pf_log0; apply eo_inv0.
Qed.

Lemma handled_print e i t s b s1 s2 : handled e i t s b s1 -> print_frame s1 s2 -> handled e i t s b s2.
Proof.
  intros (C&l&j&Ho&Hl&Hs&Hc&Hb&(t'&Ht'&Hr)&Hcs&Hj) Hf. exists C, l, j.
  split_and!; try done; [by eapply entry_print|by rewrite (pf_harts _ _ Hf)| |by rewrite (pf_csrs _ _ Hf)|].
  - exists t'. by rewrite (pf_tasks _ _ Hf).
  - intros x tx Htx Hw. rewrite (pf_tasks _ _ Hf). by apply Hj.
Qed.

(** An operation on behalf of [i] that leaves it running. *)
Lemma stay_handled e i it hl t s s' C :
  calling e i it hl t s -> entry_ok e s' C -> harts s' = harts s -> csrs s' = csrs s ->
  (exists t', tasks s' !! i = Some t' /\ resume_point t' = resume_point t) -> joiners s s' -> handled e i t s false s'.
Proof. intros [] Ho Hh Hcs Ht Hj. exists C, hl, i. rewrite Hh. by split_and!. Qed.

(** Changes of the running task concern no waiting one. *)
Lemma joiners_running e i it hl t s C s1 f :
  calling e i it hl t s -> entry_ok e s C -> joiners s s1 -> joiners s (set_field tasks (alter f i) s1).
Proof.
  intros [] Ho Hj x tx Htx Hw. rproj. rewrite list_lookup_alter_ne; [by apply Hj|]. intros <-.
  by eapply (running_not_waiting s (e_hart e) hl i tx (eo_running _ _ _ Ho)).
Qed.

(** A change of the running task's context. *)
Lemma entry_mod_task f e i hl t s C :
  entry_ok e s C -> harts s !! e_hart e = Some hl -> current_task hl = Some i -> tasks s !! i = Some t ->
  (forall t, t_state (f t) = t_state t /\ t_cpu (f t) = t_cpu t /\ t_idle (f t) = t_idle t /\
     forall k, links_of k (f t) = links_of k t /\ flag_of k (f t) = flag_of k t) ->
  length (ctx_x (t_context (f t))) = 32%nat -> entry_ok e (set_field tasks (alter f i) s) C.
Proof.
  intros [HI Hid HR Hhd Hti Hcsr] Hh Hc Ht Hf Hlen.
  destruct (run_task _ _ HR _ hl i ltac:(done) Hh Hc) as (t0&Ht0&Hst&_&Hfl&_). rewrite Ht in Ht0. injection Ht0 as <-.
  destruct (Hf t) as (E1&_&E3&E4). split; try done.
  - eapply (Inv_mod_task s C i t f); try done. left. by rewrite E1, Hst.
  - apply Running_mod_task; [done|]. intros t'. destruct (Hf t') as (?&?&?&Hk). split_and!; try done. intros k'. apply Hk.
Qed.

(** Writing a result register of the running task. *)
Lemma write_result_spec {A} f e i hl t s C (k : K A) (Q : A -> KState -> Prop) :
  entry_ok e s C -> harts s !! e_hart e = Some hl -> current_task hl = Some i -> tasks s !! i = Some t ->
  (forall t, t_state (f t) = t_state t /\ t_cpu (f t) = t_cpu t /\ t_idle (f t) = t_idle t /\
     forall k, links_of k (f t) = links_of k t /\ flag_of k (f t) = flag_of k t) ->
  length (ctx_x (t_context (f t))) = 32%nat ->
  (forall s', entry_ok e s' C -> harts s' = harts s -> csrs s' = csrs s -> tasks s' !! i = Some (f t) ->
     tasks s' = alter f i (tasks s) -> wp False k Q e s') ->
  wp False (mod_task i f;; k) Q e s.
Proof.
  intros Ho Hh Hc Ht Hf Hlen HQ. apply wp_bind, wp_mod_task; [by exists t|].
  apply HQ; try done; [by eapply entry_mod_task|]. rproj. by rewrite list_lookup_alter_eq, Ht.
Qed.

(** A function on tasks that writes registers only. *)
Definition register_write (f : Task -> Task) : Prop :=
  forall t, t_state (f t) = t_state t /\ t_cpu (f t) = t_cpu t /\ t_idle (f t) = t_idle t /\
    (forall k, links_of k (f t) = links_of k t /\ flag_of k (f t) = flag_of k t) /\
    length (ctx_x (t_context (f t))) = length (ctx_x (t_context t)) /\ resume_point (f t) = resume_point t.

Lemma set_x_writes n v : register_write (set_x n v).
Proof. intros t. split_and!; try done.  unfold set_x. rproj. by rewrite length_insert. Qed.

Lemma write_id : register_write (fun t => t).
Proof. intros t. by split_and!. Qed.

Lemma write_compose f h : register_write f -> register_write h -> register_write (fun t => f (h t)).
Proof.
  intros Hf Hh t. destruct (Hf (h t)) as (->&->&->&Hk&->&->), (Hh t) as (->&->&->&Hk'&->&->). split_and!; try done.
  intros k. destruct (Hk k) as [-> ->]. apply Hk'.
Qed.

Lemma message_registers_writes a0 m : register_write (message_registers a0 m).
Proof. unfold message_registers. repeat (apply (write_compose (set_x _ _)); [apply set_x_writes|]). apply write_id. Qed.

(** The end of a handler that does not reschedule: the caller is untouched but
    for a result. *)
Lemma finish_spec f e i it hl t s C s' :
  register_write f -> calling e i it hl t s -> entry_ok e s' C -> harts s' = harts s -> csrs s' = csrs s ->
  core <$> tasks s' !! i = core <$> tasks s !! i -> (exists C0, entry_ok e s C0) -> joiners s s' ->
  wp False (mod_task i f;; mret false) (handled e i t s) e s'.
Proof.
  intros Hf Hca Ho Hh Hcs Hk [C0 Ho0] Hj. pose proof Hca as [H1 H2 H3 _ H4 _]. rewrite H4 in Hk. apply fmap_Some in Hk as (t'&Ht'&E).
  symmetry in E. apply core_inv in E as (_&_&_&_&Ectx&_). destruct (Hf t') as (F1&F2&F3&F4&F5&F6).
  apply (write_result_spec f e i hl t' s' C); try done; [by rewrite Hh|..].
  - intros t0. destruct (Hf t0) as (?&?&?&?&_). by split_and!.
  - rewrite F5. exact (inv_context _ _ (eo_inv _ _ _ Ho) i t' Ht').
  - intros s2 Ho2 Hh2 Hcs2 Ht2 Ets. apply wp_ret. apply (stay_handled e i it hl t s s2 C); try done; [congruence|congruence|..].
    + exists (f t'). split; [done|]. rewrite F6. unfold resume_point. by rewrite Ectx.
    + intros x tx Htx Hw. rewrite Ets. by apply (joiners_running e i it hl t s C0 s' f Hca Ho0 Hj).
Qed.

Lemma rest_time s s' : rest s' = rest s -> time_initialized s' = time_initialized s /\ csrs s' = csrs s.
Proof. unfold rest. intros E. by injection E. Qed.

Lemma entry_ipc e s s' C C' :
  entry_ok e s C -> Inv s' C' -> EpIdle s' C' -> Running None s' -> rest s' = rest s -> held s' = held s -> entry_ok e s' C'.
Proof. intros [] HI Hid HR [Et Ec]%rest_time Hh. by split; rewrite ?Et, ?Ec, ?Hh. Qed.

(** The running task is not among the queued ones. *)
Lemma calling_unqueued e i it hl t s C q : entry_ok e s C -> calling e i it hl t s -> i ∉ C q.
Proof.
  intros [] [] Hi. eapply (Running_not_queued None s C i q (e_hart e) hl); eauto. apply eo_inv0.
Qed.

Lemma sys_reserved_handled e i it hl t s C :
  entry_ok e s C -> calling e i it hl t s -> wp False (sys_reserved i) (handled e i t s) e s.
Proof. intros Ho Hca. eapply finish_spec; eauto; [apply set_x_writes|by apply joiners_same]. Qed.

Section handlers.
Context (e : Env) (i it : nat) (hl : HartLocal) (t : Task) (s : KState) (C : queues).
Context (Ho : entry_ok e s C) (Hca : calling e i it hl t s).

Lemma handler_locks l : lock_fits l (held s).
Proof. rewrite (eo_held _ _ _ Ho). constructor. Qed.
#[local] Hint Resolve handler_locks : core.

(** Tasks outside every queue. *)
Definition outside (x : nat) : Prop := forall q, x ∉ C q.

Lemma caller_outside : outside i.
Proof. intros q. by eapply calling_unqueued. Qed.

Lemma outside_joiners s' :
  (forall x, outside x -> core <$> tasks s' !! x = core <$> tasks s !! x) -> joiners s s'.
Proof.
  intros H x tx Htx Hw. rewrite H; [by rewrite Htx|]. intros q Hq.
  by eapply (queued_not_waiting s C q x tx (eo_inv _ _ _ Ho)).
Qed.

(** A handler that changes queued tasks and then the caller's registers. *)
Lemma finish_queued f s' C' :
  register_write f -> entry_ok e s' C' -> harts s' = harts s -> csrs s' = csrs s ->
  (forall x, outside x -> core <$> tasks s' !! x = core <$> tasks s !! x) ->
  wp False (mod_task i f;; mret false) (handled e i t s) e s'.
Proof.
  intros Hf Ho' Eh Ec Hx. eapply finish_spec; try done; [apply Hx, caller_outside|by exists C|by apply outside_joiners].
Qed.

Lemma send_keeps w h m r s' C' x : outside x -> send_post w h m s C r s' C' -> core <$> tasks s' !! x = core <$> tasks s !! x.
Proof.
  intros Hx (p&_&H). destruct (live p h); cbn [negb] in H; [|by destruct H as (_&_&[-> _ _])].
  destruct (C (QWait w)) as [|j l] eqn:EC; [by destruct H as (_&->&_)|]. destruct H as (_&_&[_ Hot]&_). apply Hot.
  intros ->. apply (Hx (QWait w)). rewrite EC. set_solver.
Qed.

Lemma sys_send_handled : wp False (sys_send i) (handled e i t s) e s.
Proof.
  pose proof Ho as [HI Hid HR Hhd Hti Hcsr]. unfold sys_send. apply wp_bind. eapply wp_get_task; [apply Hca|].
  apply wp_bind, (send_spec _ _ _ None C); try done.
  - intros _. apply (finish_queued _ s C); try done. apply set_x_writes.
  - intros _ r s' C' HI' HR' [F1 F2 F3 F4] Hpost. destruct (send_ages _ _ _ _ _ _ _ _ Hid Hpost) as [Hid' _].
    apply (finish_queued _ s' C'); [apply set_x_writes|by eapply entry_ipc|done|by apply rest_time|]. intros x Hx. by eapply send_keeps.
Qed.

Lemma sys_try_recv_handled : wp False (sys_try_recv i) (handled e i t s) e s.
Proof.
  pose proof Ho as [HI Hid HR Hhd Hti Hcsr]. unfold sys_try_recv. apply wp_bind. eapply wp_get_task; [apply Hca|].
  apply wp_bind, (try_recv_spec _ None C); try done.
  - intros _. apply (finish_queued _ s C); try done. apply set_x_writes.
  - intros _ [r m] s' HI' HR' [F1 F2 F3 F4] Hpost. destruct (try_recv_ages _ _ _ _ _ _ Hid Hpost) as [Hid' _].
    assert (tasks s' = tasks s) as Et.
    { destruct Hpost as (p&_&H). repeat case_match; destruct H as (_&H); try (by destruct H). }
    assert (entry_ok e s' C) as Ho' by (by eapply entry_ipc).
    destruct (r <? 0); (apply (finish_queued _ s' C); [|done|done|by apply rest_time|intros x _; by rewrite Et]); [apply set_x_writes|].
    repeat (apply (write_compose (set_x _ _)); [apply set_x_writes|]). apply write_id.
Qed.

Lemma sys_endpoint_create_handled : wp False (sys_endpoint_create i) (handled e i t s) e s.
Proof.
  pose proof Ho as [HI Hid HR Hhd Hti Hcsr]. unfold sys_endpoint_create. apply wp_bind. eapply wp_get_task; [apply Hca|].
  apply wp_bind, (create_endpoint_spec _ None C); try done.
  intros [r h] s' HI' HR' [F1 F2 F3 F4] Hpost. destruct (create_ages _ _ _ _ _ Hid Hpost) as [Hid' _].
  assert (tasks s' = tasks s) as Et by (by destruct Hpost as [(_&[]&_)|(?&?&_&_&_&_&_&_&_&_&?)]).
  apply (finish_queued _ s' C); [apply set_x_writes|by eapply entry_ipc|done|by apply rest_time|]. intros x _. by rewrite Et.
Qed.

Lemma sys_endpoint_destroy_handled : wp False (sys_endpoint_destroy i) (handled e i t s) e s.
Proof.
  pose proof Ho as [HI Hid HR Hhd Hti Hcsr]. unfold sys_endpoint_destroy. apply wp_bind. eapply wp_get_task; [apply Hca|].
  apply wp_bind, (destroy_endpoint_spec _ _ None C); try done.
  - intros _. apply (finish_queued _ s C); try done. apply set_x_writes.
  - intros _ r s' C' HI' HR' [F1 F2 F3 F4] Hpost. destruct (destroy_ages _ _ _ _ _ _ _ _ HI Hid Hpost) as [Hid' _].
    apply (finish_queued _ s' C'); [apply set_x_writes|by eapply entry_ipc|done|by apply rest_time|].
    intros x Hx. destruct Hpost as (p&_&H). repeat case_match; destruct H as (_&_&H); try (by destruct H as [-> _ _]).
    destruct H as ([_ Hoth _]&_). by apply Hoth.
Qed.

Lemma sys_recv_handled : wp False (sys_recv i) (handled e i t s) e s.
Proof.
  pose proof Ho as [HI Hid HR Hhd Hti Hcsr]. pose proof Hca as [Hh Hs Hc Hit Ht Hu]. unfold sys_recv.
  assert (forall f s', tasks s' = alter f i (tasks s) -> joiners s s') as Halter.
  { intros f s' E x tx Htx Hw. rewrite E. by apply (joiners_running e i it hl t s C s f Hca Ho (joiners_same s s eq_refl)). }
  apply wp_bind. eapply wp_get_task; [exact Ht|]. apply wp_bind, (recv_spec _ i it hl t C); try done.
  - intros _ s' HI' HR' ->. apply wp_ret. cbn [rr_status]. apply (stay_handled e i it hl t s _ C); try done; [|by eapply Halter].
    exists (set_x 10 (u64 kErrorInvalidArgument) t). split; [|done]. rproj. by rewrite list_lookup_alter_eq, Ht.
  - intros _ r s' C' HI' HR' Hr Ehd Hpost. destruct (recv_ages _ _ _ _ _ _ _ _ _ _ Hid Hpost) as [Hid' _]. apply wp_ret.
    assert (entry_ok e s' C') as Ho' by (by eapply entry_ipc). destruct (rest_time _ _ Hr) as [_ Ecs].
    destruct Hpost as (p&_&H). destruct (live _ _); cbn [negb] in H.
    2: { destruct H as (->&_&Et&_&Eh). cbn [rr_status]. apply (stay_handled e i it hl t s _ C'); try done; [|by eapply Halter].
         exists (set_x 10 (u64 kErrorInvalidArgument) t). by rewrite Et, list_lookup_alter_eq, Ht. }
    destruct (pending p) as [|m l].
    + destruct H as (->&->&(l'&Hl'&Hcur&Hsl&Hticks)&(t0&t'&Ht0&Ht'&_&_&Ectx)&Hoth&_). cbn [rr_status].
      set (w := Z.to_nat (eh_index (from_raw (get_x 10 t)))) in *. set (j := (pick (e_hart e) it (queue_receiver w i C)).1) in *.
      exists (pick (e_hart e) it (queue_receiver w i C)).2, l', j. split_and!; try done; try lia.
      * exists t'. split; [done|]. rewrite Ht in Ht0. injection Ht0 as <-. unfold resume_point. by rewrite Ectx.
      * intros x tx Htx Hw. assert (x <> i) as Hxi by (intros ->; by eapply (running_not_waiting s (e_hart e) hl i tx)).
        rewrite Hoth; [by rewrite Htx|done|]. intros ->.
        assert (j = (pick (e_hart e) it C).1) as Ej.
        { unfold j, pick, queue_receiver. rewrite !fn_lookup_insert_ne by done. by repeat case_match. }
        rewrite Ej in Htx. by eapply (pick_not_waiting s C (e_hart e) hl it tx).
    + destruct H as (->&_&Eh&Et&_). cbn [rr_status]. apply (stay_handled e i it hl t s _ C'); try done; [|by eapply Halter].
      exists (message_registers 0 m t). by rewrite Et, list_lookup_alter_eq, Ht.
Qed.

(** The caller's [detached] flag is set under the lock of the task table. *)
Lemma detach_task_handled {A} (k : bool -> K A) (Q : A -> KState -> Prop) :
  (forall s1, entry_ok e s1 C -> calling e i it hl (t <| t_detached := true |>) s1 -> csrs s1 = csrs s -> joiners s s1 ->
     wp False (k true) Q e s1) ->
  wp False (ok ← detach_task i; k ok) Q e s.
Proof.
  intros HQ. pose proof Hca as [Hh Hs Hc Hit Ht Hu]. pose proof Ho as [HI Hid HR Hhd Hti Hcsr].
  destruct (run_task _ _ HR _ hl i ltac:(done) Hh Hc) as (t1&Ht1&Hst&Hcpu&Hf&_). rewrite Ht in Ht1. injection Ht1 as <-.
  apply wp_bind. unfold detach_task, get_current_task, current. ksteps. rewrite Hc, bool_decide_false by tauto.
  apply wp_with_lock; [done|]. ksteps. rewrite Hst, bool_decide_false by done. ksteps. split; [done|].
  set (f := fun t : Task => t <| t_detached := true |>).
  match goal with |- wp _ _ _ _ ?x => set (s1 := x) end.
  assert (tasks s1 = alter f i (tasks s)) as Et by done.
  assert (entry_ok e (set_field tasks (alter f i) s) C) as [HI0 _ HR0 _ _ _].
  { eapply entry_mod_task; try done. exact (inv_context _ _ HI i t Ht). }
  apply HQ; [|split; try done; by rewrite Et, list_lookup_alter_eq, Ht|done|].
  - split; try done; [|by apply (Running_frame None (set_field tasks (alter f i) s))].
    eapply Inv_same; [exact HI0|done..|]. constructor; [|apply HI]. rewrite Hhd. constructor.
  - intros x tx Htx Hw. rewrite Et. by apply (joiners_running e i it hl t s C s f Hca Ho (joiners_same s s eq_refl)).
Qed.

Lemma handled_mark b set format s1 :
  handled e i t s b s1 -> fits (wanted (S (length format)) format) [] = true ->
  wp False (mark set format) (fun _ => handled e i t s b) e s1.
Proof. intros H Hf. apply mark_spec; [done|]. intros s2. by apply handled_print. Qed.

Lemma then_returns b (m : K unit) s1 :
  wp False m (fun _ => handled e i t s b) e s1 -> wp False (m;; mret b) (handled e i t s) e s1.
Proof. intros H. apply wp_bind. eapply wp_mono; [exact H|done|]. intros [] s2 H2. by apply wp_ret. Qed.

Lemma sys_detach_handled : wp False (sys_detach i) (handled e i t s) e s.
Proof.
  unfold sys_detach. apply detach_task_handled. intros s1 Ho1 [Hh1 Hs1 Hc1 Hit1 Ht1 Hu1] Ecs1 Hj1.
  destruct (set_x_writes 10 0 (t <| t_detached := true |>)) as (_&_&_&_&F5&_).
  apply (write_result_spec (set_x 10 0) e i hl (t <| t_detached := true |>) s1 C); try done.
  { rewrite F5. exact (inv_context _ _ (eo_inv _ _ _ Ho1) i _ Ht1). }
  intros s2 Ho2 Eh2 Ec2 Ht2 Ets2. apply wp_bind. eapply wp_get_task; [exact Ht2|]. apply wp_bind, wp_gets, then_returns.
  assert (handled e i t s false s2) as H2.
  { exists C, hl, i. rewrite Eh2, Ec2. split_and!; try done; [by eexists|].
    intros x tx Htx Hw. rewrite Ets2. by apply (joiners_running e i it hl t s C s1 (set_x 10 0) Hca Ho Hj1). }
  unfold when. case_match; [by apply handled_mark|by apply wp_ret].
Qed.
End handlers.

(** ** Giving the hart away *)

(** A task on its hart, the idle one included. *)
Record caller (e : Env) (i it : nat) (hl : HartLocal) (t : Task) (s : KState) : Prop := {
  cl_hart : harts s !! e_hart e = Some hl; cl_sched : h_scheduler hl = true;
  cl_current : current_task hl = Some i; cl_idle : idle_task hl = Some it; cl_task : tasks s !! i = Some t;
}.

Lemma calling_caller e i it hl t s : calling e i it hl t s -> caller e i it hl t s.
Proof. intros []. by split. Qed.

Lemma sched_scheduler e s1 s2 l1 l2 :
  sched_frame (e_hart e) s1 s2 -> harts s1 !! e_hart e = Some l1 -> harts s2 !! e_hart e = Some l2 ->
  h_scheduler l2 = h_scheduler l1.
Proof.
  intros Hsf H1 H2. pose proof (sf_own _ _ _ Hsf) as E. rewrite H1, H2 in E.
  apply (inj Some), hart_frame_bind in E. unfold hart_bind in E. congruence.
Qed.

Lemma give_back_wait j tj C w : give_back j tj C (QWait w) = C (QWait w).
Proof. unfold give_back, enqueue. case_match; [done|]. by rewrite fn_lookup_insert_ne. Qed.

Section switching.
Context (e : Env) (i it : nat) (hl : HartLocal) (t : Task) (s : KState) (C : queues).
Context (Ho : entry_ok e s C) (Hcl : caller e i it hl t s).

(** The caller's [a0] is cleared first. *)
Lemma clear_a0 {A} (k : K A) (Q : A -> KState -> Prop) :
  (forall s', entry_ok e s' C -> caller e i it hl (set_x 10 0 t) s' -> csrs s' = csrs s -> static s s' -> joiners s s' ->
     wp False k Q e s') ->
  wp False (mod_task i (set_x 10 0);; k) Q e s.
Proof.
  intros HQ. pose proof Hcl as [Hh Hs Hc Hit Ht].
  assert (entry_ok e (set_field tasks (alter (set_x 10 0) i) s) C) as Ho1.
  { eapply entry_mod_task; try done. destruct (set_x_writes 10 0 t) as (_&_&_&_&->&_). exact (inv_context _ _ (eo_inv _ _ _ Ho) i t Ht). }
  apply wp_bind, wp_mod_task; [by exists t|]. apply HQ; try done.
  - split; try done. rproj. by rewrite list_lookup_alter_eq, Ht.
  - by apply static_mod_task.
  - eapply (joiners_only i); [apply only_task_mod|]. intros t0 Ht0. by eapply (running_not_waiting s _ hl i t0 (eo_running _ _ _ Ho)).
Qed.

(** The caller is off its hart and the next task is about to be taken. *)
Record between (s1 : KState) (C1 : queues) : Prop := {
  bt_inv : Inv s1 C1; bt_idle : EpIdle s1 C1; bt_running : Running (Some (e_hart e)) s1; bt_held : held s1 = [];
  bt_time : time_initialized s1 = true; bt_csrs : csrs s1 = csrs s; bt_harts : harts s1 !! e_hart e = Some hl;
  bt_task : exists t1, tasks s1 !! i = Some t1 /\ t_context t1 = t_context (set_x 10 0 t) /\ t_cpu t1 = Some (e_hart e);
  bt_static : static s s1; bt_joiners : joiners s s1;
}.

Lemma next_spec {A} s1 C1 (k : nat -> K A) (Q : A -> KState -> Prop) :
  between s1 C1 ->
  (forall j s2, handled e i t s true s2 -> is_Some (tasks s2 !! j) -> wp False (k j) Q e s2) ->
  wp False (scheduler_of i;; (j ← set_next_runnable; k j)) Q e s1.
Proof.
  intros [HI1 Hid1 HR1 Hhd1 Hti1 Hcs1 Hhl (t1&Ht1&Ectx1&Ecpu1) Hst1 Hj1] HQ. pose proof Hcl as [Hh Hs Hc Hit Ht].
  apply wp_bind, (scheduler_of_spec i t1); [done|by exists (e_hart e), hl|].
  apply wp_bind, (set_next_runnable_spec hl it C1); try done; [rewrite Hhd1; constructor|].
  intros s2 HI2 HR2 [(tj&Htj&_&_&Hj) (l'&Hl'&Hcur&Hticks) Hot] Hsf. apply HQ; [|by exists tj].
  destruct (rest_time _ _ (sf_rest _ _ _ Hsf)) as [Eti Ecs].
  exists (pick (e_hart e) it C1).2, l', (pick (e_hart e) it C1).1. split_and!; try done; try lia.
  - split; try done.
    + intros w p. rewrite (sf_eps _ _ _ Hsf), pick_other. apply Hid1.
    + by rewrite (sf_held _ _ _ Hsf).
    + by rewrite Eti.
    + rewrite Ecs, Hcs1. apply Ho.
  - rewrite <- Hs. by eapply sched_scheduler.
  - assert (exists t', tasks s2 !! i = Some t' /\ t_context t' = t_context (set_x 10 0 t)) as (t'&Ht'&E).
    { destruct (decide (i = (pick (e_hart e) it C1).1)) as [Ei|Hne].
      - exists tj. rewrite Ei at 1. split; [done|]. rewrite <- Ectx1. apply Hj. by rewrite <- Ei.
      - destruct Hot as [_ Hot]. specialize (Hot i Hne). rewrite Ht1 in Hot. apply fmap_Some in Hot as (t2&Ht2&E). symmetry in E.
        apply core_inv in E as (_&_&_&_&E&_). exists t2. by rewrite E. }
    exists t'. split; [done|]. unfold resume_point. by rewrite E.
  - by rewrite Ecs.
  - apply (joiners_trans s s1 s2); try done. eapply (joiners_only (pick (e_hart e) it C1).1); [done|].
    intros t0 Ht0. by eapply (pick_not_waiting s1 C1 (e_hart e) hl it t0).
Qed.

Lemma sys_yield_handled : wp False (sys_yield i) (handled e i t s) e s.
Proof.
  pose proof Hcl as [Hh Hs Hc Hit Ht]. unfold sys_yield. apply wp_bind. eapply wp_get_task; [exact Ht|]. cbv zeta.
  apply clear_a0. intros s1 Ho1 [Hh1 _ _ _ Ht1] Ecs1 Hst1 Hj1. pose proof Ho1 as [HI1 Hid1 HR1 Hhd1 Hti1 Hcsr1].
  destruct (run_task _ _ HR1 _ hl i ltac:(done) Hh1 Hc) as (t1&Ht1'&_&Hcpu&_). rewrite Ht1 in Ht1'. injection Ht1' as <-.
  apply wp_bind, (scheduler_of_spec i (set_x 10 0 t)); [done|by exists (e_hart e), hl|].
  apply wp_bind, wp_keeps; [apply keeps_return_runnable|].
  apply (return_runnable_spec hl i (set_x 10 0 t) C); try done; [rewrite Hhd1; constructor|].
  intros s2 HI2 HR2 Hfr2 Hot2 (t2&Ht2&Ectx&_&_&_&Ecpu) Hst2. destruct (rest_time _ _ (rf_rest _ _ Hfr2)) as [Eti Ecs].
  apply (next_spec s2 (give_back i (set_x 10 0 t) C)).
  { split; try done.
    - intros w p. rewrite (rf_eps _ _ Hfr2), give_back_wait. apply Hid1.
    - by rewrite (rf_held _ _ Hfr2).
    - by rewrite Eti.
    - by rewrite Ecs.
    - by rewrite (rf_harts _ _ Hfr2).
    - exists t2. split_and!; [done..|congruence].
    - by transitivity s1.
    - apply (joiners_trans s s1 s2); try done. eapply (joiners_only i); [done|]. intros t0 Ht0.
      by eapply (running_not_waiting s1 _ hl i t0 HR1). }
  intros j s3 H3 [tj Htj]. pose proof H3 as (_&_&_&_&_&_&_&_&(t3&Ht3&_)&_).
  apply wp_bind. eapply wp_get_task; [exact Ht3|]. apply wp_bind. eapply wp_get_task; [exact Htj|].
  apply wp_bind, wp_gets, then_returns. case_match; [by apply handled_mark|]. case_match; [by apply handled_mark|].
  by apply wp_ret.
Qed.

Lemma sys_sleep_handled : t_idle t = false -> wp False (sys_sleep i) (handled e i t s) e s.
Proof.
  intros Hu. pose proof Hcl as [Hh Hs Hc Hit Ht]. unfold sys_sleep. apply wp_bind. eapply wp_get_task; [exact Ht|]. cbv zeta.
  apply clear_a0. intros s1 Ho1 Hcl1 Ecs1 Hst1 Hj1. pose proof Hcl1 as [Hh1 _ _ _ Ht1].
  assert (calling e i it hl (set_x 10 0 t) s1) as Hca1 by done.
  pose proof Ho1 as [HI1 Hid1 HR1 Hhd1 Hti1 Hcsr1].
  destruct (run_task _ _ HR1 _ hl i ltac:(done) Hh1 Hc) as (t1&Ht1'&_&Hcpu&_). rewrite Ht1 in Ht1'. injection Ht1' as <-.
  assert (forall s2, entry_ok e s2 C -> harts s2 = harts s1 -> csrs s2 = csrs s1 -> tasks s2 = tasks s1 ->
    wp False (mod_task i (set_x 10 (error_value kErrorInvalidArgument));; mret false) (handled e i t s) e s2) as Hrefuse.
  { intros s2 Ho2 Eh Ec Et. eapply wp_mono; [eapply (finish_spec _ e i it hl (set_x 10 0 t) s1); try done;
      [apply set_x_writes|by rewrite Et|by exists C|by apply joiners_same]|done|].
    intros b s3 (C3&l3&j3&?&?&?&?&?&?&?&?). exists C3, l3, j3. rewrite <- Ecs1. split_and!; try done. by eapply (joiners_trans s s1). }
  apply wp_bind, wp_keeps; [apply keeps_delay_task|].
  apply (delay_task_spec hl i (set_x 10 0 t) _ _ C); try done; [rewrite Hhd1; constructor|]. split_and!.
  - intros _ _. by apply Hrefuse.
  - intros _ _ _. apply Hrefuse; try done. split; try done; [by apply Inv_clock|]. by apply (Running_frame None s1).
  - intros _ _ s2 a b HC HI2 HR2 Hot (t2&Ht2&Ectx&Ecpu) _ Er Eh Ee Esl Ehd Hst2. cbn [negb]. destruct (rest_time _ _ Er) as [Eti Ecs].
    apply (next_spec s2 (<[QDelay (e_hart e) := a ++ i :: b]> C)); [|intros j s3 H3 _; by apply wp_ret].
    split; try done; try congruence.
    + intros w p. rewrite Ee, fn_lookup_insert_ne by done. apply Hid1.
    + exists t2. split_and!; [done..|congruence].
    + by transitivity s1.
    + apply (joiners_trans s s1 s2); try done. eapply (joiners_only i); [done|]. intros t0 Ht0.
      by eapply (running_not_waiting s1 _ hl i t0 HR1).
Qed.
End switching.

(** ** The whole call *)

(** The calls that neither create nor end nor wait for a task. *)
Definition served (number : Z) : bool :=
  bool_decide (number ∈ [Num.YIELD; Num.DETACH; Num.SLEEP; Num.ENDPOINT_CREATE; Num.ENDPOINT_DESTROY;
                         Num.SEND; Num.CALL; Num.RECV; Num.TRY_RECV; Num.REPLY]).

Lemma syscall_switch_handled number e i it hl t s C :
  served number = true -> entry_ok e s C -> calling e i it hl t s ->
  wp False (syscall_switch number i) (handled e i t s) e s.
Proof.
  intros Hn%bool_decide_eq_true_1 Ho Hca. rewrite !elem_of_cons, elem_of_nil in Hn.
  repeat destruct Hn as [->|Hn]; try done; unfold syscall_switch; cbn [Z.eqb Pos.eqb orb Num.YIELD Num.CREATE].
  - by eapply sys_yield_handled, calling_caller.
  - by eapply sys_detach_handled.
  - eapply sys_sleep_handled; [done|by apply calling_caller|apply Hca].
  - by eapply sys_endpoint_create_handled.
  - by eapply sys_endpoint_destroy_handled.
  - by eapply sys_send_handled.
  - by eapply sys_reserved_handled.
  - by eapply sys_recv_handled.
  - by eapply sys_try_recv_handled.
  - by eapply sys_reserved_handled.
Qed.
