(* ===== verification/Transition.v ===== *)
(** * From contained memory to mainstore

    Models [microkernel/core/mainstore_transition_test.cpp], the program of the
    M00-07.04 build: it takes the machine through the DDR lifecycle, moves the
    contained domain to mainstore and extends the page allocator, checking each
    step.  The program shows that the lifecycle, the platform hooks and the page
    manager fit together; here it is proved to pass on every machine layout. *)
From stdpp Require Import base tactics list strings.
From Stdlib Require Import ZArith Lia Ascii.
From S2P Require Import Prelude Memory Lifecycle PageManager Sv39 Vmm Format Console KernelTypes KernelInv Demo RunQueue DelayQueue Scheduler TaskContext TimeManager Ipc TaskManager Arch Syscall SyscallProps.
Local Open Scope Z_scope.

Definition kStableObjectMagic : Z := 0x704070407040704.

(** ** The program *)

(** Operations of the memory system. *)
Definition kmem {A} (f : MemSys -> A * MemSys) : K A := fun _ s =>
  let '(a, ms') := f (memsys s) in Done a (s <| memsys := ms' |>).
Definition on_lifecycle (f : LifecycleState -> bool * LifecycleState) (ms : MemSys) : bool * MemSys :=
  let '(ok, g') := f (ms_lifecycle ms) in (ok, ms <| ms_lifecycle := g' |>).
Definition snapshot : K LifecycleState := ms ← gets memsys; mret (ms_lifecycle ms).
Definition load_object (address : Z) : K Z := ms ← gets memsys; mret (load64 (ms_mem ms) address).
Definition store_object (address value : Z) : K unit :=
  kmem (fun ms => (tt, ms <| ms_mem := store64 (ms_mem ms) address value |>)).

Definition fail {A} (reason : string) : K A :=
  kprintk (marker "M00_07_MAINSTORE_TRANSITION: FAIL (%s)") [AText (Some (text reason))];; park.
(** [if (!condition) { fail(reason); }] *)
Definition require (condition : bool) (reason : string) : K unit := if condition then mret tt else fail reason.

Definition state_is (d : MemoryDomain.t) (x : DdrState.t) : K bool :=
  state ← snapshot; mret (bool_decide (domain state = d) && bool_decide (ddr state = x)).

(** A lifecycle step, its state check and its marker. *)
Definition stage_step (f : LifecycleState -> bool * LifecycleState) (x : DdrState.t) (reason pass : string) : K unit :=
  ok ← kmem (on_lifecycle f); at_stage ← state_is MemoryDomain.contained x;
  require (ok && at_stage) reason;; kprintk (marker pass) [].

Definition remaining_mainstore (state : LifecycleState) : PhysicalRange :=
  let ddr_end := u64 (pr_base (ddr_range state) + pr_size (ddr_range state)) in
  let remaining_base := u64 (pr_base (contained state) + pr_size (contained state)) in
  if ddr_end <=? remaining_base then mkPhysicalRange 0 0 else mkPhysicalRange remaining_base (ddr_end - remaining_base).

(** [backing_for] of an address. *)
Definition backing_of (address : Z) : K BackingKind.t := state ← snapshot; mret (backing_for state address).

(** Up to the page that has to survive. *)
Definition place_object (text_start : Z) : K Z :=
  state ← snapshot;
  require (validate_contained_invariants text_start state) "initial contained state invalid";;
  kmem (fun ms => (tt, reset ms));;
  e ← ask;
  ok ← kmem (add_contained_bootstrap_pool (pool_start_sym (e_syms e)) (pool_end_sym (e_syms e)));
  require ok "contained PageManager range rejected";;
  stable_page ← kmem allocate_page;
  require (allocation_valid stable_page && bool_decide (backing stable_page = BackingKind.contained))
    "pre-DDR stable page is not contained-backed";;
  store_object (physical_address stable_page) kStableObjectMagic;;
  mret (physical_address stable_page).

(** DDR is discovered, trained, decoded and brought online; the allocator does
    not see it. *)
Definition bring_up_ddr : K unit :=
  initial_state ← snapshot;
  let future_ddr := configured_range in
  require (negb (pr_size future_ddr <? pr_size (contained initial_state))) "configured DDR smaller than contained range";;
  let future_base := u64 (pr_base future_ddr + pr_size (contained initial_state)) in
  let future_size := u64 (pr_size future_ddr - pr_size (contained initial_state)) in
  early ← kmem (add_range future_base future_size BackingKind.ddr);
  require (negb early) "DDR allocator range accepted before DDR lifecycle";;
  kprintk (marker "M00_07_DDR_ALLOCATOR_GATED: PASS") [];;
  stage_step discover DdrState.discovered "DDR discovery transition" "M00_07_DDR_DISCOVERED: PASS";;
  stage_step start_training DdrState.training "DDR training start transition" "M00_07_DDR_TRAINING: PASS";;
  stage_step finish_training DdrState.trained "DDR training completion transition" "M00_07_DDR_TRAINED: PASS";;
  trained ← snapshot;
  require (build_topology trained) "DDR topology stage";;
  kprintk (marker "M00_07_DDR_TOPOLOGY_READY: PASS") [];;
  stage_step build_address_map DdrState.address_map_ready "DDR address-map transition" "M00_07_DDR_ADDRESS_MAP_READY: PASS";;
  stage_step program_decode DdrState.decode_committed "DDR decode commit transition" "M00_07_DDR_DECODE_COMMITTED: PASS";;
  ok ← kmem (on_lifecycle online); at_stage ← state_is MemoryDomain.contained DdrState.online;
  require (ok && at_stage) "DDR online transition";;
  now ← snapshot;
  (if ddr_allocation_enabled now then fail "DDR became allocator-visible before contained exit"
   else accepted ← kmem (add_range future_base future_size BackingKind.ddr);
        require (negb accepted) "DDR became allocator-visible before contained exit");;
  kprintk (marker "M00_07_DDR_ONLINE: PASS") [].

(** The contained domain is flushed and left. *)
Definition enter_mainstore (stable_address : Z) : K unit :=
  v ← load_object stable_address; b ← backing_of stable_address;
  require ((v =? kStableObjectMagic) && bool_decide (b = BackingKind.contained)) "stable object changed before transition";;
  ok ← kmem (on_lifecycle begin_mainstore_transition); at_stage ← state_is MemoryDomain.transitioning DdrState.online;
  require (ok && at_stage) "mainstore transition did not begin";;
  flushed_ok ← kmem (on_lifecycle flush_to_mainstore);
  require flushed_ok "contained flush/castout hook";;
  flushed ← snapshot; b1 ← backing_of stable_address; v1 ← load_object stable_address;
  require (contained_flush_complete flushed && bool_decide (b1 = BackingKind.contained) && (v1 =? kStableObjectMagic))
    "contained backing changed before transition commit";;
  kprintk (marker "M00_07_CONTAINED_FLUSH: PASS") [];;
  done ← kmem (on_lifecycle complete_mainstore_transition);
  require done "mainstore transition commit";;
  now ← snapshot;
  require (negb (ddr_allocation_enabled now)) "allocator opened before PageManager commit";;
  v2 ← load_object stable_address; b2 ← backing_of stable_address;
  require ((v2 =? kStableObjectMagic) && bool_decide (b2 = BackingKind.ddr)) "stable address/backing invariant";;
  kprintk (marker "M00_07_STABLE_ADDRESS: PASS") [].

(** The allocator is promoted, extended and opened. *)
Definition open_allocator : K unit :=
  promoted ← kmem (promote_backing BackingKind.contained BackingKind.ddr);
  require (promoted =? 1)%nat "PageManager contained range promotion";;
  mainstore ← snapshot;
  let remaining := remaining_mainstore mainstore in
  require (negb (pr_size remaining =? 0)) "no remaining mainstore range";;
  ms ← gets memsys;
  let before := remaining_pages BackingKind.ddr ms in
  extended ← kmem (add_range (pr_base remaining) (pr_size remaining) BackingKind.ddr);
  require extended "remaining mainstore range rejected";;
  ms' ← gets memsys;
  require (before <? remaining_pages BackingKind.ddr ms') "mainstore extension did not add pages";;
  gated_page ← kmem allocate_page;
  require (negb (allocation_valid gated_page)) "allocation escaped mainstore gate";;
  kprintk (marker "M00_07_MAINSTORE_ALLOCATOR_GATED: PASS") [];;
  enabled ← kmem (on_lifecycle enable_mainstore_allocation);
  final ← snapshot;
  require (enabled && validate_mainstore_invariants final) "mainstore allocator enable";;
  page ← kmem allocate_page;
  b ← backing_of (physical_address page);
  require (allocation_valid page && bool_decide (backing page = BackingKind.ddr) && bool_decide (b = BackingKind.ddr))
    "post-transition allocation is not DDR-backed";;
  kprintk (marker "M00_07_MAINSTORE_TRANSITION: PASS" ++ marker "M00_07_MAINSTORE_EXTEND: PASS"
           ++ marker "M00-07.04 fake DDR lifecycle and mainstore transition: PASS") [].

(** The program; its last statement, [hart::park()], is the return of the model,
    so that a run that returns is one that has passed. *)
Definition run_mainstore_transition (text_start : Z) : K Z :=
  stable_address ← place_object text_start;
  bring_up_ddr;;
  enter_mainstore stable_address;;
  open_allocator;;
  mret stable_address.

(** ** Why it passes *)

(** The contained window lies in DDR with room above it, and the bootstrap pool
    in the window. *)
Record layout (text_start pool_start pool_end : Z) : Prop := {
  ly_aligned : text_start mod kPageSize = 0 /\ pool_start mod kPageSize = 0 /\ pool_end mod kPageSize = 0;
  ly_ddr : 2 ^ 31 <= text_start /\ text_start + kQemuContainedWindowSize < 2 ^ 31 + 128 * 1024 * 1024;
  ly_pool : text_start <= pool_start /\ pool_start < pool_end /\ pool_end <= text_start + kQemuContainedWindowSize;
}.

Lemma aligned_mod a : a mod kPageSize = 0 -> is_page_aligned a = true.
Proof.
  intros H. unfold is_page_aligned, kPageSize in *. change (4096 - 1) with (Z.ones 12). rewrite Z.land_ones by lia.
  change (2 ^ 12) with 4096. by rewrite H.
Qed.

Lemma kmem_spec {A} (f : MemSys -> A * MemSys) X a X' pk (Q : A -> KState -> Prop) e s :
  memsys s = X -> f X = (a, X') -> (forall s', memsys s' = X' -> Q a s') -> wp pk (kmem f) Q e s.
Proof. intros <- Hf HQ. unfold wp, kmem. rewrite Hf. by apply HQ. Qed.

Lemma wp_snapshot X pk (Q : LifecycleState -> KState -> Prop) e s :
  memsys s = X -> Q (ms_lifecycle X) s -> wp pk snapshot Q e s.
Proof. intros <- HQ. unfold snapshot. by apply wp_bind, wp_gets, wp_ret. Qed.

Lemma wp_require c reason pk (Q : unit -> KState -> Prop) e s : c = true -> Q tt s -> wp pk (require c reason) Q e s.
Proof. intros -> HQ. by apply wp_ret. Qed.

Lemma wp_note (m : string) X pk (Q : unit -> KState -> Prop) e s :
  fits (wanted (S (length (marker m))) (marker m)) [] = true ->
  memsys s = X -> (forall s', memsys s' = X -> Q tt s') -> wp pk (kprintk (marker m) []) Q e s.
Proof. intros Hf Hs HQ. apply wp_any, kprintk_spec; [done|]. intros c. by apply HQ. Qed.

Section passes.
Context (ts ps pe : Z) (Hly : layout ts ps pe).

Abbreviation life d x r f a := (mkLifecycle d x (window ts) r f a).

Lemma in_window a : ts <= a < ts + kQemuContainedWindowSize -> contains (window ts) a = true.
Proof. destruct Hly as [_ [H1 H2] _]. intros Ha. apply contains_true; simpl; unfold is_u64, kQemuContainedWindowSize in *; lia. Qed.
Lemma in_ddr a : 2 ^ 31 <= a < 2 ^ 31 + 128 * 1024 * 1024 -> contains configured_range a = true.
Proof. intros Ha. apply contains_true; simpl; unfold is_u64; lia. Qed.
Lemma window_in_ddr : contains_range configured_range (window ts) = true.
Proof.
  destruct Hly as [_ [H1 H2] _]. unfold contains_range, valid_range, window, kQemuContainedWindowSize in *. simpl.
  rewrite u64_small by (unfold is_u64; lia). rewrite (proj2 (Z.ltb_lt _ _)), (proj2 (Z.ltb_ge _ _)) by lia. simpl.
  apply Z.leb_le. unfold u64. rewrite Z.mod_small; lia.
Qed.

Abbreviation pool next bk := (mkRange ps next pe bk).
Abbreviation spare := empty_range.

(** The allocator with the pool alone. *)
Abbreviation early L m := (mkMemSys L [pool (ps + kPageSize) BackingKind.contained; spare; spare; spare] 1 m).

Lemma kpage : kPageSize = 4096.
Proof. done. Qed.

Lemma pool_bounds : 0 < ps /\ ps + kPageSize <= pe /\ pe < 2 ^ 33 /\ ts <= ps /\ pe <= ts + kQemuContainedWindowSize.
Proof.
  destruct Hly as [(_&Hp&He) [H1 H2] (H3&H4&H5)]. unfold kPageSize, kQemuContainedWindowSize in *.
  split_and!; try lia. Z.div_mod_to_equations. lia.
Qed.

Lemma add_pool L m : (forall a, ts <= a < ts + kQemuContainedWindowSize -> backing_for L a = BackingKind.contained) ->
  add_contained_bootstrap_pool ps pe (reset (mkMemSys L [spare; spare; spare; spare] 0 m)) =
  (true, mkMemSys L [pool ps BackingKind.contained; spare; spare; spare] 1 m).
Proof.
  intros HL. pose proof pool_bounds as (B1&B2&B3&B4&B5). destruct Hly as [(_&Hp&He) _ _]. unfold kPageSize in *.
  unfold add_contained_bootstrap_pool. rewrite (proj2 (Z.leb_gt _ _)) by lia. rewrite u64_small by (unfold is_u64; lia).
  unfold add_range. cbn [reset g_range_count set_field]. 
  rewrite (proj2 (Z.eqb_neq (pe - ps) 0)), aligned_mod, (proj2 (Z.eqb_eq ((pe - ps) mod kPageSize) 0)) by (unfold kPageSize; try lia; Z.div_mod_to_equations; lia).
  cbn. replace (ps + (pe - ps)) with pe by lia. rewrite u64_small by (unfold is_u64; lia).
  rewrite (proj2 (Z.leb_gt _ _)) by lia. rewrite u64_small by (unfold is_u64; lia). rewrite !HL by lia. done.
Qed.

Abbreviation booted_life := (life MemoryDomain.contained DdrState.offline (mkPhysicalRange 0 0) false false).

(** The pages of the window are contained until mainstore is entered. *)
Lemma contained_backing d x r f a : ts <= a < ts + kQemuContainedWindowSize ->
  d = MemoryDomain.contained \/ d = MemoryDomain.transitioning ->
  backing_for (life d x r f false) a = BackingKind.contained.
Proof. intros Ha Hd. unfold backing_for. cbn. rewrite in_window by done. by destruct Hd as [-> | ->]. Qed.

(** Before mainstore no range is accepted as DDR. *)
Lemma add_ddr_gated base size X : domain (ms_lifecycle X) <> MemoryDomain.mainstore -> add_range base size BackingKind.ddr X = (false, X).
Proof.
  intros Hd. unfold add_range. repeat case_match; try done.
  assert (forall a, backing_for (ms_lifecycle X) a <> BackingKind.ddr) as Hb.
  { intros a. unfold backing_for. rewrite (bool_decide_false (_ = MemoryDomain.mainstore)) by done. cbn [andb]. by case_match. }
  rewrite (bool_decide_true (backing_for (ms_lifecycle X) base <> _)) in * by done. done.
Qed.

Lemma allocate_pool m :
  allocate_page (mkMemSys booted_life [pool ps BackingKind.contained; spare; spare; spare] 1 m) =
  (mkAllocation ps BackingKind.contained, early booted_life (zero_page ps m)).
Proof.
  pose proof pool_bounds as (B1&B2&B3&B4&B5). rewrite kpage in *. unfold allocate_page, allocate_from, live_ranges.
  cbn [ms_lifecycle ddr_allocation_enabled domain g_range_count g_ranges take first_usable mr_backing mr_end mr_next ms_mem].
  rewrite bool_decide_true, bool_decide_false by (done || by intros []). rewrite (proj2 (Z.leb_gt pe ps)) by lia. cbn [orb mr_next].
  rewrite u64_small by (unfold is_u64, kPageSize; lia). done.
Qed.

Lemma place_object_spec (Q : Z -> KState -> Prop) e s m pk :
  pool_start_sym (e_syms e) = ps -> pool_end_sym (e_syms e) = pe ->
  ms_lifecycle (memsys s) = booted_life -> ms_mem (memsys s) = m ->
  (forall s' m', memsys s' = early booted_life m' -> load64 m' ps = kStableObjectMagic -> Q ps s') ->
  wp pk (place_object ts) Q e s.
Proof.
  intros Eps Epe EL Em HQ. pose proof pool_bounds as (B1&B2&B3&B4&B5). destruct (memsys s) as [L rs n m0] eqn:Es. simpl in EL, Em. subst L m0.
  unfold place_object. apply wp_bind. eapply wp_snapshot; [exact Es|]. apply wp_bind, wp_require.
  { destruct Hly as [_ [H1 H2] _]. unfold kQemuContainedWindowSize in H2.
    apply (validators_agree_with_lifecycle ts (initialize_contained ts initial_state) initial_state);
      [lia|unfold kQemuContainedWindowSize; lia|apply reach_boot|vm_compute; split; congruence|vm_compute; split; congruence]. }
  apply wp_bind. eapply kmem_spec; [exact Es|reflexivity|]. intros s1 E1. apply wp_bind, wp_ask. rewrite Eps, Epe.
  apply wp_bind. eapply kmem_spec; [exact E1|apply (add_pool booted_life m); intros a Ha; apply contained_backing; auto|].
  intros s2 E2. apply wp_bind, wp_require; [done|]. apply wp_bind. eapply kmem_spec; [exact E2|apply allocate_pool|].
  intros s3 E3. apply wp_bind, wp_require.
  { unfold allocation_valid. cbn [physical_address backing]. rewrite (proj2 (Z.eqb_neq ps 0)) by lia. done. }
  apply wp_bind. eapply kmem_spec; [exact E3|reflexivity|]. intros s4 E4. apply wp_ret.
  eapply HQ; [exact E4|]. cbn [physical_address ms_mem]. by apply load64_store64_same.
Qed.

Lemma wp_state_is X d x pk (Q : bool -> KState -> Prop) e s :
  memsys s = X -> Q (bool_decide (domain (ms_lifecycle X) = d) && bool_decide (ddr (ms_lifecycle X) = x)) s ->
  wp pk (state_is d x) Q e s.
Proof. intros Hs HQ. unfold state_is. apply wp_bind. eapply wp_snapshot; [exact Hs|]. by apply wp_ret. Qed.

Lemma stage_step_spec f L L' x reason pass rs n m pk (Q : unit -> KState -> Prop) e s :
  memsys s = mkMemSys L rs n m -> f L = (true, L') -> domain L' = MemoryDomain.contained -> ddr L' = x ->
  fits (wanted (S (length (marker pass))) (marker pass)) [] = true ->
  (forall s', memsys s' = mkMemSys L' rs n m -> Q tt s') -> wp pk (stage_step f x reason pass) Q e s.
Proof.
  intros Hs Hf Hd Hx Hfit HQ. unfold stage_step. apply wp_bind.
  eapply (kmem_spec (on_lifecycle f) _ true (mkMemSys L' rs n m)); [exact Hs|unfold on_lifecycle; cbn [ms_lifecycle]; by rewrite Hf|].
  intros s1 E1. apply wp_bind. eapply wp_state_is; [exact E1|]. cbn [ms_lifecycle]. apply wp_bind, wp_require.
  { by rewrite !bool_decide_true. }
  by eapply wp_note.
Qed.

Abbreviation online_life d f := (life d DdrState.online configured_range f false).

Lemma bring_up_ddr_spec (Q : unit -> KState -> Prop) e s m pk :
  memsys s = early booted_life m ->
  (forall s', memsys s' = early (online_life MemoryDomain.contained false) m -> Q tt s') ->
  wp pk bring_up_ddr Q e s.
Proof.
  intros Hs HQ. unfold bring_up_ddr. apply wp_bind. eapply wp_snapshot; [exact Hs|]. apply wp_bind, wp_require; [done|].
  apply wp_bind. eapply kmem_spec; [exact Hs|by apply add_ddr_gated|]. intros s1 E1. apply wp_bind, wp_require; [done|].
  apply wp_bind. eapply wp_note; [by vm_compute|exact E1|]. intros s2 E2.
  apply wp_bind. eapply (stage_step_spec _ _ (life MemoryDomain.contained DdrState.discovered configured_range false false)); [exact E2| |reflexivity|reflexivity|by vm_compute|].
  { unfold discover, ddr_mark_discovered. cbn [domain ddr contained]. rewrite !bool_decide_false by (by intros []).
    rewrite window_in_ddr. reflexivity. }
  intros s3 E3.
  apply wp_bind. eapply stage_step_spec; [exact E3|reflexivity|reflexivity|reflexivity|by vm_compute|]. intros s4 E4.
  apply wp_bind. eapply stage_step_spec; [exact E4|reflexivity|reflexivity|reflexivity|by vm_compute|]. intros s5 E5.
  apply wp_bind. eapply wp_snapshot; [exact E5|]. apply wp_bind, wp_require; [done|].
  apply wp_bind. eapply wp_note; [by vm_compute|exact E5|]. intros s6 E6.
  apply wp_bind. eapply stage_step_spec; [exact E6|reflexivity|reflexivity|reflexivity|by vm_compute|]. intros s7 E7.
  apply wp_bind. eapply stage_step_spec; [exact E7|reflexivity|reflexivity|reflexivity|by vm_compute|]. intros s8 E8.
  apply wp_bind. eapply (kmem_spec (on_lifecycle online) _ true (early (online_life MemoryDomain.contained false) m)); [exact E8| |].
  { unfold on_lifecycle, online, ddr_mark_online. cbn. rewrite window_in_ddr. reflexivity. }
  intros s9 E9. apply wp_bind. eapply wp_state_is; [exact E9|]. apply wp_bind, wp_require; [done|].
  apply wp_bind. eapply wp_snapshot; [exact E9|]. cbn [ms_lifecycle ddr_allocation_enabled].
  apply wp_bind, wp_bind. eapply kmem_spec; [exact E9|by apply add_ddr_gated|]. intros s10 E10. apply wp_require; [done|].
  eapply wp_note; [by vm_compute|exact E10|done].
Qed.

Lemma wp_load X a pk (Q : Z -> KState -> Prop) e s : memsys s = X -> Q (load64 (ms_mem X) a) s -> wp pk (load_object a) Q e s.
Proof. intros <- HQ. unfold load_object. by apply wp_bind, wp_gets, wp_ret. Qed.
Lemma wp_backing X a pk (Q : BackingKind.t -> KState -> Prop) e s :
  memsys s = X -> Q (backing_for (ms_lifecycle X) a) s -> wp pk (backing_of a) Q e s.
Proof. intros Hs HQ. unfold backing_of. apply wp_bind. eapply wp_snapshot; [exact Hs|]. by apply wp_ret. Qed.

(** In mainstore all of DDR is. *)
Lemma ddr_backing al a : 2 ^ 31 <= a < 2 ^ 31 + 128 * 1024 * 1024 ->
  backing_for (life MemoryDomain.mainstore DdrState.online configured_range true al) a = BackingKind.ddr.
Proof. intros Ha. unfold backing_for. cbn [domain ddr ddr_range]. rewrite !bool_decide_true by done. by rewrite in_ddr. Qed.

Lemma enter_mainstore_spec (Q : unit -> KState -> Prop) e s m pk :
  memsys s = early (online_life MemoryDomain.contained false) m -> load64 m ps = kStableObjectMagic ->
  (forall s', memsys s' = early (online_life MemoryDomain.mainstore true) m -> Q tt s') ->
  wp pk (enter_mainstore ps) Q e s.
Proof.
  intros Hs Hm HQ. pose proof pool_bounds as (B1&B2&B3&B4&B5). pose proof (ly_ddr _ _ _ Hly) as [H1 H2].
  rewrite kpage in B2. unfold kQemuContainedWindowSize in *. unfold enter_mainstore.
  apply wp_bind. eapply wp_load; [exact Hs|]. apply wp_bind. eapply wp_backing; [exact Hs|]. cbn [ms_mem ms_lifecycle].
  apply wp_bind, wp_require; [by rewrite Hm, contained_backing by (unfold kQemuContainedWindowSize; auto || lia)|].
  apply wp_bind. eapply (kmem_spec _ _ true (early (online_life MemoryDomain.transitioning false) m)); [exact Hs|reflexivity|].
  intros s1 E1. apply wp_bind. eapply wp_state_is; [exact E1|]. apply wp_bind, wp_require; [done|].
  apply wp_bind. eapply (kmem_spec _ _ true (early (online_life MemoryDomain.transitioning true) m)); [exact E1|reflexivity|].
  intros s2 E2. apply wp_bind, wp_require; [done|]. apply wp_bind. eapply wp_snapshot; [exact E2|].
  apply wp_bind. eapply wp_backing; [exact E2|]. apply wp_bind. eapply wp_load; [exact E2|]. cbn [ms_mem ms_lifecycle].
  apply wp_bind, wp_require; [by rewrite Hm, contained_backing by (unfold kQemuContainedWindowSize; auto || lia)|].
  apply wp_bind. eapply wp_note; [by vm_compute|exact E2|]. intros s3 E3.
  apply wp_bind. eapply (kmem_spec _ _ true (early (online_life MemoryDomain.mainstore true) m)); [exact E3|reflexivity|].
  intros s4 E4. apply wp_bind, wp_require; [done|]. apply wp_bind. eapply wp_snapshot; [exact E4|]. apply wp_bind, wp_require; [done|].
  apply wp_bind. eapply wp_load; [exact E4|]. apply wp_bind. eapply wp_backing; [exact E4|]. cbn [ms_mem ms_lifecycle].
  apply wp_bind, wp_require; [by rewrite Hm, ddr_backing by lia|]. by eapply wp_note.
Qed.

Abbreviation store_end := (2 ^ 31 + 128 * 1024 * 1024).
Abbreviation above := (ts + kQemuContainedWindowSize).
Abbreviation main al := (life MemoryDomain.mainstore DdrState.online configured_range true al).
Abbreviation promoted L m := (mkMemSys L [pool (ps + kPageSize) BackingKind.ddr; spare; spare; spare] 1 m).
Abbreviation extended L m := (mkMemSys L [pool (ps + kPageSize) BackingKind.ddr; mkRange above above store_end BackingKind.ddr; spare; spare] 2 m).

Lemma bounds : 0 < ps /\ ps + 4096 <= pe /\ ts <= ps /\ pe <= above /\ 2 ^ 31 <= ts /\ above < store_end /\ above mod 4096 = 0.
Proof.
  pose proof pool_bounds as (B1&B2&B3&B4&B5). destruct Hly as [(Ht&_) [H1 H2] _]. rewrite kpage in *. split_and!; try lia.
  unfold kQemuContainedWindowSize. Z.div_mod_to_equations. lia.
Qed.

Lemma promote_pool m : promote_backing BackingKind.contained BackingKind.ddr (early (main false) m) = (1%nat, promoted (main false) m).
Proof.
  pose proof bounds as (B1&B2&B3&B4&B5&B6&B7). unfold promote_backing, live_ranges.
  cbn [g_range_count g_ranges take ms_lifecycle count_promotable mr_backing mr_base mr_end].
  rewrite !bool_decide_false by (done || by intros []). cbn [orb].
  rewrite !ddr_backing by (rewrite ?u64_small by (unfold is_u64; lia); lia). rewrite bool_decide_false by (by intros []). done.
Qed.

Lemma remaining_above : remaining_mainstore (main false) = mkPhysicalRange above (store_end - above).
Proof.
  pose proof bounds as (B1&B2&B3&B4&B5&B6&B7). unfold remaining_mainstore. cbn [ddr_range contained pr_base pr_size configured_range window].
  rewrite !u64_small by (unfold is_u64; lia). by rewrite (proj2 (Z.leb_gt _ _)) by lia.
Qed.

Lemma extend_pool m : add_range above (store_end - above) BackingKind.ddr (promoted (main false) m) = (true, extended (main false) m).
Proof.
  pose proof bounds as (B1&B2&B3&B4&B5&B6&B7). unfold add_range, live_ranges. cbn [g_range_count g_ranges take ms_lifecycle].
  rewrite bool_decide_false by done. rewrite (proj2 (Z.eqb_neq (store_end - above) 0)), aligned_mod by (rewrite ?kpage; lia).
  rewrite (proj2 (Z.eqb_eq ((store_end - above) mod kPageSize) 0)) by (rewrite kpage; Z.div_mod_to_equations; lia).
  cbn [Nat.leb kMaxRanges orb negb]. replace (above + (store_end - above)) with store_end by lia.
  rewrite u64_small by (unfold is_u64; lia). rewrite (proj2 (Z.leb_gt _ _)) by lia.
  cbn [existsb overlaps mr_end mr_base]. unfold overlaps. cbn [mr_end mr_base]. rewrite (proj2 (Z.ltb_ge above pe)) by lia. cbn [andb orb].
  rewrite u64_small by (unfold is_u64; lia). rewrite !ddr_backing by lia.
  rewrite (bool_decide_false (BackingKind.ddr = BackingKind.contained)), (bool_decide_false (BackingKind.ddr <> BackingKind.ddr)) by (done || by intros []).
  rewrite andb_false_r. done.
Qed.

Lemma more_pages m : remaining_pages BackingKind.ddr (promoted (main false) m) < remaining_pages BackingKind.ddr (extended (main false) m).
Proof.
  pose proof bounds as (B1&B2&B3&B4&B5&B6&B7). unfold remaining_pages, live_ranges. cbn [g_range_count g_ranges take count_pages mr_backing mr_next mr_end].
  rewrite !bool_decide_true by done. cbn [andb]. rewrite (proj2 (Z.ltb_lt above store_end)) by lia. rewrite kpage.
  assert (1 <= (store_end - above) / 4096 < 2 ^ 32) by (Z.div_mod_to_equations; lia).
  destruct (Z.ltb_spec (ps + 4096) pe).
  - assert (0 <= (pe - (ps + 4096)) / 4096 < 2 ^ 32) by (Z.div_mod_to_equations; lia). rewrite !u64_small by (unfold is_u64; rewrite ?u64_small; unfold is_u64; lia). lia.
  - rewrite u64_small by (unfold is_u64; lia). lia.
Qed.

Lemma allocate_ddr m : exists a X', allocate_page (extended (main true) m) = (mkAllocation a BackingKind.ddr, X') /\
  2 ^ 31 <= a < store_end /\ ps + 4096 <= a /\ ms_lifecycle X' = main true /\ ms_mem X' = zero_page a m.
Proof.
  pose proof bounds as (B1&B2&B3&B4&B5&B6&B7). unfold allocate_page, allocate_from, live_ranges.
  cbn [ms_lifecycle ddr_allocation_enabled g_range_count g_ranges take first_usable mr_backing mr_end mr_next].
  rewrite bool_decide_false by (by intros []). rewrite kpage. cbn [orb]. rewrite (proj2 (Z.leb_gt store_end above)) by lia.
  destruct (Z.leb_spec pe (ps + 4096)).
  - eexists above, _. split; [reflexivity|]. split_and!; try lia; done.
  - eexists (ps + 4096), _. split; [reflexivity|]. split_and!; try lia; done.
Qed.

Lemma validate_main : validate_mainstore_invariants (main true) = true.
Proof.
  pose proof bounds as (B1&B2&B3&B4&B5&B6&B7). unfold validate_mainstore_invariants.
  cbn [domain ddr contained_flush_complete ddr_allocation_enabled ddr_range contained].
  rewrite !bool_decide_false by (by intros []). rewrite window_in_ddr. cbn [negb orb window configured_range pr_base pr_size].
  change (mkPhysicalRange (2 ^ 31) (128 * 1024 * 1024)) with configured_range.
  change (mkPhysicalRange ts kQemuContainedWindowSize) with (window ts).
  rewrite !ddr_backing by (rewrite ?u64_small by (unfold is_u64; lia); lia). done.
Qed.

Lemma open_allocator_spec (Q : unit -> KState -> Prop) e s m pk :
  memsys s = early (main false) m ->
  (forall s' a, ms_lifecycle (memsys s') = main true -> ms_mem (memsys s') = zero_page a m -> ps + 4096 <= a -> Q tt s') ->
  wp pk open_allocator Q e s.
Proof.
  intros Hs HQ. pose proof bounds as (B1&B2&B3&B4&B5&B6&B7). unfold open_allocator. apply wp_bind.
  eapply kmem_spec; [exact Hs|apply promote_pool|]. intros s1 E1. apply wp_bind, wp_require; [done|].
  apply wp_bind. eapply wp_snapshot; [exact E1|]. cbn [ms_lifecycle]. rewrite remaining_above. cbn [pr_base pr_size].
  apply wp_bind, wp_require; [rewrite (proj2 (Z.eqb_neq _ _)) by lia; done|]. apply wp_bind, wp_gets. rewrite E1.
  apply wp_bind. eapply kmem_spec; [exact E1|apply extend_pool|]. intros s2 E2. apply wp_bind, wp_require; [done|].
  apply wp_bind, wp_gets. rewrite E2. apply wp_bind, wp_require; [apply Z.ltb_lt, more_pages|].
  apply wp_bind. eapply kmem_spec; [exact E2|reflexivity|]. intros s3 E3. apply wp_bind, wp_require; [done|].
  apply wp_bind. eapply wp_note; [by vm_compute|exact E3|]. intros s4 E4.
  apply wp_bind. eapply (kmem_spec _ _ true (extended (main true) m)); [exact E4|reflexivity|]. intros s5 E5.
  apply wp_bind. eapply wp_snapshot; [exact E5|]. cbn [ms_lifecycle]. apply wp_bind, wp_require.
  { by rewrite validate_main. }
  destruct (allocate_ddr m) as (a&X'&Hal&Ha&Hpa&EL&Em). apply wp_bind. eapply kmem_spec; [exact E5|exact Hal|]. intros s6 E6.
  apply wp_bind. eapply wp_backing; [exact E6|]. cbn [physical_address]. rewrite EL, ddr_backing by done. apply wp_bind, wp_require.
  { unfold allocation_valid. cbn [physical_address backing]. rewrite (proj2 (Z.eqb_neq a 0)) by lia. done. }
  apply wp_any, kprintk_spec; [by vm_compute|]. intros c. rproj. apply (HQ _ a); rproj; by rewrite ?E6.
Qed.
End passes.

(** ** Properties *)

(** C35: The transition to mainstore succeeds.  On every machine whose contained
    window and bootstrap pool are page aligned and lie in the configured DDR
    range, with the firmware in its initial contained state, the program walks
    the whole DDR lifecycle, never takes a failure exit and ends with mainstore
    entered and its allocator open; the object placed before the transition is
    at the same address with the same contents. *)
Theorem mainstore_transition_passes ts e s :
  layout ts (pool_start_sym (e_syms e)) (pool_end_sym (e_syms e)) ->
  ms_lifecycle (memsys s) = initialize_contained ts initial_state ->
  exists s', run_mainstore_transition ts e s = Done (pool_start_sym (e_syms e)) s' /\
    domain (ms_lifecycle (memsys s')) = MemoryDomain.mainstore /\ ddr_allocation_enabled (ms_lifecycle (memsys s')) = true /\
    validate_mainstore_invariants (ms_lifecycle (memsys s')) = true /\
    backing_for (ms_lifecycle (memsys s')) (pool_start_sym (e_syms e)) = BackingKind.ddr /\
    load64 (ms_mem (memsys s')) (pool_start_sym (e_syms e)) = kStableObjectMagic.
Proof.
  intros Hly HL. set (ps := pool_start_sym (e_syms e)) in *. set (pe := pool_end_sym (e_syms e)) in *.
  destruct (wp_done (run_mainstore_transition ts) (fun r s' => r = ps /\ exists m a, load64 m ps = kStableObjectMagic /\
    ps + 4096 <= a /\ ms_mem (memsys s') = zero_page a m /\ ms_lifecycle (memsys s') =
      mkLifecycle MemoryDomain.mainstore DdrState.online (window ts) configured_range true true) e s)
    as (r&s'&Hr&->&m&a&Hm&Ha&Em&EL).
  - unfold run_mainstore_transition. apply wp_bind, (place_object_spec ts ps pe Hly _ e s (ms_mem (memsys s))); try done.
    intros s1 m E1 Hm. apply wp_bind, (bring_up_ddr_spec ts ps pe Hly _ e s1 m); [done|]. intros s2 E2.
    apply wp_bind, (enter_mainstore_spec ts ps pe Hly _ e s2 m); [done|done|]. intros s3 E3.
    apply wp_bind, (open_allocator_spec ts ps pe Hly _ e s3 m); [done|]. intros s4 a EL Em Ha. apply wp_ret. split; [done|].
    by exists m, a.
  - exists s'. split; [exact Hr|]. rewrite EL, Em. pose proof (bounds ts ps pe Hly) as (B1&B2&B3&B4&B5&B6&B7). split_and!; try done.
    + apply (validate_main ts ps pe Hly).
    + apply (ddr_backing ts); lia.
    + rewrite <- Hm. apply load64_agree. intros x Hx. rewrite zero_page_spec, (proj2 (Z.leb_gt a x)) by lia. done.
Qed.

Lemma mainstore_transition_passes_witness :
  exists s', run_mainstore_transition (2 ^ 31) (demo_env 0) (power_on (initialize_contained (2 ^ 31) initial_state) (fun _ => 0))
    = Done 0x80100000 s' /\ domain (ms_lifecycle (memsys s')) = MemoryDomain.mainstore.
Proof.
  destruct (mainstore_transition_passes (2 ^ 31) (demo_env 0) (power_on (initialize_contained (2 ^ 31) initial_state) (fun _ => 0)))
    as (s'&H1&H2&_).
  - split; vm_compute; repeat split; congruence.
  - reflexivity.
  - exists s'. split; [exact H1|exact H2].
Defined.
