(* ===== verification/Paging.v ===== *)
(** * Demand paging before DDR

    Models [microkernel/core/pre_ddr_paging_test.cpp], the program of the
    M00-07.03 build: an address space over the contained window, and a fault
    handler that brings a page of the extended image in from flash when
    supervisor code first fetches from it.  The supervisor code itself is
    assembly; a run of the program ends where it is entered. *)
From stdpp Require Import base tactics sets functions list gmap strings.
From Stdlib Require Import ZArith Lia Ascii FunctionalExtensionality.
From S2P Require Import Prelude Memory Bytes Lifecycle PageManager Sv39 Vmm Format Console Ffs KernelTypes KernelInv Demo RunQueue DelayQueue Scheduler TaskContext TimeManager Ipc TaskManager Arch Syscall SyscallProps Transition.
Local Open Scope Z_scope.

Definition M00_07_03_PAGEABLE_VA : Z := 0x40000000.
Definition M00_07_03_ECALL_PASS : Z := 0x703.
Definition M00_07_03_ECALL_FAIL : Z := 0x7ff.
Definition TRAP_FRAME_SIZE : Z := 288.
Definition TRAP_FRAME_ALIGNMENT : Z := 16.
Definition kMstatusMppSupervisor : Z := Z.shiftl 1 11.

(** ** State *)

(** The kernel and the two globals of the program. *)
Record Pager := mkPager { pg_kernel : KState; g_address_space : AddressSpace; g_page_fault_count : Z }.
#[export] Instance Pager_eta : Eta Pager := fun s => mkPager (pg_kernel s) (g_address_space s) (g_page_fault_count s).

Definition P (A : Type) : Type := M Env Pager A.

(** An operation of the kernel. *)
Definition lift {A} : K A -> P A := zoom pg_kernel (fun k s => s <| pg_kernel := k |>).

(** ** The fault handler *)

(** [frame_address] is the address of the frame on the trap stack. *)
Definition trusted_s_trap (frame_address : Z) (frame : TrapFrame) : P bool :=
  if negb (Z.land (fr_mstatus frame) kMstatusMppMask =? kMstatusMppSupervisor) then mret false
  else
    e ← ask; local ← lift (get_hart (e_hart e));
    let frame_end := u64 (frame_address + TRAP_FRAME_SIZE) in
    mret ((trap_active local =? 1) && (frame_address mod TRAP_FRAME_ALIGNMENT =? 0)
          && (trap_stack_bottom local <=? frame_address) && (frame_end <=? trap_stack_top local)).

Definition print_failure (reason : string) : P unit :=
  lift (kprintk (marker "M00_07_PRE_DDR_PAGING: FAIL (%s)") [AText (Some (text reason))]).

Definition finish_probe {A} (passed : bool) : P A :=
  lift (if passed then kprintk (marker "M00_07_PRE_DDR_PAGING_RESUME: PASS" ++ marker "M00-07.03 pre-DDR flash-backed paging: PASS") []
        else kprintk (marker "M00_07_PRE_DDR_PAGING: FAIL (pageable result)") []);;
  park.

Definition kPageFlags : Z := Z.lor (Z.lor PteFlag.read PteFlag.execute) PteFlag.accessed.

(** [print_failure(reason); return false;] *)
Definition refuse (reason : string) : P bool := print_failure reason;; mret false.

Definition read_page (page_index destination : Z) (ms : MemSys) : bool * MemSys :=
  let '(ok, m') := read_extended_page page_index destination (ms_mem ms) in (ok, ms <| ms_mem := m' |>).

(** The service itself: a page, its contents, its mapping.  The fences have no
    effect on the model's memory. *)
Definition bring_page_in : P bool :=
  page ← lift (kmem allocate_page);
  b ← lift (backing_of (physical_address page));
  if negb (allocation_valid page) || bool_decide (backing page <> BackingKind.contained)
     || bool_decide (b <> BackingKind.contained)
  then refuse "PageManager did not return contained backing"
  else
    read ← lift (kmem (read_page 0 (physical_address page)));
    if negb read then refuse "pflash Extended page read failed"
    else
      space ← gets g_address_space;
      mapped ← lift (kmem (map_page_4k space M00_07_03_PAGEABLE_VA (physical_address page) kPageFlags));
      if negb mapped then refuse "Sv39 page installation failed"
      else
        modify (fun s => s <| g_page_fault_count := u32 (g_page_fault_count s + 1) |>);;
        lift (kprintk (marker "M00_07_PRE_DDR_PAGE_FAULT: PASS" ++ marker "M00_07_PRE_DDR_FLASH_READ: PASS"
                       ++ marker "M00_07_PRE_DDR_BACKING_EARLY: PASS") []);;
        mret true.

Definition service_instruction_page_fault (frame_address : Z) (frame : TrapFrame) : P bool :=
  if negb (is_exception_code (fr_mcause frame) ExceptionCode.instruction_page_fault) then mret false
  else
    trusted ← trusted_s_trap frame_address frame;
    faults ← gets g_page_fault_count;
    if negb trusted || negb (fr_mtval frame =? M00_07_03_PAGEABLE_VA) || negb (fr_mepc frame =? M00_07_03_PAGEABLE_VA)
       || negb (faults =? 0)
    then refuse "unexpected page-fault context"
    else
      state ← lift snapshot;
      if bool_decide (domain state <> MemoryDomain.contained) || bool_decide (ddr state <> DdrState.offline)
         || ddr_allocation_enabled state
      then refuse "DDR became visible before pre-DDR fault"
      else bring_page_in.

(** The addresses of the two [ecall]s of the supervisor code. *)
Definition service_completion_ecall (completion_pc failure_pc frame_address : Z) (frame : TrapFrame) : P bool :=
  if negb (is_exception_code (fr_mcause frame) ExceptionCode.environment_call_from_s) then mret false
  else
    trusted ← trusted_s_trap frame_address frame;
    if negb trusted then refuse "untrusted completion trap"
    else
      faults ← gets g_page_fault_count;
      if (fr_mepc frame =? completion_pc) && (nth 10 (fr_x frame) 0 =? M00_07_03_ECALL_PASS) && (faults =? 1)
      then finish_probe true
      else if (fr_mepc frame =? failure_pc) || (nth 10 (fr_x frame) 0 =? M00_07_03_ECALL_FAIL) then finish_probe false
      else refuse "unexpected completion ECALL".

(** [None] is the null frame. *)
Definition try_handle_trap (completion_pc failure_pc : Z) (frame : option (Z * TrapFrame)) : P bool :=
  match frame with
  | None => mret false
  | Some (frame_address, frame) =>
      serviced ← service_instruction_page_fault frame_address frame;
      if serviced : bool then mret true
      else service_completion_ecall completion_pc failure_pc frame_address frame
  end.

(** ** The program *)

Definition kResidentFlags : Z :=
  Z.lor (Z.lor (Z.lor (Z.lor PteFlag.read PteFlag.write) PteFlag.execute) PteFlag.accessed) PteFlag.dirty.

Definition fail_probe {A} (line : string) : P A := lift (kprintk (marker line) []);; park.

Definition armed_banner : list ascii :=
  newline :: marker "[Jixia][M00-07.03][PreDdrPaging]" ++ marker "root        : %p" ++ marker "extended    : [%p, %p)"
  ++ marker "early pages : %lu" ++ marker "target VA   : %p" ++ marker "M00_07_PRE_DDR_PAGING_ARMED: PASS".

(** The result is the [satp] the supervisor code is entered with. *)
Definition run_pre_ddr_paging (text_start : Z) : P Z :=
  state ← lift snapshot;
  if negb (validate_contained_invariants text_start state) then fail_probe "M00_07_PRE_DDR_PAGING: FAIL (contained state invalid)"
  else
    lift (kmem (fun ms => (tt, reset ms)));;
    e ← ask;
    pooled ← lift (kmem (add_contained_bootstrap_pool (pool_start_sym (e_syms e)) (pool_end_sym (e_syms e))));
    if negb pooled then fail_probe "M00_07_PRE_DDR_PAGING: FAIL (bootstrap PageManager range)"
    else
      space ← lift (kmem create_address_space);
      modify (fun s => s <| g_address_space := space |>);;
      if negb (as_valid space) then fail_probe "M00_07_PRE_DDR_PAGING: FAIL (Sv39 root allocation)"
      else
        state ← lift snapshot;
        mapped ← lift (kmem (map_range_4k space (pr_base (contained state)) (pr_base (contained state))
                               (pr_size (contained state)) kResidentFlags));
        if negb mapped then fail_probe "M00_07_PRE_DDR_PAGING: FAIL (resident identity map)"
        else
          ms ← lift (gets memsys);
          match image_info (ms_mem ms) true with
          | Some image =>
              if extended_size image <? kFlashPageSize then fail_probe "M00_07_PRE_DDR_PAGING: FAIL (Extended image absent)"
              else
                lift (kprintk armed_banner
                  [AWord (root_physical_address space); AWord (extended_flash_address image);
                   AWord (u64 (extended_flash_address image + extended_size image));
                   AWord (remaining_pages BackingKind.contained ms); AWord M00_07_03_PAGEABLE_VA]);;
                mret (satp_value space)
          | None => fail_probe "M00_07_PRE_DDR_PAGING: FAIL (Extended image absent)"
          end.

(** ** Lemmas *)

Lemma wp_lift {A} pk (m : K A) (Q : A -> Pager -> Prop) e s :
  wp pk m (fun a k => Q a (s <| pg_kernel := k |>)) e (pg_kernel s) -> wp pk (lift m) Q e s.
Proof. intros H. unfold lift. by apply wp_zoom. Qed.

Lemma wp_lift_kmem {A} pk (f : MemSys -> A * MemSys) (Q : A -> Pager -> Prop) e s :
  Q (f (memsys (pg_kernel s))).1 (s <| pg_kernel := (pg_kernel s) <| memsys := (f (memsys (pg_kernel s))).2 |> |>) ->
  wp pk (lift (kmem f)) Q e s.
Proof. intros HQ. apply wp_lift. unfold wp, kmem. by destruct (f _). Qed.

(** A message: only the console changes. *)
Lemma wp_lift_print pk format args (Q : unit -> Pager -> Prop) e s :
  fits (wanted (S (length format)) format) args = true ->
  (forall c, Q tt (s <| pg_kernel := (pg_kernel s) <| console := c |> |>)) -> wp pk (lift (kprintk format args)) Q e s.
Proof. intros Hf HQ. apply wp_any, wp_lift, kprintk_spec; [done|]. intros c. apply HQ. Qed.

Lemma wp_refuse pk reason (Q : bool -> Pager -> Prop) e s :
  (forall c, Q false (s <| pg_kernel := (pg_kernel s) <| console := c |> |>)) -> wp pk (refuse reason) Q e s.
Proof. intros HQ. unfold refuse, print_failure. apply wp_bind, wp_lift_print; [done|]. intros c. apply wp_ret, HQ. Qed.

Lemma wp_trusted pk frame_address frame h (Q : bool -> Pager -> Prop) e s :
  harts (pg_kernel s) !! e_hart e = Some h ->
  Q ((Z.land (fr_mstatus frame) kMstatusMppMask =? kMstatusMppSupervisor) &&
     ((trap_active h =? 1) && (frame_address mod TRAP_FRAME_ALIGNMENT =? 0) && (trap_stack_bottom h <=? frame_address)
      && (u64 (frame_address + TRAP_FRAME_SIZE) <=? trap_stack_top h))) s ->
  wp pk (trusted_s_trap frame_address frame) Q e s.
Proof.
  intros Hh HQ. unfold trusted_s_trap. destruct (_ =? kMstatusMppSupervisor); cbn [negb andb] in *; [|by apply wp_ret].
  apply wp_bind, wp_ask, wp_bind, wp_lift. unfold get_hart. apply wp_bind, wp_gets. eapply wp_deref; [exact Hh|].
  apply wp_ret. by destruct s.
Qed.

(** *** Memory *)

(** The memory system below a table tree, flash below the contained window. *)
Record paging_ok (root : Z) (st : MemSys) : Prop := {
  po_pm : pm_inv st;
  po_pt : pt_inv st root;
  po_bytes : mem_bytes (ms_mem st);
  po_flash : JIXIA_QEMU_PFLASH_BASE + JIXIA_QEMU_PFLASH_SIZE <= pr_base (contained (ms_lifecycle st));
}.

Lemma zero_page_bytes a m : mem_bytes m -> mem_bytes (zero_page a m).
Proof. intros Hm x. rewrite zero_page_spec. case_match; [|apply Hm]. unfold is_u8. lia. Qed.

(** What the table operations keep: the lifecycle, and that memory holds bytes. *)
Definition keeps (st st' : MemSys) : Prop :=
  ms_lifecycle st' = ms_lifecycle st /\ (mem_bytes (ms_mem st) -> mem_bytes (ms_mem st')).

#[local] Instance keeps_preorder : PreOrder keeps.
Proof. split; [by split|]. intros s1 s2 s3 [E1 B1] [E2 B2]. split; [congruence|auto]. Qed.

Lemma keeps_store st a v : keeps st (st <| ms_mem := store64 (ms_mem st) a v |>).
Proof. split; [by destruct st|]. intros Hm. destruct st. by apply store64_bytes. Qed.

Lemma keeps_allocate st : pm_inv st -> keeps st (allocate_page st).2 /\ pm_inv (allocate_page st).2.
Proof.
  intros Hpm. split; [|by apply allocate_page_inv]. destruct (allocate_page st) as [a st'] eqn:E.
  apply allocate_page_spec in E as [(i&r&_&_&_&_&_&El&Em)|(_&->&_)]; [|done..]. split; [done|]. cbn [snd]. rewrite Em. apply zero_page_bytes.
Qed.

(** The allocator's invariant does not mention memory contents. *)
Lemma pm_inv_mem st m : pm_inv st -> pm_inv (st <| ms_mem := m |>).
Proof. destruct st. intros []. by split. Qed.

Lemma keeps_child a st : pm_inv st -> keeps st (ensure_child_table a st).2 /\ pm_inv (ensure_child_table a st).2.
Proof.
  intros Hpm. unfold ensure_child_table. cbv zeta. destruct (is_valid _); [by destruct (is_leaf _)|].
  destruct (keeps_allocate st Hpm) as [Hk Hp]. destruct (allocate_page st) as [al st1]. cbn [snd] in *.
  destruct (allocation_valid al); cbn [negb snd]; [|done].
  split; [by etrans; [|apply keeps_store]|by apply pm_inv_mem].
Qed.

Lemma keeps_map space va pa flags st :
  pm_inv st -> keeps st (map_page_4k space va pa flags st).2 /\ pm_inv (map_page_4k space va pa flags st).2.
Proof.
  intros Hpm. unfold map_page_4k. destruct (_ || _); [done|]. destruct (_ && _); [done|]. cbv zeta.
  destruct (keeps_child (entry_address (root_physical_address space) (vpn_index va 2)) st Hpm) as [K1 P1].
  destruct (ensure_child_table _ st) as [l1 st1]. cbn [snd] in *. destruct (l1 =? 0); [done|].
  destruct (keeps_child (entry_address l1 (vpn_index va 1)) st1 P1) as [K2 P2].
  destruct (ensure_child_table _ st1) as [l0 st2]. cbn [snd] in *. destruct (l0 =? 0); [by split; [etrans|]|].
  destruct (is_valid _); cbn [snd]; [by split; [etrans|]|].
  split; [by etrans; [etrans; [exact K1|exact K2]|apply keeps_store]|by apply pm_inv_mem].
Qed.

Lemma keeps_map_pages space vb pb flags off n st :
  pm_inv st -> keeps st (map_pages space vb pb flags off n st).2.
Proof.
  revert off st. induction n as [|n IH]; intros off st Hpm; [done|]. cbn [map_pages].
  destruct (keeps_map space (u64 (vb + off)) (u64 (pb + off)) flags st Hpm) as [K1 P1].
  destruct (map_page_4k _ _ _ _ st) as [[] st1]; cbn [snd] in *; [|done]. etrans; [exact K1|by apply IH].
Qed.

Lemma keeps_map_range space vb pb size flags st : pm_inv st -> keeps st (map_range_4k space vb pb size flags st).2.
Proof.
  intros Hpm. unfold map_range_4k. destruct (_ || _ || _ || _); [done|]. cbv zeta. destruct (_ || _); [done|].
  by apply keeps_map_pages.
Qed.

(** *** Bringing a page in *)

Lemma backing_contained_base L a :
  domain L = MemoryDomain.contained -> backing_for L a = BackingKind.contained -> pr_base (contained L) <= a.
Proof.
  intros Hd. unfold backing_for. rewrite Hd. cbn. destruct (contains (contained L) a) eqn:E; [|done]. intros _.
  unfold contains in E. destruct (negb _); [done|]. destruct (Z.ltb_spec a (pr_base (contained L))); [done|lia].
Qed.

Lemma translate_frame st st' root : (forall va, walk (ms_mem st') root va 2 = walk (ms_mem st) root va 2) ->
  forall va, translate (ms_mem st') root va = translate (ms_mem st) root va.
Proof.
  intros H va. destruct (decide (0 <= va < 2 ^ 38)); [by rewrite !translate_walk|by rewrite !translate_out].
Qed.

Lemma read_refused a m : (read_extended_page 0 a m).1 = false -> (read_extended_page 0 a m).2 = m.
Proof. unfold read_extended_page. cbv zeta. by repeat case_match. Qed.

Lemma read_found a m : (read_extended_page 0 a m).1 = true -> exists i, find_partition m (Some kExtendedPartition) true = Some i.
Proof. unfold read_extended_page. cbv zeta. destruct (negb _); [done|]. destruct (find_partition _ _ _) as [i|]; [by exists i|done]. Qed.

Section fault.
Context (root : Z) (st st1 : MemSys) (al : Allocation).
Context (Hok : paging_ok root st) (Ha : allocate_page st = (al, st1)).
Abbreviation page := (physical_address al).

Lemma allocated_ranges : Forall (fun r => mr_end r <= 2 ^ 56) (live_ranges st1).
Proof.
  pose proof (pt_phys _ _ (po_pt _ _ Hok)) as Hp.
  apply allocate_page_spec in Ha as [(i&r&Hi&_&_&_&->&_)|(_&->&_)]; [|done|apply Hok].
  apply Forall_insert; [done|]. by apply (Forall_lookup_1 _ _ _ _ Hp Hi).
Qed.

Lemma allocated_kept : keeps st st1 /\ pm_inv st1.
Proof. pose proof (keeps_allocate st (po_pm _ _ Hok)) as Hk. by rewrite Ha in Hk. Qed.

Lemma allocated_frame x : handed_out st x -> handed_out st1 x /\ ms_mem st1 x = ms_mem st x.
Proof.
  intros Hx. destruct (allocate_page_facts st al st1 (po_pm _ _ Hok) Ha) as [_ Hf].
  destruct (decide _) as [|Hb]; [by destruct Hf as [-> _]|]. destruct Hf as (_&_&_&Hh&Hn&Hm).
  split; [apply Hh; by left|]. rewrite Hm. destruct (Z.leb_spec page x), (Z.ltb_spec x (page + kPageSize)); try done. by destruct (Hn x).
Qed.

(** Any change confined to the new page leaves the address space as it was. *)
Lemma confined_change m' :
  mem_bytes m' -> (forall x, ~ (page <= x < page + kPageSize) -> m' x = ms_mem st1 x) ->
  backing al <> BackingKind.unavailable \/ (forall x, m' x = ms_mem st1 x) ->
  paging_ok root (st1 <| ms_mem := m' |>) /\ (forall x, handed_out st x -> m' x = ms_mem st x) /\
  (forall va, translate m' root va = translate (ms_mem st) root va).
Proof.
  intros Hby Hout Hal. destruct allocated_kept as [[El _] Hp1].
  assert (forall x, handed_out st x -> m' x = ms_mem st x) as Hag.
  { intros x Hx. destruct (allocated_frame x Hx) as [_ <-]. destruct Hal as [Hal|Hal]; [|apply Hal]. apply Hout.
    destruct (allocate_page_facts st al st1 (po_pm _ _ Hok) Ha) as [_ Hf]. rewrite decide_False in Hf by done.
    intros Hin. by destruct Hf as (_&_&_&_&Hn&_); apply (Hn x). }
  destruct (pt_step_frame root st (st1 <| ms_mem := m' |>)) as [Hs Hw];
    [apply Hok|apply Hok|by apply pm_inv_mem|apply allocated_ranges|by intros x [? _]%allocated_frame|done|].
  split_and!; [|done|exact (translate_frame st (st1 <| ms_mem := m' |>) root Hw)].
  destruct Hs. split; [done|done|done|]. change (ms_lifecycle (st1 <| ms_mem := m' |>)) with (ms_lifecycle st1). rewrite El. apply Hok.
Qed.

(** Reading the image into the new page. *)
Lemma read_in ok st2 :
  domain (ms_lifecycle st) = MemoryDomain.contained -> backing al = BackingKind.contained ->
  backing_for (ms_lifecycle st1) page = BackingKind.contained ->
  read_page 0 page st1 = (ok, st2) ->
  paging_ok root st2 /\ (forall x, handed_out st x -> ms_mem st2 x = ms_mem st x) /\ live_ranges st2 = live_ranges st1 /\
  (forall va, translate (ms_mem st2) root va = translate (ms_mem st) root va) /\
  (ok = true -> exists i, find_partition (ms_mem st) (Some kExtendedPartition) true = Some i /\ kPageSize <= actual_size i /\
     forall off, 0 <= off < kPageSize -> ms_mem st2 (page + off) = ms_mem st (flash_address i + off)).
Proof.
  intros Hd Hb Hbf Hr. destruct allocated_kept as [[El Hby] Hp1].
  destruct (allocate_page_facts st al st1 (po_pm _ _ Hok) Ha) as [_ Hf]. rewrite decide_False in Hf by (by rewrite Hb).
  destruct Hf as (_&_&(r&Hr1&Hr2&Hr3)&_&_&Hm1).
  pose proof (proj1 (Forall_forall _ _) (pt_phys _ _ (po_pt _ _ Hok)) r Hr1) as Htop. cbn beta in Htop.
  apply backing_contained_base in Hbf; [|by rewrite El]. rewrite El in Hbf. pose proof (po_flash _ _ Hok) as Hfl.
  assert (flash_agrees (ms_mem st) (ms_mem st1)) as Hag.
  { intros x Hx. rewrite Hm1, (proj2 (Z.leb_gt page x)) by lia. done. }
  specialize (Hby (po_bytes _ _ Hok)). unfold read_page in Hr.
  destruct (read_extended_page 0 page (ms_mem st1)) as [ok' m'] eqn:Er. injection Hr as <- <-.
  pose proof (f_equal fst Er) as E1. pose proof (f_equal snd Er) as E2. cbn [fst snd] in E1, E2. subst m'.
  destruct ok'.
  - destruct (read_found _ _ E1) as [i Hi].
    pose proof (read_extended_page_spec (ms_mem st1) 0 page i) as Hs.
    assert (forall a, (read_extended_page 0 page (ms_mem st1)).1 = (page mod 4096 =? 0) && (0 * 4096 + 4096 <=? actual_size i) /\
      (read_extended_page 0 page (ms_mem st1)).2 a =
        if (page mod 4096 =? 0) && (0 * 4096 + 4096 <=? actual_size i) && (page <=? a) && (a <? page + 4096)
        then ms_mem st1 (flash_address i + 0 * 4096 + (a - page)) else ms_mem st1 a) as Hall.
    { intros a. apply Hs; [done|word_lia| |lia|done]. unfold is_u64, JIXIA_QEMU_PFLASH_BASE, JIXIA_QEMU_PFLASH_SIZE, kPageSize in *. lia. }
    pose proof (proj1 (Hall 0)) as Hg. rewrite E1 in Hg. symmetry in Hg.
    assert (forall a, (read_extended_page 0 page (ms_mem st1)).2 a =
      if (page <=? a) && (a <? page + 4096) then ms_mem st1 (flash_address i + (a - page)) else ms_mem st1 a) as Hmem.
    { intros a. rewrite (proj2 (Hall a)), Hg. cbn [andb]. by rewrite Z.add_0_r. }
    pose proof (find_partition_in_flash _ _ _ i Hby Hi) as Hin.
    apply andb_true_iff in Hg as [_ Hg]. apply Z.leb_le in Hg.
    destruct (confined_change (read_extended_page 0 page (ms_mem st1)).2) as (P1&P2&P3).
    + intros a. rewrite Hmem. case_match; apply Hby.
    + intros a Hna. rewrite Hmem. unfold kPageSize in Hna.
      destruct (Z.leb_spec page a), (Z.ltb_spec a (page + 4096)); try done. lia.
    + left. by rewrite Hb.
    + split_and!; [done..|]. intros _. exists i. rewrite <- (find_partition_agree _ _ Hag). split_and!; [done|unfold kPageSize; lia|].
      intros off Hoff. cbn. rewrite Hmem. unfold kPageSize in Hoff. rewrite (proj2 (Z.leb_le _ _)), (proj2 (Z.ltb_lt _ _)) by lia. cbn [andb].
      replace (page + off - page) with off by lia. destruct Hin as (I1&I2&I3&I4&I5). rewrite Hag by lia. done.
  - destruct (confined_change (ms_mem st1)) as (P1&P2&P3); [done|done|by right|].
    rewrite (read_refused _ _ E1). by split_and!.
Qed.
End fault.

(** Installing a page nobody else uses. *)
Lemma install root st st2 st3 page ok :
  paging_ok root st -> paging_ok root st2 -> (forall x, handed_out st x -> ms_mem st2 x = ms_mem st x) ->
  (forall x, page <= x < page + kPageSize -> ~ handed_out st x /\ handed_out st2 x) -> 0 <= page < 2 ^ 56 ->
  map_page_4k (mkAddressSpace root) M00_07_03_PAGEABLE_VA page kPageFlags st2 = (ok, st3) ->
  paging_ok root st3 /\
  (ok = true ->
   translate (ms_mem st2) root M00_07_03_PAGEABLE_VA = None /\
   forall off, 0 <= off < kPageSize ->
     translate (ms_mem st3) root (M00_07_03_PAGEABLE_VA + off) = Some (page + off, Z.lor kPageFlags PteFlag.valid) /\
     ms_mem st3 (page + off) = ms_mem st2 (page + off)) /\
  (forall va, ok = false \/ va / kPageSize <> M00_07_03_PAGEABLE_VA / kPageSize ->
     translate (ms_mem st3) root va = translate (ms_mem st2) root va).
Proof.
  intros Hst Hok Hag Hfree Hpage Hmap.
  destruct (keeps_map (mkAddressSpace root) M00_07_03_PAGEABLE_VA page kPageFlags st2 (po_pm _ _ Hok)) as [[El Hby] Hpm].
  rewrite Hmap in *. cbn [snd] in *.
  apply map_page_translate in Hmap as (Hs&Ht&Ho); [|apply Hok|apply Hok|by vm_compute|done|by vm_compute|by vm_compute].
  split_and!; [split; [done|apply Hs|by apply Hby, Hok|rewrite El; apply Hok]| |done].
  intros Htrue. destruct (Ht Htrue) as [Hn Hm]. split; [done|]. intros off Hoff. split; [by apply Hm|].
  destruct (Hfree (page + off)) as [Hf Hf2]; [lia|]. apply (ps_others _ _ _ Hs); [done|]. intros p t Hl Hp Hpath Hin.
  rewrite (table_path_frame st root (po_pt _ _ Hst)) in Hpath by done.
  by apply Hf, (tp_owned _ _ (pt_pages _ _ (po_pt _ _ Hst) p t Hl Hp Hpath)).
Qed.

(** ** Properties *)

Record pager_ok (root : Z) (e : Env) (s : Pager) : Prop := {
  pk_memory : paging_ok root (memsys (pg_kernel s));
  pk_space : g_address_space s = mkAddressSpace root;
  pk_hart : is_Some (harts (pg_kernel s) !! e_hart e);
}.

Abbreviation pager_memory s := (ms_mem (memsys (pg_kernel s))).

(** The faulting page now translates, read-only and executable, to a fresh
    contained page with the first page of the extended image; nothing else of
    the address space changed. *)
Definition paged_in (root : Z) (s s' : Pager) : Prop :=
  g_page_fault_count s = 0 /\ g_page_fault_count s' = 1 /\
  translate (pager_memory s) root M00_07_03_PAGEABLE_VA = None /\
  (forall va, va / kPageSize <> M00_07_03_PAGEABLE_VA / kPageSize ->
     translate (pager_memory s') root va = translate (pager_memory s) root va) /\
  exists page i,
    find_partition (pager_memory s) (Some kExtendedPartition) true = Some i /\ kPageSize <= actual_size i /\
    backing_for (ms_lifecycle (memsys (pg_kernel s))) page = BackingKind.contained /\
    forall off, 0 <= off < kPageSize ->
      ~ handed_out (memsys (pg_kernel s)) (page + off) /\
      translate (pager_memory s') root (M00_07_03_PAGEABLE_VA + off) = Some (page + off, Z.lor kPageFlags PteFlag.valid) /\
      pager_memory s' (page + off) = pager_memory s (flash_address i + off).

(** A fault that is refused leaves every translation as it was. *)
Definition fault_refused (root : Z) (s s' : Pager) : Prop :=
  g_page_fault_count s' = g_page_fault_count s /\
  forall va, translate (pager_memory s') root va = translate (pager_memory s) root va.

Definition fault_answer (root : Z) (e : Env) (s : Pager) (ok : bool) (s' : Pager) : Prop :=
  pager_ok root e s' /\ if ok then paged_in root s s' else fault_refused root s s'.

(** The pager with another memory system. *)
Definition moved (s : Pager) (st : MemSys) : Pager := s <| pg_kernel := (pg_kernel s) <| memsys := st |> |>.
Lemma moved_id s : moved s (memsys (pg_kernel s)) = s.
Proof. destruct s as [[] ? ?]. done. Qed.

Lemma wp_moved_kmem {A} pk (f : MemSys -> A * MemSys) a st' (Q : A -> Pager -> Prop) e s st :
  f st = (a, st') -> Q a (moved s st') -> wp pk (lift (kmem f)) Q e (moved s st).
Proof. intros Ef HQ. apply wp_lift_kmem. change (memsys (pg_kernel (moved s st))) with st. by rewrite Ef. Qed.

Lemma wp_moved_backing pk a (Q : BackingKind.t -> Pager -> Prop) e s st :
  Q (backing_for (ms_lifecycle st) a) (moved s st) -> wp pk (lift (backing_of a)) Q e (moved s st).
Proof. intros HQ. apply wp_lift. unfold backing_of. apply wp_bind. eapply wp_snapshot; [done|]. by apply wp_ret. Qed.

Lemma wp_moved_snapshot pk (Q : LifecycleState -> Pager -> Prop) e s st :
  Q (ms_lifecycle st) (moved s st) -> wp pk (lift snapshot) Q e (moved s st).
Proof. intros HQ. apply wp_lift. by eapply wp_snapshot. Qed.

Section service.
Context (root : Z) (e : Env) (s : Pager) (Hok : pager_ok root e s).

(** Every refusal: the memory system has reached [st'], the rest is as before. *)
Lemma refuse_spec reason st' :
  paging_ok root st' -> (forall va, translate (ms_mem st') root va = translate (pager_memory s) root va) ->
  wp False (refuse reason) (fault_answer root e s) e (moved s st').
Proof. intros Hst Ht. apply wp_refuse. intros c. destruct Hok. by split; split. Qed.

Lemma bring_page_in_spec :
  domain (ms_lifecycle (memsys (pg_kernel s))) = MemoryDomain.contained -> g_page_fault_count s = 0 ->
  wp False bring_page_in (fault_answer root e s) e s.
Proof.
  intros Hdom Hcount. pose proof Hok as [Hm Hsp Hh]. rewrite <- (moved_id s) at 2. unfold bring_page_in.
  destruct (allocate_page (memsys (pg_kernel s))) as [al st1] eqn:Ea. apply wp_bind. eapply wp_moved_kmem; [exact Ea|].
  pose proof (confined_change root _ st1 al Hm Ea (ms_mem st1)) as Hc. destruct (allocated_kept root _ st1 al Hm Ea) as [[El Hby] _].
  assert (st1 <| ms_mem := ms_mem st1 |> = st1) as E1 by (by destruct st1). rewrite E1 in Hc. destruct Hc as (P1&A1&T1); [by apply Hby, Hm|done|by right|].
  apply wp_bind, wp_moved_backing. destruct (_ || _) eqn:Eg; [by apply refuse_spec|].
  apply orb_false_iff in Eg as [[_ Hal]%orb_false_iff Hb]. apply bool_decide_eq_false, dec_stable in Hal, Hb.
  destruct (read_page 0 (physical_address al) st1) as [read st2] eqn:Er. apply wp_bind. eapply wp_moved_kmem; [exact Er|].
  destruct (read_in root _ st1 al Hm Ea read st2 Hdom Hal Hb Er) as (P2&A2&L2&T2&R2).
  destruct read; cbn [negb]; [|by apply refuse_spec]. destruct (R2 eq_refl) as (i&Hi&Hsz&Hcopy).
  apply wp_bind, wp_gets. change (g_address_space (moved s st2)) with (g_address_space s). rewrite Hsp.
  destruct (map_page_4k (mkAddressSpace root) M00_07_03_PAGEABLE_VA (physical_address al) kPageFlags st2) as [ok st3] eqn:E3.
  apply wp_bind. eapply wp_moved_kmem; [exact E3|].
  destruct (allocate_page_facts _ al st1 (po_pm _ _ Hm) Ea) as [_ Hf]. rewrite decide_False in Hf by (by rewrite Hal).
  destruct Hf as (_&_&(r&Hr1&Hr2&Hr3)&Hho&Hfresh&_).
  pose proof (proj1 (Forall_forall _ _) (pt_phys _ _ (po_pt _ _ Hm)) r Hr1) as Htop. cbn beta in Htop.
  apply (install root _ st2 st3 (physical_address al) ok Hm P2 A2) in E3 as (P3&S3&T3).
  - destruct ok; cbn [negb]; [|apply refuse_spec; [done|]; intros va; rewrite T3 by (by left); apply T2].
    apply wp_bind, wp_modify, wp_bind, wp_lift_print; [by vm_compute|]. intros c. apply wp_ret.
    destruct (S3 eq_refl) as [Hn Hnew]. split; [by split|]. split; [done|]. split; [by cbn; rewrite Hcount|].
    split; [by rewrite <- T2|]. split; [intros va Hva; etrans; [by apply T3; right|apply T2]|].
    exists (physical_address al), i. rewrite El in Hb. split_and!; [done..|]. intros off Hoff.
    destruct (Hnew off Hoff) as [H1 H2]. split_and!; [apply Hfresh; lia|done|]. etrans; [exact H2|by apply Hcopy].
  - intros x Hx. split; [by apply Hfresh|]. unfold handed_out. rewrite L2. apply Hho. by right.
  - pose proof (pi_wf _ (po_pm _ _ Hm)) as Hwf. pose proof (proj1 (Forall_forall _ _) Hwf r Hr1) as [].
    unfold kPageSize in *. lia.
Qed.

Lemma page_fault_spec frame_address frame :
  wp False (service_instruction_page_fault frame_address frame) (fault_answer root e s) e s.
Proof.
  pose proof Hok as [Hm _ Hh].
  assert (forall reason, wp False (refuse reason) (fault_answer root e s) e s) as Hrefuse.
  { intros reason. rewrite <- (moved_id s) at 2. by apply refuse_spec. }
  unfold service_instruction_page_fault. destruct (negb _); [by apply wp_ret|].
  destruct Hh as [h Hh]. apply wp_bind. eapply wp_trusted; [exact Hh|]. set (trusted := _ && _). clearbody trusted. apply wp_bind, wp_gets.
  destruct (negb trusted || _ || _ || _) eqn:Ec; [apply Hrefuse|].
  apply orb_false_iff in Ec as [_ Hcount%negb_false_iff%Z.eqb_eq].
  apply wp_bind, wp_lift. eapply wp_snapshot; [done|].
  assert (s <| pg_kernel := pg_kernel s |> = s) as -> by (by destruct s).
  destruct (_ || _) eqn:El; [apply Hrefuse|]. apply orb_false_iff in El as [[Hdom _]%orb_false_iff _].
  apply bool_decide_eq_false, dec_stable in Hdom. by apply bring_page_in_spec.
Qed.
End service.

(** A first fault from a trusted frame is served when there is a page for it,
    the image has it and the tables take it. *)
Lemma service_succeeds e s h frame_address frame al st2 :
  let L := ms_lifecycle (memsys (pg_kernel s)) in
  is_exception_code (fr_mcause frame) ExceptionCode.instruction_page_fault = true ->
  fr_mtval frame = M00_07_03_PAGEABLE_VA -> fr_mepc frame = M00_07_03_PAGEABLE_VA -> g_page_fault_count s = 0 ->
  harts (pg_kernel s) !! e_hart e = Some h ->
  (Z.land (fr_mstatus frame) kMstatusMppMask =? kMstatusMppSupervisor) &&
     ((trap_active h =? 1) && (frame_address mod TRAP_FRAME_ALIGNMENT =? 0) && (trap_stack_bottom h <=? frame_address)
      && (u64 (frame_address + TRAP_FRAME_SIZE) <=? trap_stack_top h)) = true ->
  domain L = MemoryDomain.contained -> ddr L = DdrState.offline -> ddr_allocation_enabled L = false ->
  (allocate_page (memsys (pg_kernel s))).1 = al -> allocation_valid al = true -> backing al = BackingKind.contained ->
  let st1 := (allocate_page (memsys (pg_kernel s))).2 in
  backing_for (ms_lifecycle st1) (physical_address al) = BackingKind.contained ->
  read_page 0 (physical_address al) st1 = (true, st2) ->
  (map_page_4k (g_address_space s) M00_07_03_PAGEABLE_VA (physical_address al) kPageFlags st2).1 = true ->
  wp False (service_instruction_page_fault frame_address frame) (fun ok _ => ok = true) e s.
Proof.
  intros L Hc Hv Hp Hn Hh Ht Hd Hx Ha Eal Hval Hb st1 Hbf Er Em. rewrite <- (moved_id s).
  destruct (allocate_page (memsys (pg_kernel s))) as [al' st1'] eqn:Ea. cbn [fst snd] in Eal, st1. subst al'. unfold st1 in *.
  destruct (map_page_4k (g_address_space s) M00_07_03_PAGEABLE_VA (physical_address al) kPageFlags st2) as [ok st3] eqn:E3. cbn [fst] in Em. subst ok.
  unfold service_instruction_page_fault.
  rewrite Hc. cbn [negb]. apply wp_bind. eapply wp_trusted; [exact Hh|]. rewrite Ht. apply wp_bind, wp_gets.
  change (g_page_fault_count (moved s _)) with (g_page_fault_count s). rewrite Hv, Hp, Hn. cbn [negb orb Z.eqb]. rewrite Z.eqb_refl. cbn [negb orb].
  apply wp_bind, wp_moved_snapshot. fold L. rewrite Ha, !bool_decide_false by naive_solver. cbn [orb].
  unfold bring_page_in. apply wp_bind. eapply wp_moved_kmem; [exact Ea|]. apply wp_bind, wp_moved_backing.
  rewrite Hval, !bool_decide_false by naive_solver. cbn [negb orb].
  apply wp_bind. eapply wp_moved_kmem; [exact Er|]. cbn [negb]. apply wp_bind, wp_gets.
  apply wp_bind. eapply wp_moved_kmem; [exact E3|]. cbn [negb]. apply wp_bind, wp_modify, wp_bind, wp_lift_print; [by vm_compute|].
  intros c. by apply wp_ret.
Qed.

(** What [read_page] does, as one assignment. *)
Definition image_at (page : Z) (i : PartitionInfo) (m : Mem) : Mem := fun x =>
  if (page <=? x) && (x <? page + 4096) then m (flash_address i + (x - page)) else m x.

Lemma read_page_value st page i :
  mem_bytes (ms_mem st) -> is_u64 page ->
  page + 4096 <= JIXIA_QEMU_PFLASH_BASE \/ JIXIA_QEMU_PFLASH_BASE + JIXIA_QEMU_PFLASH_SIZE <= page ->
  find_partition (ms_mem st) (Some kExtendedPartition) true = Some i -> page mod 4096 = 0 -> 4096 <= actual_size i ->
  read_page 0 page st = (true, st <| ms_mem := image_at page i (ms_mem st) |>).
Proof.
  intros Hm Hp Hd Hf Hal Hsz. unfold read_page.
  assert (forall a, (read_extended_page 0 page (ms_mem st)).1 = true /\
    (read_extended_page 0 page (ms_mem st)).2 a = image_at page i (ms_mem st) a) as H.
  { intros a. destruct (read_extended_page_spec (ms_mem st) 0 page i a) as [H1 H2]; [done|word_lia|done|done|done|].
    rewrite Hal, (proj2 (Z.leb_le (0 * 4096 + 4096) _)) in H1, H2 by lia. split; [done|]. rewrite H2. unfold image_at. by rewrite Z.add_0_r. }
  destruct (read_extended_page 0 page _) as [ok m']. cbn [fst snd] in H. destruct (H 0) as [-> _].
  assert (m' = image_at page i (ms_mem st)) as -> by (apply functional_extensionality; intros a; apply H). done.
Qed.

(** *** The program establishes what the handler relies on *)

(** The address space it enters the supervisor code with: the contained window
    mapped to itself, nothing else mapped. *)
Definition space_armed (e : Env) (s : Pager) (satp : Z) (s' : Pager) : Prop :=
  let root := root_physical_address (g_address_space s') in
  let L := ms_lifecycle (memsys (pg_kernel s)) in
  pager_ok root e s' /\ satp = satp_value (g_address_space s') /\ g_page_fault_count s' = g_page_fault_count s /\
  (forall x, 0 <= x < pr_size (contained L) ->
     translate (pager_memory s') root (pr_base (contained L) + x) = Some (pr_base (contained L) + x, Z.lor kResidentFlags PteFlag.valid)) /\
  (forall va, ~ (pr_base (contained L) <= va < pr_base (contained L) + pr_size (contained L)) ->
     translate (pager_memory s') root va = None).

Lemma wp_fail_probe {A} (line : string) (Q : A -> Pager -> Prop) e s :
  fits (wanted (S (length (marker line))) (marker line)) [] = true -> wp True (fail_probe line) Q e s.
Proof. intros Hf. unfold fail_probe. apply wp_bind, wp_lift_print; [done|]. intros c. by apply wp_park. Qed.

Lemma run_pre_ddr_paging_spec text_start e s :
  let L := ms_lifecycle (memsys (pg_kernel s)) in
  mem_bytes (pager_memory s) -> is_Some (harts (pg_kernel s) !! e_hart e) ->
  JIXIA_QEMU_PFLASH_BASE + JIXIA_QEMU_PFLASH_SIZE <= pr_base (contained L) ->
  0 <= pr_size (contained L) -> pr_base (contained L) + pr_size (contained L) <= 2 ^ 38 ->
  0 <= pool_start_sym (e_syms e) -> pool_end_sym (e_syms e) <= 2 ^ 56 ->
  wp True (run_pre_ddr_paging text_start) (space_armed e s) e s.
Proof.
  intros L Hby Hh Hfl Hsz Htop Hps Hpe. rewrite <- (moved_id s) at 2. unfold run_pre_ddr_paging.
  apply wp_bind, wp_moved_snapshot. destruct (negb _); [by apply wp_fail_probe|].
  apply wp_bind, (wp_moved_kmem _ _ tt (reset (memsys (pg_kernel s)))); [done|].
  apply wp_bind, wp_ask, wp_bind.
  destruct (add_contained_bootstrap_pool (pool_start_sym (e_syms e)) (pool_end_sym (e_syms e)) (reset (memsys (pg_kernel s)))) as [ok st1] eqn:E1.
  eapply wp_moved_kmem; [exact E1|]. destruct ok; cbn [negb]; [|by apply wp_fail_probe].
  unfold add_contained_bootstrap_pool in E1. destruct (Z.leb_spec (pool_end_sym (e_syms e)) (pool_start_sym (e_syms e))); [done|].
  rewrite u64_small in E1 by (unfold is_u64; lia).
  apply add_range_spec in E1 as (_&Hpm1&Hl1&El1&Em1); [|apply reset_inv|done|unfold is_u64; lia].
  assert (Forall (fun r => mr_end r <= 2 ^ 56) (live_ranges st1)) as Hphys.
  { rewrite Hl1. apply Forall_app. split; [by destruct (memsys (pg_kernel s))|]. apply Forall_singleton. simpl. lia. }
  apply wp_bind. destruct (create_address_space st1) as [space st2] eqn:E2. eapply wp_moved_kmem; [exact E2|].
  apply wp_bind, wp_modify. destruct (as_valid space) eqn:Hv; cbn [negb]; [|by apply wp_fail_probe].
  destruct (create_address_space_inv st1 space st2 Hpm1 Hphys E2 Hv) as (Hpm2&Hpt2&Hw2&_).
  assert (keeps st1 st2) as [El2 Hby2].
  { unfold create_address_space in E2. pose proof (keeps_allocate st1 Hpm1) as [Hk _].
    destruct (allocate_page st1) as [al st1']. cbn [snd] in Hk. by destruct (negb _); injection E2 as _ <-. }
  assert (ms_lifecycle st2 = L) as EL by (rewrite El2, El1; by destruct (memsys (pg_kernel s))).
  set (s2 := s <| g_address_space := space |>). change (<| g_address_space := space |> (moved s st2)) with (moved s2 st2).
  apply wp_bind, wp_moved_snapshot. rewrite EL. apply wp_bind.
  destruct (map_range_4k space (pr_base (contained L)) (pr_base (contained L)) (pr_size (contained L)) kResidentFlags st2) as [ok st3] eqn:E3.
  eapply wp_moved_kmem; [exact E3|]. destruct ok; cbn [negb]; [|by apply wp_fail_probe].
  pose proof (keeps_map_range space (pr_base (contained L)) (pr_base (contained L)) (pr_size (contained L)) kResidentFlags st2 Hpm2) as [El3 Hby3].
  rewrite E3 in El3, Hby3. cbn [snd] in El3, Hby3. destruct space as [root]. cbn [root_physical_address] in *.
  unfold JIXIA_QEMU_PFLASH_BASE, JIXIA_QEMU_PFLASH_SIZE in Hfl.
  apply map_range_spec in E3 as (Hs3&Hin&Hout&_); [|done|done|lia|lia|done|done|lia|by vm_compute|by vm_compute].
  apply wp_bind, wp_lift, wp_gets.
  destruct (image_info _ true) as [image|]; [|by apply wp_fail_probe]. destruct (_ <? _); [by apply wp_fail_probe|].
  apply wp_bind, wp_lift_print; [by vm_compute|]. intros c. apply wp_ret.
  split; [split; [split; [apply Hs3|apply Hs3| |]|done|done]|].
  - change (mem_bytes (ms_mem st3)). apply Hby3, Hby2. rewrite Em1. by destruct (memsys (pg_kernel s)).
  - change (JIXIA_QEMU_PFLASH_BASE + JIXIA_QEMU_PFLASH_SIZE <= pr_base (contained (ms_lifecycle st3))). rewrite El3, EL. done.
  - split_and!; [done|done|intros x Hx; by apply (Hin eq_refl)|]. intros va Hva. etrans; [by apply Hout|].
    unfold translate. case_match; auto.
Qed.


(** A supervisor that faults on the pageable address, on a hart with its trap
    stack in use. *)
Definition demo_paging : MemSys := (create_address_space
  (add_range (2 ^ 31) (8 * kPageSize) BackingKind.contained
     (reset (mkMemSys (initialize_contained (2 ^ 31) initial_state) [] 0 demo_flash))).2).2.
Definition demo_pager : Pager :=
  mkPager (demo <| memsys := demo_paging |>
             <| harts := alter (fun h => h <| trap_active := 1 |> <| trap_stack_bottom := 0x80400000 |> <| trap_stack_top := 0x80401000 |>) 0%nat (harts demo) |>)
    (mkAddressSpace (2 ^ 31)) 0.
Definition demo_fault : TrapFrame :=
  mkFrame (replicate 32 0) kMstatusMppSupervisor M00_07_03_PAGEABLE_VA (ExceptionCode.code ExceptionCode.instruction_page_fault)
    M00_07_03_PAGEABLE_VA.

Lemma demo_paging_ok : paging_ok (2 ^ 31) demo_paging.
Proof.
  unfold demo_paging. destruct (add_range _ _ _ _) as [b st1] eqn:E1. cbn [snd].
  assert (b = true) as -> by (apply (f_equal fst) in E1; vm_compute in E1; congruence).
  assert (ms_lifecycle st1 = initialize_contained (2 ^ 31) initial_state /\ ms_mem st1 = demo_flash /\
    Forall (fun r => mr_end r <= 2 ^ 56) (live_ranges st1) /\ pm_inv st1) as (EL&Em&Hphys&Hpm).
  { apply add_range_spec in E1 as (_&Hpm&Hl&EL&Em); [|apply reset_inv|lia|vm_compute; split; congruence].
    split_and!; [done|done|rewrite Hl; repeat constructor; vm_compute; congruence|done]. }
  destruct (create_address_space st1) as [a st2] eqn:E2. cbn [snd].
  assert (a = mkAddressSpace (2 ^ 31)) as ->.
  { apply (f_equal fst) in E2. cbn [fst] in E2. rewrite <- E2. apply (f_equal snd) in E1. cbn [snd] in E1. rewrite <- E1. by vm_compute. }
  destruct (create_address_space_inv st1 _ st2 Hpm Hphys E2 eq_refl) as (Hpm2&Hpt2&_&_).
  unfold create_address_space in E2. pose proof (keeps_allocate st1 Hpm) as [[El Hby] _].
  destruct (allocate_page st1) as [al st1']. cbn [snd] in *. assert (st2 = st1') as -> by (by destruct (negb _); injection E2 as _ <-).
  split; [done|done|apply Hby; rewrite Em; apply demo_flash_bytes|rewrite El, EL; vm_compute; congruence].
Qed.

(** The page the demo fault gets. *)
Definition demo_page : Z := 2 ^ 31 + kPageSize.
Definition demo_partition : PartitionInfo := mkPartition 98304 (0x20000000 + 98304) 16384 8192 1 0x8000 0 0x40.

Lemma demo_read_page :
  read_page 0 demo_page (allocate_page demo_paging).2 =
    (true, (allocate_page demo_paging).2 <| ms_mem := image_at demo_page demo_partition (ms_mem (allocate_page demo_paging).2) |>).
Proof.
  destruct (keeps_allocate demo_paging (po_pm _ _ demo_paging_ok)) as [[_ Hby] _].
  apply read_page_value; [by apply Hby, demo_paging_ok|vm_compute; split; congruence|right; vm_compute; congruence|vm_compute; reflexivity..|vm_compute; congruence].
Qed.

Example demo_serviced :
  wp False (service_instruction_page_fault 0x80400020 demo_fault) (fun ok _ => ok = true) (demo_env 0) demo_pager.
Proof.
  eapply (service_succeeds _ _ _ _ _ (mkAllocation demo_page BackingKind.contained));
    [vm_compute; reflexivity..|exact demo_read_page|vm_compute; reflexivity].
Qed.

