(* ===== verification/SelfTests.v ===== *)
(** * The firmware's self tests

    Models the checks the firmware makes of itself on the target:
    [core/kernel_print_test.cpp] (the formatter and the log),
    [core/trap_frame_test.cpp] (the verdict on a saved frame), and the two
    validators of supervisor calls, [try_handle_supervisor_ecall] of
    [core/trap.cpp] (M00-06.03) and [core/privilege_boundary_test.cpp]
    (M00-06.04).  The assembly that raises the traps is not modelled; a final
    [wfi] loop is the return of the model. *)
From stdpp Require Import base tactics sets functions list gmap strings.
From Stdlib Require Import ZArith Lia Ascii.
From S2P Require Import Prelude Memory Format Console KernelTypes KernelInv Demo RunQueue DelayQueue Scheduler TaskContext TimeManager Ipc TaskManager Arch Syscall SyscallProps Transition Paging.
Local Open Scope Z_scope.

(** ** kernel_print_test.cpp *)

(** The loop of [buffer_matches]: [expected] from [index] on. *)
Fixpoint matches_from (c : Console) (offset : Z) (index : nat) (expected : list ascii) : bool :=
  match expected with
  | [] => true
  | ch :: rest =>
      if console_size c <=? u64 (offset + Z.of_nat index) then false
      else if bool_decide (kernel_log_buffer c (offset + Z.of_nat index) <> ch) then false
      else matches_from c offset (S index) rest
  end.

Definition buffer_matches (c : Console) (offset : Z) (expected : list ascii) : bool := matches_from c offset 0 expected.

(** The loop after the message stops the hart. *)
Definition print_fail {A} (reason : string) : K A :=
  kprintk (marker "KERNEL_PRINT_TEST: FAIL (%s)") [AText (Some (text reason))];; park.

Definition probe_format : list ascii := marker "probe      : s=%s d=%d u=%u x=%08x p=%p %%".
Definition probe_args : list arg := [AText (Some (text "ok")); AWord (u64 (-42)); AWord 42; AWord 0x1A2B; AWord 0x1234].
Definition probe_expected : list ascii := marker "probe      : s=ok d=-42 u=42 x=00001a2b p=0x0000000000001234 %".
Definition capacity_format : list ascii :=
  marker "buffer     : append-only kernel log retained exact probe" ++ marker "capacity   : %zu bytes" ++ marker "KERNEL_PRINT_TEST: PASS".

Definition kernel_print_run : K unit :=
  kprintk (newline :: marker "[Jixia][Test][KernelPrint]") [];;
  c0 ← gets console;
  let probe_offset := console_size c0 in
  kprintk probe_format probe_args;;
  c1 ← gets console;
  if negb (buffer_matches c1 probe_offset probe_expected) then print_fail "buffer mismatch"
  else if console_truncated c1 then print_fail "unexpected truncation"
  else kprintk capacity_format [AWord buffer_capacity].

(** ** trap_frame_test.cpp *)

Definition fixed_gprs : list (Z * Z) :=
  [(1, 0x0101010101010101); (5, 0x0505050505050505); (6, 0x0606060606060606); (7, 0x0707070707070707);
   (8, 0x0808080808080808); (9, 0x0909090909090909); (10, 0x0a0a0a0a0a0a0a0a); (11, 0x0b0b0b0b0b0b0b0b);
   (12, 0x0c0c0c0c0c0c0c0c); (13, 0x0d0d0d0d0d0d0d0d); (14, 0x0e0e0e0e0e0e0e0e); (15, 0x0f0f0f0f0f0f0f0f);
   (16, 0x1010101010101010); (17, 0x1111111111111111); (18, 0x1212121212121212); (19, 0x1313131313131313);
   (20, 0x1414141414141414); (21, 0x1515151515151515); (22, 0x1616161616161616); (23, 0x1717171717171717);
   (24, 0x1818181818181818); (25, 0x1919191919191919); (26, 0x1a1a1a1a1a1a1a1a); (27, 0x1b1b1b1b1b1b1b1b);
   (28, 0x1c1c1c1c1c1c1c1c); (29, 0x1d1d1d1d1d1d1d1d); (30, 0x1e1e1e1e1e1e1e1e); (31, 0x1f1f1f1f1f1f1f1f)].

Definition check_value (field : string) (expected actual : Z) : K bool :=
  if expected =? actual then mret true
  else kprintk (marker "mismatch  : %s" ++ marker "expected  : %p" ++ marker "actual    : %p")
         [AText (Some (text field)); AWord expected; AWord actual];; mret false.

Definition check_gpr (index expected actual : Z) : K bool :=
  if expected =? actual then mret true
  else kprintk (marker "gpr index : %lu" ++ marker "expected  : %p" ++ marker "actual    : %p")
         [AWord index; AWord expected; AWord actual];; mret false.

(** [passed &= check_..] for a list of checks. *)
Fixpoint run_checks (passed : bool) (checks : list (K bool)) : K bool :=
  match checks with
  | [] => mret passed
  | check :: rest => ok ← check; run_checks (passed && ok) rest
  end.

(** The three registers [trap_frame_test.S] saves before the trap. *)
Record ExpectedRegisters := mkExpected { expected_sp : Z; expected_gp : Z; expected_tp : Z }.

Definition frame_on_trap_stack (local : HartLocal) (frame_address : Z) : bool :=
  (trap_stack_bottom local <=? frame_address) && (u64 (frame_address + TRAP_FRAME_SIZE) <=? trap_stack_top local).

Definition frame_checks (x : ExpectedRegisters) (local : HartLocal) (frame_address : Z) (frame : TrapFrame) : list (K bool) :=
  let reg i := nth i (fr_x frame) 0 in
  [check_value "frame alignment" 0 (frame_address mod TRAP_FRAME_ALIGNMENT);
   check_value "trusted trap stack" 1 (if frame_on_trap_stack local frame_address then 1 else 0);
   check_value "trap active" 1 (trap_active local);
   check_value "x0" 0 (reg 0%nat);
   check_value "saved sp" (expected_sp x) (reg 2%nat);
   check_value "saved gp" (expected_gp x) (reg 3%nat);
   check_value "saved tp" (expected_tp x) (reg 4%nat)]
  ++ map (fun g => check_gpr g.1 g.2 (reg (Z.to_nat g.1))) fixed_gprs
  ++ [check_value "trap kind" 1 (if is_interrupt (fr_mcause frame) then 0 else 1);
      check_value "mcause code" (ExceptionCode.code ExceptionCode.breakpoint) (cause_code (fr_mcause frame));
      check_value "mtval" 0 (fr_mtval frame)].

(** [finish]; the result is [passed]. *)
Definition trap_frame_finish (x : ExpectedRegisters) (frame_address : Z) (frame : TrapFrame) : K bool :=
  local ← current;
  kprintk (newline :: marker "[Jixia][Test][TrapFrame]") [];;
  passed ← run_checks true (frame_checks x local frame_address frame);
  kprintk (text "%s") [AText (Some (if passed : bool then marker "TRAP_FRAME_TEST: PASS" else marker "TRAP_FRAME_TEST: FAIL"))];;
  mret passed.

(** ** Supervisor calls *)

Definition kEcallBytes : Z := 4.

(** [try_handle_supervisor_ecall] of the M00-06.03 build; the linker's symbols
    are the address of the call and the bounds of the supervisor stack. *)
Definition try_handle_supervisor_ecall (ecall_site stack_bottom stack_top frame_address : Z) (frame : TrapFrame) : K (option TrapFrame) :=
  let reg i := nth i (fr_x frame) 0 in
  if negb (is_exception_code (fr_mcause frame) ExceptionCode.environment_call_from_s) then mret None
  else if negb (fr_mepc frame =? ecall_site) then mret None
  else if negb (Z.land (fr_mstatus frame) kMstatusMppMask =? kMstatusMppSupervisor) then mret None
  else if negb (reg 3%nat =? 0x3333333333333333) || negb (reg 10%nat =? 0xaaaaaaaaaaaaaaaa) || negb (reg 17%nat =? 0x7777777777777777)
  then mret None
  else if (reg 2%nat <? stack_bottom) || (stack_top <? reg 2%nat) then mret None
  else
    local ← current;
    if negb (frame_address mod TRAP_FRAME_ALIGNMENT =? 0) then mret None
    else if negb (frame_on_trap_stack local frame_address) then mret None
    else if negb (trap_active local =? 1) then mret None
    else mret (Some (frame <| fr_mepc := u64 (fr_mepc frame + kEcallBytes) |>)).

(** [jixia_m00_06_04_try_handle_supervisor_ecall]; [None] is the null frame, the
    result has the frame and the new [mscratch]. *)
Definition try_handle_boundary_ecall (ecall_site : Z) (trap : option (Z * TrapFrame)) : K (option (TrapFrame * Z)) :=
  match trap with
  | None => mret None
  | Some (frame_address, frame) =>
      let reg i := nth i (fr_x frame) 0 in
      if negb (is_exception_code (fr_mcause frame) ExceptionCode.environment_call_from_s) then mret None
      else if negb (fr_mepc frame =? ecall_site) then mret None
      else if negb (Z.land (fr_mstatus frame) kMstatusMppMask =? kMstatusMppSupervisor) then mret None
      else if negb (reg 2%nat =? 0xdeadbeefdeadbeef) || negb (reg 3%nat =? 0x4444444444444444)
              || negb (reg 10%nat =? 0xbbbbbbbbbbbbbbbb) || negb (reg 17%nat =? 0x8888888888888888)
      then mret None
      else
        h ← current_hart; local ← get_hart h;
        if negb (frame_address mod TRAP_FRAME_ALIGNMENT =? 0) then mret None
        else if negb (frame_on_trap_stack local frame_address) then mret None
        else if negb (trap_active local =? 1) then mret None
        else
          mod_hart h (<| trap_active := 0 |>);;
          mret (Some (frame <| fr_mepc := u64 (fr_mepc frame + kEcallBytes) |>, 0))
  end.

(** ** Lemmas *)

(** The text a format gives, as any sink receives it. *)
Definition rendered (format : list ascii) (args : list arg) : list ascii :=
  match vformat (fun (t : list ascii) ch => t ++ [ch]) (Some format) args [] with Done _ t => t | _ => [] end.

Lemma foldl_snoc (t0 t : list ascii) : foldl (fun (t : list ascii) ch => t ++ [ch]) t0 t = t0 ++ t.
Proof. revert t0. induction t as [|ch t IH]; intros t0; simpl; [by rewrite app_nil_r|]. rewrite IH, <- app_assoc. done. Qed.

Lemma kprintk_renders format args t (Q : unit -> KState -> Prop) e s :
  fits (wanted (S (length format)) format) args = true -> console_shows t (console s) ->
  (forall c, console_shows (t ++ rendered format args) c -> Q tt (s <| console := c |>)) -> wp False (kprintk format args) Q e s.
Proof.
  intros Hf Hs HQ. destruct (vformat_loop_out (S (length format)) format args) as [u Hu]; [lia|done|].
  assert (forall W (put : W -> ascii -> W) w, vformat put (Some format) args w = Done (u64 (Z.of_nat (length u))) (foldl put w u)) as Hv.
  { intros W put w. unfold vformat. rewrite Hu by (split; simpl; lia). done. }
  assert (rendered format args = u) as Er by (unfold rendered; by rewrite Hv, foldl_snoc).
  unfold wp, kprintk, printk. rewrite Hv. apply HQ. rewrite Er. by apply console_puts_shows.
Qed.

Lemma matches_from_shows c t u v index :
  console_shows (t ++ u ++ v) c -> Z.of_nat (length (t ++ u ++ v)) <= buffer_capacity ->
  (index <= length u)%nat -> matches_from c (Z.of_nat (length t)) index (drop index u) = true.
Proof.
  intros Hc Hlen. remember (length u - index)%nat as k eqn:Ek. revert index Ek.
  induction k as [|k IH]; intros index Ek Hi; [by rewrite drop_ge by lia|].
  destruct (lookup_lt_is_Some_2 u index) as [ch Hch]; [lia|]. rewrite (drop_S u ch index Hch). cbn [matches_from].
  pose proof (cs_position _ _ Hc) as Hp. rewrite !length_app in *. unfold buffer_capacity in *.
  rewrite u64_small by (unfold is_u64; lia). unfold console_size. rewrite (proj2 (Z.leb_gt _ _)) by lia.
  rewrite bool_decide_false; [apply IH; lia|]. intros Hne. apply Hne.
  replace (Z.of_nat (length t) + Z.of_nat index) with (Z.of_nat (length t + index)) by lia.
  rewrite (cs_buffer _ _ Hc) by lia. rewrite app_nth2 by lia. replace (length t + index - length t)%nat with index by lia.
  rewrite app_nth1 by lia. by apply nth_lookup_Some.
Qed.

(** What the print test leaves in the log. *)
Definition print_test_log : list ascii :=
  (newline :: marker "[Jixia][Test][KernelPrint]") ++ probe_expected
  ++ marker "buffer     : append-only kernel log retained exact probe" ++ marker "capacity   : 36864 bytes" ++ marker "KERNEL_PRINT_TEST: PASS".

Lemma kernel_print_spec t (Q : unit -> KState -> Prop) e s :
  console_shows t (console s) -> Z.of_nat (length (t ++ print_test_log)) <= buffer_capacity ->
  (forall c, console_shows (t ++ print_test_log) c -> Q tt (s <| console := c |>)) -> wp False kernel_print_run Q e s.
Proof.
  intros Hs Hroom HQ. rewrite length_app in Hroom. assert (length print_test_log = 197%nat) as El by (by vm_compute). rewrite El in Hroom.
  unfold kernel_print_run. set (head := newline :: marker "[Jixia][Test][KernelPrint]").
  assert (rendered head [] = head /\ length head = 28%nat) as [E1 L1] by (split; by vm_compute).
  assert (rendered probe_format probe_args = probe_expected /\ length probe_expected = 63%nat) as [E2 L2] by (split; by vm_compute).
  apply wp_bind, (kprintk_renders _ _ t); [by vm_compute|done|]. rewrite E1. intros c0 Hc0. apply wp_bind, wp_gets.
  apply wp_bind, (kprintk_renders _ _ (t ++ head)); [by vm_compute|done|]. rewrite E2. intros c1 Hc1. apply wp_bind, wp_gets.
  change (console (s <| console := c0 |>)) with c0. change (console (s <| console := c0 |> <| console := c1 |>)) with c1.
  assert (Z.of_nat (length ((t ++ head) ++ probe_expected)) <= buffer_capacity) as Hfit by (rewrite !length_app, L1, L2; lia).
  assert (console_size c0 = Z.of_nat (length (t ++ head))) as ->.
  { unfold console_size. rewrite (cs_position _ _ Hc0). rewrite length_app in *. lia. }
  assert (buffer_matches c1 (Z.of_nat (length (t ++ head))) probe_expected = true) as ->.
  { apply (matches_from_shows c1 (t ++ head) probe_expected [] 0); rewrite ?app_nil_r; [exact Hc1|exact Hfit|apply Nat.le_0_l]. }
  cbn [negb].
  unfold console_truncated. rewrite (cs_truncated _ _ Hc1), (proj2 (Z.ltb_ge _ _)) by done.
  apply (kprintk_renders _ _ ((t ++ head) ++ probe_expected)); [by vm_compute|done|]. intros c2 Hc2. apply (HQ c2).
  unfold print_test_log. rewrite <- !app_assoc in Hc2. exact Hc2.
Qed.

(** *** The verdict on a frame *)

(** [c] is a check of [b]: it returns [b] and at most prints. *)
Definition checks_for (c : K bool) (b : bool) : Prop :=
  forall (Q : bool -> KState -> Prop) e s, (forall k, Q b (s <| console := k |>)) -> wp False c Q e s.

Lemma run_checks_spec cs bs passed (Q : bool -> KState -> Prop) e s :
  Forall2 checks_for cs bs -> (forall k, Q (passed && forallb id bs) (s <| console := k |>)) -> wp False (run_checks passed cs) Q e s.
Proof.
  intros H. revert passed s. induction H as [|c b cs bs Hc H IH]; intros passed s HQ; cbn [run_checks forallb].
  - apply wp_ret. rewrite andb_true_r in HQ. specialize (HQ (console s)). by destruct s.
  - apply wp_bind, Hc. intros k. apply IH. intros k'. cbn [forallb] in HQ. rewrite andb_assoc in HQ. apply (HQ k').
Qed.

Lemma check_value_for field expected actual : checks_for (check_value field expected actual) (expected =? actual).
Proof.
  intros Q e s HQ. unfold check_value. destruct (_ =? _); [apply wp_ret; specialize (HQ (console s)); by destruct s|].
  apply wp_bind, kprintk_spec; [by vm_compute|]. intros c. apply wp_ret, HQ.
Qed.
Lemma check_gpr_for index expected actual : checks_for (check_gpr index expected actual) (expected =? actual).
Proof.
  intros Q e s HQ. unfold check_gpr. destruct (_ =? _); [apply wp_ret; specialize (HQ (console s)); by destruct s|].
  apply wp_bind, kprintk_spec; [by vm_compute|]. intros c. apply wp_ret, HQ.
Qed.

(** The frame the test's trap must have been saved to. *)
Record frame_as_expected (x : ExpectedRegisters) (local : HartLocal) (frame_address : Z) (frame : TrapFrame) : Prop := {
  fe_aligned : frame_address mod TRAP_FRAME_ALIGNMENT = 0;
  fe_stack : trap_stack_bottom local <= frame_address /\ u64 (frame_address + TRAP_FRAME_SIZE) <= trap_stack_top local;
  fe_active : trap_active local = 1;
  fe_live : nth 0 (fr_x frame) 0 = 0 /\ nth 2 (fr_x frame) 0 = expected_sp x /\ nth 3 (fr_x frame) 0 = expected_gp x /\
            nth 4 (fr_x frame) 0 = expected_tp x;
  fe_fixed : forall i v, (i, v) ∈ fixed_gprs -> nth (Z.to_nat i) (fr_x frame) 0 = v;
  fe_cause : is_exception_code (fr_mcause frame) ExceptionCode.breakpoint = true;
  fe_mtval : fr_mtval frame = 0;
}.

Definition frame_bits (x : ExpectedRegisters) (local : HartLocal) (frame_address : Z) (frame : TrapFrame) : list bool :=
  let reg i := nth i (fr_x frame) 0 in
  [0 =? frame_address mod TRAP_FRAME_ALIGNMENT; 1 =? (if frame_on_trap_stack local frame_address then 1 else 0);
   1 =? trap_active local; 0 =? reg 0%nat; expected_sp x =? reg 2%nat; expected_gp x =? reg 3%nat; expected_tp x =? reg 4%nat]
  ++ map (fun g => g.2 =? reg (Z.to_nat g.1)) fixed_gprs
  ++ [1 =? (if is_interrupt (fr_mcause frame) then 0 else 1);
      ExceptionCode.code ExceptionCode.breakpoint =? cause_code (fr_mcause frame); 0 =? fr_mtval frame].

Lemma frame_checks_bits x local frame_address frame :
  Forall2 checks_for (frame_checks x local frame_address frame) (frame_bits x local frame_address frame).
Proof.
  unfold frame_checks, frame_bits. apply Forall2_app; [repeat constructor; apply check_value_for|].
  apply Forall2_app; [|repeat constructor; apply check_value_for].
  apply Forall2_fmap, Forall_Forall2_diag, Forall_true. intros g. apply check_gpr_for.
Qed.

Lemma frame_bits_true x local frame_address frame :
  forallb id (frame_bits x local frame_address frame) = true <-> frame_as_expected x local frame_address frame.
Proof.
  unfold frame_bits. rewrite !forallb_app, !andb_true_iff. cbn [forallb id]. rewrite !andb_true_iff, !Z.eqb_eq.
  assert (forallb id (map (fun g => g.2 =? nth (Z.to_nat g.1) (fr_x frame) 0) fixed_gprs) = true <->
    forall i v, (i, v) ∈ fixed_gprs -> nth (Z.to_nat i) (fr_x frame) 0 = v) as Hfix.
  { rewrite forallb_forall. split.
    - intros H i v Hin. symmetry. apply Z.eqb_eq. apply (H (v =? nth (Z.to_nat i) (fr_x frame) 0)).
      apply in_map_iff. exists (i, v). split; [done|]. by apply list_elem_of_In.
    - intros H b Hb. apply in_map_iff in Hb as ([i v]&<-&Hin). apply Z.eqb_eq. symmetry. apply H. by apply list_elem_of_In. }
  rewrite Hfix. clear Hfix.
  assert (forall b : bool, 1 = (if b then 1 else 0) <-> b = true) as Hb by (by intros []).
  assert (1 = (if is_interrupt (fr_mcause frame) then 0 else 1) <-> is_interrupt (fr_mcause frame) = false) as -> by (by destruct (is_interrupt _)).
  rewrite Hb. unfold frame_on_trap_stack. rewrite andb_true_iff, !Z.leb_le. split.
  - intros ((H1&H2&H3&H4&H5&H6&H7&_)&H8&H9&H10&H11&_). split; try done. unfold is_exception_code. rewrite H9, <- H10. done.
  - intros [H1 H2 H3 (H4&H5&H6&H7) H8 H9 H10]. unfold is_exception_code in H9. apply andb_true_iff in H9 as [Hi%negb_true_iff Hc%Z.eqb_eq].
    destruct H2. split_and!; try done. all: by symmetry.
Qed.

Lemma trap_frame_finish_spec x frame_address frame local (Q : bool -> KState -> Prop) e s :
  harts s !! e_hart e = Some local ->
  (forall ok k, (ok = true <-> frame_as_expected x local frame_address frame) -> Q ok (s <| console := k |>)) ->
  wp False (trap_frame_finish x frame_address frame) Q e s.
Proof.
  intros Hl HQ. unfold trap_frame_finish, current. apply wp_bind, wp_bind, wp_current_hart. eapply wp_get_hart; [exact Hl|].
  apply wp_bind, kprintk_spec; [by vm_compute|]. intros k0. apply wp_bind. eapply run_checks_spec; [apply frame_checks_bits|].
  intros k1. cbn [andb]. apply wp_bind, kprintk_spec; [by vm_compute|]. intros k2. apply wp_ret. apply (HQ _ k2), frame_bits_true.
Qed.

(** *** Supervisor calls *)

Definition transition_registers : list (nat * Z) := [(3%nat, 0x3333333333333333); (10%nat, 0xaaaaaaaaaaaaaaaa); (17%nat, 0x7777777777777777)].
Definition boundary_registers : list (nat * Z) :=
  [(2%nat, 0xdeadbeefdeadbeef); (3%nat, 0x4444444444444444); (10%nat, 0xbbbbbbbbbbbbbbbb); (17%nat, 0x8888888888888888)].

(** A call from supervisor mode at [site], with the given registers. *)
Definition expected_call (site : Z) (registers : list (nat * Z)) (frame : TrapFrame) : bool :=
  is_exception_code (fr_mcause frame) ExceptionCode.environment_call_from_s && (fr_mepc frame =? site)
  && (Z.land (fr_mstatus frame) kMstatusMppMask =? kMstatusMppSupervisor)
  && forallb (fun g => nth g.1 (fr_x frame) 0 =? g.2) registers.

(** The frame lies, aligned, on the trap stack of the hart, which is in use. *)
Definition trusted_frame (local : HartLocal) (frame_address : Z) : bool :=
  (frame_address mod TRAP_FRAME_ALIGNMENT =? 0) && frame_on_trap_stack local frame_address && (trap_active local =? 1).

Definition resumed (frame : TrapFrame) : TrapFrame := frame <| fr_mepc := u64 (fr_mepc frame + kEcallBytes) |>.

(** One test of a chain of early returns. *)
Ltac refuse_unless b := destruct b; cbn [negb andb orb] in *; [|by apply wp_ret].

Lemma supervisor_ecall_spec site bottom top frame_address frame local (Q : option TrapFrame -> KState -> Prop) e s :
  harts s !! e_hart e = Some local ->
  Q (if expected_call site transition_registers frame && (bottom <=? nth 2 (fr_x frame) 0) && (nth 2 (fr_x frame) 0 <=? top)
        && trusted_frame local frame_address then Some (resumed frame) else None) s ->
  wp False (try_handle_supervisor_ecall site bottom top frame_address frame) Q e s.
Proof.
  intros Hl HQ. unfold try_handle_supervisor_ecall, expected_call, trusted_frame in *. cbn [transition_registers forallb fst snd] in HQ.
  rewrite !Z.ltb_antisym. cbv zeta.
  refuse_unless (is_exception_code (fr_mcause frame) ExceptionCode.environment_call_from_s). refuse_unless (fr_mepc frame =? site).
  refuse_unless (Z.land (fr_mstatus frame) kMstatusMppMask =? kMstatusMppSupervisor).
  refuse_unless (nth 3 (fr_x frame) 0 =? 0x3333333333333333). refuse_unless (nth 10 (fr_x frame) 0 =? 0xaaaaaaaaaaaaaaaa).
  refuse_unless (nth 17 (fr_x frame) 0 =? 0x7777777777777777).
  refuse_unless (bottom <=? nth 2 (fr_x frame) 0). refuse_unless (nth 2 (fr_x frame) 0 <=? top).
  unfold current. apply wp_bind, wp_bind, wp_current_hart. eapply wp_get_hart; [exact Hl|].
  refuse_unless (frame_address mod TRAP_FRAME_ALIGNMENT =? 0). refuse_unless (frame_on_trap_stack local frame_address).
  refuse_unless (trap_active local =? 1). by apply wp_ret.
Qed.

Lemma boundary_ecall_spec site frame_address frame local (Q : option (TrapFrame * Z) -> KState -> Prop) e s :
  harts s !! e_hart e = Some local ->
  (if expected_call site boundary_registers frame && trusted_frame local frame_address
   then Q (Some (resumed frame, 0)) (s <| harts := alter (<| trap_active := 0 |>) (e_hart e) (harts s) |>) else Q None s) ->
  wp False (try_handle_boundary_ecall site (Some (frame_address, frame))) Q e s.
Proof.
  intros Hl HQ. unfold try_handle_boundary_ecall, expected_call, trusted_frame in *. cbn [boundary_registers forallb fst snd] in HQ. cbv zeta.
  refuse_unless (is_exception_code (fr_mcause frame) ExceptionCode.environment_call_from_s). refuse_unless (fr_mepc frame =? site).
  refuse_unless (Z.land (fr_mstatus frame) kMstatusMppMask =? kMstatusMppSupervisor).
  refuse_unless (nth 2 (fr_x frame) 0 =? 0xdeadbeefdeadbeef). refuse_unless (nth 3 (fr_x frame) 0 =? 0x4444444444444444).
  refuse_unless (nth 10 (fr_x frame) 0 =? 0xbbbbbbbbbbbbbbbb). refuse_unless (nth 17 (fr_x frame) 0 =? 0x8888888888888888).
  apply wp_bind, wp_current_hart, wp_bind. eapply wp_get_hart; [exact Hl|].
  refuse_unless (frame_address mod TRAP_FRAME_ALIGNMENT =? 0). refuse_unless (frame_on_trap_stack local frame_address).
  refuse_unless (trap_active local =? 1). apply wp_bind, wp_mod_hart; [by eexists|]. by apply wp_ret.
Qed.

Lemma wp_result {A} (m : K A) r t e s : wp False m (fun a s' => a = r /\ s' = t) e s -> m e s = Done r t.
Proof. intros (a&s'&H&->&->)%wp_done. done. Qed.

(** ** Properties *)

(** C38: The print test passes.  From any log with room for its output the test
    runs to its end: the formatted probe is in the log exactly as the test
    expects it, character for character, and nothing but the log changes. *)
Theorem kernel_print_passes t e s :
  console_shows t (console s) -> Z.of_nat (length (t ++ print_test_log)) <= buffer_capacity ->
  exists c, kernel_print_run e s = Done tt (s <| console := c |>) /\ console_shows (t ++ print_test_log) c.
Proof.
  intros Hs Hroom.
  destruct (wp_done kernel_print_run (fun _ s' => exists c, s' = s <| console := c |> /\ console_shows (t ++ print_test_log) c) e s) as ([]&s'&Hr&c&->&Hc);
    [|exists c; split; [exact Hr|exact Hc]].
  apply (kernel_print_spec t); [exact Hs|exact Hroom|]. intros c Hc. exists c. split; [reflexivity|exact Hc].
Qed.

Lemma kernel_print_passes_witness :
  exists c, kernel_print_run (demo_env 0) demo = Done tt (demo <| console := c |>) /\ console_shows ([] ++ print_test_log) c.
Proof.
  apply (kernel_print_passes [] (demo_env 0) demo); [|vm_compute; discriminate].
  exact console_new_shows.
Defined.

(** The validators of supervisor calls and of trap frames are exact.  Each
    returns without parking; a call is accepted if and only if it is the expected
    one and its frame lies on the hart's own trap stack, and then resumes after
    the [ecall]; the M00-06.04 validator also releases the trap stack and clears
    [mscratch]; a refused call changes nothing.  The frame test passes if and
    only if every register, the cause and the place of the frame are the expected
    ones. *)
Lemma trap_validators_exact site bottom top x frame_address frame local e s :
  harts s !! e_hart e = Some local ->
  try_handle_supervisor_ecall site bottom top frame_address frame e s =
    Done (if expected_call site transition_registers frame && (bottom <=? nth 2 (fr_x frame) 0) && (nth 2 (fr_x frame) 0 <=? top)
             && trusted_frame local frame_address then Some (resumed frame) else None) s /\
  try_handle_boundary_ecall site (Some (frame_address, frame)) e s =
    (if expected_call site boundary_registers frame && trusted_frame local frame_address
     then Done (Some (resumed frame, 0)) (s <| harts := alter (<| trap_active := 0 |>) (e_hart e) (harts s) |>) else Done None s) /\
  exists ok k, trap_frame_finish x frame_address frame e s = Done ok (s <| console := k |>) /\
    (ok = true <-> frame_as_expected x local frame_address frame).
Proof.
  intros Hl. split_and!.
  - apply wp_result. eapply supervisor_ecall_spec; [exact Hl|by split].
  - destruct (_ && _) eqn:E; apply wp_result; (eapply boundary_ecall_spec; [exact Hl|rewrite E; by split]).
  - destruct (wp_done (trap_frame_finish x frame_address frame)
      (fun ok s' => exists k, s' = s <| console := k |> /\ (ok = true <-> frame_as_expected x local frame_address frame)) e s) as (ok&s'&Hr&k&->&Hok); [|by exists ok, k].
    eapply trap_frame_finish_spec; [exact Hl|]. intros ok k Hok. by exists k.
Qed.

Definition demo_call : TrapFrame :=
  mkFrame (<[2%nat := 0xdeadbeefdeadbeef]> (<[3%nat := 0x4444444444444444]> (<[10%nat := 0xbbbbbbbbbbbbbbbb]> (<[17%nat := 0x8888888888888888]> (replicate 32 0)))))
    kMstatusMppSupervisor 0x80000100 9 0.

Lemma trap_validators_exact_witness :
  try_handle_boundary_ecall 0x80000100 (Some (0x80400020, demo_call)) (demo_env 0) (pg_kernel demo_pager) =
  Done (Some (resumed demo_call, 0))
    ((pg_kernel demo_pager) <| harts := alter (<| trap_active := 0 |>) 0%nat (harts (pg_kernel demo_pager)) |>).
Proof.
  refine (proj1 (proj2 (trap_validators_exact 0x80000100 0 0 (mkExpected 0 0 0) 0x80400020 demo_call
    ((demo_hart 0) <| trap_active := 1 |> <| trap_stack_bottom := 0x80400000 |> <| trap_stack_top := 0x80401000 |>) (demo_env 0) (pg_kernel demo_pager) _))).
  reflexivity.
Defined.
