(* ===== verification/System.v ===== *)
(** * The kernel as a whole

    [Ready] is the invariant between kernel entries: queues, endpoints,
    current tasks, the tracker forest and its tie to the task table, no lock
    held.  Every way into the kernel that [microkernel/core/trap.cpp] serves,
    a system call of a user task or a machine timer interrupt, is shown to
    lead from [Ready] to [Ready] and to resume a task with exactly its saved
    context; the hart parks only when a crashed task is involved.  The theorems
    hold for any interleaving of kernel entries of the harts, each entry taken
    as one step. *)
From Stdlib Require Import ZArith Lia Ascii.
From stdpp Require Import base tactics sets functions gmap list strings.
From S2P Require Import Prelude DList Sv39 Vmm Format Console KernelTypes KernelInv Demo RunQueue DelayQueue Scheduler TaskContext TimeManager Ipc IpcProps TaskManager Trackers Arch Syscall Frame Lifetime SyscallProps.
Local Open Scope Z_scope.

(** ** Between kernel entries *)

Record Ready (s : KState) : Prop := {
  rd_sound : exists C F, Sound s C F; rd_held : held s = []; rd_time : time_initialized s = true;
  rd_csr : forall h hl, harts s !! h = Some hl -> is_Some (csrs s !! h);
}.

(** Task [i] on its hart, in the middle of a kernel entry. *)
Record Live (e : Env) (i : nat) (hl : HartLocal) (s : KState) (C : queues) (F : family) : Prop := {
  lv_sound : Sound s C F; lv_held : held s = []; lv_time : time_initialized s = true;
  lv_csr : forall h hl, harts s !! h = Some hl -> is_Some (csrs s !! h);
  lv_hart : harts s !! e_hart e = Some hl; lv_sched : h_scheduler hl = true; lv_current : current_task hl = Some i;
}.

(** The handler of a system call has run; [rescheduled] as it reports. *)
Definition called (e : Env) (s : KState) (rescheduled : bool) (s' : KState) : Prop :=
  exists C F l j, Live e j l s' C F /\ csrs s' = csrs s /\ (rescheduled = true -> 0 <= timeslice_ticks l <= kIdleTimesliceTicks).

Lemma live_entry_ok e i hl s C F : Live e i hl s C F -> entry_ok e s C.
Proof. intros [[] ? ? Hc ?]. split; try done. by eapply Hc. Qed.

Lemma live_task e i hl s C F : Live e i hl s C F -> exists t it, caller e i it hl t s /\ t_cpu t = Some (e_hart e) /\
  task_slots_used s !! i = Some true /\ t_state t = TaskState.running /\ (forall k, flag_of k t = false).
Proof.
  intros [[HI _ HR _] ? ? ? Hh Hs Hc]. destruct (run_task _ _ HR _ hl i ltac:(done) Hh Hc) as (t&Ht&?&?&?&?&_).
  destruct (inv_bind _ _ HI _ hl Hh Hs) as (_&_&_&it&Hit&_). by exists t, it.
Qed.

Lemma Sound_static s s' C F : Sound s C F -> Inv s' C -> EpIdle s' C -> Running None s' -> static s s' -> joiners s s' -> Sound s' C F.
Proof. intros [] HI He HR Hst Hj. split; try done. by eapply joiners_Lineage. Qed.

(** The record of the running task changes outside its identity. *)
Lemma live_mod f e i hl s C F :
  Live e i hl s C F ->
  (forall t, t_state (f t) = t_state t /\ t_cpu (f t) = t_cpu t /\ t_idle (f t) = t_idle t /\
     forall k, links_of k (f t) = links_of k t /\ flag_of k (f t) = flag_of k t) ->
  (forall t, tasks s !! i = Some t -> length (ctx_x (t_context (f t))) = 32%nat) ->
  (forall t, kin (f t) = kin t) -> Live e i hl (set_field tasks (alter f i) s) C F.
Proof.
  intros HL Hf Hx Hk. destruct (live_task _ _ _ _ _ _ HL) as (t&it&[Hh Hs Hc Hit Ht]&_).
  pose proof (live_entry_ok _ _ _ _ _ _ HL) as Ho.
  assert (entry_ok e (set_field tasks (alter f i) s) C) as [HI1 He1 HR1 _ _ _] by (eapply entry_mod_task; eauto).
  destruct HL as [Hso ? ? ? ? ? ?]. split; try done. eapply (Sound_static s); try done.
  - by apply static_mod_task.
  - eapply (joiners_only i); [apply only_task_mod|]. intros t0 Ht0. by eapply (running_not_waiting s _ hl i t0 (eo_running _ _ _ Ho)).
Qed.

(** The result register of the caller is written. *)
Lemma live_write f e i hl s C F : Live e i hl s C F -> register_write f -> (forall t, kin (f t) = kin t) -> Live e i hl (set_field tasks (alter f i) s) C F.
Proof.
  intros HL Hf Hk. apply live_mod; try done.
  - intros t. destruct (Hf t) as (?&?&?&?&_). by split_and!.
  - intros t Ht. destruct (Hf t) as (_&_&_&_&->&_). exact (inv_context _ _ (so_inv _ _ _ (lv_sound _ _ _ _ _ _ HL)) i t Ht).
Qed.

Lemma live_called e i hl s s' C F : Live e i hl s' C F -> csrs s' = csrs s -> called e s false s'.
Proof. intros HL Ec. exists C, F, hl, i. by split_and!. Qed.

(** The caller's result is written and the call returns to it. *)
Lemma reply_spec f e i hl s s1 C F (pk : Prop) :
  Live e i hl s1 C F -> csrs s1 = csrs s -> register_write f -> (forall t, kin (f t) = kin t) ->
  wp pk (mod_task i f;; mret false) (called e s) e s1.
Proof.
  intros HL Ec Hf Hk. destruct (live_task _ _ _ _ _ _ HL) as (t&it&[_ _ _ _ Ht]&_).
  apply wp_bind, wp_mod_task; [by exists t|]. apply wp_ret. by eapply live_called; [apply live_write|].
Qed.

(** A marker is printed and the call returns. *)
Lemma live_print e i hl s s' C F : Live e i hl s C F -> print_frame s s' -> static s s' -> Live e i hl s' C F.
Proof.
  intros HL Hp Hst. pose proof (entry_print e s s' C (live_entry_ok _ _ _ _ _ _ HL) Hp) as [HI He HR _ _ _].
  destruct HL as [Hso Hhd Hti Hcs Hh Hs Hc]. pose proof Hp as []. split; try congruence.
  - eapply (Sound_static s); try done. by apply joiners_same.
  - intros h l. rewrite pf_harts, pf_csrs. apply Hcs.
Qed.

Lemma called_print e s b s1 s2 : called e s b s1 -> print_frame s1 s2 -> static s1 s2 -> called e s b s2.
Proof.
  intros (C&F&l&j&HL&Ec&Ht) Hp Hst. exists C, F, l, j. split_and!; [by eapply live_print| |done].
  by rewrite (pf_csrs _ _ Hp).
Qed.

Lemma called_mark e s b set format s1 (pk : Prop) :
  called e s b s1 -> fits (wanted (S (length format)) format) [] = true ->
  wp pk (mark set format) (fun _ => called e s b) e s1.
Proof. intros H Hf. apply wp_keeps; [apply keeps_mark|]. apply wp_any, mark_spec; [done|]. intros s2 Hp Hst. by eapply called_print. Qed.

Lemma called_return e s b (m : K unit) s1 (pk : Prop) :
  wp pk m (fun _ => called e s b) e s1 -> wp pk (m;; mret b) (called e s) e s1.
Proof. intros H. apply wp_bind. eapply wp_mono; [exact H|done|]. intros [] s2 H2. by apply wp_ret. Qed.

(** ** The calls of the previous files *)

Lemma handled_called e i hl t s C F b s' :
  Live e i hl s C F -> handled e i t s b s' -> static s s' -> called e s b s'.
Proof.
  intros [[_ _ _ HL] Hhd Hti Hcs Hh Hs Hc] (C'&l&j&[HI He HR Hhd' Hti' _]&Hl&Hsl&Hcur&Hb&_&Ec&Hj) Hst.
  exists C', F, l, j. split_and!; try done; [|by intros ->]. split; try done.
  - split; try done. by eapply joiners_Lineage.
  - intros h l0 Hl0. rewrite Ec. pose proof (st_harts _ _ Hst h) as E. rewrite Hl0 in E. symmetry in E.
    apply fmap_Some in E as (l1&Hl1&_). by eapply Hcs.
Qed.

Lemma keeps_served number i : served number = true -> keeps (syscall_switch number i).
Proof.
  intros Hn%bool_decide_eq_true_1. rewrite !elem_of_cons, elem_of_nil in Hn.
  repeat destruct Hn as [->|Hn]; try done; unfold syscall_switch;
    cbn [Z.eqb Pos.eqb orb Num.YIELD Num.CREATE Num.END Num.WAIT Num.DETACH Num.SLEEP Num.ENDPOINT_CREATE
         Num.ENDPOINT_DESTROY Num.SEND Num.CALL Num.RECV Num.TRY_RECV Num.REPLY];
    unfold sys_yield, sys_detach, sys_sleep, sys_endpoint_create, sys_endpoint_destroy, sys_send, sys_reserved, sys_recv,
      sys_try_recv; keeps.
Qed.

Lemma served_spec number e i it hl t s C F (pk : Prop) :
  served number = true -> Live e i hl s C F -> calling e i it hl t s ->
  wp pk (syscall_switch number i) (called e s) e s.
Proof.
  intros Hn HL Hca. apply wp_keeps; [by apply keeps_served|]. apply wp_any.
  eapply wp_mono; [eapply syscall_switch_handled; [done|by eapply live_entry_ok|done]|done|].
  intros b s' Hh Hst. by eapply handled_called.
Qed.

(** The idle task may only yield. *)
Lemma yield_spec e i it hl t s C F (pk : Prop) :
  Live e i hl s C F -> caller e i it hl t s -> wp pk (sys_yield i) (called e s) e s.
Proof.
  intros HL Hcl. apply wp_keeps; [apply (keeps_served Num.YIELD i); done|]. apply wp_any.
  eapply wp_mono; [eapply sys_yield_handled; [by eapply live_entry_ok|done]|done|].
  intros b s' Hh Hst. by eapply handled_called.
Qed.

(** ** Ending a task *)

(** The hart went to another task. *)
Lemma called_away e i hl s C F s' :
  Live e i hl s C F -> (exists C' F', Sound s' C' F') ->
  (exists l', harts s' !! e_hart e = Some l' /\ h_scheduler l' = true /\ is_Some (current_task l') /\
     0 <= timeslice_ticks l' <= kIdleTimesliceTicks) ->
  held s' = held s -> csrs s' = csrs s -> time_initialized s' = time_initialized s -> same_harts s s' -> called e s true s'.
Proof.
  intros [_ Hhd Hti Hcs _ _ _] (C'&F'&Hso) (l'&Hl'&Hs'&[j Hj]&Ht') Ehd Ecs Eti Esh. exists C', F', l', j. split_and!; try done.
  split; try done; try congruence. intros h l Hl. rewrite Ecs. specialize (Esh h). rewrite Hl in Esh. symmetry in Esh.
  apply fmap_Some in Esh as (l1&Hl1&_). by eapply Hcs.
Qed.

Lemma live_calling e i hl s C F : Live e i hl s C F -> forall t, tasks s !! i = Some t -> t_idle t = false ->
  exists it k, calling e i it hl t s /\ t_tracker t = Some k.
Proof.
  intros HL t Ht Hid. destruct (live_task _ _ _ _ _ _ HL) as (t0&it&[Hh Hs Hc Hit Ht0]&_&Hu&_).
  destruct (li_task _ _ _ _ (so_lineage _ _ _ (lv_sound _ _ _ _ _ _ HL)) i ltac:(done) Hu) as (t1&k&_&Ht1&Hk&_).
  exists it, k. split; [by split|congruence].
Qed.

Lemma live_lock e i hl s C F : Live e i hl s C F -> lock_fits LTaskManager (held s).
Proof. intros HL. rewrite (lv_held _ _ _ _ _ _ HL). constructor. Qed.

Lemma end_spec (pk : Prop) rv status e i hl t s s1 C F :
  Live e i hl s1 C F -> csrs s1 = csrs s -> tasks s1 !! i = Some t -> t_idle t = false ->
  (crash_pending s1 \/ status = ExitStatus.crashed -> pk) ->
  wp pk (end_task i rv status) (fun _ => called e s true) e s1.
Proof.
  intros HL Ec Ht Hid Hpk. destruct (live_calling _ _ _ _ _ _ HL t Ht Hid) as (it&k&Hca&Hk).
  eapply (end_task_spec pk i k); [apply HL|done|by eapply live_lock|done|done|].
  intros s' []. destruct (called_away e i hl s1 C F s') as (C'&F'&l&j&HL'&Ec'&?); try done.
  exists C', F', l, j. split_and!; try done. congruence.
Qed.

Section task_calls.
Context (pk : Prop) (e : Env) (i : nat) (hl : HartLocal) (t : Task) (s : KState) (C : queues) (F : family).
Context (HL : Live e i hl s C F) (Ht : tasks s !! i = Some t) (Hid : t_idle t = false).

Lemma sys_end_spec : (crash_pending s -> pk) -> wp pk (sys_end i) (called e s) e s.
Proof.
  intros Hpk. unfold sys_end. ksteps.
  eapply (wp_mono pk pk _ (fun _ s1 => Live e i hl s1 C F /\ csrs s1 = csrs s /\ tasks s1 = tasks s /\ trackers s1 = trackers s)); [|done|].
  - unfold when. case_match; [|by apply wp_ret]. apply wp_keeps; [apply keeps_mark|].
    apply wp_any, mark_spec; [by vm_compute|]. intros s1 Hp Hst.
    split_and!; [by eapply live_print|apply Hp|apply Hp|]. pose proof (st_tables _ _ Hst) as E. unfold tables in E.
    injection E as E _ _ _ _ _ _ _ _ _. done.
  - intros [] s1 (HL1&Ec&Ets&Etr). apply wp_bind.
    eapply (wp_mono pk pk _ (fun _ => called e s true)); [eapply end_spec; try done; [by rewrite Ets|]|done|].
    + intros [(j&k&Hj&Hk)|]; [|done]. apply Hpk. exists j, k. by rewrite <- Etr.
    + intros [] s2 Hcd. apply called_return. unfold when. case_match; [|by apply wp_ret].
      apply wp_keeps; [apply keeps_kprintk|]. apply wp_any, kprintk_spec; [by vm_compute|]. intros c Hst.
      eapply called_print; [done| |done]. by split.
Qed.

Lemma sys_invalid_spec number : pk -> wp pk (sys_invalid i number) (called e s) e s.
Proof.
  intros Hpk. unfold sys_invalid. apply wp_bind, wp_keeps; [apply keeps_kprintk|]. apply wp_any, kprintk_spec; [by vm_compute|].
  intros c Hst. apply called_return. eapply end_spec; try done. eapply live_print; [done| |done]. by split.
Qed.

Lemma sys_wait_spec : wp pk (sys_wait i) (called e s) e s.
Proof.
  unfold sys_wait. ksteps. destruct (_ || _).
  { eapply reply_spec; try done. apply set_x_writes. }
  destruct (live_calling _ _ _ _ _ _ HL t Ht Hid) as (it&k&Hca&Hk).
  apply wp_bind, wp_any, (wait_task_spec i k it hl t _ s C F); [apply HL|done|by eapply live_lock|done|].
  intros r s1 (Hw&Ehd&Ecs&Eti&Esh). apply wp_bind, wp_gets.
  assert (forall C1 F1, harts s1 = harts s -> Sound s1 C1 F1 -> Live e i hl s1 C1 F1) as Hsame.
  { intros C1 F1 Eh Hso1. destruct HL. split; try congruence. rewrite Eh, Ecs. done. }
  destruct (awaited (trackers s) F k _) as [ch|].
  - destruct Hw as (tr&_&Hw). destruct (k_task tr).
    + destruct Hw as (->&[C' Hso']&_&_&Hl'). assert (called e s true s1) as Hcd by (eapply called_away; eauto).
      rewrite (bool_decide_true (_ = WaitResult.blocked)) by done. apply called_return. rewrite !bool_decide_false by done.
      cbn [andb].
      case_match; [by apply called_mark|by apply wp_ret].
    + destruct Hw as (->&[F' Hso']&Eh&_). assert (called e s false s1) as Hcd by (eapply live_called; [by apply Hsame|done]).
      rewrite (bool_decide_false (_ = WaitResult.blocked)) by done. apply called_return.
      rewrite bool_decide_false by done. case_match; [by apply called_mark|by apply wp_ret].
  - destruct Hw as (->&Hso'&_&_&Eh). rewrite (bool_decide_true (_ = WaitResult.no_child)), (bool_decide_false (_ = WaitResult.blocked)) by done.
    eapply reply_spec; [by apply Hsame|done|apply set_x_writes|done].
Qed.
(** What [sys_create] needs of the creation. *)
Lemma create_task_spec entry_point argument asp owner (Q : option nat -> KState -> Prop) :
  (forall s1, Live e i hl s1 C F -> csrs s1 = csrs s -> Q None s1) ->
  (forall c k tc s1 F1, Live e i hl s1 C F1 -> csrs s1 = csrs s -> tasks s1 !! i = Some t -> c <> i ->
     tasks s1 !! c = Some tc -> task_slots_used s1 !! c = Some true -> (forall q, flag_of q tc = false) ->
     t_state tc = TaskState.ready -> t_idle tc = false -> t_cpu tc = Some owner -> t_tracker tc = Some k ->
     (forall h l, harts s1 !! h = Some l -> current_task l <> Some c) ->
     (exists kr, trackers s1 !! k = Some kr /\ wi_active (k_wait kr) = false) -> Q (Some c) s1) ->
  wp pk (create_task entry_point argument asp owner false) Q e s.
Proof.
  intros HQn HQs. destruct (live_task _ _ _ _ _ _ HL) as (t0&it&[Hh _ Hc _ Ht0]&_&Hu&_).
  rewrite Ht in Ht0. injection Ht0 as <-.
  pose proof HL as [Hso Hhd Hti Hcs _ Hs _]. destruct (Hcs _ _ Hh) as [c Hcsr].
  unfold create_task. apply wp_with_lock; [by eapply live_lock|].
  match goal with |- wp _ _ _ _ ?x => set (s1 := x) end.
  assert (Sound s1 C F) as Hso1.
  { apply Sound_locks; [done|]. constructor; [rewrite Hhd; constructor|apply Hso]. }
  assert (forall s2 F2, Sound s2 C F2 -> table_frame s1 s2 -> Live e i hl (s2 <| held := held s |>) C F2 /\ csrs s2 = csrs s) as Hback.
  { intros s2 F2 Hso2 [].
    split; [|done]. split; try done; [by apply Sound_held|rproj; by rewrite tf_time| |].
    - intros h l. rproj. rewrite tf_harts, tf_csrs. apply Hcs.
    - rproj. by rewrite tf_harts. }
  apply (create_task_locked_spec pk e hl c entry_point argument asp owner false false true s1 C F); try done.
  - intros s2 _ []. split; [apply rf_frame|]. destruct (Hback s2 F) as [HL2 Ec2]; try done. by apply HQn.
  - intros x k s2 _ []. split; [apply cr_frame|]. destruct (Hback s2 _ cr_sound cr_frame) as [HL2 Ec2].
    assert (x <> i) as Hxi.
    { intros ->. destruct cr_free as [E _]. change (task_slots_used s !! i = Some false) in E. congruence. }
    pose proof Hso1 as [HI1 _ HR1 HLi1]. destruct cr_free as [Hfx Hfk].
    destruct (lookup_lt_is_Some_2 (tasks s1) x) as [tx Htx].
    { apply lookup_lt_Some in Hfx. rewrite (li_slots _ _ _ _ HLi1) in Hfx. by rewrite (inv_tasks _ _ HI1). }
    destruct (unused_task s1 C F x tx Hso1 Hfx Htx) as (_&Hnc&_).
    cbv zeta in cr_task. match type of cr_task with _ = <[_ := ?y]> _ => set (tc := y) in * end.
    assert (tasks s2 !! x = Some tc) as Hx2 by (rewrite cr_task; apply list_lookup_insert_eq; by eapply lookup_lt_Some).
    apply (HQs x k tc _ _ HL2); try done.
    + rproj. rewrite cr_task, list_lookup_insert_ne by done. done.
    + rproj. rewrite (proj1 cr_used). apply list_lookup_insert_eq. by eapply lookup_lt_Some.
    + by intros [].
    + rproj. rewrite (Lifetime.tf_harts _ _ cr_frame). exact Hnc.
    + apply fmap_Some in cr_tracker as (kr&Hkr&E). exists kr. split; [done|].
      change (fresh_tracker (next_tid s1) x entry_point) with (entry (fresh_tracker (next_tid s1) x entry_point)) in E.
      symmetry in E. apply entry_inv in E as (_&_&_&->). done.
Qed.

Lemma sys_create_spec : wp pk (sys_create i) (called e s) e s.
Proof.
  unfold sys_create. ksteps. destruct (is_boot_user_entry _ _); cbn [negb]; [|eapply reply_spec; try done; apply set_x_writes].
  destruct (live_task _ _ _ _ _ _ HL) as (t0&it&[Hh Hs _ _ Ht0]&Hcpu&_). rewrite Ht in Ht0. injection Ht0 as <-.
  apply wp_bind. eapply wp_deref; [exact Hcpu|]. apply wp_bind, create_task_spec.
  { intros s1 HL1 Ec. eapply reply_spec; try done. apply set_x_writes. }
  intros c k tc s1 F1 HL1 Ec1 Ht1 Hci Htc Huc Hfc Hsc Hidc Hcpuc Hkc Hncc (kr&Hkr&Hwr).
  pose proof HL1 as [[HI1 Hei1 HR1 HLi1] Hhd1 Hti1 Hcs1 Hh1 Hs1 Hc1].
  apply wp_bind, wp_any, (scheduler_of_spec i t); [done|by exists (e_hart e), hl|].
  apply wp_bind, wp_keeps; [apply keeps_add_task|]. apply wp_any, (add_task_spec c tc C); try done.
  { by rewrite Hsc. }
  { by exists (e_hart e), hl. }
  { rewrite Hhd1. constructor. }
  intros s2 t2 HI2 Hrf Hot Ht2 Hc2 Hst2.
  assert (Live e i hl s2 (enqueue (target_queue tc) c C) F1) as HL2.
  { destruct (rest_csrs _ _ (rf_rest _ _ Hrf)) as [Ecs _]. split.
    - split; [done| | |by eapply (Lineage_wake _ _ s1 s2 F1 c tc k kr)].
      + intros w p. rewrite (rf_eps _ _ Hrf). unfold enqueue. rewrite fn_lookup_insert_ne by done. apply Hei1.
      + apply (Running_update None s1 s2 c); try done; [intros h l _; apply Hncc|apply Hrf|apply rest_used, Hrf].
    - by rewrite (rf_held _ _ Hrf).
    - pose proof (st_tables _ _ Hst2) as E. unfold tables in E. injection E as _ _ _ _ _ _ _ E _ _. congruence.
    - intros h l. rewrite (rf_harts _ _ Hrf), Ecs. apply Hcs1.
    - by rewrite (rf_harts _ _ Hrf).
    - done.
    - done. }
  assert (csrs s2 = csrs s) as Ec2 by (destruct (rest_csrs _ _ (rf_rest _ _ Hrf)) as [Ecs _]; congruence).
  cbn [negb]. apply wp_bind. eapply wp_get_task; [exact Ht2|].
  destruct (live_task _ _ _ _ _ _ HL2) as (ti&_&[_ _ _ _ Hti2]&_). apply wp_bind, wp_mod_task; [by exists ti|].
  apply wp_bind, wp_gets, called_return. set (s3 := set_field tasks _ s2).
  assert (called e s false s3) as Hcd by (eapply live_called; [apply live_write; [done|apply set_x_writes|done]|done]).
  unfold when. case_match; [by apply called_mark|by apply wp_ret].
Qed.
End task_calls.

(** ** Every system call *)

(** Parking is allowed only on account of a crash: one that nobody collected,
    or the one this call causes. *)
Definition valid_number (number : Z) : bool := bool_decide (0 <= number <= 12).

Lemma served_or number : served number = true \/ number = Num.CREATE \/ number = Num.END \/ number = Num.WAIT \/ valid_number number = false.
Proof.
  unfold served, valid_number. destruct (bool_decide (0 <= number <= 12)) eqn:E; [|by repeat right].
  apply bool_decide_eq_true_1 in E.
  assert (number ∈ (Z.of_nat <$> seq 0 13)) as Hin.
  { apply list_elem_of_fmap. exists (Z.to_nat number). split; [lia|]. apply elem_of_seq. lia. }
  repeat (apply elem_of_cons in Hin as [->|Hin]; [vm_compute; tauto|]). by apply elem_of_nil in Hin.
Qed.

Lemma syscall_spec number e i hl t s C F (pk : Prop) :
  Live e i hl s C F -> tasks s !! i = Some t -> (t_idle t = true -> number = Num.YIELD) ->
  (crash_pending s \/ valid_number number = false -> pk) ->
  wp pk (syscall_switch number i) (called e s) e s.
Proof.
  intros HL Ht Hy Hpk. destruct (t_idle t) eqn:Hid.
  { rewrite Hy by done. destruct (live_task _ _ _ _ _ _ HL) as (t0&it&Hcl&_). by eapply yield_spec. }
  destruct (live_calling _ _ _ _ _ _ HL t Ht Hid) as (it&k&Hca&_).
  destruct (served_or number) as [Hn|[->|[->|[->|Hn]]]].
  - by eapply served_spec.
  - by eapply sys_create_spec.
  - eapply sys_end_spec; eauto.
  - by eapply sys_wait_spec.
  - assert (syscall_switch number i = sys_invalid i number) as ->.
    { unfold valid_number in Hn. apply bool_decide_eq_false_1 in Hn. unfold syscall_switch.
      unfold Num.YIELD, Num.CREATE, Num.END, Num.WAIT, Num.DETACH, Num.SLEEP, Num.ENDPOINT_CREATE, Num.ENDPOINT_DESTROY,
        Num.SEND, Num.CALL, Num.RECV, Num.TRY_RECV, Num.REPLY.
      repeat rewrite (proj2 (Z.eqb_neq number _)) by lia. done. }
    eapply sys_invalid_spec; eauto.
Qed.
