(* ===== verification/Boot.v ===== *)
(** * Bring-up

    Models [microkernel/core/hart.cpp] (per-hart state), [cpu_manager.cpp],
    [heap_manager.cpp] and [kernel.cpp] (the bootstrap sequence of the boot
    hart and of the secondary harts, up to the first entry to user mode), and
    [VmmManager::prepare_first_user_dispatch], as in the M00-08.01 build. *)
From stdpp Require Import base tactics sets functions list gmap strings.
From Stdlib Require Import ZArith Lia Ascii.
From S2P Require Import Prelude DList Memory Lifecycle PageManager Sv39 Vmm Format Console KernelTypes KernelInv Demo RunQueue DelayQueue Scheduler TaskContext TimeManager Ipc IpcProps TaskManager Trackers Arch Syscall Frame Lifetime SyscallProps System.
Local Open Scope Z_scope.

(** ** hart.cpp *)

Definition kBootStackSize : Z := 16384.
Definition kTrapStackSize : Z := 4096.

(** [None] stands for [halt_forever]; [bind_hart_local] binds [mscratch],
    which is the environment of every later step of this hart. *)
Definition hart_initialize (id : Z) (index : Z) (role : HartRole.t) : K nat :=
  if Z.of_nat kMaxHarts <=? index then park
  else
    let i := Z.to_nat index in
    e ← ask;
    let stack_base := u64 (hart_stacks_start (e_syms e) + index * kBootStackSize) in
    let trap_stack_base := u64 (hart_trap_stacks_start (e_syms e) + index * kTrapStackSize) in
    mod_hart i (fun l =>
      l <| hart_id := id |> <| h_index := index |> <| h_role := role |>
        <| machine_timer_interrupt_count := 0 |> <| trap_entry_sp := 0 |> <| trap_entry_t1 := 0 |>
        <| trap_active := 0 |> <| current_task := None |> <| h_scheduler := false |>
        <| scheduler_extra := None |> <| delay_list := None |> <| idle_task := None |>
        <| timeslice_ticks := 0 |> <| scheduler_preemption_count := 0 |>
        <| h_stack_bottom := stack_base |> <| h_stack_top := u64 (stack_base + kBootStackSize) |>
        <| trap_stack_bottom := trap_stack_base |>
        <| trap_stack_top := u64 (trap_stack_base + kTrapStackSize) |>);;
    mod_hart i (<| h_state := HartStatus.online |>);;
    mret i.

Fixpoint online_from (index count : nat) : K bool :=
  match count with
  | O => mret true
  | S n =>
      l ← get_hart index;
      if bool_decide (h_state l <> HartStatus.online) then mret false else online_from (S index) n
  end.

Definition all_online (expected_count : Z) : K bool :=
  if (expected_count =? 0) || (Z.of_nat kMaxHarts <? expected_count) then mret false
  else online_from 0 (Z.to_nat expected_count).

(** ** cpu_manager.cpp *)

Fixpoint initialize_cpus (index count : nat) : K bool :=
  match count with
  | O => mret true
  | S n =>
      bind_hart index;;
      ok ← initialize_hart index;
      if negb ok then mret false
      else
        idle ← create_idle_task index;
        match idle with
        | None => mret false
        | Some task =>
            mod_hart index (<| idle_task := Some task |>);;
            mod_hart index (<| current_task := None |>);;
            initialize_cpus (S index) n
        end
  end.

Definition CpuManager_initialize (count : Z) : K bool :=
  if (count =? 0) || (Z.of_nat kMaxHarts <? count) then mret false
  else
    ok ← initialize_cpus 0 (Z.to_nat count);
    if negb ok then mret false
    else modify (<| present_count := count |>);; mret true.

(** ** kernel.cpp *)

Definition cpp_bootstrap : K unit := modify (<| cpp_ready := true |>).
Definition boot_data_bootstrap : K bool := mret true.

Definition memory_bootstrap : K bool := fun e s =>
  let sy := e_syms e in
  let ms1 := reset (memsys s) in
  let '(ok, ms2) := add_contained_bootstrap_pool (pool_start_sym sy) (pool_end_sym sy) ms1 in
  if negb ok then Done false (s <| memsys := ms2 |>)
  else
    let s1 := s <| heap_initialized := true |> in
    let '(ok', vm', ms3) := vmm_initialize (user_text_start_sym sy) (user_text_end_sym sy) (vmm s1) ms2 in
    Done ok' (s1 <| vmm := vm' |> <| memsys := ms3 |>).

Definition cpu_bootstrap (count : Z) : K bool :=
  TimeManager_initialize;;
  Scheduler_initialize;;
  ok ← TaskManager_initialize;
  if negb ok then mret false else CpuManager_initialize count.

Definition init_task_bootstrap : K bool :=
  vm ← gets vmm;
  e ← ask;
  initial ← create_task (user_init_task (e_syms e)) 0 (boot_address_space vm) 0 true;
  match initial with
  | None => mret false
  | Some task => set_initial_task task;; set_current_task task;; mret true
  end.

Definition prepare_first_user_dispatch : K unit :=
  h ← current_hart;
  mod_csr h (fun c => c <| mstatus := Z.ldiff (mstatus c) 8 |> <| mie := 0 |> <| medeleg := 0 |>
    <| mideleg := 0 |> <| pmpaddr0 := UINT64_MAX |> <| pmpcfg0 := 0x1f |>).

(** The frame and the [satp] handed to [jixia_task_enter_first]. *)
Definition dispatch_task : K (TrapFrame * Z) :=
  c ← get_current_task;
  match c with
  | None => park
  | Some task =>
      frame ← restore_current_context zero_frame;
      prepare_first_user_dispatch;;
      arm_current_timeslice;;
      local ← current;
      when (bool_decide (h_role local = HartRole.boot)) (kprintk (marker "M00_08_TASK_DISPATCH: PASS") []);;
      t ← get_task task;
      mret (frame, ctx_satp (t_context t))
  end.

Definition secondary_bootstrap : K (TrapFrame * Z) :=
  local ← current;
  if bool_decide (h_role local <> HartRole.secondary) || negb (h_scheduler local)
     || bool_decide (idle_task local = None)
  then park
  else _ ← set_next_runnable; dispatch_task.

Definition bootstrap_banner : list ascii :=
  newline :: marker "%s" ++ marker "cpp         : ready"
  ++ marker "boot data   : QEMU handoff phase (dummy)"
  ++ marker "page manager: contained bootstrap pool"
  ++ marker "heap manager: fixed task storage (dynamic heap deferred)"
  ++ marker "vmm         : shared bootstrap Sv39 root"
  ++ marker "scheduler   : %s" ++ marker "time        : %s"
  ++ marker "task model  : tracker/wait/detach/idle"
  ++ marker "platform    : status publication phase (dummy)"
  ++ marker "debug       : pointer registry phase (dummy)"
  ++ marker "M00_08_HOSTBOOT_BOOTSTRAP: PASS".

Definition bootstrap (count : Z) : K (TrapFrame * Z) :=
  h ← current_hart;
  mod_hart h (<| current_task := None |>);;
  cpp_bootstrap;;
  ready ← gets cpp_ready;
  ok ← (if negb ready then mret false
        else
          b ← boot_data_bootstrap;
          if negb b then mret false
          else
            m ← memory_bootstrap;
            if negb m then mret false else cpu_bootstrap count);
  if negb ok then kprintk (marker "M00_08_HOSTBOOT_BOOTSTRAP: FAIL") [];; park
  else
    init ← init_task_bootstrap;
    if negb init then kprintk (marker "M00_08_HOSTBOOT_BOOTSTRAP: FAIL") [];; park
    else
      kprintk bootstrap_banner
        [AText (Some (text "[Jixia][M00-08.01][HostbootTaskFoundation]"));
         AText (Some (text "global FIFO + per-hart affinity queue + mtime preemption"));
         AText (Some (text "per-hart sleep queue + deadline-aware idle slice"))];;
      dispatch_task.

(** ** Deciding the invariant for a quiescent state *)

Definition idle_rq (q : RunQueue) : bool :=
  bool_decide (rq_head q = None) && bool_decide (rq_tail q = None) && (rq_size q =? 0).
Definition fresh_endpoint (p : Endpoint) : bool :=
  negb (active p) && negb (retired p) && (generation p =? 0) && (ep_head p =? 0) && (ep_count p =? 0)
  && bool_decide (length (queue p) = 16%nat) && forallb (fun m => bool_decide (length (words m) = 4%nat)) (queue p)
  && bool_decide (waiting_head p = None) && bool_decide (waiting_tail p = None) && (waiting_count p =? 0).

Definition check_idle (s : KState) (it : nat) : bool :=
  match tasks s !! it, task_slots_used s !! it with
  | Some t, Some used => t_idle t && bool_decide (t_state t <> TaskState.ended) && used
  | _, _ => false
  end.
Definition check_hart (s : KState) (h : nat) (l : HartLocal) : bool :=
  negb (h_scheduler l) ||
  bool_decide (scheduler_extra l = Some h) && bool_decide (delay_list l = Some h) && bool_decide (h < kMaxHarts)%nat
  && match idle_task l with Some it => check_idle s it | None => false end.

Definition quiescent (s : KState) : bool :=
  idle_rq (global_run_queue s) && forallb idle_rq (local_run_queues s) && bool_decide (length (local_run_queues s) = kMaxHarts)
  && forallb (fun o => bool_decide (o = None)) (delay_queues s) && bool_decide (length (delay_queues s) = kMaxHarts)
  && forallb fresh_endpoint (endpoints s) && bool_decide (length (endpoints s) = kMaxEndpoints)
  && forallb negb (slot_allocated s) && bool_decide (length (slot_allocated s) = kMaxEndpoints)
  && bool_decide (length (tasks s) = kMaxTasks) && forallb unlinked (tasks s)
  && forallb id (imap (check_hart s) (harts s))
  && bool_decide (NoDup (omap idle_task (harts s)))
  && forallb (fun lh => forallb (fun l' => bool_decide (lock_rank l' < lock_rank lh.1)%nat) lh.2) (lock_log s).

Lemma forallb_lookup {A} (f : A -> bool) l i x : forallb f l = true -> l !! i = Some x -> f x = true.
Proof. intros H Hi. rewrite forallb_forall in H. apply H, list_elem_of_In. by eapply list_elem_of_lookup_2. Qed.

Lemma fresh_endpoint_spec p : fresh_endpoint p = true ->
  ep_ok false p [] /\ waiting_head p = None /\ waiting_tail p = None /\ waiting_count p = 0.
Proof.
  unfold fresh_endpoint. rewrite !andb_true_iff, !negb_true_iff, !Z.eqb_eq, !bool_decide_eq_true.
  intros (((((((((E1&E2)&E3)&E4)&E5)&E6)&E7)&E8)&E9)&E10). split_and!; try done.
  split; rewrite ?E1, ?E2, ?E3, ?E4, ?E5; try done; try lia.
  apply Forall_lookup. intros i m Hm. by apply (forallb_lookup _ _ _ _ E7), bool_decide_eq_true in Hm.
Qed.

Lemma idle_rq_spec q : idle_rq q = true -> q = mkRunQueue None None 0.
Proof.
  unfold idle_rq. rewrite !andb_true_iff, !bool_decide_eq_true, Z.eqb_eq. destruct q. simpl. intros ((->&->)&->). done.
Qed.

Lemma omap_inj (f : HartLocal -> option nat) (hs : list HartLocal) h h' l l' it :
  NoDup (omap f hs) -> hs !! h = Some l -> hs !! h' = Some l' -> f l = Some it -> f l' = Some it -> h = h'.
Proof.
  revert h h'. induction hs as [|x hs IH]; intros h h' Hnd H1 H2 E1 E2; [done|].
  assert (forall i y, hs !! i = Some y -> f y = Some it -> it ∈ omap f hs) as Hin
    by (intros i y Hi Hy; apply list_elem_of_omap; exists y; split; [by eapply list_elem_of_lookup_2|done]).
  assert (NoDup (omap f hs)) as Hnd'.
  { cbn [omap] in Hnd. simpl in Hnd. destruct (f x); [by apply NoDup_cons in Hnd as [_ ?]|done]. }
  destruct h as [|h], h' as [|h']; simpl in H1, H2; [done|..].
  - injection H1 as ->. simpl in Hnd. rewrite E1 in Hnd. apply NoDup_cons in Hnd as [Hn _]. exfalso. eauto.
  - injection H2 as ->. simpl in Hnd. rewrite E2 in Hnd. apply NoDup_cons in Hnd as [Hn _]. exfalso. eauto.
  - f_equal. eauto.
Qed.

Lemma quiescent_inv s : quiescent s = true -> Inv s quiet.
Proof.
  unfold quiescent. rewrite !andb_true_iff, !bool_decide_eq_true.
  intros (((((((((((((Q1&Q2)&Q3)&Q4)&Q5)&Q6)&Q7)&Q8)&Q9)&Q10)&Q11)&Q12)&Q13)&Q14). apply Inv_quiescent; try done.
  - intros [[|h]|h|w] Hv; simpl in Hv; simpl.
    + by apply idle_rq_spec in Q1 as ->.
    + destruct (lookup_lt_is_Some_2 (local_run_queues s) h ltac:(lia)) as [q Hq].
      rewrite Hq. by rewrite (idle_rq_spec q (forallb_lookup _ _ _ _ Q2 Hq)).
    + destruct (lookup_lt_is_Some_2 (delay_queues s) h ltac:(lia)) as [o Ho].
      pose proof (forallb_lookup _ _ _ _ Q4 Ho) as Hx. by apply bool_decide_eq_true in Hx as ->.
    + destruct (lookup_lt_is_Some_2 (endpoints s) w ltac:(lia)) as [p Hp].
      pose proof (forallb_lookup _ _ _ _ Q6 Hp) as (_&?&?&?)%fresh_endpoint_spec. by exists p.
  - apply Forall_lookup. intros i t Ht. by eapply forallb_lookup.
  - intros h hl Hh Hs. assert (check_hart s h hl = true) as Hc.
    { eapply (forallb_lookup id _ h); [exact Q12|]. by rewrite list_lookup_imap, Hh. }
    unfold check_hart in Hc. rewrite Hs in Hc. cbn [negb orb] in Hc. rewrite !andb_true_iff, !bool_decide_eq_true in Hc.
    destruct Hc as (((?&?)&?)&Hit). split_and!; try done. destruct (idle_task hl) as [it|]; [|done]. exists it. split; [done|].
    unfold check_idle in Hit. destruct (tasks s !! it) as [t|] eqn:Et, (task_slots_used s !! it) as [u|] eqn:Eu; try done.
    rewrite !andb_true_iff, bool_decide_eq_true in Hit. destruct Hit as ((?&?)&->). by split; [exists t|].
  - intros h h' hl hl' it. by apply omap_inj.
  - intros e p Hp. exists false. destruct (lookup_lt_is_Some_2 (slot_allocated s) e) as [a Ha].
    { apply lookup_lt_Some in Hp. lia. }
    pose proof (forallb_lookup _ _ _ _ Q8 Ha) as Hx. apply negb_true_iff in Hx as ->. split; [done|]. by apply fresh_endpoint_spec, (forallb_lookup _ _ _ _ Q6 Hp).
  - apply Forall_lookup. intros i lh Hl. apply Forall_lookup. intros j l' Hj.
    pose proof (forallb_lookup _ _ _ _ Q14 Hl) as Hf. by apply (forallb_lookup _ _ _ _ Hf), bool_decide_eq_true in Hj.
Qed.

Definition check_current (s : KState) (h : nat) (l : HartLocal) : bool :=
  match current_task l with
  | None => true
  | Some i =>
      match tasks s !! i, task_slots_used s !! i with
      | Some t, Some used => bool_decide (t_state t = TaskState.running) && bool_decide (t_cpu t = Some h) && unlinked t && used
                             && (negb (t_idle t) || bool_decide (idle_task l = Some i))
      | _, _ => false
      end
  end.
Definition running_ok (s : KState) : bool :=
  forallb id (imap (check_current s) (harts s)) && bool_decide (NoDup (omap current_task (harts s))).

Lemma running_ok_spec s : running_ok s = true -> Running None s.
Proof.
  unfold running_ok. rewrite andb_true_iff, bool_decide_eq_true. intros [Hc Hnd]. split.
  - intros h hl i _ Hh Hi. assert (check_current s h hl = true) as Hk.
    { eapply (forallb_lookup id _ h); [exact Hc|]. by rewrite list_lookup_imap, Hh. }
    unfold check_current in Hk. rewrite Hi in Hk.
    destruct (tasks s !! i) as [t|] eqn:Et, (task_slots_used s !! i) as [u|] eqn:Eu; try done.
    rewrite !andb_true_iff, !bool_decide_eq_true in Hk. destruct Hk as ((((?&?)&Hu)&->)&Hidle). exists t.
    split_and!; try done; [by apply unlinked_spec|]. intros Hid. rewrite Hid in Hidle. by apply bool_decide_eq_true in Hidle.
  - intros h h' hl hl' i _ _. by apply omap_inj.
Qed.

(** ** Deciding the lineage of a state without nested tasks *)

#[local] Instance chain_dec lk pp l qn : Decision (chain lk pp l qn).
Proof. revert pp. induction l; intros pp; cbn [chain]; solve_decision. Defined.

Lemma chain_elem lk pp l qn c : chain lk pp l qn -> c ∈ l -> is_Some (lk c).
Proof.
  revert pp. induction l as [|x l IH]; intros pp; [by intros _ ?%elem_of_nil|]. cbn [chain]. intros [Hx Hl] [->|Hc]%elem_of_cons.
  - by rewrite Hx.
  - by eapply IH.
Qed.

(** The root list, by its links. *)
Fixpoint siblings_from (fuel : nat) (ks : list TaskTracker) (c : option nat) : list nat :=
  match fuel, c with
  | S n, Some x => x :: siblings_from n ks (k ← ks !! x; k_next_sibling k)
  | _, _ => []
  end.
Definition roots (s : KState) : list nat := siblings_from kMaxTasks (trackers s) (root_tasks s).

Definition flat (l : list nat) : family := fun p => match p with None => l | Some _ => [] end.

(** Tracker [c] has no child, nobody waits, and it tracks its task. *)
Definition check_tracker (s : KState) (l : list nat) (c : nat) (k : TaskTracker) : bool :=
  bool_decide (k_first_child k = None) && negb (wi_active (k_wait k)) &&
  bool_decide (tracker_slots_used s !! c = Some (bool_decide (c ∈ l))) &&
  (negb (bool_decide (c ∈ l)) ||
   bool_decide (k_parent k = None) &&
   match k_task k with
   | Some i => bool_decide (task_slots_used s !! i = Some true) && bool_decide (t_tracker <$> tasks s !! i = Some (Some c))
   | None => false
   end).
Definition check_slot (s : KState) (i : nat) (used : bool) : bool :=
  negb used ||
  match t_tracker <$> tasks s !! i with
  | Some (Some k) => bool_decide (tracker_slots_used s !! k = Some true) && bool_decide (k_task <$> trackers s !! k = Some (Some i))
  | _ => false
  end.
Definition lineage_ok (s : KState) : bool :=
  let l := roots s in
  bool_decide (length (trackers s) = kMaxTasks) && bool_decide (length (tracker_slots_used s) = kMaxTasks)
  && bool_decide (length (task_slots_used s) = kMaxTasks) && bool_decide (NoDup l)
  && bool_decide (root_tasks s = head l /\ chain (sibling_links (trackers s)) None l None)
  && forallb id (imap (check_tracker s l) (trackers s)) && forallb id (imap (check_slot s) (task_slots_used s)).

Lemma imap_lookup {A} (f : nat -> A -> bool) (l : list A) i x : forallb id (imap f l) = true -> l !! i = Some x -> f i x = true.
Proof. intros H Hi. eapply (forallb_lookup id _ i); [exact H|]. by rewrite list_lookup_imap, Hi. Qed.

Lemma check_tracker_spec s l c k : check_tracker s l c k = true ->
  k_first_child k = None /\ wi_active (k_wait k) = false /\ tracker_slots_used s !! c = Some (bool_decide (c ∈ l)) /\
  (c ∈ l -> k_parent k = None /\ exists i, k_task k = Some i /\ task_slots_used s !! i = Some true /\
     exists t, tasks s !! i = Some t /\ t_tracker t = Some c).
Proof.
  unfold check_tracker. rewrite !andb_true_iff, negb_true_iff, !bool_decide_eq_true. intros (((?&?)&?)&Hc). split_and!; try done.
  intros Hl. rewrite (bool_decide_true (c ∈ l)) in Hc by done. cbn [negb orb] in Hc.
  apply andb_true_iff in Hc as [Hp%bool_decide_eq_true Hk]. split; [done|]. destruct (k_task k) as [i|]; [|done].
  apply andb_true_iff in Hk as [Hu%bool_decide_eq_true Ht%bool_decide_eq_true]. exists i. split_and!; try done.
  apply fmap_Some in Ht as (t&Ht&E). by exists t.
Qed.

Lemma check_slot_spec s i : check_slot s i true = true ->
  exists t k tr, tasks s !! i = Some t /\ t_tracker t = Some k /\ tracker_slots_used s !! k = Some true /\
    trackers s !! k = Some tr /\ k_task tr = Some i.
Proof.
  unfold check_slot. cbn [negb orb]. destruct (tasks s !! i) as [t|]; [|done]. cbn [fmap option_fmap option_map].
  destruct (t_tracker t) as [k|] eqn:Hk; [|done]. rewrite andb_true_iff, !bool_decide_eq_true.
  intros [Hu (tr&Htr&E)%fmap_Some]. by exists t, k, tr.
Qed.

Lemma lineage_ok_spec s : lineage_ok s = true -> Lineage None None s (flat (roots s)).
Proof.
  unfold lineage_ok. set (l := roots s). cbv zeta. rewrite !andb_true_iff, !bool_decide_eq_true.
  intros ((((((E1&E2)&E3)&Hnd)&[Hr Hch])&Hk)&Hs).
  assert (forall c k, trackers s !! c = Some k -> check_tracker s l c k = true) as Hct by (intros c k; by apply imap_lookup).
  assert (forall c, tracker_slots_used s !! c = Some true <-> c ∈ l) as Hmem.
  { intros c. split.
    - intros Hu. destruct (lookup_lt_is_Some_2 (trackers s) c) as [k Hc]; [apply lookup_lt_Some in Hu; lia|].
      apply Hct, check_tracker_spec in Hc as (_&_&E&_). rewrite Hu in E. injection E as E. symmetry in E; by apply bool_decide_eq_true_1 in E.
    - intros Hc. assert (is_Some (trackers s !! c)) as [k Hck].
      { pose proof (chain_elem _ _ _ _ _ Hch Hc) as [v Hv]. apply fmap_Some in Hv as (k&Hk'&_). by exists k. }
      apply Hct, check_tracker_spec in Hck as (_&_&->&_). by rewrite bool_decide_true. }
  assert (forall c, c ∈ l -> exists k, trackers s !! c = Some k /\ check_tracker s l c k = true) as Hin.
  { intros c Hc. apply Hmem, lookup_lt_Some in Hc. rewrite E2, <- E1 in Hc. apply lookup_lt_is_Some_2 in Hc as [k Hc]. eauto. }
  split; try done.
  - split; try done.
    + intros [x|] hd; simpl; [|by intros [= <-]]. intros (k&Hx&->)%fmap_Some. apply Hct, check_tracker_spec in Hx as (->&_).
      by split_and!.
    + intros [x|]; [constructor|done].
    + intros [x|] c Hc; [by apply elem_of_nil in Hc|]. destruct (Hin c Hc) as (k&->&Hc'). simpl. f_equal.
      by apply check_tracker_spec in Hc' as (_&_&_&[-> _]).
    + intros c. rewrite Hmem. split; [|intros [Hc _]; by exists None].
      intros [[x|] Hc]; [by apply elem_of_nil in Hc|]. split; [done|set_solver].
  - exists (fun _ => O). intros p c Hc. by apply elem_of_nil in Hc.
  - intros c Hc _. destruct (Hin c Hc) as (k&Hk'&Hc'). apply check_tracker_spec in Hc' as (_&_&_&H).
    destruct (H Hc) as (_&i&Hi&_). exists i. rewrite Hk'. simpl. by rewrite Hi.
  - intros i _ Hu. by apply check_slot_spec, (imap_lookup _ _ _ _ Hs).
  - intros k tr i Hu Htr Hi. apply Hct, check_tracker_spec in Htr as (_&_&_&H).
    destruct (H (proj1 (Hmem k) Hu)) as (_&i'&Hi'&Hus&Ht). assert (i' = i) as -> by congruence. done.
  - intros k tr Hu Htr Ha. apply Hct, check_tracker_spec in Htr as (_&E&_). congruence.
Qed.

(** ** Cold boot *)

(** Memory with arbitrary contents, the contained window set up. *)
Definition cold (m : Mem) : KState := power_on (initialize_contained (2 ^ 31) initial_state) m.

(** The harts register themselves in the slots [index ..], hart [ids h] in slot
    [h], then the boot hart, in slot 0, runs [bootstrap]. *)
Fixpoint register_harts (ids : nat -> Z) (index count : nat) : K unit :=
  match count with
  | O => mret tt
  | S n =>
      _ ← hart_initialize (ids index) (Z.of_nat index) (if (index =? 0)%nat then HartRole.boot else HartRole.secondary);
      register_harts ids (S index) n
  end.
Definition machine_boot (ids : nat -> Z) (count : nat) : K (TrapFrame * Z) :=
  register_harts ids 0 count;; bootstrap (Z.of_nat count).

Definition healthy_state (s : KState) : bool :=
  quiescent s && running_ok s && lineage_ok s && bool_decide (held s = []) && time_initialized s
  && bool_decide (length (harts s) <= length (csrs s))%nat.

Lemma healthy_sound s : healthy_state s = true -> Sound s quiet (flat (roots s)).
Proof.
  unfold healthy_state. rewrite !andb_true_iff. intros (((((Hq&Hr)&Hl)&_)&_)&_).
  split; [by apply quiescent_inv|done|by apply running_ok_spec|by apply lineage_ok_spec].
Qed.

Lemma healthy_state_spec s : healthy_state s = true -> Inv s quiet /\ Running None s /\ Ready s.
Proof.
  intros H. pose proof (healthy_sound s H) as Hso. unfold healthy_state in H. rewrite !andb_true_iff, !bool_decide_eq_true in H.
  destruct H as (((((_&_)&_)&?)&?)&Hc). split_and!; [apply Hso|apply Hso|]. split; try done.
  - by exists quiet, (flat (roots s)).
  - intros h l Hh%lookup_lt_Some. apply lookup_lt_is_Some_2. lia.
Qed.

(** ** A booted machine *)

Definition booted : KState := state_after (machine_boot Z.of_nat 2) (demo_env 0) (cold (fun _ => 0)).

Lemma booted_healthy : healthy_state booted = true.
Proof. vm_compute. reflexivity. Qed.

Lemma booted_sound : Sound booted quiet (flat (roots booted)).
Proof. apply healthy_sound, booted_healthy. Qed.

Lemma booted_ready : Ready booted.
Proof. apply healthy_state_spec, booted_healthy. Qed.

Definition check_calling (h : nat) (s : KState) : bool :=
  match harts s !! h with
  | Some l =>
      match current_task l, idle_task l with
      | Some i, Some _ => match tasks s !! i with
                          | Some t => h_scheduler l && negb (t_idle t) && bool_decide (is_Some (t_tracker t))
                          | None => false
                          end
      | _, _ => false
      end
  | None => false
  end.

Lemma check_calling_spec e s : check_calling (e_hart e) s = true ->
  exists i k it hl t, calling e i it hl t s /\ t_tracker t = Some k.
Proof.
  unfold check_calling. destruct (harts s !! e_hart e) as [l|] eqn:Hl; [|done].
  destruct (current_task l) as [i|] eqn:Hc; [|done]. destruct (idle_task l) as [it|] eqn:Hit; [|done].
  destruct (tasks s !! i) as [t|] eqn:Ht; [|done]. rewrite !andb_true_iff, negb_true_iff, bool_decide_eq_true.
  intros ((?&?)&[k Hk]). by exists i, k, it, l, t.
Qed.

Lemma booted_calling : exists i k it hl t, calling (demo_env 0) i it hl t booted /\ t_tracker t = Some k.
Proof. apply check_calling_spec. vm_compute. reflexivity. Qed.
