(* ===== verification/Firmware.v ===== *)
(** * The firmware's main program

    Models [microkernel/core/firmware_main.cpp] up to the regression probes: the
    boot hart registers itself, brings up the contained memory domain, counts
    the harts in the device tree, waits for them and prints their table.  The
    probes that follow and the choice of the final program by build are not
    modelled; [Boot] continues with [Kernel::bootstrap]. *)
From stdpp Require Import base tactics sets functions list gmap strings.
From Stdlib Require Import ZArith Lia Ascii.
From S2P Require Import Prelude Memory Bytes Lifecycle PageManager Sv39 Vmm Format Console Fdt KernelTypes KernelInv Demo RunQueue DelayQueue Scheduler TaskContext TimeManager Ipc TaskManager Arch Syscall SyscallProps Boot.
Local Open Scope Z_scope.

Section firmware.
(** The linker's [__text_start], and how many bytes from the device tree's
    address on can be read. *)
Context (text_start dtb_limit : Z).

(** The loop polls until the other harts have published their state; one that
    never does leaves the boot hart in the loop. *)
Definition wait_until_all_online (expected_count : Z) : K unit :=
  if (expected_count =? 0) || (Z.of_nat kMaxHarts <? expected_count) then park
  else ok ← all_online expected_count; if ok : bool then mret tt else diverge.

Definition kset_uart_mirror (enabled : bool) : K unit := modify (fun s => s <| console := set_uart_mirror enabled (console s) |>).

Definition memory_banner : list ascii :=
  newline :: marker "[Jixia][M00-07][Memory]" ++ marker "state       : %s" ++ marker "contained   : [%p, %p)"
  ++ marker "ddr         : %s" ++ marker "ddr alloc   : %s".

Definition initialize_memory_foundation : K unit :=
  modify (fun s => s <| memsys := (memsys s) <| ms_lifecycle := initialize_contained text_start (ms_lifecycle (memsys s)) |> |>);;
  ms ← gets memsys;
  let state := ms_lifecycle ms in
  kprintk memory_banner
    [AText (Some (text (domain_name (domain state)))); AWord (pr_base (contained state));
     AWord (u64 (pr_base (contained state) + pr_size (contained state))); AText (Some (text (ddr_state_name (ddr state))));
     AText (Some (text (if ddr_allocation_enabled state then "enabled" else "disabled")))];;
  if negb (validate_contained_invariants text_start state) then
    kprintk (marker "M00_07_CONTAINED_MEMORY: FAIL") [];; park
  else kprintk (marker "M00_07_CONTAINED_MEMORY: PASS") [].

Fixpoint print_harts (index count : nat) : K unit :=
  match count with
  | O => mret tt
  | S n =>
      local ← get_hart index;
      kprintk (marker "slot %u : hart=%p role=%s stack=[%p, %p)")
        [AWord (h_index local); AWord (hart_id local);
         AText (Some (text (if bool_decide (h_role local = HartRole.boot) then "boot" else "secondary")));
         AWord (h_stack_bottom local); AWord (h_stack_top local)];;
      print_harts (S index) n
  end.

Definition print_hart_table (present_count : Z) : K unit :=
  kprintk (newline :: marker "[Jixia][M00-05][SMP]") [];;
  print_harts 0 (Z.to_nat present_count);;
  kprintk (marker "SMP_FOUNDATION_TEST: PASS") [].

Definition kcpu_count (dtb_address : Z) : K CpuCountResult := fun _ s =>
  match cpu_count dtb_address (mkBlob (fun o => ms_mem (memsys s) (dtb_address + o)) dtb_limit) tt with
  | Done r _ => Done r s
  | Parked => Parked
  | Undefined => Undefined
  | Diverged => Diverged
  end.

Definition boot_banner : list ascii :=
  newline :: marker "Jixia M00" ++ marker "boot hart   : %p" ++ marker "boot slot   : %u" ++ marker "dtb         : %p"
  ++ marker "microkernel : entered (codename: Mozi)" ++ marker "smp capacity: %u hart(s)" ++ marker "smp present : %u hart(s)".

(** [boot_main] up to [SMP_POPULATION_TEST]; the result is [present_count]. *)
Definition boot_population (id dtb_address index : Z) : K Z :=
  _ ← hart_initialize id index HartRole.boot;
  kset_uart_mirror true;;
  initialize_memory_foundation;;
  result ← kcpu_count dtb_address;
  if negb (cc_valid result) then
    kprintk (marker "smp         : invalid DTB" ++ marker "SMP_POPULATION_TEST: FAIL") [];; park
  else if (cc_count result =? 0) || (Z.of_nat kMaxHarts <? cc_count result) then
    kprintk (marker "smp         : unsupported CPU count %u (capacity %u)" ++ marker "SMP_POPULATION_TEST: FAIL")
      [AWord (cc_count result); AWord (Z.of_nat kMaxHarts)];;
    park
  else
    let present_count := u32 (cc_count result) in
    kprintk boot_banner
      [AWord id; AWord index; AWord dtb_address; AWord (Z.of_nat kMaxHarts); AWord present_count];;
    wait_until_all_online present_count;;
    print_hart_table present_count;;
    kprintk (marker "SMP_POPULATION_TEST: PASS") [];;
    mret present_count.

(** [secondary_main] up to the probes. *)
Definition secondary_registration (id index : Z) : K nat := hart_initialize id index HartRole.secondary.

(** ** What the population step establishes *)

(** Only the console differs. *)
Definition but_console (s s' : KState) : Prop := exists c, s' = s <| console := c |>.

Lemma kprint_spec format args (Q : unit -> KState -> Prop) e s :
  fits (wanted (S (length format)) format) args = true ->
  (forall s', but_console s s' -> Q tt s') -> wp False (kprintk format args) Q e s.
Proof. intros Hf HQ. apply kprintk_spec; [done|]. intros c. apply HQ. by exists c. Qed.

Lemma but_console_trans s1 s2 s3 : but_console s1 s2 -> but_console s2 s3 -> but_console s1 s3.
Proof. intros [c1 ->] [c2 ->]. by exists c2. Qed.

Lemma print_harts_spec index n (Q : unit -> KState -> Prop) e s :
  (index + n <= length (harts s))%nat -> (forall s', but_console s s' -> Q tt s') -> wp False (print_harts index n) Q e s.
Proof.
  revert index s. induction n as [|n IH]; intros index s Hn HQ; cbn [print_harts].
  { apply wp_ret, HQ. exists (console s). by destruct s. }
  destruct (lookup_lt_is_Some_2 (harts s) index ltac:(lia)) as [l Hl]. apply wp_bind. eapply wp_get_hart; [exact Hl|].
  apply wp_bind, kprint_spec; [by vm_compute|]. intros s1 [c1 ->]. apply IH; [rproj; lia|]. intros s2 [c2 ->]. apply HQ. by exists c2.
Qed.

(** Hart [h] of [s] is online. *)
Definition is_online (s : KState) (h : nat) : Prop := h_state <$> harts s !! h = Some HartStatus.online.

Lemma online_from_spec index n (Q : bool -> KState -> Prop) e s :
  (forall h, (index <= h < index + n)%nat -> is_online s h) -> Q true s -> wp False (online_from index n) Q e s.
Proof.
  revert index. induction n as [|n IH]; intros index Hon HQ; cbn [online_from]; [by apply wp_ret|].
  destruct (harts s !! index) as [l|] eqn:Hl; [|specialize (Hon index ltac:(lia)); unfold is_online in Hon; by rewrite Hl in Hon].
  apply wp_bind. eapply wp_get_hart; [exact Hl|]. rewrite bool_decide_false.
  - apply IH; [|done]. intros h Hh. apply Hon. lia.
  - intros Hne. specialize (Hon index ltac:(lia)). unfold is_online in Hon. rewrite Hl in Hon. simpl in Hon. congruence.
Qed.

(** The boot hart has entered slot [index] and the contained domain. *)
Record populated (index : nat) (n : nat) (s s' : KState) : Prop := {
  pp_lifecycle : ms_lifecycle (memsys s') = initialize_contained text_start (ms_lifecycle (memsys s));
  pp_memory : ms_mem (memsys s') = ms_mem (memsys s);
  pp_online : forall h, (h < n)%nat -> is_online s' h;
  pp_boot : h_role <$> harts s' !! index = Some HartRole.boot;
  pp_others : forall h, h <> index -> harts s' !! h = harts s !! h;
}.

(** The first half: registration and the contained domain. *)
Lemma foundation_spec {A} id index (k : unit -> K A) (Q : A -> KState -> Prop) (pk : Prop) e s :
  0 <= text_start -> text_start + kQemuContainedWindowSize < 2 ^ 64 -> 0 <= index < Z.of_nat kMaxHarts ->
  length (harts s) = kMaxHarts ->
  (forall s', populated (Z.to_nat index) 0 s s' -> is_online s' (Z.to_nat index) -> length (harts s') = kMaxHarts -> wp pk (k tt) Q e s') ->
  wp pk (_ ← hart_initialize id index HartRole.boot; kset_uart_mirror true;; u ← initialize_memory_foundation; k u) Q e s.
Proof.
  intros Ht Hend Hi Hlen HQ. unfold hart_initialize. rewrite (proj2 (Z.leb_gt _ _)) by lia.
  destruct (lookup_lt_is_Some_2 (harts s) (Z.to_nat index) ltac:(lia)) as [l Hl].
  apply wp_bind, wp_bind, wp_ask, wp_bind, wp_mod_hart; [by exists l|].
  apply wp_bind, wp_mod_hart; [rproj; rewrite lookup_alter_is_Some; by exists l|]. apply wp_ret, wp_bind, wp_modify.
  unfold initialize_memory_foundation. apply wp_bind, wp_bind, wp_modify, wp_bind, wp_gets. cbv zeta. rproj.
  set (g := initialize_contained text_start _). match goal with |- wp _ _ _ _ ?x => set (s1 := x) end.
  assert (validate_contained_invariants text_start g = true) as Hv.
  { unfold g. apply (validators_agree_with_lifecycle text_start (initialize_contained text_start initial_state)); try done.
    - apply reach_boot. }
  assert (populated (Z.to_nat index) 0 s s1 /\ is_online s1 (Z.to_nat index) /\ length (harts s1) = kMaxHarts) as (Hp&Ho&Hl1).
  { unfold s1, is_online. rproj. rewrite !length_alter. split_and!; try done.
    - split; rproj; try done; [intros h Hh; lia|rewrite !list_lookup_alter_eq, Hl; done|].
      intros h Hh. by rewrite !list_lookup_alter_ne.
    - by rewrite !list_lookup_alter_eq, Hl. }
  clearbody s1. apply wp_bind, wp_any, kprint_spec; [by vm_compute|]. intros s2 [c2 ->]. rewrite Hv. cbn [negb].
  apply wp_any, kprint_spec; [by vm_compute|]. intros s3 [c3 ->]. apply HQ; try done. destruct Hp. by split.
Qed.

Lemma boot_population_spec id dtb index l strs e s (Q : Z -> KState -> Prop) :
  0 <= text_start -> text_start + kQemuContainedWindowSize < 2 ^ 64 -> 0 <= index < Z.of_nat kMaxHarts ->
  length (harts s) = kMaxHarts -> dtb <> 0 ->
  device_tree (mkBlob (fun o => ms_mem (memsys s) (dtb + o)) dtb_limit) l strs -> all_well_formed strs l ->
  (forall h, (h < cpu_total strs l)%nat -> h <> Z.to_nat index -> is_online s h) ->
  (forall s', (1 <= cpu_total strs l <= kMaxHarts)%nat -> populated (Z.to_nat index) (cpu_total strs l) s s' ->
     Q (Z.of_nat (cpu_total strs l)) s') ->
  wp (cpu_total strs l = 0 \/ kMaxHarts < cpu_total strs l)%nat (boot_population id dtb index) Q e s.
Proof.
  intros Ht Hend Hi Hlen Hd Hdt Hwf Hon HQ. set (n := cpu_total strs l) in *.
  unfold boot_population. apply (foundation_spec id index); try done. intros s1 Hp Ho Hl1.
  assert (cpu_count dtb (mkBlob (fun o => ms_mem (memsys s1) (dtb + o)) dtb_limit) tt = Done (mkCount (Z.of_nat n) true) tt) as Hcc.
  { rewrite (pp_memory _ _ _ _ Hp). destruct (wp_done _ _ _ _ (cpu_count_wp dtb _ l strs Hd Hdt Hwf)) as (r&[]&Hr&->). exact Hr. }
  apply wp_bind. unfold wp at 1, kcpu_count. rewrite Hcc. cbn [cc_valid cc_count negb].
  destruct (_ || _) eqn:Ec.
  { apply wp_bind, wp_any, kprint_spec; [by vm_compute|]. intros s2 _. apply wp_park.
    apply orb_true_iff in Ec as [?%Z.eqb_eq|?%Z.ltb_lt]; [left|right]; lia. }
  apply orb_false_iff in Ec as [?%Z.eqb_neq ?%Z.ltb_ge]. cbv zeta. rewrite u32_small by (unfold is_u32, kMaxHarts in *; lia).
  apply wp_bind, wp_any, kprint_spec; [by vm_compute|]. intros s2 [c2 ->]. apply wp_bind.
  assert (forall h, (h < n)%nat -> is_online (s1 <| console := c2 |>) h) as Hall.
  { intros h Hh. unfold is_online. rproj. destruct (decide (h = Z.to_nat index)) as [->|Hne]; [done|].
    rewrite (pp_others _ _ _ _ Hp h Hne). by apply Hon. }
  unfold wait_until_all_online, all_online.
  rewrite (proj2 (Z.eqb_neq (Z.of_nat n) 0)), (proj2 (Z.ltb_ge _ _)) by lia. cbn [orb]. apply wp_bind, wp_any.
  apply online_from_spec; [intros h Hh; apply Hall; lia|]. apply wp_ret, wp_bind. unfold print_hart_table.
  apply wp_bind, wp_any, kprint_spec; [by vm_compute|]. intros s3 [c3 ->]. apply wp_bind, wp_any, print_harts_spec; [rproj; unfold kMaxHarts in *; lia|].
  intros s4 [c4 ->]. apply wp_any, kprint_spec; [by vm_compute|]. intros s5 [c5 ->].
  apply wp_bind, wp_any, kprint_spec; [by vm_compute|]. intros s6 [c6 ->]. apply wp_ret, HQ; [lia|].
  destruct Hp as [P1 P2 _ P4 P5]. split; rproj; done.
Qed.
End firmware.

(** ** Properties *)


Lemma device_tree_ext m m' limit l strs :
  (forall o, m' o = m o) -> device_tree (mkBlob m limit) l strs -> device_tree (mkBlob m' limit) l strs.
Proof.
  intros E. assert (forall o, word_at (mkBlob m' limit) o = word_at (mkBlob m limit) o) as Ew
    by (intros o; unfold word_at; cbn [blob_bytes]; by rewrite !E).
  intros []. split; rewrite ?Ew; try done.
  - intros i x Hi. cbn [blob_bytes]. rewrite E. by apply dt_struct.
  - intros i x Hi. cbn [blob_bytes]. rewrite E. by apply dt_strings.
  - intros o. cbn [blob_bytes]. rewrite E. apply dt_bytes.
Qed.

(** A machine of two harts, the second one online, with a device tree in memory. *)
Definition two_harts : KState :=
  state_after (secondary_registration 1 1) (demo_env 1)
    (power_on initial_state (fun a => blob_bytes demo_blob (a - 0x82000000))).

