(* ===== verification/SmpTimer.v ===== *)
(** * The per-hart timer check

    Models [microkernel/core/smp_timer_test.cpp], the regression every boot runs
    before the executive: the boot hart opens the phase, every present hart arms
    its own timer, takes exactly one interrupt and publishes its completion, and
    the boot hart collects them.  Harts run interleaved, one action at a time;
    an enabled timer interrupt may arrive between any two actions.

    The loop of [run_local_timer] is three actions: the test of the count
    ([sleep]), the [wfi] about to be executed ([doze]) and the hart inside it
    ([stalled]).  An interrupt ends the [wfi]; so may the hart by itself, the
    instruction being a hint, and [resumes] says whether this hart does.  With a
    hart that does not, an interrupt between the test and the [wfi] is lost. *)
From stdpp Require Import base tactics sets functions list gmap relations strings.
From Stdlib Require Import ZArith Lia Ascii.
From S2P Require Import Prelude DList Format Console KernelTypes KernelInv Demo RunQueue DelayQueue Scheduler TaskContext TimeManager Ipc TaskManager Arch Syscall SyscallProps.
Local Open Scope Z_scope.

Definition kStopped : Z := 0.
Definition kStarted : Z := 1.
Definition kNotDone : Z := 0.
Definition kDone : Z := 1.
Definition kTimerDeltaTicks : Z := 100000.

(** ** State *)

(** The kernel and the two shared globals. *)
Record Shared := mkShared { sh_kernel : KState; g_start : Z; g_done : list Z }.
#[export] Instance Shared_eta : Eta Shared := fun x => mkShared (sh_kernel x) (g_start x) (g_done x).

Definition T (A : Type) : Type := M Env Shared A.
Definition on_kernel {A} : K A -> T A := zoom sh_kernel (fun k x => x <| sh_kernel := k |>).

(** Where a hart is.  [wait_for_start] starts [run_secondary], [open_phase]
    starts [run_boot]; [count_before] to [publish] are [run_local_timer] and
    [publish_done], which both run.  The arguments are the locals that are live:
    [before], the loop index, [passed]. *)
Inductive Pc :=
  | wait_for_start
  | open_phase | clear_done (index : nat) | start_phase
  | count_before | arm (before : Z) | sleep (before : Z) | doze (before : Z) | stalled (before : Z) | stop (before : Z) | check (before : Z) | publish
  | collect (index : nat) | report (index : nat) (passed : bool) | verdict (passed : bool)
  | finished | halted.
#[export] Instance Pc_eq_dec : EqDecision Pc.
Proof. solve_decision. Defined.

(** ** Actions *)

Definition interrupt_count : K Z := local ← current; mret (machine_timer_interrupt_count local).

(** [g_done[index]]. *)
Definition load_done (index : nat) : T Z := ds ← gets g_done; deref (ds !! index).
Definition store_done (index : nat) (value : Z) : T unit :=
  _ ← load_done index; modify (fun x => x <| g_done := <[index := value]> (g_done x) |>).

Section exec.
(** Whether [wfi] may end without an interrupt, the slot of the boot hart and
    the number of harts. *)
Context (resumes : bool) (boot present : nat).

(** One action of the running hart, and where it goes on. *)
Definition exec (pc : Pc) : T Pc :=
  match pc with
  | wait_for_start => v ← gets g_start; mret (if v =? kStarted then count_before else wait_for_start)
  | open_phase =>
      if (present =? 0)%nat || (kMaxHarts <? present)%nat then park
      else
        on_kernel (kprintk (newline :: marker "[Jixia][Test][SmpTimer]") []);;
        modify (fun x => x <| g_start := kStopped |>);;
        mret (clear_done 0)
  | clear_done index =>
      if (index <? present)%nat then store_done index kNotDone;; mret (clear_done (S index)) else mret start_phase
  | start_phase => modify (fun x => x <| g_start := kStarted |>);; mret count_before
  | count_before => before ← on_kernel interrupt_count; mret (arm before)
  | arm before => on_kernel (arm_once kTimerDeltaTicks);; mret (sleep before)
  | sleep before => now ← on_kernel interrupt_count; mret (if now =? before then doze before else stop before)
  | doze before => mret (stalled before)
  | stalled before => mret (if resumes then sleep before else stalled before)
  | stop before => on_kernel disable_global_interrupts;; mret (check before)
  | check before =>
      after ← on_kernel interrupt_count;
      if negb (after =? u64 (before + 1)) then park else mret publish
  | publish =>
      e ← ask; local ← on_kernel current;
      store_done (Z.to_nat (h_index local)) kDone;;
      mret (if (e_hart e =? boot)%nat then collect 0 else finished)
  | collect index =>
      if (index <? present)%nat then
        v ← load_done index; mret (if v =? kDone then collect (S index) else collect index)
      else mret (report 0 true)
  | report index passed =>
      if (index <? present)%nat then
        local ← on_kernel (get_hart index);
        let count := machine_timer_interrupt_count local in
        on_kernel (kprintk (marker "slot %u : hart=%p timer_count=%lu") [AWord (h_index local); AWord (hart_id local); AWord count]);;
        mret (report (S index) (if negb (count =? 1) then false else passed))
      else mret (verdict passed)
  | verdict passed =>
      if negb passed then on_kernel (kprintk (marker "SMP_TIMER_TEST: FAIL") []);; park
      else on_kernel (kprintk (marker "SMP_TIMER_TEST: PASS") []);; mret finished
  | finished | halted => mret pc
  end.

(** ** Interleaving *)

Record Machine := mkMachine { mc_shared : Shared; mc_pcs : list Pc }.

(** A hart whose action parks, dereferences null or never ends goes no further. *)
Definition act (e : Env) (pc : Pc) (x : Shared) : Pc * Shared :=
  match exec pc e x with Done pc' x' => (pc', x') | Parked | Undefined | Diverged => (halted, x) end.

Definition timer_on (c : Csr) : bool := negb (Z.land (mie c) mie_mtie =? 0).
Definition interrupts_on (c : Csr) : bool := negb (Z.land (mstatus c) mstatus_mie =? 0).

(** Where a hart goes on after its trap handler returns: past a [wfi] it was in. *)
Definition after_trap (pc : Pc) : Pc := match pc with stalled before => sleep before | _ => pc end.

Inductive step : Machine -> Machine -> Prop :=
| step_hart e x pcs pc pc' x' :
    pcs !! e_hart e = Some pc -> act e pc x = (pc', x') ->
    step (mkMachine x pcs) (mkMachine x' (<[e_hart e := pc']> pcs))
| step_interrupt e x pcs pc c k :
    pcs !! e_hart e = Some pc -> csrs (sh_kernel x) !! e_hart e = Some c -> timer_on c = true -> interrupts_on c = true ->
    handle_interrupt e (sh_kernel x) = Done tt k ->
    step (mkMachine x pcs) (mkMachine (x <| sh_kernel := k |>) (<[e_hart e := after_trap pc]> pcs)).
End exec.

(** ** What the timer operations do *)

(** The timer of one hart. *)
Record View := mkView { v_index : Z; v_count : Z; v_timer : bool; v_global : bool }.

Definition view (k : KState) (h : nat) : option View :=
  l ← harts k !! h; c ← csrs k !! h;
  Some (mkView (h_index l) (machine_timer_interrupt_count l) (timer_on c) (interrupts_on c)).

Lemma view_Some k h v : view k h = Some v <-> exists l c, harts k !! h = Some l /\ csrs k !! h = Some c /\
  v = mkView (h_index l) (machine_timer_interrupt_count l) (timer_on c) (interrupts_on c).
Proof.
  unfold view. split.
  - destruct (harts k !! h) as [l|]; [|done]. destruct (csrs k !! h) as [c|]; [|done]. intros [= <-]. by exists l, c.
  - by intros (l&c&->&->&->).
Qed.

(** [k'] is [k] but for the timer of [h]. *)
Definition only (h : nat) (v : View) (k k' : KState) : Prop :=
  view k' h = Some v /\ forall j, j <> h -> view k' j = view k j.

Lemma on_bit x b : 0 < b -> (Z.land (Z.lor x b) b =? 0) = false.
Proof. intros Hb. apply Z.eqb_neq. rewrite Z.land_comm, Z.land_lor_distr_r, Z.land_diag. intros H%Z.lor_eq_0_iff. lia. Qed.
Lemma off_bit x b : (Z.land (Z.ldiff x b) b =? 0) = true.
Proof. apply Z.eqb_eq. by rewrite Z.land_ldiff. Qed.

Lemma only_intro h l c v k k' :
  harts k' !! h = Some l -> csrs k' !! h = Some c ->
  v = mkView (h_index l) (machine_timer_interrupt_count l) (timer_on c) (interrupts_on c) ->
  (forall j, j <> h -> harts k' !! j = harts k !! j) -> (forall j, j <> h -> csrs k' !! j = csrs k !! j) -> only h v k k'.
Proof. intros Hl Hc -> Eh Ec. split; [apply view_Some; by exists l, c|]. intros j Hj. unfold view. by rewrite Eh, Ec. Qed.

Section timer.
Context (e : Env) (k : KState) (v : View) (Hv : view k (e_hart e) = Some v).

Lemma interrupt_count_spec (Q : Z -> KState -> Prop) : Q (v_count v) k -> wp False interrupt_count Q e k.
Proof. apply view_Some in Hv as (l&c&Hl&Hc&->). intros HQ. unfold interrupt_count, current. ksteps. done. Qed.

(** Closes the frame conditions of [only_intro]. *)
Ltac others := intros j Hj; rproj; by rewrite ?list_lookup_alter_ne.

Lemma arm_once_spec d (Q : unit -> KState -> Prop) :
  (forall k', only (e_hart e) (mkView (v_index v) (v_count v) true true) k k' -> Q tt k') -> wp False (arm_once d) Q e k.
Proof.
  apply view_Some in Hv as (l&c&Hl&Hc&->). cbn [v_index v_count]. intros HQ.
  unfold arm_once, program_current_hart, arm_task_deadline, enable_machine_timer_interrupt, enable_global_interrupts, current, read_time, set_compare.
  ksteps. apply wp_mod_csr; [by exists c|]. ksteps. apply wp_mod_csr; [rproj; rewrite list_lookup_alter_eq, Hc; by eexists|].
  apply HQ. eapply only_intro; [exact Hl|rproj; by rewrite !list_lookup_alter_eq, Hc| |others|others].
  unfold timer_on, interrupts_on. rproj. by rewrite !on_bit.
Qed.

Lemma disable_global_spec (Q : unit -> KState -> Prop) :
  (forall k', only (e_hart e) (mkView (v_index v) (v_count v) (v_timer v) false) k k' -> Q tt k') -> wp False disable_global_interrupts Q e k.
Proof.
  apply view_Some in Hv as (l&c&Hl&Hc&->). cbn [v_index v_count v_timer]. intros HQ. unfold disable_global_interrupts. ksteps.
  apply wp_mod_csr; [by exists c|]. apply HQ. eapply only_intro; [exact Hl|rproj; by rewrite !list_lookup_alter_eq, Hc| |others|others].
  unfold timer_on, interrupts_on. rproj. by rewrite off_bit.
Qed.

Lemma handle_interrupt_view (Q : unit -> KState -> Prop) :
  (forall k', only (e_hart e) (mkView (v_index v) (u64 (v_count v + 1)) false (v_global v)) k k' -> Q tt k') -> wp False handle_interrupt Q e k.
Proof.
  apply view_Some in Hv as (l&c&Hl&Hc&->). cbn [v_index v_count v_global]. intros HQ.
  unfold handle_interrupt, disable_machine_timer_interrupt, disarm, set_compare. ksteps. apply wp_mod_csr; [by exists c|]. ksteps.
  apply HQ. eapply only_intro; [rproj; by rewrite list_lookup_alter_eq, Hl|rproj; by rewrite list_lookup_alter_eq, Hc| |others|others].
  unfold timer_on, interrupts_on. rproj. by rewrite off_bit.
Qed.
End timer.

(** ** The protocol *)

(** The boot hart has not opened the phase yet. *)
Definition early (pc : Pc) : bool :=
  match pc with open_phase | clear_done _ | start_phase => true | _ => false end.
(** The hart has published its completion. *)
Definition published (pc : Pc) : bool :=
  match pc with collect _ | report _ _ | verdict _ | finished => true | _ => false end.

(** What each point of the program knows of the hart's own timer: one interrupt
    is taken, between [arm] and [stop]. *)
Definition local_ok (pc : Pc) (v : View) : Prop :=
  match pc with
  | wait_for_start | open_phase | clear_done _ | start_phase | count_before => v_count v = 0 /\ v_timer v = false
  | arm before => before = 0 /\ v_count v = 0 /\ v_timer v = false
  | sleep before | doze before | stalled before => before = 0 /\ (v_count v = 0 /\ v_timer v = true /\ v_global v = true \/ v_count v = 1 /\ v_timer v = false)
  | stop before | check before => before = 0 /\ v_count v = 1 /\ v_timer v = false
  | publish | collect _ | report _ _ | verdict _ | finished => v_count v = 1 /\ v_timer v = false
  | halted => False
  end.

Section protocol.
Context (resumes : bool) (boot n : nat).

(** Only the boot hart runs [run_boot]. *)
Definition role_ok (h : nat) (pc : Pc) : Prop :=
  match pc with
  | wait_for_start => h <> boot
  | open_phase | clear_done _ | start_phase | collect _ | report _ _ | verdict _ => h = boot
  | _ => True
  end.

Definition all_published (pcs : list Pc) (bound : nat) : Prop :=
  forall j pc, (j < bound)%nat -> pcs !! j = Some pc -> published pc = true.

(** What the boot hart's loops have established. *)
Definition boot_ok (done : list Z) (pcs : list Pc) (pc : Pc) : Prop :=
  match pc with
  | clear_done i => (i <= n)%nat /\ forall j, (j < i)%nat -> done !! j = Some kNotDone
  | start_phase => forall j, (j < n)%nat -> done !! j = Some kNotDone
  | collect i => (i <= n)%nat /\ all_published pcs i
  | report i passed => (i <= n)%nat /\ passed = true /\ all_published pcs n
  | verdict passed => passed = true /\ all_published pcs n
  | finished => all_published pcs n
  | _ => True
  end.

(** Before the phase opens every other hart waits; afterwards [g_done] says
    exactly which harts have published. *)
Definition phase_ok (x : Shared) (pcs : list Pc) (pb : Pc) : Prop :=
  if early pb then g_start x = kStopped /\ forall h pc, h <> boot -> pcs !! h = Some pc -> pc = wait_for_start
  else g_start x = kStarted /\ forall h pc, pcs !! h = Some pc -> g_done x !! h = Some (if published pc then kDone else kNotDone).

Definition hart_ok (x : Shared) (h : nat) (pc : Pc) : Prop :=
  exists v, view (sh_kernel x) h = Some v /\ v_index v = Z.of_nat h /\ local_ok pc v /\ role_ok h pc.

Record protocol (m : Machine) : Prop := {
  pr_present : (boot < n <= kMaxHarts)%nat;
  pr_length : length (mc_pcs m) = n;
  pr_done : length (g_done (mc_shared m)) = kMaxHarts;
  pr_harts : forall h pc, mc_pcs m !! h = Some pc -> hart_ok (mc_shared m) h pc;
  pr_phase : forall pb, mc_pcs m !! boot = Some pb -> phase_ok (mc_shared m) (mc_pcs m) pb;
  pr_boot : forall pb, mc_pcs m !! boot = Some pb -> boot_ok (g_done (mc_shared m)) (mc_pcs m) pb;
}.

(** A change of hart [h] and its timer only. *)
Lemma harts_update x x' (pcs : list Pc) h pc' v' :
  (forall j pc, pcs !! j = Some pc -> hart_ok x j pc) -> only h v' (sh_kernel x) (sh_kernel x') ->
  v_index v' = Z.of_nat h -> local_ok pc' v' -> role_ok h pc' ->
  forall j pc, <[h := pc']> pcs !! j = Some pc -> hart_ok x' j pc.
Proof.
  intros Hall [Hv Ho] Hi Hl Hr j pc [[-> ->]|[Hne Hj]]%insert_cases; [by exists v'|].
  destruct (Hall j pc Hj) as (v&E&?&?&?). exists v. by rewrite Ho.
Qed.

Lemma all_published_update pcs h pc pc' bound :
  pcs !! h = Some pc -> (published pc = true -> published pc' = true) -> all_published pcs bound -> all_published (<[h := pc']> pcs) bound.
Proof.
  intros Hh Himp Hall j q Hj [[-> ->]|[Hne Hq]]%insert_cases; [apply Himp; by eapply Hall|by eapply Hall].
Qed.

Lemma boot_ok_update done pcs h pc pc' pb :
  pcs !! h = Some pc -> (published pc = true -> published pc' = true) -> boot_ok done pcs pb -> boot_ok done (<[h := pc']> pcs) pb.
Proof.
  intros Hh Himp. pose proof (fun b => all_published_update pcs h pc pc' b Hh Himp) as H.
  destruct pb; cbn [boot_ok]; naive_solver.
Qed.

(** An action that touches neither global and publishes nothing. *)
Lemma local_step x x' pcs h pc pc' v' :
  protocol (mkMachine x pcs) -> pcs !! h = Some pc -> early pc = false -> early pc' = false -> published pc' = published pc ->
  (pc = wait_for_start -> pc' = wait_for_start \/ g_start x = kStarted) ->
  g_start x' = g_start x -> g_done x' = g_done x -> only h v' (sh_kernel x) (sh_kernel x') ->
  v_index v' = Z.of_nat h -> local_ok pc' v' -> role_ok h pc' -> (h = boot -> boot_ok (g_done x) pcs pc') ->
  protocol (mkMachine x' (<[h := pc']> pcs)).
Proof.
  intros [P1 P2 P3 P4 P5 P6] Hh He He' Hp Hw Es Ed Hon Hi Hl Hr Hb. cbn [mc_shared mc_pcs] in *.
  split; cbn [mc_shared mc_pcs]; [done|by rewrite length_insert|by rewrite Ed|by eapply harts_update| |].
  - intros pb Hpb. unfold phase_ok. rewrite Es, Ed. apply insert_cases in Hpb as [[-> ->]|[Hne Hpb]].
    + rewrite He'. specialize (P5 pc Hh). unfold phase_ok in P5. rewrite He in P5. destruct P5 as [P5 P5']. split; [done|].
      intros j q [[-> ->]|[Hj Hq]]%insert_cases; [rewrite Hp|]; by apply P5'.
    + specialize (P5 pb Hpb). unfold phase_ok in P5. destruct (early pb); destruct P5 as [P5 P5']; (split; [done|]).
      * intros j q Hj [[-> ->]|[Hj' Hq]]%insert_cases; [|by eapply P5'].
        destruct (Hw (P5' h pc Hj Hh)) as [|H]; [done|]. rewrite P5 in H. done.
      * intros j q [[-> ->]|[Hj Hq]]%insert_cases; [rewrite Hp|]; by apply P5'.
  - intros pb Hpb. rewrite Ed. apply insert_cases in Hpb as [[<- ->]|[Hne Hpb]].
    + apply (boot_ok_update _ _ _ pc); [done|by rewrite Hp|]. by apply Hb.
    + apply (boot_ok_update _ _ _ pc); [done|by rewrite Hp|]. by apply P6.
Qed.

Lemma wp_kernel {A} pk (m : K A) (Q : A -> Shared -> Prop) e x :
  wp pk m (fun a k => Q a (x <| sh_kernel := k |>)) e (sh_kernel x) -> wp pk (on_kernel m) Q e x.
Proof. intros H. unfold on_kernel. by apply wp_zoom. Qed.

(** A message leaves every timer alone. *)
Lemma wp_message pk format args (Q : unit -> Shared -> Prop) e x :
  fits (wanted (S (length format)) format) args = true ->
  (forall k, (forall j, view k j = view (sh_kernel x) j) -> Q tt (x <| sh_kernel := k |>)) ->
  wp pk (on_kernel (kprintk format args)) Q e x.
Proof. intros Hf HQ. apply wp_any, wp_kernel, kprintk_spec; [done|]. intros c. by apply HQ. Qed.

Lemma wp_store_done pk i value (Q : unit -> Shared -> Prop) e x :
  (i < length (g_done x))%nat -> Q tt (x <| g_done := <[i := value]> (g_done x) |>) -> wp pk (store_done i value) Q e x.
Proof.
  intros [d Hd]%lookup_lt_is_Some HQ. unfold store_done, load_done. apply wp_bind, wp_bind, wp_gets.
  eapply wp_deref; [exact Hd|]. by apply wp_modify.
Qed.

Section action.
Context (e : Env) (x : Shared) (pcs : list Pc) (pc : Pc).
Context (HP : protocol (mkMachine x pcs)) (Hpc : pcs !! e_hart e = Some pc).
Abbreviation h := (e_hart e).
Abbreviation post := (fun pc' x' => protocol (mkMachine x' (<[h := pc']> pcs))).

(** The actions of [run_local_timer]. *)
Lemma local_actions :
  match pc with count_before | arm _ | sleep _ | doze _ | stalled _ | stop _ | check _ => True | _ => False end ->
  wp False (exec resumes boot n pc) post e x.
Proof.
  intros Hk. destruct (pr_harts _ HP h pc Hpc) as (v&Hv&Hi&Hl&Hr).
  destruct pc; try done; cbn [exec local_ok] in *.
  4,5: apply wp_ret; try destruct resumes; eapply (local_step x _ _ _ _ _ v); try done; cbn [early published]; exact Hpc || done.
  all: apply wp_bind, wp_kernel.
  - eapply interrupt_count_spec; [exact Hv|]. apply wp_ret. eapply (local_step x _ _ _ count_before); try done. cbn [local_ok]; naive_solver.
  - eapply arm_once_spec; [exact Hv|]. intros k' Hon. apply wp_ret. eapply (local_step x _ _ _ (arm before)); try done.
    cbn [local_ok v_count v_timer v_global]. naive_solver.
  - eapply interrupt_count_spec; [exact Hv|]. apply wp_ret. destruct Hl as [-> Hl].
    destruct (Z.eqb_spec (v_count v) 0); eapply (local_step x _ _ _ (sleep 0)); try done; cbn [local_ok]; naive_solver.
  - eapply disable_global_spec; [exact Hv|]. intros k' Hon. apply wp_ret. eapply (local_step x _ _ _ (stop before)); try done.
  - eapply interrupt_count_spec; [exact Hv|]. destruct Hl as (->&Hc&Ht). rewrite Hc. cbn. apply wp_ret.
    eapply (local_step x _ _ _ (check 0)); try done.
Qed.

Lemma publish_action : pc = publish -> wp False (exec resumes boot n pc) post e x.
Proof.
  intros ->. destruct (pr_harts _ HP h publish Hpc) as (v&Hv&Hi&[Hc Ht]&_). cbn [mc_shared] in Hv.
  pose proof HP as [P1 P2 P3 P4 P5 P6]. cbn [mc_shared mc_pcs] in *. pose proof (lookup_lt_Some _ _ _ Hpc) as Hlt.
  pose proof Hv as (l&c&Hl&_&Ev)%view_Some. cbn [exec]. apply wp_bind, wp_ask, wp_bind, wp_kernel. unfold current.
  apply wp_bind, wp_current_hart. eapply wp_get_hart; [exact Hl|].
  assert (h_index l = Z.of_nat h) as -> by (by rewrite Ev in Hi). rewrite Nat2Z.id.
  apply wp_bind. apply wp_store_done; [cbn; lia|]. apply wp_ret.
  set (pc' := if (h =? boot)%nat then collect 0 else finished).
  assert (published pc' = true /\ early pc' = false) as [Hp He] by (unfold pc'; by destruct (_ =? _)%nat).
  split; cbn [mc_shared mc_pcs sh_kernel g_done g_start]; [done|by rewrite length_insert|cbn; by rewrite length_insert| | |].
  - apply (harts_update x _ pcs h pc' v); [done| |done| |].
    + by split.
    + unfold pc'. by destruct (_ =? _)%nat.
    + unfold pc'. by destruct (Nat.eqb_spec h boot).
  - intros pb Hpb. unfold phase_ok. cbn.
    assert (exists pb0, pcs !! boot = Some pb0 /\ early pb0 = false /\ early pb = false) as (pb0&Hpb0&He0&Heb).
    { apply insert_cases in Hpb as [[Hb ->]|[Hne Hpb]].
      - exists publish. by rewrite Hb.
      - exists pb. destruct (early pb) eqn:E; [|done]. specialize (P5 pb Hpb). unfold phase_ok in P5. rewrite E in P5.
        by apply (proj2 P5) in Hpc. }
    specialize (P5 pb0 Hpb0). unfold phase_ok in P5. rewrite He0 in P5. rewrite Heb. destruct P5 as [P5 P5']. split; [done|].
    intros j q [[-> ->]|[Hj Hq]]%insert_cases; [rewrite Hp; apply list_lookup_insert_eq; lia|].
    rewrite list_lookup_insert_ne by done. by apply P5'.
  - intros pb Hpb. apply insert_cases in Hpb as [[Hb ->]|[Hne Hpb]].
    + unfold pc'. rewrite <- Hb, Nat.eqb_refl. split; [lia|]. intros j q Hj. lia.
    + apply (boot_ok_update _ _ _ publish); [done|done|].
      pose proof (P6 pb Hpb) as Hb6. pose proof (P5 pb Hpb) as Hb5. unfold phase_ok in Hb5.
      destruct pb; try done; by apply (proj2 Hb5) in Hpc.
Qed.

(** The boot hart before and as it opens the phase. *)
Lemma early_step pc' x' :
  early pc = true -> (forall j, view (sh_kernel x') j = view (sh_kernel x) j) -> length (g_done x') = kMaxHarts ->
  local_ok pc' = local_ok pc -> role_ok h pc' ->
  (if early pc' then g_start x' = kStopped
   else g_start x' = kStarted /\ published pc' = false /\ forall j, (j < n)%nat -> g_done x' !! j = Some kNotDone) ->
  boot_ok (g_done x') pcs pc' -> post pc' x'.
Proof.
  intros He Hview Hd Hl Hr Hs Hb. pose proof HP as [P1 P2 P3 P4 P5 P6]. cbn [mc_shared mc_pcs] in *.
  destruct (P4 h pc Hpc) as (v&Hv&Hi&Hlv&Hrole). assert (h = boot) as Hboot by (by destruct pc).
  pose proof (P5 pc) as Hph. rewrite <- Hboot in Hph. specialize (Hph Hpc). unfold phase_ok in Hph. rewrite He in Hph. destruct Hph as [_ Hwait].
  split; cbn [mc_shared mc_pcs]; [done|by rewrite length_insert|done| | |].
  - apply (harts_update x x' pcs h pc' v); [done| |done|by rewrite Hl|done]. split; [by rewrite Hview|]. intros j _. apply Hview.
  - intros pb [[_ ->]|[Hne _]]%insert_cases; [|by destruct Hne]. unfold phase_ok. destruct (early pc').
    + split; [done|]. intros j q Hj [[-> _]|[_ Hq]]%insert_cases; [by destruct Hj|]. by apply (Hwait j q).
    + destruct Hs as (Hs&Hp&Hs'). split; [done|]. intros j q Hq. rewrite Hs'.
      * apply insert_cases in Hq as [[_ ->]|[Hj Hq]]; [by rewrite Hp|]. rewrite Hboot in Hj. by rewrite (Hwait j q Hj Hq).
      * apply lookup_lt_Some in Hq. rewrite length_insert in Hq. lia.
  - intros pb [[_ ->]|[Hne _]]%insert_cases; [|by destruct Hne].
    apply (boot_ok_update _ _ _ pc); [done| |done]. by destruct pc.
Qed.

Lemma early_actions : early pc = true -> wp False (exec resumes boot n pc) post e x.
Proof.
  intros He. pose proof early_step as Hstep. pose proof HP as [P1 P2 P3 P4 P5 P6]. cbn [mc_shared mc_pcs] in *.
  destruct (P4 h pc Hpc) as (v&_&_&_&Hrole). assert (h = boot) as Hboot by (by destruct pc).
  pose proof (P5 pc) as Hph. rewrite <- Hboot in Hph. specialize (Hph Hpc). unfold phase_ok in Hph. rewrite He in Hph. destruct Hph as [Hstart _].
  pose proof (P6 pc) as Hbo. rewrite <- Hboot in Hbo. specialize (Hbo Hpc).
  destruct pc; try done; cbn [exec].
  - rewrite (proj2 (Nat.eqb_neq n 0)), (proj2 (Nat.ltb_ge kMaxHarts n)) by lia. cbn [orb]. apply wp_bind, wp_message; [by vm_compute|].
    intros k Hk. apply wp_bind, wp_modify, wp_ret. apply Hstep; try done. split; [lia|]. intros j Hj. lia.
  - destruct Hbo as [Hi Hz]. destruct (Nat.ltb_spec index n) as [Hlt|Hge].
    + apply wp_bind. apply wp_store_done; [lia|]. apply wp_ret. apply Hstep; try done; [cbn; by rewrite length_insert|].
      split; [lia|]. intros j Hj. cbn. destruct (decide (j = index)) as [->|]; [apply list_lookup_insert_eq; lia|].
      rewrite list_lookup_insert_ne by done. apply Hz. lia.
    + apply wp_ret. apply Hstep; try done. intros j Hj. apply Hz. lia.
  - apply wp_bind, wp_modify, wp_ret. by apply Hstep.
Qed.

(** The boot hart after its own timer. *)
Lemma late_actions :
  match pc with wait_for_start | collect _ | report _ _ | verdict _ | finished => True | _ => False end ->
  wp False (exec resumes boot n pc) post e x.
Proof.
  intros Hk. pose proof HP as [P1 P2 P3 P4 P5 P6]. cbn [mc_shared mc_pcs] in *.
  destruct (P4 h pc Hpc) as (v&Hv&Hi&Hl&Hr).
  assert (h = boot -> boot_ok (g_done x) pcs pc) as Hbo by (intros E; apply P6; by rewrite <- E).
  assert (forall k pc', (forall j, view k j = view (sh_kernel x) j) -> early pc' = false -> published pc' = published pc ->
    (pc = wait_for_start -> pc' = wait_for_start \/ g_start x = kStarted) -> local_ok pc' v -> role_ok h pc' ->
    (h = boot -> boot_ok (g_done x) pcs pc') -> post pc' (x <| sh_kernel := k |>)) as Hstep.
  { intros k pc' Hview He' Hp Hw Hl' Hr' Hb'. eapply (local_step x _ _ _ pc _ v); try done; [by destruct pc|]. split; [by rewrite Hview|]. intros j _. apply Hview. }
  assert (forall pc', early pc' = false -> published pc' = published pc ->
    (pc = wait_for_start -> pc' = wait_for_start \/ g_start x = kStarted) -> local_ok pc' v -> role_ok h pc' ->
    (h = boot -> boot_ok (g_done x) pcs pc') -> post pc' x) as Hstep'.
  { intros pc' He' Hp Hw Hl' Hr' Hb'. eapply (local_step x _ _ _ pc _ v); try done. by destruct pc. }
  destruct pc; try done; cbn [exec].
  - apply wp_bind, wp_gets, wp_ret. destruct (Z.eqb_spec (g_start x) kStarted); apply Hstep'; auto.
  - destruct (Hbo Hr) as [Hi' Hall]. destruct (Nat.ltb_spec index n) as [Hlt|Hge].
    + destruct (lookup_lt_is_Some_2 pcs index) as [q Hq]; [lia|].
      assert (exists pb, pcs !! boot = Some pb /\ early pb = false) as (pb&Hpb&Heb) by (rewrite <- Hr; eauto).
      pose proof (P5 pb Hpb) as Hph. unfold phase_ok in Hph. rewrite Heb in Hph. destruct Hph as [_ Hph].
      unfold load_done. apply wp_bind, wp_bind, wp_gets. eapply wp_deref; [by apply Hph|]. apply wp_ret.
      destruct (published q) eqn:Eq; cbn [Z.eqb]; apply Hstep'; try done. intros _. split; [lia|].
      intros j p Hj Hp. destruct (decide (j = index)) as [->|]; [congruence|]. apply (Hall j p); [lia|done].
    + apply wp_ret. apply Hstep'; try done. intros _. split; [lia|]. split; [done|]. intros j p Hj Hp. apply (Hall j p); [lia|done].
  - destruct (Hbo Hr) as (Hi'&->&Hall). destruct (Nat.ltb_spec index n) as [Hlt|Hge]; [|apply wp_ret; by apply Hstep'].
    destruct (lookup_lt_is_Some_2 pcs index) as [q Hq]; [lia|]. destruct (P4 index q Hq) as (w&Hw&_&Hlw&_).
    pose proof (Hall index q Hlt Hq) as Hpub. pose proof Hw as (l&c&Hlk&_&Ew)%view_Some.
    apply wp_bind, wp_kernel. eapply wp_get_hart; [exact Hlk|]. cbv zeta. apply wp_bind, wp_message; [by vm_compute|].
    intros k Hkk. apply wp_ret.
    assert (machine_timer_interrupt_count l = 1) as -> by (destruct q; try done; rewrite Ew in Hlw; apply Hlw).
    cbn [Z.eqb Pos.eqb negb]. by apply (Hstep k).
  - destruct (Hbo Hr) as (->&Hall). cbn [negb]. apply wp_bind, wp_message; [by vm_compute|]. intros k Hkk. apply wp_ret.
    by apply Hstep.
  - apply wp_ret. by apply Hstep'.
Qed.

Lemma exec_spec : wp False (exec resumes boot n pc) post e x.
Proof.
  destruct (pr_harts _ HP h pc Hpc) as (v&_&_&Hl&_).
  pose proof early_actions as H1. pose proof late_actions as H2. pose proof local_actions as H3. pose proof publish_action as H4.
  destruct pc; try done; auto.
Qed.
End action.

Lemma act_spec e x pcs pc : protocol (mkMachine x pcs) -> pcs !! e_hart e = Some pc ->
  protocol (mkMachine (act resumes boot n e pc x).2 (<[e_hart e := (act resumes boot n e pc x).1]> pcs)).
Proof.
  intros HP Hpc. pose proof (exec_spec e x pcs pc HP Hpc) as Hw. unfold wp, act in *. by destruct (exec resumes boot n pc e x).
Qed.

(** An interrupt is taken only in the loop that waits for it, and once. *)
Lemma interrupt_spec e x pcs pc c k :
  protocol (mkMachine x pcs) -> pcs !! e_hart e = Some pc -> csrs (sh_kernel x) !! e_hart e = Some c ->
  timer_on c = true -> interrupts_on c = true -> handle_interrupt e (sh_kernel x) = Done tt k ->
  protocol (mkMachine (x <| sh_kernel := k |>) (<[e_hart e := after_trap pc]> pcs)) /\
  exists v, view (sh_kernel x) (e_hart e) = Some v /\ v_count v = 0 /\
    only (e_hart e) (mkView (v_index v) 1 false (v_global v)) (sh_kernel x) k.
Proof.
  intros HP Hpc Hc Ht Hg Hk. destruct (pr_harts _ HP _ pc Hpc) as (v&Hv&Hi&Hl&Hr). cbn [mc_shared] in *.
  assert (v_timer v = true) as Htv. { apply view_Some in Hv as (l&c'&_&Hc'&->). simplify_eq. done. }
  assert ((pc = sleep 0 \/ pc = doze 0 \/ pc = stalled 0) /\ v_count v = 0) as [Hwait Hv0].
  { destruct pc; cbn [local_ok] in Hl; try (exfalso; naive_solver congruence);
      (destruct Hl as [-> [(?&?&?)|[? ?]]]; [auto|congruence]). }
  assert (only (e_hart e) (mkView (v_index v) 1 false (v_global v)) (sh_kernel x) k) as Hon.
  { assert (wp False handle_interrupt (fun _ k' => only (e_hart e) (mkView (v_index v) 1 false (v_global v)) (sh_kernel x) k') e (sh_kernel x)) as Hw.
    { eapply handle_interrupt_view; [exact Hv|]. intros k'. by rewrite Hv0. }
    unfold wp in Hw. by rewrite Hk in Hw. }
  split; [|eauto]. eapply (local_step x _ _ _ pc); try done; destruct Hwait as [->|[->| ->]]; cbn; auto; discriminate.
Qed.

Lemma step_protocol m m' : step resumes boot n m m' -> protocol m -> protocol m'.
Proof.
  intros [e x pcs pc pc' x' Hpc Ha|e x pcs pc c k Hpc Hc Ht Hg Hk] HP.
  - pose proof (act_spec e x pcs pc HP Hpc) as H. by rewrite Ha in H.
  - by eapply interrupt_spec.
Qed.

Lemma steps_protocol m m' : rtc (step resumes boot n) m m' -> protocol m -> protocol m'.
Proof. induction 1; eauto using step_protocol. Qed.

(** *** Completion *)

(** How far a hart, with [count] interrupts taken, is from its end. *)
Definition rank (pc : Pc) (count : Z) : nat :=
  match pc with
  | open_phase => 4 * n + 23 | clear_done i => 3 * n + 22 + (n - i) | start_phase | wait_for_start => 3 * n + 21
  | count_before => 3 * n + 20 | arm _ => 3 * n + 19 | sleep _ => if count =? 0 then 3 * n + 18 else 3 * n + 14
  | doze _ => 3 * n + 16 | stalled _ => 3 * n + 15
  | stop _ => 3 * n + 13 | check _ => 3 * n + 12 | publish => 3 * n + 11
  | collect i => 2 * n + 10 + (n - i) | report i _ => n + 5 + (n - i) | verdict _ => 3
  | finished | halted => 0
  end.

Definition count_of (k : KState) (h : nat) : Z := from_option v_count 0 (view k h).

Definition total (m : Machine) : nat :=
  sum_list (imap (fun h pc => rank pc (count_of (sh_kernel (mc_shared m)) h)) (mc_pcs m)).

(** What a hart waits for. *)
Definition ready (x : Shared) (h : nat) (pc : Pc) : Prop :=
  match pc with
  | wait_for_start => g_start x = kStarted
  | sleep before => count_of (sh_kernel x) h <> before
  | stalled before => resumes = true /\ count_of (sh_kernel x) h <> before
  | collect i => (i < n)%nat -> g_done x !! i = Some kDone
  | finished => False
  | _ => True
  end.

(** The hart has taken its interrupt after the test, and goes into [wfi]. *)
Definition lost (pc : Pc) (count : Z) : Prop :=
  match pc with doze before | stalled before => count <> before | _ => False end.

Definition loses (m : Machine) (h : nat) : Prop :=
  exists pc, mc_pcs m !! h = Some pc /\ lost pc (count_of (sh_kernel (mc_shared m)) h).

(** An action of a hart that does not wait brings it nearer to its end. *)
Lemma exec_moves e x pcs pc :
  protocol (mkMachine x pcs) -> pcs !! e_hart e = Some pc -> ready x (e_hart e) pc ->
  wp False (exec resumes boot n pc) (fun pc' x' =>
    (rank pc' (count_of (sh_kernel x') (e_hart e)) < rank pc (count_of (sh_kernel x) (e_hart e)))%nat /\
    (lost pc' (count_of (sh_kernel x') (e_hart e)) -> lost pc (count_of (sh_kernel x) (e_hart e))) /\
    forall j, j <> e_hart e -> view (sh_kernel x') j = view (sh_kernel x) j) e x.
Proof.
  intros HP Hpc Hrd. destruct (pr_harts _ HP _ pc Hpc) as (v&Hv&Hi&Hl&Hr). cbn [mc_shared] in Hv.
  pose proof (pr_done _ HP) as Hlen. pose proof (pr_present _ HP) as Hn. cbn [mc_shared] in Hlen.
  pose proof (pr_boot _ HP pc) as Hb. cbn [mc_pcs mc_shared] in Hb.
  assert (count_of (sh_kernel x) (e_hart e) = v_count v) as Ec by (unfold count_of; by rewrite Hv).
  destruct pc; cbn [exec ready local_ok] in *; rewrite ?Ec in *; try done.
  - apply wp_bind, wp_gets, wp_ret. rewrite Hrd. cbn. split; [lia|done].
  - rewrite (proj2 (Nat.eqb_neq n 0)), (proj2 (Nat.ltb_ge kMaxHarts n)) by lia. cbn [orb]. apply wp_bind, wp_message; [by vm_compute|].
    intros k Hk. apply wp_bind, wp_modify, wp_ret. split; [cbn; lia|]. split; [done|]. intros j _. apply Hk.
  - destruct Hb as [Hb _]; [by rewrite <- Hr|]. destruct (Nat.ltb_spec index n).
    + apply wp_bind. apply wp_store_done; [lia|]. apply wp_ret. split; [cbn; lia|done].
    + apply wp_ret. split; [cbn; lia|done].
  - apply wp_bind, wp_modify, wp_ret. split; [cbn; lia|done].
  - apply wp_bind, wp_kernel. eapply interrupt_count_spec; [exact Hv|]. apply wp_ret. split; [cbn; lia|done].
  - apply wp_bind, wp_kernel. eapply arm_once_spec; [exact Hv|]. intros k' [_ Hon]. apply wp_ret. split; [cbn; case_match; lia|done].
  - apply wp_bind, wp_kernel. eapply interrupt_count_spec; [exact Hv|]. apply wp_ret. rewrite (proj2 (Z.eqb_neq _ _)) by done.
    split; [cbn; case_match; lia|done].
  - apply wp_ret. split; [cbn; lia|]. by rewrite Ec.
  - apply wp_ret. destruct Hrd as [-> Hne], Hl as [-> _]. split; [|done]. cbn. rewrite Ec, (proj2 (Z.eqb_neq _ _)) by done. lia.
  - apply wp_bind, wp_kernel. eapply disable_global_spec; [exact Hv|]. intros k' [_ Hon]. apply wp_ret. split; [cbn; lia|done].
  - apply wp_bind, wp_kernel. eapply interrupt_count_spec; [exact Hv|]. destruct Hl as (->&Hc&_). rewrite Hc. cbn [negb]. apply wp_ret. split; [cbn; lia|done].
  - pose proof Hv as (l&c&Hlk&_&Ev)%view_Some. apply wp_bind, wp_ask, wp_bind, wp_kernel. unfold current.
    apply wp_bind, wp_current_hart. eapply wp_get_hart; [exact Hlk|].
    assert (h_index l = Z.of_nat (e_hart e)) as -> by (by rewrite Ev in Hi). rewrite Nat2Z.id.
    pose proof (lookup_lt_Some _ _ _ Hpc) as Hlt. pose proof (pr_length _ HP) as Hpl. cbn [mc_pcs] in Hpl.
    apply wp_bind. apply wp_store_done; [cbn; lia|]. apply wp_ret. split; [case_match; cbn; lia|]. split; [by case_match|done].
  - destruct Hb as [Hb _]; [by rewrite <- Hr|]. destruct (Nat.ltb_spec index n) as [Hlt|].
    + unfold load_done. apply wp_bind, wp_bind, wp_gets. eapply wp_deref; [by apply Hrd|]. apply wp_ret. split; [cbn; lia|done].
    + apply wp_ret. split; [cbn; lia|done].
  - destruct Hb as (Hb&_&_); [by rewrite <- Hr|]. destruct (Nat.ltb_spec index n) as [Hlt|]; [|apply wp_ret; split; [cbn; lia|done]].
    pose proof (pr_length _ HP) as Hpl. cbn [mc_pcs] in Hpl. destruct (lookup_lt_is_Some_2 pcs index) as [q Hq]; [lia|].
    destruct (pr_harts _ HP index q Hq) as (w&(l&c&Hlk&_&_)%view_Some&_).
    apply wp_bind, wp_kernel. eapply wp_get_hart; [exact Hlk|]. cbv zeta. apply wp_bind, wp_message; [by vm_compute|].
    intros k Hk. apply wp_ret. split; [cbn; lia|]. split; [done|]. intros j _. apply Hk.
  - destruct Hb as (->&_); [by rewrite <- Hr|]. cbn [negb]. apply wp_bind, wp_message; [by vm_compute|]. intros k Hk. apply wp_ret.
    split; [cbn; lia|]. split; [done|]. intros j _. apply Hk.
Qed.

(** A hart that waits for something else leaves the machine as it is. *)
Lemma exec_waits e x pcs pc :
  protocol (mkMachine x pcs) -> pcs !! e_hart e = Some pc -> ~ ready x (e_hart e) pc ->
  wp False (exec resumes boot n pc) (fun _ x' => x' = x) e x.
Proof.
  intros HP Hpc Hno. destruct (pr_harts _ HP _ pc Hpc) as (v&Hv&Hi&Hl&Hr). cbn [mc_shared] in Hv.
  destruct pc; cbn [exec ready] in *; try (destruct (Hno I)); try (apply wp_ret; reflexivity).
  - by apply wp_bind, wp_gets, wp_ret.
  - apply wp_bind, wp_kernel. eapply interrupt_count_spec; [exact Hv|]. apply wp_ret. by destruct x.
  - destruct (Nat.ltb_spec index n) as [Hlt|Hge]; [|by apply wp_ret].
    unfold load_done. apply wp_bind, wp_bind, wp_gets.
    destruct (lookup_lt_is_Some_2 (g_done x) index) as [d Hd].
    { pose proof (pr_done _ HP) as Hlen. pose proof (pr_present _ HP). cbn [mc_shared] in Hlen. lia. }
    eapply wp_deref; [exact Hd|]. by apply wp_ret.
Qed.

#[local] Instance ready_dec x h pc : Decision (ready x h pc).
Proof. destruct pc; cbn [ready]; apply _. Defined.

(** No action of a hart touches the timer of another. *)
Lemma exec_others e x pcs pc :
  protocol (mkMachine x pcs) -> pcs !! e_hart e = Some pc ->
  wp False (exec resumes boot n pc) (fun _ x' => forall j, j <> e_hart e -> view (sh_kernel x') j = view (sh_kernel x) j) e x.
Proof.
  intros HP Hpc. destruct (decide (ready x (e_hart e) pc)) as [Hr|Hr].
  - eapply wp_mono; [by apply (exec_moves e x pcs)|done|]. by intros ?? (_&_&?).
  - eapply wp_mono; [by apply (exec_waits e x pcs)|done|]. by intros ?? ->.
Qed.

(** [m'] is nearer to the end than [m], and has lost no other interrupt. *)
Definition nearer (m m' : Machine) : Prop :=
  step resumes boot n m m' /\ (total m' < total m)%nat /\ forall h, loses m' h -> loses m h.

Lemma move m h pc : protocol m -> mc_pcs m !! h = Some pc -> ready (mc_shared m) h pc -> exists m', nearer m m'.
Proof.
  destruct m as [x pcs]. cbn [mc_shared mc_pcs]. intros HP Hpc Hrd.
  pose proof (exec_moves (demo_env h) x pcs pc HP Hpc Hrd) as Hw. cbn [e_hart demo_env] in Hw.
  apply wp_done in Hw as (pc'&x'&He&Hlt&Hlost&Hoth). exists (mkMachine x' (<[h := pc']> pcs)). split_and!.
  - apply (step_hart resumes boot n (demo_env h) x pcs pc); [done|]. unfold act. by rewrite He.
  - unfold total. cbn [mc_shared mc_pcs]. apply (sum_imap_update _ _ _ _ pc); [done| |done].
    intros j q Hj. unfold count_of. by rewrite Hoth.
  - intros j (q&Hq&Hl). cbn [mc_shared mc_pcs] in *. apply insert_cases in Hq as [[-> ->]|[Hne Hq]].
    + exists pc. auto.
    + exists q. split; [done|]. unfold count_of in *. cbn [mc_shared]. by rewrite <- Hoth.
Qed.

Lemma wake m h pc before : protocol m -> mc_pcs m !! h = Some pc -> pc = sleep before \/ pc = stalled before ->
  count_of (sh_kernel (mc_shared m)) h = before -> exists m', nearer m m'.
Proof.
  destruct m as [x pcs]. cbn [mc_shared mc_pcs]. intros HP Hpc Hsl Hc.
  destruct (pr_harts _ HP h _ Hpc) as (v&Hv&_&Hl&_). cbn [mc_shared] in Hv.
  assert (before = 0 /\ v_count v = 0 /\ v_timer v = true /\ v_global v = true) as (->&Hv0&Ht&Hg).
  { unfold count_of in Hc. rewrite Hv in Hc. cbn in Hc. destruct Hsl as [-> | ->]; cbn [local_ok] in Hl; naive_solver lia. }
  pose proof Hv as (l&c&_&Hcs&Ev)%view_Some. rewrite Ev in Ht, Hg. cbn in Ht, Hg.
  assert (wp False handle_interrupt (fun _ _ => True) (demo_env h) (sh_kernel x)) as (u&k&Hk&_)%wp_done.
  { by eapply handle_interrupt_view. }
  destruct u. destruct (interrupt_spec (demo_env h) x pcs pc c k HP) as (_&w&Hw&Hw0&Hon&Hoth); try done.
  cbn [e_hart demo_env] in *. assert (after_trap pc = sleep 0) as Ea by (by destruct Hsl as [-> | ->]).
  exists (mkMachine (x <| sh_kernel := k |>) (<[h := after_trap pc]> pcs)). split_and!.
  - by eapply (step_interrupt resumes boot n (demo_env h)).
  - unfold total. cbn [mc_shared mc_pcs sh_kernel]. apply (sum_imap_update _ _ _ _ pc); [done| |].
    + intros j q Hj. unfold count_of. cbn. by rewrite Hoth.
    + unfold count_of. rewrite Hv. change (sh_kernel (x <| sh_kernel := k |>)) with k. rewrite Hon, Ea. cbn. rewrite Hv0.
      destruct Hsl as [-> | ->]; cbn; lia.
  - intros j (q&Hq&Hlo). cbn [mc_shared mc_pcs] in *. apply insert_cases in Hq as [[-> ->]|[Hne Hq]].
    + by rewrite Ea in Hlo.
    + exists q. split; [done|]. unfold count_of in *. cbn in *. by rewrite <- Hoth.
Qed.

(** Nothing is lost, or the harts do not rely on the interrupt. *)
Definition recoverable (m : Machine) : Prop := resumes = true \/ forall h, ~ loses m h.

Lemma ready_or_wake m h pc : protocol m -> recoverable m -> mc_pcs m !! h = Some pc -> pc <> finished ->
  (pc = wait_for_start -> g_start (mc_shared m) = kStarted) ->
  (forall i, pc = collect i -> (i < n)%nat -> g_done (mc_shared m) !! i = Some kDone) -> exists m', nearer m m'.
Proof.
  intros HP Hrec Hpc Hf Hs Hd. set (c := count_of (sh_kernel (mc_shared m)) h).
  destruct (decide (pc = sleep c \/ pc = stalled c)) as [Hw|Hno]; [by eapply wake|].
  eapply move; [done|exact Hpc|]. destruct pc; cbn [ready]; auto; fold c; try (intros <-; tauto).
  assert (c <> before) as Hc by (intros <-; tauto). split; [|done].
  destruct Hrec as [|Hrec]; [done|]. destruct (Hrec h). by exists (stalled before).
Qed.

(** While some hart is not through, some action brings the machine nearer to the
    end. *)
Lemma progress m h pc : protocol m -> recoverable m -> mc_pcs m !! h = Some pc -> pc <> finished ->
  exists m', nearer m m'.
Proof.
  intros HP Hrec Hh Hf. pose proof (pr_present _ HP) as Hn. pose proof (pr_length _ HP) as Hlen.
  destruct (lookup_lt_is_Some_2 (mc_pcs m) boot) as [pb Hpb]; [lia|]. pose proof (pr_phase _ HP pb Hpb) as Hph. unfold phase_ok in Hph.
  destruct (early pb) eqn:Eb. { apply (move m boot pb); [done|done|]. by destruct pb. }
  destruct Hph as [Hstart Hdone].
  assert (forall j q, j <> boot -> mc_pcs m !! j = Some q -> forall i, q <> collect i) as Hsec.
  { intros j q Hj Hq i ->. destruct (pr_harts _ HP j _ Hq) as (v&_&_&_&Hr). by apply Hj. }
  destruct (decide (Exists (fun q => q.1 <> boot /\ q.2 <> finished) (imap pair (mc_pcs m)))) as [Hex|Hall].
  - apply Exists_exists in Hex as ([j q]&Hin&Hj&Hq). apply list_elem_of_lookup in Hin as [i Hi].
    rewrite list_lookup_imap in Hi. apply fmap_Some in Hi as (q'&Hq'&[= -> ->]).
    apply (ready_or_wake m i q'); try done. intros c ->. by destruct (Hsec i (collect c) Hj Hq' c).
  - assert (forall j q, j <> boot -> mc_pcs m !! j = Some q -> q = finished) as Hfin.
    { intros j q Hj Hq. apply dec_stable. intros Hne. apply Hall, Exists_exists. exists (j, q). split; [|done].
      apply list_elem_of_lookup. exists j. by rewrite list_lookup_imap, Hq. }
    assert (h = boot) as -> by (apply dec_stable; intros Hne; by apply Hf, (Hfin h)).
    assert (pc = pb) as -> by congruence. apply (ready_or_wake m boot pb); try done.
    intros i -> Hi. destruct (lookup_lt_is_Some_2 (mc_pcs m) i) as [q Hq]; [lia|]. rewrite (Hdone i q Hq).
    destruct (decide (i = boot)) as [->|Hne]; [by simplify_eq|]. by rewrite (Hfin i q Hne Hq).
Qed.

Lemma completes m : protocol m -> recoverable m ->
  exists m', rtc (step resumes boot n) m m' /\ Forall (fun pc => pc = finished) (mc_pcs m').
Proof.
  remember (total m) as t eqn:Et. revert m Et. induction (lt_wf t) as [t _ IH]. intros m -> HP Hrec.
  destruct (decide (Forall (fun pc => pc = finished) (mc_pcs m))) as [Hall|Hno]; [by exists m|].
  apply not_Forall_Exists in Hno; [|apply _]. apply Exists_exists in Hno as (pc&[h Hh]%list_elem_of_lookup&Hpc).
  destruct (progress m h pc HP Hrec Hh Hpc) as (m1&Hs&Hlt&Hlo).
  destruct (IH (total m1) Hlt m1 eq_refl) as (m2&Hr&Hf); [by eapply step_protocol| |].
  { destruct Hrec as [?|Hrec]; [by left|]. right. intros j Hj. by apply (Hrec j), Hlo. }
  exists m2. split; [by eapply rtc_l|done].
Qed.

(** *** The lost wake-up *)

Lemma loses_stays m m' h : resumes = false -> protocol m -> step resumes boot n m m' -> loses m h -> loses m' h.
Proof.
  intros Hres HP Hs (pc&Hpc&Hl).
  destruct Hs as [e x pcs q q' x' Hq Ha|e x pcs q c k Hq Hc Ht Hg Hk]; cbn [mc_shared mc_pcs] in *.
  - destruct (decide (h = e_hart e)) as [->|Hne].
    + simplify_eq. exists q'. cbn [mc_shared mc_pcs]. rewrite list_lookup_insert_eq by (by eapply lookup_lt_Some).
      destruct q; try done; cbn in Ha; rewrite ?Hres in Ha; by simplify_eq.
    + pose proof (exec_others e x pcs q HP Hq) as Hw. unfold act in Ha. unfold wp in Hw.
      exists pc. cbn [mc_shared mc_pcs]. rewrite list_lookup_insert_ne by done. split; [done|].
      destruct (exec resumes boot n q e x); try done. simplify_eq. unfold count_of in *. by rewrite Hw.
  - destruct (interrupt_spec e x pcs q c k HP Hq Hc Ht Hg Hk) as (_&v&Hv&Hv0&_&Hoth).
    destruct (decide (h = e_hart e)) as [->|Hne].
    + exfalso. simplify_eq. unfold count_of in Hl. rewrite Hv in Hl. cbn in Hl. rewrite Hv0 in Hl.
      destruct (pr_harts _ HP _ q Hq) as (w&_&_&Hlo&_). destruct q; try done; by destruct Hlo as [-> _].
    + exists pc. cbn [mc_shared mc_pcs]. rewrite list_lookup_insert_ne by done. split; [done|].
      unfold count_of in *. cbn. by rewrite Hoth.
Qed.

Lemma lost_forever m m' h : resumes = false -> protocol m -> rtc (step resumes boot n) m m' -> loses m h -> loses m' h.
Proof. intros Hres HP Hr. revert HP. induction Hr; eauto using loses_stays, step_protocol. Qed.

Lemma lost_never_completes m m' h :
  resumes = false -> protocol m -> loses m h -> rtc (step resumes boot n) m m' -> ~ Forall (fun pc => pc = finished) (mc_pcs m').
Proof.
  intros Hres HP Hl Hr Hall. destruct (lost_forever m m' h Hres HP Hr Hl) as (pc&Hpc&Hlo).
  rewrite Forall_forall in Hall. rewrite (Hall pc) in Hlo; [done|]. by eapply list_elem_of_lookup_2.
Qed.

(** *** The start of the phase *)

(** Every hart is registered, has taken no interrupt and has its timer off. *)
Record phase_start (m : Machine) : Prop := {
  ps_present : (boot < n <= kMaxHarts)%nat;
  ps_pcs : mc_pcs m = imap (fun h _ => if (h =? boot)%nat then open_phase else wait_for_start) (replicate n tt);
  ps_started : g_start (mc_shared m) = kStopped;
  ps_done : length (g_done (mc_shared m)) = kMaxHarts;
  ps_harts : forall h, (h < n)%nat -> exists g, view (sh_kernel (mc_shared m)) h = Some (mkView (Z.of_nat h) 0 false g);
}.

Lemma start_pc m h pc : phase_start m -> mc_pcs m !! h = Some pc ->
  (h < n)%nat /\ pc = if (h =? boot)%nat then open_phase else wait_for_start.
Proof.
  intros HS. rewrite (ps_pcs _ HS), list_lookup_imap. intros (u&[_ Hlt]%lookup_replicate&->)%fmap_Some. done.
Qed.

Lemma start_protocol m : phase_start m -> protocol m.
Proof.
  intros HS. pose proof HS as [H1 H2 H3 H4 H5]. split; [done|by rewrite H2, length_imap, length_replicate|done|..].
  - intros h pc [Hlt ->]%start_pc; [|done]. destruct (H5 h Hlt) as [g Hg]. eexists. split; [exact Hg|].
    by destruct (Nat.eqb_spec h boot).
  - intros pb [_ ->]%start_pc; [|done]. rewrite Nat.eqb_refl. split; [done|]. intros h pc Hh [_ ->]%start_pc; [|done].
    by rewrite (proj2 (Nat.eqb_neq _ _)).
  - intros pb [_ ->]%start_pc; [|done]. by rewrite Nat.eqb_refl.
Qed.
End protocol.

(** ** Properties *)

(** C28: The timer check is a correct handshake, except for a wake-up that can be
    lost.  However the actions of the harts and their timer interrupts
    interleave, and whether or not [wfi] ends by itself: no hart fails the
    check, each takes at most one interrupt, and the boot hart passes its
    verdict only after every hart has published, each with a count of one.  From
    a state on the way the phase can still be completed if [wfi] may end by
    itself, and otherwise if and only if no hart has taken its interrupt
    between the test of the count and the [wfi] that follows it. *)
Theorem smp_timer_handshake resumes boot n m m' :
  phase_start boot n m -> rtc (step resumes boot n) m m' ->
  halted ∉ mc_pcs m' /\
  (forall h, (h < n)%nat -> 0 <= count_of (sh_kernel (mc_shared m')) h <= 1) /\
  (mc_pcs m' !! boot = Some finished ->
   forall h, (h < n)%nat -> count_of (sh_kernel (mc_shared m')) h = 1 /\ g_done (mc_shared m') !! h = Some kDone) /\
  ((exists m'', rtc (step resumes boot n) m' m'' /\ Forall (fun pc => pc = finished) (mc_pcs m'')) <->
   resumes = true \/ forall h, ~ loses m' h).
Proof.
  intros HS Hr. pose proof (steps_protocol _ _ _ _ _ Hr (start_protocol _ _ _ HS)) as HP. pose proof HP as [P1 P2 P3 P4 P5 P6].
  split_and!.
  - intros [h Hh]%list_elem_of_lookup. by destruct (P4 h _ Hh) as (v&_&_&[]&_).
  - intros h Hh. destruct (lookup_lt_is_Some_2 (mc_pcs m') h) as [pc Hpc]; [lia|]. destruct (P4 h pc Hpc) as (v&Hv&_&Hl&_).
    unfold count_of. rewrite Hv. cbn. destruct pc; cbn [local_ok] in Hl; naive_solver lia.
  - intros Hb h Hh. destruct (lookup_lt_is_Some_2 (mc_pcs m') h) as [pc Hpc]; [lia|].
    pose proof (P6 _ Hb h pc Hh Hpc) as Hpub. destruct (P5 _ Hb) as [_ Hd]. rewrite (Hd h pc Hpc), Hpub. split; [|done].
    destruct (P4 h pc Hpc) as (v&Hv&_&Hl&_). unfold count_of. rewrite Hv. cbn. destruct pc; try done; apply Hl.
  - split; [|by apply completes]. intros (m''&Hr'&Hall). destruct resumes eqn:Er; [by left|right]. intros h Hl.
    by eapply (lost_never_completes false boot n m' m'').
Qed.

(** Two harts about to start, the boot hart in slot 0. *)
Definition demo_start : Machine := mkMachine (mkShared demo kStopped [7; 7; 7; 7]) [open_phase; wait_for_start].

Lemma demo_phase_start : phase_start 0 2 demo_start.
Proof.
  split; [vm_compute; lia|reflexivity|reflexivity|reflexivity|].
  intros [|[|h]] Hh; [eexists; vm_compute; reflexivity..|lia].
Qed.

Lemma smp_timer_handshake_witness :
  exists m, rtc (step false 0 2) demo_start m /\ Forall (fun pc => pc = finished) (mc_pcs m).
Proof.
  refine (proj2 (proj2 (proj2 (proj2 (smp_timer_handshake false 0 2 demo_start demo_start demo_phase_start (rtc_refl _ _))))) _).
  right. intros [|[|h]] (pc&Hpc&Hl); cbn in Hpc; simplify_eq; done.
Defined.

(** *** A run that loses the wake-up *)

(** A schedule: [true] lets the hart act, [false] gives it its interrupt. *)
Definition scheduled (resumes : bool) (boot n : nat) (ev : nat * bool) (m : Machine) : option Machine :=
  let '(h, acts) := ev in
  let e := demo_env h in
  pc ← mc_pcs m !! h;
  if acts : bool then
    let '(pc', x') := act resumes boot n e pc (mc_shared m) in Some (mkMachine x' (<[h := pc']> (mc_pcs m)))
  else
    c ← csrs (sh_kernel (mc_shared m)) !! h;
    if timer_on c && interrupts_on c then
      match handle_interrupt e (sh_kernel (mc_shared m)) with
      | Done _ k => Some (mkMachine ((mc_shared m) <| sh_kernel := k |>) (<[h := after_trap pc]> (mc_pcs m)))
      | _ => None
      end
    else None.

Lemma scheduled_step resumes boot n ev m m' : scheduled resumes boot n ev m = Some m' -> step resumes boot n m m'.
Proof.
  destruct ev as [h acts], m as [x pcs]. unfold scheduled. cbn [mc_pcs mc_shared].
  destruct (pcs !! h) as [pc|] eqn:Hpc; [cbn [mbind option_bind]|done]. destruct acts.
  - destruct (act _ _ _ _ _ _) as [pc' x'] eqn:Ha. intros [= <-]. by apply (step_hart _ _ _ (demo_env h) x pcs pc).
  - destruct (csrs (sh_kernel x) !! h) as [c|] eqn:Hc; [cbn|done]. destruct (timer_on c) eqn:Ht; [|done].
    destruct (interrupts_on c) eqn:Hg; [|done]. cbn [andb]. destruct (handle_interrupt _ _) as [[] k| | |] eqn:Hk; try done.
    intros [= <-]. by apply (step_interrupt _ _ _ (demo_env h) x pcs pc c k).
Qed.

Fixpoint follow (resumes : bool) (boot n : nat) (evs : list (nat * bool)) (m : Machine) : option Machine :=
  match evs with
  | [] => Some m
  | ev :: evs' => m' ← scheduled resumes boot n ev m; follow resumes boot n evs' m'
  end.

Lemma follow_steps resumes boot n evs m m' :
  follow resumes boot n evs m = Some m' -> rtc (step resumes boot n) m m'.
Proof.
  revert m. induction evs as [|ev evs IH]; intros m; cbn [follow]; [by intros [= ->]|].
  destruct (scheduled resumes boot n ev m) as [m1|] eqn:E; [|done]. cbn. intros ?%IH.
  eapply rtc_l; [by eapply scheduled_step|done].
Qed.

(** The boot hart opens the phase, arms its timer and reads the count; its
    interrupt comes just before it executes [wfi]. *)
Definition losing_run : list (nat * bool) := replicate 8 (0%nat, true) ++ [(0%nat, false)].

(** On harts whose [wfi] ends only by an interrupt, the check can hang: this run
    leads to a state from which no continuation ever completes the phase. *)
Lemma smp_timer_can_hang :
  exists m, rtc (step false 0 2) demo_start m /\
    forall m', rtc (step false 0 2) m m' -> ~ Forall (fun pc => pc = finished) (mc_pcs m').
Proof.
  destruct (follow false 0 2 losing_run demo_start) as [m|] eqn:E.
  2: { exfalso. apply (f_equal (fun o => match o with Some _ => true | None => false end)) in E. vm_compute in E. discriminate. }
  exists m. pose proof (follow_steps _ _ _ _ _ _ E) as Hr. split; [done|]. intros m' Hr'.
  eapply (lost_never_completes false 0 2 m m' 0); [done| | |done].
  { eapply steps_protocol; [exact Hr|]. apply start_protocol, demo_phase_start. }
  assert (mc_pcs m !! 0%nat = Some (doze 0) /\ count_of (sh_kernel (mc_shared m)) 0 = 1) as [Hp Hc].
  { apply (f_equal (fmap (fun m => (mc_pcs m !! 0%nat, count_of (sh_kernel (mc_shared m)) 0)))) in E.
    vm_compute in E. by simplify_eq. }
  exists (doze 0). split; [done|]. by rewrite Hc.
Qed.
