(* ===== verification/Traps.v ===== *)
(** * Kernel entries

    The trap dispatcher of [microkernel/core/trap.cpp] on top of the system
    calls: a system call of a user task, a machine timer interrupt, a breakpoint
    and everything else.  An entry that returns resumes a task with exactly its
    saved context and leaves the kernel as [Ready] as it found it; the machine,
    taken as any interleaving of the entries of its harts, stays [Ready]. *)
From Stdlib Require Import ZArith Lia Ascii Relations.
From stdpp Require Import base tactics sets functions gmap list strings.
From S2P Require Import Prelude DList Memory Lifecycle PageManager Sv39 Vmm Format Console KernelTypes KernelInv Demo RunQueue DelayQueue Scheduler TaskContext TimeManager Ipc IpcProps TaskManager Trackers Arch Syscall Frame Lifetime SyscallProps System Boot.
Local Open Scope Z_scope.

(** ** Entering and leaving *)

Lemma ready_live e i hl s :
  Ready s -> harts s !! e_hart e = Some hl -> h_scheduler hl = true -> current_task hl = Some i -> exists C F, Live e i hl s C F.
Proof. intros [(C&F&Hso)] Hh Hs Hc. exists C, F. by split. Qed.

Lemma live_ready e i hl s C F : Live e i hl s C F -> Ready s.
Proof. intros []. split; try done. by exists C, F. Qed.

(** Changes outside everything the invariant reads. *)
Lemma live_same e i hl s s' C F :
  Live e i hl s C F -> tasks s' = tasks s -> harts s' = harts s -> endpoints s' = endpoints s ->
  slot_allocated s' = slot_allocated s -> delay_queues s' = delay_queues s -> (forall q, get_rq q s' = get_rq q s) ->
  lock_log s' = lock_log s -> held s' = held s -> static s s' -> Live e i hl s' C F.
Proof.
  intros [[HI Hei HR HLi] Hhd Hti Hcs Hh Hs Hc] Et Eh Ee Es Ed Er El Ehd Hst.
  pose proof (st_tables _ _ Hst) as E. unfold tables in E. injection E as _ Eu _ _ _ _ _ Eti _ _.
  split; try congruence.
  - apply (Sound_static s); try done.
    + eapply Inv_same; try done. rewrite El. apply HI.
    + by eapply EpIdle_same.
    + by apply (Running_frame None s).
    + by apply joiners_same.
  - intros h l Hl. apply lookup_lt_is_Some_2. rewrite (st_csrs _ _ Hst). apply lookup_lt_is_Some_1. rewrite Eh in Hl. by eapply Hcs.
Qed.

(** The timer is armed for the current task. *)
Lemma arm_live e j l s C F (Q : unit -> KState -> Prop) :
  Live e j l s C F -> 0 <= timeslice_ticks l <= kIdleTimesliceTicks ->
  (forall s', Live e j l s' C F -> tasks s' = tasks s -> harts s' = harts s -> Q tt s') -> wp False arm_current_timeslice Q e s.
Proof.
  intros HL Hticks HQ. pose proof HL as [[HI Hei HR HLi] Hhd Hti Hcs Hh Hs Hc].
  destruct (live_task _ _ _ _ _ _ HL) as (t&_&[_ _ _ _ Ht]&_). apply wp_keeps; [apply keeps_arm_current_timeslice|].
  apply (arm_current_timeslice_spec l j t C); try done; eauto.
  - unfold kIdleTimesliceTicks in Hticks. lia.
  - rewrite Hhd. constructor.
  - intros s' d now HI' [A1 A2 A3 A4 A5 A6 A7] _ _ Hst. apply HQ; [|done|done].
    pose proof (st_tables _ _ Hst) as E. unfold tables in E. injection E as _ _ _ _ _ _ _ Eti _ _. split; try congruence.
    + apply (Sound_static s); [done..|by eapply EpIdle_same|by apply (Running_frame None s)|done|by apply joiners_same].
    + intros h l0 Hl0. apply lookup_lt_is_Some_2. rewrite (st_csrs _ _ Hst). apply lookup_lt_is_Some_1. rewrite A2 in Hl0.
      by eapply Hcs.
Qed.

(** The trap frame that resumes the current task of hart [e_hart e]. *)
Definition resumes (e : Env) (frame frame' : TrapFrame) (s' : KState) : Prop :=
  exists C F l j t, Live e j l s' C F /\ tasks s' !! j = Some t /\ frame' = restore_to_trap (t_context t) frame.

(** The current task's context goes to the frame. *)
Lemma restore_live e j l frame s C F (Q : TrapFrame -> KState -> Prop) :
  Live e j l s C F ->
  (forall s' t, Live e j l s' C F -> tasks s' = tasks s -> harts s' = harts s -> tasks s !! j = Some t -> Q (restore_to_trap (t_context t) frame) s') ->
  wp False (restore_current_context frame) Q e s.
Proof.
  intros HL HQ. pose proof HL as [_ _ _ Hcs Hh Hs Hc]. destruct (live_task _ _ _ _ _ _ HL) as (t&_&[_ _ _ _ Ht]&_).
  apply wp_keeps; [apply keeps_restore_current_context|].
  apply (restore_current_context_spec l j t); try done; eauto. intros Hst. apply HQ; [by eapply live_same|done..].
Qed.

(** The end of a system call. *)
Lemma leave_spec e (b : bool) frame s s1 (pk : Prop) :
  called e s b s1 ->
  wp pk (frame' ← restore_current_context frame; when b arm_current_timeslice;; mret (Some frame'))
    (fun r s' => exists f, r = Some f /\ resumes e frame f s') e s1.
Proof.
  intros (C&F&l&j&HL&_&Hticks). apply wp_bind, wp_any, (restore_live e j l frame s1 C F); [done|]. intros s2 t HL2 Et _ Ht.
  apply wp_bind. destruct b; cbn [when].
  - apply wp_any, (arm_live e j l s2 C F); [done|by apply Hticks|]. intros s3 HL3 Et3 _. apply wp_ret. eexists. split; [done|].
    exists C, F, l, j, t. by rewrite Et3, Et.
  - apply wp_ret, wp_ret. eexists. split; [done|]. exists C, F, l, j, t. by rewrite Et.
Qed.

(** ** System calls *)

(** The frame of an [ecall] of user mode. *)
Definition user_call (frame : TrapFrame) : bool :=
  is_exception_code (fr_mcause frame) ExceptionCode.environment_call_from_u && (Z.land (fr_mstatus frame) kMstatusMppMask =? 0).
Definition call_number (frame : TrapFrame) : Z := nth 17 (fr_x frame) 0.

Lemma try_handle_spec e i hl t frame s C F (pk : Prop) :
  Live e i hl s C F -> tasks s !! i = Some t -> length (fr_x frame) = 32%nat -> user_call frame = true ->
  (t_idle t = true -> call_number frame = Num.YIELD) ->
  (crash_pending s \/ valid_number (call_number frame) = false -> pk) ->
  wp pk (try_handle frame) (fun r s' => exists f, r = Some f /\ resumes e frame f s') e s.
Proof.
  intros HL Ht Hlen Huc Hy Hpk. unfold user_call in Huc. apply andb_true_iff in Huc as [H1 H2].
  unfold try_handle. rewrite H1, H2. cbn [negb orb]. pose proof HL as [_ Hhd Hti Hcs Hh Hs Hc].
  destruct (Hcs _ _ Hh) as [c Hcsr]. unfold get_current_task, current. ksteps. rewrite Hc. ksteps.
  apply wp_any, (save_current_context_spec hl i c); try done; eauto.
  set (f := fun t => t <| t_context := save_from_trap (satp c) frame (t_context t) |>). set (s1 := set_field tasks _ s).
  assert (Live e i hl s1 C F) as HL1.
  { apply live_mod; try done. intros t0 _. unfold f, save_from_trap. rproj. cbn [ctx_x]. rewrite length_insert, length_take. lia. }
  assert (tasks s1 !! i = Some (f t)) as Ht1 by (unfold s1; rproj; by rewrite list_lookup_alter_eq, Ht).
  apply wp_bind, wp_mod_task; [by exists (f t)|]. 
  set (g := fun t => t <| t_context := (t_context t) <| ctx_mepc := u64 (ctx_mepc (t_context t) + 4) |> |>). set (s2 := set_field tasks (alter g i) s1).
  assert (Live e i hl s2 C F) as HL2.
  { apply live_mod; try done. intros t0 Ht0. exact (inv_context _ _ (so_inv _ _ _ (lv_sound _ _ _ _ _ _ HL1)) i t0 Ht0). }
  assert (tasks s2 !! i = Some (g (f t))) as Ht2 by (unfold s2; rproj; by rewrite list_lookup_alter_eq, Ht1).
  apply wp_bind. eapply wp_get_task; [exact Ht2|].
  assert (get_x 17 (g (f t)) = call_number frame) as ->.
  { unfold get_x, call_number. change (ctx_x (t_context (g (f t)))) with (<[0%nat := 0]> (take 32 (fr_x frame))).
    rewrite !nth_lookup, list_lookup_insert_ne, lookup_take_lt by lia. done. }
  apply wp_bind. eapply wp_mono; [eapply (syscall_spec (call_number frame) e i hl (g (f t)) s2 C F pk); try done|done|].
  intros b s3 Hcd. by eapply leave_spec.
Qed.

(** ** Timer interrupts *)

Lemma handle_interrupt_live e i hl s C F (Q : unit -> KState -> Prop) :
  Live e i hl s C F -> (forall s' hl', Live e i hl' s' C F -> trackers s' = trackers s -> tasks s' = tasks s -> Q tt s') ->
  wp False handle_interrupt Q e s.
Proof.
  intros HL HQ. pose proof HL as [_ Hhd Hti Hcs Hh Hs Hc]. destruct (Hcs _ _ Hh) as [c Hcsr].
  unfold handle_interrupt, disable_machine_timer_interrupt, disarm, set_compare. ksteps.
  apply wp_mod_csr; [by exists c|]. ksteps. set (f := fun c : Csr => _). set (g := fun l : HartLocal => _).
  match goal with |- Q tt (set_field harts _ ?x) => set (s1 := x) end.
  assert (Live e i hl s1 C F) as HL1.
  { eapply live_same; try done. split; try done. unfold s1. rproj. by rewrite length_alter. }
  destruct HL1 as [[HI1 Hei1 HR1 HLi1] Hhd1 Hti1 Hcs1 Hh1 Hs1 Hc1]. apply (HQ _ (g hl)); try done. split; try done.
  - split; [by apply Inv_mod_hart|done|by apply Running_mod_hart|].
    apply (joiners_Lineage _ _ s1); [done| |by apply joiners_same]. split; try done. by apply alter_image.
  - intros h l. rproj. rewrite lookup_alter_if. intros (l0&Hl0&_)%fmap_Some. by eapply Hcs1.
  - rproj. by rewrite list_lookup_alter_eq, Hh1.
Qed.

Lemma release_wait ts now h l C w : release ts now h l C (QWait w) = C (QWait w).
Proof.
  revert C. induction l as [|i l IH]; intros C; [done|]. cbn [release]. destruct (_ <=? _); [|done].
  rewrite IH. unfold enqueue. by rewrite !fn_lookup_insert_ne.
Qed.

Lemma preempt_wait ts now h it i t C w : (preempt ts now h it i t C).2 (QWait w) = C (QWait w).
Proof.
  unfold preempt. rewrite pick_other. unfold give_back, enqueue. destruct (t_idle t); [apply release_wait|].
  rewrite fn_lookup_insert_ne by done. apply release_wait.
Qed.

Lemma handle_timer_live e i hl frame s C F :
  Live e i hl s C F -> length (fr_x frame) = 32%nat -> wp False (handle_timer_interrupt frame) (resumes e frame) e s.
Proof.
  intros HL Hlen. destruct (live_task _ _ _ _ _ _ HL) as (t&it&[Hh Hs Hc Hit Ht]&_).
  pose proof HL as [[HI Hei HR HLi] Hhd Hti Hcs _ _ _]. destruct (Hcs _ _ Hh) as [c Hcsr].
  apply wp_keeps; [apply keeps_handle_timer_interrupt|].
  apply (handle_timer_interrupt_spec hl it i t c frame C); try done; [rewrite Hhd; constructor|].
  intros s' l' ctx d jC HI' HR' Hl' Hc' _ _ Hhd' Eep Hun Hctx Hst.
  apply fmap_Some in Hctx as (tj&Htj&->). exists jC.2, F, l', jC.1, tj. split_and!; try done.
  pose proof (st_tables _ _ Hst) as E. unfold tables in E. injection E as _ _ _ _ _ _ _ Eti _ _.
  pose proof (st_harts _ _ Hst) as Eh.
  split; try done; try congruence.
  - split; try done; [|by apply (joiners_Lineage _ _ s), undisturbed_joiners].
    intros w p. unfold jC. rewrite Eep, preempt_wait. apply Hei.
  - intros h l Hl. apply lookup_lt_is_Some_2. rewrite (st_csrs _ _ Hst). apply lookup_lt_is_Some_1.
    specialize (Eh h). rewrite Hl in Eh. symmetry in Eh. apply fmap_Some in Eh as (l0&Hl0&_). by eapply Hcs.
  - specialize (Eh (e_hart e)). rewrite Hl', Hh in Eh. apply (inj Some) in Eh. unfold hart_kin in Eh. congruence.
Qed.

(** ** The dispatcher *)

Definition from_user (frame : TrapFrame) : bool := Z.land (fr_mstatus frame) kMstatusMppMask =? 0.
Definition timer_trap (frame : TrapFrame) : bool := is_interrupt_code (fr_mcause frame) InterruptCode.machine_timer.
Definition decoded_at (s : KState) (frame : TrapFrame) : BreakpointDecode := decode_breakpoint_at (ms_mem (memsys s)) (fr_mepc frame).
Definition breakpoint_trap (s : KState) (frame : TrapFrame) : bool :=
  is_exception_code (fr_mcause frame) ExceptionCode.breakpoint && recognized (decoded_at s frame).

(** The trap is none that the kernel serves. *)
Definition fatal_trap (s : KState) (frame : TrapFrame) : Prop :=
  user_call frame = false /\ timer_trap frame = false /\ breakpoint_trap s frame = false.

(** The only reasons for a hart to stop in a kernel entry. *)
Definition may_park (s : KState) (frame : TrapFrame) : Prop :=
  crash_pending s \/ user_call frame = true /\ valid_number (call_number frame) = false \/ fatal_trap s frame.

(** What an entry with [frame] in state [s] returns. *)
Definition answered (e : Env) (frame : TrapFrame) (s : KState) (frame' : TrapFrame) (s' : KState) : Prop :=
  Ready s' /\
  if user_call frame || timer_trap frame && from_user frame then resumes e frame frame' s'
  else if timer_trap frame then frame' = frame /\ tasks s' = tasks s
  else frame' = frame <| fr_mepc := u64 (fr_mepc frame + instruction_length_bytes (bd_length (decoded_at s frame))) |> /\ s' = s.

(** The code of an idle task only yields. *)
Record user_entry (e : Env) (frame : TrapFrame) (s : KState) : Prop := {
  ue_frame : length (fr_x frame) = 32%nat;
  ue_hart : exists hl i t, harts s !! e_hart e = Some hl /\ h_scheduler hl = true /\ current_task hl = Some i /\
    tasks s !! i = Some t /\ (t_idle t = true -> user_call frame = true -> call_number frame = Num.YIELD);
}.

Lemma resumes_ready e frame f s : resumes e frame f s -> Ready s.
Proof. intros (C&F&l&j&t&HL&_). by eapply live_ready. Qed.

Lemma dispatch_spec e a frame s :
  Ready s -> user_entry e frame s -> wp (may_park s frame) (dispatch a frame) (answered e frame s) e s.
Proof.
  intros Hr [Hlen (hl&i&t&Hh&Hs&Hc&Ht&Hidle)]. destruct (ready_live e i hl s Hr Hh Hs Hc) as (C&F&HL).
  unfold dispatch, answered. apply wp_bind. destruct (user_call frame) eqn:Huc.
  - eapply wp_mono; [eapply (try_handle_spec e i hl t frame s C F (may_park s frame)); try done; [by auto|]|done|].
    + unfold may_park. tauto.
    + intros r s' (f&->&Hf). apply wp_ret. split; [by eapply resumes_ready|done].
  - assert (try_handle frame e s = Done None s) as Eth.
    { unfold try_handle. unfold user_call in Huc. by rewrite <- negb_andb, Huc. }
    unfold wp at 1. rewrite Eth. clear Eth. apply wp_bind. unfold try_handle_machine_timer_interrupt.
    fold (timer_trap frame) (from_user frame). cbn [orb]. destruct (timer_trap frame) eqn:Hti; cbn [negb andb].
    + apply wp_bind, wp_any, (handle_interrupt_live e i hl s C F); [done|]. intros s1 hl1 HL1 _ Et.
      destruct (from_user frame).
      * apply wp_bind, wp_any. eapply wp_mono; [by eapply handle_timer_live|done|]. intros f s2 Hf.
        apply wp_ret, wp_ret. split; [by eapply resumes_ready|done].
      * apply wp_ret, wp_ret. split; [by eapply live_ready|done].
    + apply wp_ret. apply wp_bind. unfold try_recover_breakpoint.
      assert (fatal_trap s frame <-> breakpoint_trap s frame = false) as Hft by (unfold fatal_trap; tauto).
      unfold breakpoint_trap, decoded_at in Hft. destruct (is_exception_code _ ExceptionCode.breakpoint); cbn [negb].
      2: { apply wp_ret. unfold fatal. apply wp_bind, wp_any, kprintk_spec; [by vm_compute|]. intros c. apply wp_park. right. right. by apply Hft. }
      apply wp_bind, wp_gets. cbv zeta. destruct (recognized _); cbn [negb]; apply wp_ret.
      * apply wp_ret. split; [done|]. done.
      * unfold fatal. apply wp_bind, wp_any, kprintk_spec; [by vm_compute|]. intros c. apply wp_park. right. right. by apply Hft.
Qed.

(** ** Starting a hart *)

(** The current task of hart [e_hart e] is entered for the first time. *)
Definition entered (e : Env) (r : TrapFrame * Z) (s' : KState) : Prop :=
  exists C F l j t, Live e j l s' C F /\ tasks s' !! j = Some t /\ r.1 = restore_to_trap (t_context t) zero_frame /\
    r.2 = ctx_satp (t_context t).

(** The current task is entered with its context; no task and no hart changes. *)
Lemma dispatch_task_enters e j l t s C F (Q : TrapFrame * Z -> KState -> Prop) :
  Live e j l s C F -> 0 <= timeslice_ticks l <= kIdleTimesliceTicks -> tasks s !! j = Some t ->
  (forall s', Live e j l s' C F -> tasks s' = tasks s -> harts s' = harts s ->
     Q (restore_to_trap (t_context t) zero_frame, ctx_satp (t_context t)) s') ->
  wp False dispatch_task Q e s.
Proof.
  intros HL Hticks Ht HQ. pose proof HL as [_ _ _ Hcs Hh _ Hc]. unfold dispatch_task, get_current_task, current. ksteps. rewrite Hc.
  apply wp_bind, (restore_live e j l zero_frame s C F); [done|]. intros s1 t1 HL1 Et Eh Ht1. rewrite Ht in Ht1. injection Ht1 as <-.
  unfold prepare_first_user_dispatch. apply wp_bind, wp_bind, wp_current_hart.
  apply wp_mod_csr; [eapply (lv_csr _ _ _ _ _ _ HL1); apply HL1|]. match goal with |- wp _ _ _ _ ?x => set (s2 := x) end.
  assert (Live e j l s2 C F) as HL2.
  { eapply live_same; [exact HL1|done..|]. split; try done. unfold s2. rproj. by rewrite length_alter. }
  apply wp_bind, (arm_live e j l s2 C F); [done|done|]. intros s3 HL3 Et3 Eh3.
  apply wp_bind, wp_bind, wp_current_hart. eapply wp_get_hart; [apply HL3|]. apply wp_bind.
  assert (tasks s3 = tasks s) as Es3 by (rewrite Et3; exact Et). assert (harts s3 = harts s) as Ehs3 by (rewrite Eh3; exact Eh).
  assert (forall s4, Live e j l s4 C F -> tasks s4 = tasks s3 -> harts s4 = harts s3 ->
    wp False (t0 ← get_task j; mret (restore_to_trap (t_context t) zero_frame, ctx_satp (t_context t0))) Q e s4) as Hend.
  { intros s4 HL4 Et4 Eh4. apply wp_bind. eapply wp_get_task; [by rewrite Et4, Es3|]. apply wp_ret. apply HQ; congruence. }
  unfold when. case_match; [|by apply wp_ret, Hend]. apply wp_keeps; [apply keeps_kprintk|]. apply kprintk_spec; [by vm_compute|].
  intros c Hst. apply Hend; [|done|done]. by eapply live_same.
Qed.

Lemma keeps_dispatch_task : keeps dispatch_task.
Proof. unfold dispatch_task, prepare_first_user_dispatch. keeps. Qed.

(** A hart that has no task yet takes one. *)
Lemma start_enters e hl it s C F :
  Ready s -> Sound s C F -> harts s !! e_hart e = Some hl -> current_task hl = None -> h_role hl = HartRole.secondary ->
  h_scheduler hl = true -> idle_task hl = Some it ->
  let '(j, C') := pick (e_hart e) it C in
  wp False secondary_bootstrap (fun r s' => exists l t0 t, Live e j l s' C' F /\ idle_task l = Some it /\ tasks s !! j = Some t0 /\ tasks s' !! j = Some t /\
    t_context t = t_context t0 /\ r = (restore_to_trap (t_context t) zero_frame, ctx_satp (t_context t))) e s.
Proof.
  intros [_ Hhd Hti Hcs] [HI Hei HR HLi] Hh Hc Hrole Hs Hit. destruct (pick (e_hart e) it C) as [j C'] eqn:Ep.
  unfold secondary_bootstrap, current. ksteps. rewrite Hs, Hit, Hrole, !bool_decide_false by (done || tauto). cbn [negb orb].
  apply wp_bind, wp_keeps; [apply keeps_set_next_runnable|].
  apply (set_next_runnable_spec hl it C); try done; [by apply Running_weaken|rewrite Hhd; constructor|]. rewrite Ep. cbn [fst snd].
  intros s1 HI1 HR1 [(t1&Ht1&_&_&Hk) (l&Hl&Hcl&Hticks) Hot] Hsf Hst.
  pose proof (st_harts _ _ Hst) as Eh. pose proof (st_tables _ _ Hst) as E. unfold tables in E.
  injection E as _ _ _ _ _ _ _ Eti _ _.
  assert (h_scheduler l = true /\ idle_task l = Some it) as [Hsl Hil].
  { specialize (Eh (e_hart e)). rewrite Hl, Hh in Eh. apply (inj Some) in Eh. unfold hart_kin in Eh. split; congruence. }
  assert (Live e j l s1 C' F) as HL1.
  { split; try congruence.
    - split; try done; [intros w p; rewrite (sf_eps _ _ _ Hsf)|].
      + intros Hw Ha. specialize (Hei w p Hw Ha). pose proof (pick_other (e_hart e) it C w) as E. rewrite Ep in E. cbn [snd] in E. by rewrite E.
      + apply (joiners_Lineage _ _ s); [done..|]. eapply (joiners_only j); [done|].
        intros t0 Ht0. eapply (pick_not_waiting s C); [done..|]. by rewrite Ep.
    - by rewrite (sf_held _ _ _ Hsf).
    - intros h l0 Hl0. apply lookup_lt_is_Some_2. rewrite (st_csrs _ _ Hst). apply lookup_lt_is_Some_1.
      specialize (Eh h). rewrite Hl0 in Eh. symmetry in Eh. apply fmap_Some in Eh as (l1&Hl1&_). by eapply Hcs. }
  apply (dispatch_task_enters e j l t1 s1 C' F); try done. intros s2 HL2 Et2 _.
  destruct (tasks s !! j) as [t0|] eqn:Et0.
  - exists l, t0, t1. destruct (Hk t0 eq_refl) as (?&_). split_and!; try done. by rewrite Et2.
  - destruct Hot as [Hlen _]. apply lookup_lt_Some in Ht1. apply lookup_ge_None in Et0. lia.
Qed.

(** Whether or not it may. *)
Lemma start_spec e hl s :
  Ready s -> harts s !! e_hart e = Some hl -> current_task hl = None ->
  wp (h_role hl <> HartRole.secondary \/ h_scheduler hl = false) secondary_bootstrap (entered e) e s.
Proof.
  intros Hr Hh Hc. pose proof Hr as [(C&F&Hso) _ _ _].
  destruct (h_scheduler hl) eqn:Hs.
  2: { unfold secondary_bootstrap, current. ksteps. rewrite Hs, orb_true_r. cbn [orb]. apply wp_park. by right. }
  destruct (inv_bind _ _ (so_inv _ _ _ Hso) _ hl Hh Hs) as (_&_&_&it&Hit&_).
  destruct (decide (h_role hl = HartRole.secondary)) as [Hrole|Hrole].
  2: { unfold secondary_bootstrap, current. ksteps. rewrite bool_decide_true by done. cbn [orb]. apply wp_park. by left. }
  pose proof (start_enters e hl it s C F Hr Hso Hh Hc Hrole Hs Hit) as Hw. destruct (pick (e_hart e) it C) as [j C'].
  apply wp_any. eapply wp_mono; [exact Hw|done|]. intros r s' (l&t0&t&HL&_&_&Ht&_&->). by exists C', F, l, j, t.
Qed.

(** ** The machine *)

(** One hart starts, or one trap is served. *)
Inductive machine_step : KState -> KState -> Prop :=
  | step_trap e a frame frame' s s' : user_entry e frame s -> dispatch a frame e s = Done frame' s' -> machine_step s s'
  | step_start e hl frame satp_value s s' : harts s !! e_hart e = Some hl -> current_task hl = None ->
      secondary_bootstrap e s = Done (frame, satp_value) s' -> machine_step s s'.

Lemma step_ready s s' : Ready s -> machine_step s s' -> Ready s'.
Proof.
  intros Hr Hst. destruct Hst as [e a frame frame' s s' Hue Hd|e hl frame sp s s' Hh Hc Hd].
  - pose proof (dispatch_spec e a frame s Hr Hue) as Hw. unfold wp in Hw. rewrite Hd in Hw. apply Hw.
  - pose proof (start_spec e hl s Hr Hh Hc) as Hw. unfold wp in Hw. rewrite Hd in Hw.
    destruct Hw as (C&F&l&j&t&HL&_). by eapply live_ready.
Qed.

Lemma steps_ready s s' : Ready s -> rtc machine_step s s' -> Ready s'.
Proof. intros Hr Hs. induction Hs; [done|]. eauto using step_ready. Qed.
