(* ===== verification/Bringup.v ===== *)
(** * The bring-up establishes the kernel invariant

    The bootstrap sequence of [Boot], for any placement of the kernel's sections
    by the linker, any clock, any hart numbering and any memory contents.  What
    it needs of the machine is the predicate [boot_fits]: the page pool is
    accepted, the page tables for the user text and the task stacks fit into it,
    and the entry points lie in the user text. *)
From Stdlib Require Import ZArith Lia Ascii.
From stdpp Require Import base tactics sets functions gmap list strings.
From S2P Require Import Prelude DList Memory Lifecycle PageManager Sv39 Vmm Format Console KernelTypes KernelInv Demo RunQueue DelayQueue Scheduler TaskContext TimeManager Ipc IpcProps TaskManager Trackers Arch Syscall Frame Lifetime SyscallProps System Boot Traps.
Local Open Scope Z_scope.

(** ** Operations that do not look at the harts *)

Definition with_harts {A} (hs : list HartLocal) (o : outcome KState A) : outcome KState A :=
  match o with Done a s => Done a (s <| harts := hs |>) | Parked => Parked | Undefined => Undefined | Diverged => Diverged end.

Definition hartless {A} (m : K A) : Prop :=
  forall e s hs, m e (s <| harts := hs |>) = with_harts hs (m e s).

Lemma hartless_wp {A} (m : K A) pk (Q : A -> KState -> Prop) e s hs :
  hartless m -> wp pk m (fun a s' => Q a (s' <| harts := hs |>)) e s -> wp pk m Q e (s <| harts := hs |>).
Proof. intros Hm. unfold wp. rewrite Hm. by destruct (m e s). Qed.

Lemma hartless_bind {A B} (m : K A) (k : A -> K B) : hartless m -> (forall a, hartless (k a)) -> hartless (mbind k m).
Proof.
  intros Hm Hk e s hs. unfold mbind, M_bind. rewrite Hm. destruct (m e s) as [a s1| | |]; try done. apply Hk.
Qed.
Lemma hartless_ret {A} (a : A) : hartless (mret a : K A).
Proof. done. Qed.
Lemma hartless_ask : hartless ask.
Proof. done. Qed.
Lemma hartless_park {A} : hartless (park : K A).
Proof. done. Qed.
Lemma hartless_diverge {A} : hartless (diverge : K A).
Proof. done. Qed.
Lemma hartless_deref {A} (o : option A) : hartless (deref o : K A).
Proof. by destruct o. Qed.
Lemma hartless_current_hart : hartless current_hart.
Proof. done. Qed.
Lemma hartless_get_task i : hartless (get_task i).
Proof. apply hartless_bind; [done|]. intros. apply hartless_deref. Qed.
Lemma hartless_mod_task i f : hartless (mod_task i f).
Proof. apply hartless_bind; [apply hartless_get_task|]. done. Qed.
Lemma hartless_get_tracker i : hartless (get_tracker i).
Proof. apply hartless_bind; [done|]. intros. apply hartless_deref. Qed.
Lemma hartless_mod_tracker i f : hartless (mod_tracker i f).
Proof. apply hartless_bind; [apply hartless_get_tracker|]. done. Qed.
Lemma hartless_get_csr i : hartless (get_csr i).
Proof. apply hartless_bind; [done|]. intros. apply hartless_deref. Qed.
Lemma hartless_kmap base size : hartless (kmap_boot_task_stack base size).
Proof.
  intros e s hs. unfold kmap_boot_task_stack. rproj. by destruct (map_boot_task_stack _ _ _ _) as [[ok vm] ms].
Qed.

Create HintDb hartless.
#[export] Hint Resolve hartless_ret hartless_ask hartless_park hartless_diverge hartless_deref hartless_current_hart hartless_get_task
  hartless_mod_task hartless_get_tracker hartless_mod_tracker hartless_get_csr hartless_kmap : hartless.
Ltac hartless :=
  repeat first
    [ solve [eauto with hartless nocore]
    | lazymatch goal with
      | |- hartless (mbind _ _) => apply hartless_bind; [|intros ?]
      | |- hartless (gets _) => done
      | |- hartless (modify _) => done
      | |- hartless (let _ := _ in _) => cbv zeta
      | |- hartless (match ?x with _ => _ end) => destruct x
      | |- hartless (if ?x then _ else _) => destruct x
      end ].

(** A task without a parent is created without looking at the harts. *)
Lemma hartless_create_idle_task owner : hartless (create_idle_task owner).
Proof.
  unfold create_idle_task, with_lock, lock, unlock, create_task_locked, allocate_task_locked, allocate_tracker_locked,
    release_task_locked, release_tracker_locked, link_tracker_locked, get_children_head, set_children_head, kclear_bytes,
    initialize_user, read_mstatus. hartless.
Qed.

(** ** Memory *)

(** The loop of [TaskManager::initialize] over the stacks, on memory alone. *)
Fixpoint map_stacks (e : Env) (index count : nat) (vm : VmmManager) (ms : MemSys) : bool * VmmManager * MemSys :=
  match count with
  | O => (true, vm, ms)
  | S n =>
      let '(ok, vm', ms') := map_boot_task_stack (stack_bottom e index) kTaskStackSize vm ms in
      if ok : bool then map_stacks e (S index) n vm' ms' else (false, vm', ms')
  end.

Lemma map_task_stacks_run index count e s :
  map_task_stacks index count e s =
    let '(ok, vm, ms) := map_stacks e index count (vmm s) (memsys s) in Done ok (s <| vmm := vm |> <| memsys := ms |>).
Proof.
  revert index s. induction count as [|n IH]; intros index s; [by destruct s|]. cbn [map_task_stacks map_stacks].
  unfold task_stack, kmap_boot_task_stack, mbind, M_bind, mret, M_ret, ask. cbn beta iota. fold (stack_bottom e index).
  destruct (map_boot_task_stack _ _ _ _) as [[[] vm] ms]; [|done].
  exact (IH (S index) (s <| vmm := vm |> <| memsys := ms |>)).
Qed.

(** The memory steps of the bring-up, in order, on memory alone. *)
Definition boot_memory (e : Env) (vm : VmmManager) (ms : MemSys) : bool * VmmManager * MemSys :=
  let sy := e_syms e in
  let '(ok, ms1) := add_contained_bootstrap_pool (pool_start_sym sy) (pool_end_sym sy) (reset ms) in
  if negb ok then (false, vm, ms1)
  else
    let '(ok', vm', ms2) := vmm_initialize (user_text_start_sym sy) (user_text_end_sym sy) vm ms1 in
    if negb ok' then (false, vm', ms2)
    else map_stacks e 0 kMaxTasks vm'
           (ms2 <| ms_mem := clear_bytes (stack_bottom e 0) (Z.of_nat kMaxTasks * kTaskStackSize) (ms_mem ms2) |>).

(** What the bring-up needs of the linker's layout and of the memory: the pool is
    accepted, the user text and every task stack can be mapped with the pages of
    the pool, and the two entry points lie in the user text. *)
Definition boot_fits (e : Env) (g : LifecycleState) (m : Mem) : bool :=
  let '(ok, vm, _) := boot_memory e VmmManager_new (mkMemSys g (replicate kMaxRanges empty_range) 0 m) in
  ok && is_boot_user_entry (user_idle_task (e_syms e)) vm && is_boot_user_entry (user_init_task (e_syms e)) vm.

(** A stack that is in the table is not mapped again. *)
Definition is_mapped (base : Z) (vm : VmmManager) : bool :=
  vmm_initialized vm && (base mod kPageSize =? 0) && existsb (Z.eqb base) (stack_bases vm).

Lemma is_mapped_spec base vm ms : is_mapped base vm = true -> map_boot_task_stack base kTaskStackSize vm ms = (true, vm, ms).
Proof.
  unfold is_mapped, map_boot_task_stack. rewrite !andb_true_iff. intros ((->&->)&H). fold (stack_bases vm). by rewrite H.
Qed.

Definition stacks_fit (vm : VmmManager) : Prop :=
  length (mapped_stack_bases vm) = kMaxStackMappings /\ (mapped_stack_count vm <= kMaxStackMappings)%nat.

Lemma map_stack_once base vm ms vm' ms' :
  stacks_fit vm -> map_boot_task_stack base kTaskStackSize vm ms = (true, vm', ms') ->
  stacks_fit vm' /\ boot_address_space vm' = boot_address_space vm /\ is_mapped base vm' = true /\
  forall b, is_mapped b vm = true -> is_mapped b vm' = true.
Proof.
  intros [Hl Hc]. unfold map_boot_task_stack. destruct (vmm_initialized vm) eqn:Hi; [|done].
  change (kTaskStackSize =? 0) with false. change (kTaskStackSize mod kPageSize =? 0) with true.
  destruct (base mod kPageSize =? 0) eqn:Hb; cbn [negb orb]; [|done].
  fold (stack_bases vm). destruct (existsb (Z.eqb base) (stack_bases vm)) eqn:Hex.
  { intros [= <- <-]. split_and!; try done. unfold is_mapped. by rewrite Hi, Hb, Hex. }
  destruct (Nat.leb_spec kMaxStackMappings (mapped_stack_count vm)) as [|Hlt]; [done|].
  destruct (map_range_4k _ _ _ _ _ _) as [[] st1]; [|done]. intros E0.
  assert (vm' = vm <| mapped_stack_bases := <[mapped_stack_count vm := base]> (mapped_stack_bases vm) |>
    <| mapped_stack_count := S (mapped_stack_count vm) |>) as -> by (by injection E0). clear E0.
  assert (stack_bases (vm <| mapped_stack_bases := <[mapped_stack_count vm := base]> (mapped_stack_bases vm) |>
    <| mapped_stack_count := S (mapped_stack_count vm) |>) = stack_bases vm ++ [base]) as E.
  { unfold stack_bases. rproj. rewrite (take_S_r _ _ base) by (apply list_lookup_insert_eq; lia).
    by rewrite take_insert_ge by lia. }
  split_and!.
  - split; simpl; [by rewrite length_insert|lia].
  - done.
  - unfold is_mapped. rewrite E, existsb_app. rproj. rewrite Hi, Hb. cbn. by rewrite Z.eqb_refl, !orb_true_r.
  - intros b. unfold is_mapped. rewrite E, existsb_app. rproj. rewrite !andb_true_iff. intros ((->&->)&->). done.
Qed.

Lemma map_stacks_spec e index count vm ms vm' ms' :
  stacks_fit vm -> map_stacks e index count vm ms = (true, vm', ms') ->
  boot_address_space vm' = boot_address_space vm /\
  (forall b, is_mapped b vm = true -> is_mapped b vm' = true) /\
  forall i, (index <= i < index + count)%nat -> is_mapped (stack_bottom e i) vm' = true.
Proof.
  revert index vm ms. induction count as [|n IH]; intros index vm ms Hf; cbn [map_stacks].
  { intros [= <- <-]. split_and!; try done. intros i Hi. lia. }
  destruct (map_boot_task_stack _ _ _ _) as [[[] vm1] ms1] eqn:E; [|done].
  destruct (map_stack_once _ _ _ _ _ Hf E) as (Hf1&Ea&Hm&Hk). intros (Ea'&Hk'&Hm')%IH; [|done].
  split_and!; [congruence|auto|]. intros i Hi. destruct (decide (i = index)) as [->|]; [auto|]. apply Hm'. lia.
Qed.

(** What the rest of the bring-up uses of a memory that fits. *)
Lemma boot_memory_ok e g m vm ms :
  boot_memory e VmmManager_new (mkMemSys g (replicate kMaxRanges empty_range) 0 m) = (true, vm, ms) ->
  as_valid (boot_address_space vm) = true /\ forall i, (i < kMaxTasks)%nat -> is_mapped (stack_bottom e i) vm = true.
Proof.
  unfold boot_memory. destruct (add_contained_bootstrap_pool _ _ _) as [[] ms1]; [|done]. cbn [negb].
  destruct (vmm_initialize _ _ _ _) as [[[] vm1] ms2] eqn:Ev; [|done]. cbn [negb]. intros Hm.
  assert (stacks_fit vm1 /\ as_valid (boot_address_space vm1) = true) as [Hf Ha].
  { unfold vmm_initialize in Ev. cbn [vmm_initialized VmmManager_new] in Ev.
    destruct (_ || _) in Ev; [done|]. destruct (create_address_space ms1) as [space st1].
    destruct (as_valid space) eqn:Eas; [|done]. cbn [negb] in Ev.
    destruct (map_range_4k _ _ _ _ _ _) as [[] st2]; [|done]. injection Ev as <- <-. split; [|done].
    split; [reflexivity|cbn; lia]. }
  destruct (map_stacks_spec _ _ _ _ _ _ _ Hf Hm) as (->&_&Hi). split; [done|]. intros i Hlt. apply Hi. lia.
Qed.

(** ** Registration of the harts *)

Lemma harts_alter f i l s : harts s !! i = Some l -> set_field harts (alter f i) s = s <| harts := <[i := f l]> (harts s) |>.
Proof. intros Hl. unfold set_field. by rewrite (alter_insert f i _ l Hl). Qed.

Lemma harts_alter_again f i l l0 s : harts s !! i = Some l0 ->
  set_field harts (alter f i) (s <| harts := <[i := l]> (harts s) |>) = s <| harts := <[i := f l]> (harts s) |>.
Proof.
  intros Hl. rewrite (harts_alter f i l) by (rproj; apply list_lookup_insert_eq; by eapply lookup_lt_Some).
  rproj. by rewrite list_insert_insert_eq.
Qed.

(** Hart [i] is [l]. *)
Definition at_hart (i : nat) (l : HartLocal) (s : KState) : KState := s <| harts := <[i := l]> (harts s) |>.

Section at_hart.
Context (i : nat) (l l0 : HartLocal) (s : KState) (Hl : harts s !! i = Some l0) (pk : Prop) (e : Env).

Lemma at_hart_same : at_hart i l0 s = s.
Proof. unfold at_hart. rewrite list_insert_id by done. by destruct s. Qed.
Lemma at_hart_lookup : harts (at_hart i l s) !! i = Some l.
Proof. unfold at_hart. rproj. apply list_lookup_insert_eq. by eapply lookup_lt_Some. Qed.
Lemma wp_at_get (Q : HartLocal -> KState -> Prop) : Q l (at_hart i l s) -> wp pk (get_hart i) Q e (at_hart i l s).
Proof. intros HQ. eapply wp_get_hart; [apply at_hart_lookup|done]. Qed.
Lemma wp_at_mod f (Q : unit -> KState -> Prop) : Q tt (at_hart i (f l) s) -> wp pk (mod_hart i f) Q e (at_hart i l s).
Proof.
  intros HQ. apply wp_mod_hart; [rewrite at_hart_lookup; by eexists|]. unfold at_hart in *.
  by rewrite (harts_alter_again f i l l0).
Qed.
End at_hart.

Section bringup.
Context (ids : nat -> Z) (e : Env) (He : e_hart e = 0%nat).

Definition role_of (h : nat) : HartRole.t := if (h =? 0)%nat then HartRole.boot else HartRole.secondary.

(** Hart [h] is registered. *)
Definition registered (h : nat) (l : HartLocal) : Prop :=
  hart_id l = ids h /\ h_index l = Z.of_nat h /\ h_role l = role_of h.
(** It takes no part in scheduling yet. *)
Definition offline (l : HartLocal) : Prop := h_scheduler l = false /\ current_task l = None /\ idle_task l = None.

Lemma register_harts_run n index s :
  (index + n <= kMaxHarts)%nat -> length (harts s) = kMaxHarts ->
  exists hs, register_harts ids index n e s = Done tt (s <| harts := hs |>) /\ length hs = kMaxHarts /\
    (forall h l, hs !! h = Some l -> (index <= h < index + n)%nat -> registered h l /\ offline l) /\
    (forall h, ~ (index <= h < index + n)%nat -> hs !! h = harts s !! h).
Proof.
  revert index s. induction n as [|n IH]; intros index s Hn Hl.
  { exists (harts s). split_and!; [by destruct s|done|lia|done]. }
  destruct (lookup_lt_is_Some_2 (harts s) index) as [l Hli]; [lia|].
  assert (wp False (hart_initialize (ids index) (Z.of_nat index) (role_of index))
    (fun _ s' => exists l', registered index l' /\ offline l' /\ s' = s <| harts := <[index := l']> (harts s) |>) e s) as Hw.
  { unfold hart_initialize. rewrite (proj2 (Z.leb_gt _ _)) by lia. rewrite Nat2Z.id. ksteps.
    match goal with |- context [set_field harts (alter ?g _) (set_field harts (alter ?f _) _)] => set (G := g); set (F := f) end.
    exists (G (F l)). split; [done|]. split; [done|]. by rewrite (harts_alter F index l s Hli), (harts_alter_again G index _ l). }
  apply wp_done in Hw as (i&s1&Hrun&l'&Hr&Ho&->).
  destruct (IH (S index) (s <| harts := <[index := l']> (harts s) |>)) as (hs&Hhs&Hlen&Hin&Hout); [lia|rproj; by rewrite length_insert|].
  exists hs. split_and!; [|done| |].
  - cbn [register_harts]. fold (role_of index). unfold mbind, M_bind. rewrite Hrun. exact Hhs.
  - intros h lh Hh Hr'. destruct (decide (h = index)) as [->|]; [|apply Hin; [done|lia]].
    rewrite Hout in Hh by lia. rproj_in Hh. rewrite list_lookup_insert_eq in Hh by lia. by simplify_eq.
  - intros h Hr'. rewrite Hout by lia. rproj. apply list_lookup_insert_ne. lia.
Qed.

(** ** Queues and tables *)

Context (g : LifecycleState) (m : Mem).
Abbreviation memory0 := (mkMemSys g (replicate kMaxRanges empty_range) 0 m).

(** The harts are registered; [bootstrap] has begun, memory is [vm], [ms]. *)
Definition begun (hs : list HartLocal) (vm : VmmManager) (ms : MemSys) : KState :=
  (power_on g m) <| harts := hs |> <| cpp_ready := true |> <| heap_initialized := true |> <| vmm := vm |> <| memsys := ms |>.

Definition queue_log : list (Lock * list Lock) :=
  (fun l => (l, [])) <$> [LRunQueue (Local 3); LRunQueue (Local 2); LRunQueue (Local 1); LRunQueue (Local 0); LRunQueue Global;
    LDelayQueue 3; LDelayQueue 2; LDelayQueue 1; LDelayQueue 0].

(** The queues are initialised. *)
Definition queued_up (hs : list HartLocal) (vm : VmmManager) (ms : MemSys) : KState :=
  (begun hs vm ms) <| time_initialized := true |> <| lock_log := queue_log |>.

(** The task manager is initialised. *)
Definition prepared (hs : list HartLocal) (vm : VmmManager) (ms : MemSys) : KState :=
  (begun hs vm ms) <| time_initialized := true |> <| lock_log := (LTaskManager, []) :: queue_log |> <| tm_initialized := true |>.

Lemma time_run hs vm ms : TimeManager_initialize e (begun hs vm ms) =
  Done tt ((begun hs vm ms) <| time_initialized := true |> <| lock_log := drop 5 queue_log |>).
Proof. vm_compute. reflexivity. Qed.
Lemma scheduler_run hs vm ms :
  Scheduler_initialize e ((begun hs vm ms) <| time_initialized := true |> <| lock_log := drop 5 queue_log |>) =
  Done tt (queued_up hs vm ms).
Proof. vm_compute. reflexivity. Qed.

Lemma TaskManager_initialize_spec hs vm ms vm' ms' ok (Q : bool -> KState -> Prop) :
  map_stacks e 0 kMaxTasks vm
    (ms <| ms_mem := clear_bytes (stack_bottom e 0) (Z.of_nat kMaxTasks * kTaskStackSize) (ms_mem ms) |>) = (ok, vm', ms') ->
  (ok = true -> Q true (prepared hs vm' ms')) -> (ok = false -> forall s', Q false s') ->
  wp False TaskManager_initialize Q e (queued_up hs vm ms).
Proof.
  intros E HQ HQ'. unfold TaskManager_initialize. apply wp_with_lock; [constructor|].
  apply wp_bind, wp_gets. cbv beta.
  match goal with |- wp _ (if tm_initialized ?x then _ else _) _ _ _ => change (tm_initialized x) with false end.
  cbv iota. apply wp_bind, wp_modify.
  unfold task_stack. apply wp_bind, wp_bind, wp_ask, wp_ret. unfold kclear_bytes. apply wp_bind, wp_modify, wp_bind.
  unfold wp at 1. rewrite map_task_stacks_run. fold (stack_bottom e 0). 
  match goal with |- context [map_stacks e 0 kMaxTasks ?v ?x] => change (map_stacks e 0 kMaxTasks v x) with
    (map_stacks e 0 kMaxTasks vm (ms <| ms_mem := clear_bytes (stack_bottom e 0) (Z.of_nat kMaxTasks * kTaskStackSize) (ms_mem ms) |>)) end.
  rewrite E. destruct ok; cbn [negb].
  - apply wp_bind, wp_modify, wp_ret. split; [done|]. by apply HQ.
  - apply wp_ret. split; [done|]. by apply HQ'.
Qed.

(** ** The harts join *)

(** Fields that the invariant does not read. *)
Lemma Sound_same s s' C F :
  Sound s C F -> tasks s' = tasks s -> harts s' = harts s -> task_slots_used s' = task_slots_used s ->
  endpoints s' = endpoints s -> slot_allocated s' = slot_allocated s -> delay_queues s' = delay_queues s ->
  (forall q, get_rq q s' = get_rq q s) -> lock_log s' = lock_log s -> trackers s' = trackers s ->
  tracker_slots_used s' = tracker_slots_used s -> root_tasks s' = root_tasks s -> Sound s' C F.
Proof.
  intros [HI Hei HR HL] Et Eh Eu Ee Es Ed Er El Ek Eku Ero. split.
  - eapply (Inv_same s); try done. rewrite El. apply HI.
  - by eapply EpIdle_same.
  - by apply (Running_frame None s).
  - destruct HL as [L1 L2 L3 L4 L5 L6 L7]. split; rewrite ?Et, ?Eu, ?Ek, ?Eku; try done.
    + by rewrite Ero.
    + intros k tr Hk Htr Hw. destruct (L7 k tr Hk Htr Hw) as (i&t&Hi&Ht&Hst&Hid&Hcpu). exists i, t. split_and!; try done.
      unfold waiting, cpu_bound in *. by rewrite Eh.
Qed.

(** Slots below [n] are taken. *)
Definition taken (n : nat) : list bool := replicate n true ++ replicate (kMaxTasks - n) false.

Lemma first_free_taken n : (n < kMaxTasks)%nat -> first_free (taken n) 0 = Some n.
Proof. intros Hn. unfold kMaxTasks in Hn. do 16 (destruct n as [|n]; [done|]). lia. Qed.
Lemma taken_insert n : (n < kMaxTasks)%nat -> <[n := true]> (taken n) = taken (S n).
Proof. intros Hn. unfold kMaxTasks in Hn. do 16 (destruct n as [|n]; [done|]). lia. Qed.
Lemma taken_used n i : (i < n <= kMaxTasks)%nat -> taken n !! i = Some true.
Proof. intros Hn. unfold taken. rewrite lookup_app_l by (rewrite length_replicate; lia). apply lookup_replicate_2. lia. Qed.

Context (count : nat) (Hcount : (1 <= count <= kMaxHarts)%nat) (vm : VmmManager).
Abbreviation space := (boot_address_space vm).
Context (Hspace : as_valid space = true).

(** Hart [h] is bound to the scheduler; its idle task is in slot [h]. *)
Definition joined (h : nat) (l : HartLocal) : Prop :=
  h_scheduler l = true /\ scheduler_extra l = Some h /\ delay_list l = Some h /\ idle_task l = Some h /\
  timeslice_ticks l = task_timeslice_ticks.

(** The context with which a new task is entered. *)
Definition first_context (entry_point stack_top : Z) : TaskContext :=
  user_context 0 entry_point 0 stack_top (user_task_end_stub (e_syms e)) (satp_value space) zero_context.

(** The idle task of hart [h]. *)
Definition idle_of (h : nat) (t : Task) : Prop :=
  t_idle t = true /\ t_state t = TaskState.ready /\ t_cpu t = Some h /\ t_context t = first_context (user_idle_task (e_syms e)) 0.

(** The first [n] harts have joined. *)
Record Joining (n : nat) (s : KState) : Prop := {
  jo_sound : exists F, Sound s quiet F;
  jo_held : held s = []; jo_time : time_initialized s = true; jo_tasks : tm_initialized s = true; jo_vmm : vmm s = vm;
  jo_csrs : csrs s = replicate kMaxHarts (mkCsr 0 0 0 0 0 0 0);
  jo_slots : task_slots_used s = taken n; jo_trackers : tracker_slots_used s = taken n;
  jo_length : length (harts s) = kMaxHarts;
  jo_harts : forall h l, harts s !! h = Some l -> current_task l = None /\ ((h < count)%nat -> registered h l) /\
    if decide (h < n)%nat then joined h l else h_scheduler l = false /\ idle_task l = None;
  jo_idle : forall h, (h < n)%nat -> exists t, tasks s !! h = Some t /\ idle_of h t;
}.

(** The harts change before any task runs. *)
Lemma Sound_harts s F hs :
  Sound s quiet F -> (forall h l, hs !! h = Some l -> current_task l = None) ->
  (forall h l, hs !! h = Some l -> h_scheduler l = true ->
    scheduler_extra l = Some h /\ delay_list l = Some h /\ (h < kMaxHarts)%nat /\
    exists it, idle_task l = Some it /\ idle_ok s it) ->
  (forall h h' l l' it, hs !! h = Some l -> hs !! h' = Some l' -> idle_task l = Some it -> idle_task l' = Some it -> h = h') ->
  (forall h l, harts s !! h = Some l -> h_scheduler l = true -> exists l', hs !! h = Some l' /\ h_scheduler l' = true) ->
  Sound (s <| harts := hs |>) quiet F.
Proof.
  intros [[I1 I2 I3 I4 I5 I6 I7 I8 I9] He' HR HL] Hc Hb Hinj Hk. split.
  - split; try done.
    + apply (qstruct_frame s); [done|done|rproj; intros; by simplify_eq|done].
    + intros q i t Hi. by apply elem_of_nil in Hi.
    + intros h l Hh Hs. destruct (Hb h l Hh Hs) as (?&?&?&it&?&[Hi Hu]). split_and!; try done. by exists it.
  - done.
  - split; rproj.
    + intros h l i _ Hh Hi. rewrite (Hc h l Hh) in Hi. done.
    + intros h h' l l' i _ _ Hh _ Hi. rewrite (Hc h l Hh) in Hi. done.
  - destruct HL as [L1 L2 L3 L4 L5 L6 L7]. split; try done. intros k tr Hu Htr Hw.
    destruct (L7 k tr Hu Htr Hw) as (i&t&Hi&Ht&Hst&Hid&c&l&Hcpu&Hl&Hs). exists i, t. split_and!; try done. split_and!; try done.
    destruct (Hk c l Hl Hs) as (l'&Hl'&Hs'). by exists c, l'.
Qed.

(** The state in which the first hart joins. *)
Lemma prepared_joining hs ms :
  length hs = kMaxHarts -> (forall h l, hs !! h = Some l -> offline l /\ ((h < count)%nat -> registered h l)) ->
  Joining 0 (prepared hs vm ms).
Proof.
  intros Hl Hhs. split; try done.
  - exists (flat []). assert (Sound (prepared (replicate kMaxHarts zero_hart) vm ms) quiet (flat [])) as H0.
    { apply (healthy_sound (prepared (replicate kMaxHarts zero_hart) vm ms)). vm_compute. reflexivity. }
    apply (Sound_harts _ _ hs) in H0; [exact H0|..].
    + intros h l Hh. by destruct (Hhs h l Hh) as [(_&?&_) _].
    + intros h l Hh Hs. destruct (Hhs h l Hh) as [(E&_) _]. congruence.
    + intros h h' l l' it Hh _ Hi. destruct (Hhs h l Hh) as [(_&_&E) _]. congruence.
    + intros h l Hh Hs. change (replicate kMaxHarts zero_hart !! h = Some l) in Hh. apply lookup_replicate in Hh as [-> _]. done.
  - intros h l Hh. destruct (Hhs h l Hh) as [(?&?&?) ?]. by split_and!.
  - intros h Hh. lia.
Qed.

(** A hart is bound and gets its time queue. *)
Definition bound_hart (n : nat) (l : HartLocal) : HartLocal :=
  l <| h_scheduler := true |> <| scheduler_extra := Some n |> <| delay_list := Some n |>
    <| timeslice_ticks := task_timeslice_ticks |> <| scheduler_preemption_count := 0 |>.

(** One round of the loop up to the creation of the idle task. *)
Lemma join_begins n k s l (Q : bool -> KState -> Prop) :
  Joining n s -> (n < count)%nat -> harts s !! n = Some l ->
  wp False (idle ← create_idle_task n;
            match idle with
            | None => mret false
            | Some task =>
                mod_hart n (<| idle_task := Some task |>);;
                mod_hart n (<| current_task := None |>);;
                initialize_cpus (S n) k
            end) Q e (at_hart n (bound_hart n l) s) ->
  wp False (initialize_cpus n (S k)) Q e s.
Proof.
  intros HJ Hn Hl HQ. destruct (jo_harts _ _ HJ n l Hl) as (_&Hr&_). destruct (Hr Hn) as (_&Hi&_).
  rewrite <- (at_hart_same n l s Hl). cbn [initialize_cpus]. unfold bind_hart, initialize_hart.
  apply wp_bind, wp_bind, wp_at_get with (l0 := l); [done|]. rewrite Hi, (proj2 (Z.leb_gt _ _)), Nat2Z.id by lia.
  apply wp_bind, (wp_at_mod n _ l); [done|]. apply (wp_at_mod n _ l); [done|].
  apply wp_bind, wp_bind, wp_gets, wp_bind, (wp_at_get n _ l); [done|].
  change (time_initialized (at_hart _ _ s)) with (time_initialized s). rewrite (jo_time _ _ HJ). rproj.
  rewrite Hi, (proj2 (Z.leb_gt _ _)), Nat2Z.id by lia. cbn [negb orb].
  do 3 (apply wp_bind, (wp_at_mod n _ l); [done|]). apply wp_ret. cbn [negb]. exact HQ.
Qed.

(** The creation of an idle task, with the lock it takes. *)
Lemma create_idle_spec n s F (Q : option nat -> KState -> Prop) :
  Joining n s -> (n < kMaxHarts)%nat -> Sound s quiet F ->
  (is_boot_user_entry (user_idle_task (e_syms e)) vm = false -> forall s', Q None s') ->
  (is_boot_user_entry (user_idle_task (e_syms e)) vm = true -> forall s' F' t, Sound s' quiet F' -> harts s' = harts s ->
     held s' = held s -> csrs s' = csrs s -> time_initialized s' = time_initialized s -> vmm s' = vm -> tm_initialized s' = true -> task_slots_used s' = taken (S n) -> tracker_slots_used s' = taken (S n) ->
     tasks s' = <[n := t]> (tasks s) -> idle_of n t -> Q (Some n) s') ->
  wp False (create_idle_task n) Q e s.
Proof.
  intros HJ Hn Hso HQn HQs. pose proof HJ as [_ Hhd Hti Htm Hvm Hcs Hsl Hks Hlen _ _].
  unfold create_idle_task. apply wp_with_lock; [rewrite Hhd; constructor|]. apply wp_bind, wp_gets, wp_bind, wp_ask.
  match goal with |- wp _ _ _ _ ?x => set (s1 := x) end. change (vmm s1) with (vmm s). rewrite Hvm.
  assert (Sound s1 quiet F) as Hso1 by (apply Sound_locks; [done|]; constructor; [rewrite Hhd; constructor|apply Hso]).
  destruct (lookup_lt_is_Some_2 (harts s1) (e_hart e)) as [l0 Hl0]; [rewrite He; change (harts s1) with (harts s); unfold kMaxHarts in *; lia|].
  assert (creatable e (user_idle_task (e_syms e)) space false s1 = is_boot_user_entry (user_idle_task (e_syms e)) vm) as Ecr.
  { unfold creatable. change (tm_initialized s1) with (tm_initialized s). change (vmm s1) with (vmm s).
    change (task_slots_used s1) with (task_slots_used s). change (tracker_slots_used s1) with (tracker_slots_used s).
    rewrite Htm, Hvm, Hspace, Hsl, Hks, first_free_taken by (unfold kMaxHarts, kMaxTasks in *; lia). cbn. by rewrite andb_true_r. }
  apply (create_task_locked_spec False e l0 (mkCsr 0 0 0 0 0 0 0) _ _ _ _ _ _ _ s1 quiet F Hso1 Hl0).
  { change (csrs s1) with (csrs s). rewrite Hcs, He. done. }
  - intros s2 Hc Hrf. split; [apply (rf_frame _ _ _ _ Hrf)|]. apply HQn. by rewrite <- Ecr.
  - intros i k s2 Hc [C1 [C2 C2'] [C3 [C4 C5]] C6 [C7 C8] C9 C10 C11 C12]. split; [apply C12|].
    change (task_slots_used s1) with (task_slots_used s) in *. change (tracker_slots_used s1) with (tracker_slots_used s) in *.
    rewrite Hsl, first_free_taken in C2 by (unfold kMaxHarts, kMaxTasks in *; lia). injection C2 as <-.
    rewrite Hks, first_free_taken in C2' by (unfold kMaxHarts, kMaxTasks in *; lia). injection C2' as <-.
    eapply HQs; [congruence|by apply Sound_held|apply C12|done|apply C12|apply C12| | | | |exact C9|done].
    + rproj. rewrite C4. exact Hvm.
    + rproj. rewrite C3. exact Htm.
    + rproj. rewrite C7, Hsl. apply taken_insert. unfold kMaxHarts, kMaxTasks in *; lia.
    + rproj. rewrite C8, Hks. apply taken_insert. unfold kMaxHarts, kMaxTasks in *; lia.
Qed.

(** The hart knows its idle task: it has joined. *)
Lemma join_ends n s s' F t l :
  Joining n s -> (n < count)%nat -> harts s !! n = Some l -> Sound s' quiet F -> harts s' = harts s -> held s' = held s ->
  csrs s' = csrs s -> time_initialized s' = time_initialized s -> vmm s' = vm -> tm_initialized s' = true ->
  task_slots_used s' = taken (S n) -> tracker_slots_used s' = taken (S n) -> tasks s' = <[n := t]> (tasks s) -> idle_of n t ->
  Joining (S n) (at_hart n ((bound_hart n l) <| idle_task := Some n |> <| current_task := None |>) s').
Proof.
  intros HJ Hn Hl Hso Eh Ehd Ecs Eti Evm Etm Esl Eks Ets Hid. set (l' := _ <| current_task := None |>).
  pose proof HJ as [_ Hhd Hti Htm Hvm Hcs Hsl Hks Hlen Hhs Hidle]. destruct (Hhs n l Hl) as (_&Hreg&_).
  assert (length (tasks s) = kMaxTasks) as Hlt
    by (rewrite <- (inv_tasks _ _ (so_inv _ _ _ Hso)), Ets; by rewrite length_insert).
  unfold kMaxHarts, kMaxTasks in *.
  assert (tasks s' !! n = Some t) as Htn by (rewrite Ets; apply list_lookup_insert_eq; lia).
  assert (forall h lh, <[n := l']> (harts s) !! h = Some lh -> current_task lh = None /\ ((h < count)%nat -> registered h lh) /\
    if decide (h < S n)%nat then joined h lh else h_scheduler lh = false /\ idle_task lh = None) as Hnew.
  { intros h lh [[-> ->]|[Hne Hh]]%insert_cases.
    - split; [done|]. split; [done|]. by rewrite decide_True by lia.
    - destruct (Hhs h lh Hh) as (H1&H2&H3). split; [done|]. split; [done|].
      destruct (decide (h < n)%nat), (decide (h < S n)%nat); try done; lia. }
  assert (forall h, (h < S n)%nat -> exists t, tasks s' !! h = Some t /\ idle_of h t) as Hidle'.
  { intros h Hh. destruct (decide (h = n)) as [->|Hne]; [by exists t|]. destruct (Hidle h) as (th&?&?); [lia|].
    exists th. split; [|done]. by rewrite Ets, list_lookup_insert_ne. }
  assert (Sound (at_hart n l' s') quiet F) as Hso'.
  { unfold at_hart. rewrite Eh. apply Sound_harts; [done|intros h lh Hh; apply (Hnew h lh Hh)| | |].
    - intros h lh Hh Hs. destruct (Hnew h lh Hh) as (_&_&Hj). case_decide as Hd; [|destruct Hj; congruence].
      destruct Hj as (_&?&?&?&_). split_and!; try done; [unfold kMaxHarts; lia|]. exists h. split; [done|].
      destruct (Hidle' h Hd) as (th&Hth&Hi&Hst&_). split.
      + exists th. rewrite Hst. done.
      + rewrite Esl. apply taken_used. unfold kMaxTasks. lia.
    - intros h h' lh lh' it Hh Hh' Hi Hi'. destruct (Hnew h lh Hh) as (_&_&Hj), (Hnew h' lh' Hh') as (_&_&Hj').
      destruct (decide (h < S n)%nat); [|destruct Hj; congruence]. destruct (decide (h' < S n)%nat); [|destruct Hj'; congruence].
      destruct Hj as (_&_&_&E&_), Hj' as (_&_&_&E'&_). congruence.
    - intros h lh Hh Hs. rewrite Eh in Hh. destruct (decide (h = n)) as [->|Hne].
      + exists l'. split; [apply list_lookup_insert_eq; by eapply lookup_lt_Some|done].
      + exists lh. by rewrite list_lookup_insert_ne. }
  split; unfold at_hart; rproj; rewrite ?Eh; try done; try congruence.
  - exists F. unfold at_hart in Hso'. by rewrite Eh in Hso'.
  - rewrite Ecs, Hcs. done.
  - by rewrite length_insert.
Qed.

(** Every hart joins, if the idle code is where it should be. *)
Lemma initialize_cpus_spec k n s (Q : bool -> KState -> Prop) :
  Joining n s -> (n + k = count)%nat ->
  (is_boot_user_entry (user_idle_task (e_syms e)) vm = false -> forall s', Q false s') ->
  (is_boot_user_entry (user_idle_task (e_syms e)) vm = true -> forall s', Joining count s' -> Q true s') ->
  (k = 0%nat -> is_boot_user_entry (user_idle_task (e_syms e)) vm = true) ->
  wp False (initialize_cpus n k) Q e s.
Proof.
  revert n s. induction k as [|k IH]; intros n s HJ Hk HQn HQs H0.
  { apply wp_ret, HQs; [auto|]. by replace count with n by lia. }
  destruct (lookup_lt_is_Some_2 (harts s) n) as [l Hl]; [rewrite (jo_length _ _ HJ); lia|].
  apply (join_begins n k s l); [done|lia|done|]. unfold at_hart. apply wp_bind, hartless_wp; [apply hartless_create_idle_task|].
  destruct (jo_sound _ _ HJ) as [F Hso]. apply (create_idle_spec n s F); [done|lia|done| |].
  - intros Hno s'. apply wp_ret. by apply HQn.
  - intros Hyes s' F' t Hso' Eh Ehd Ecs Eti Evm Etm Esl Eks Ets Hid.
    assert (s' <| harts := <[n := bound_hart n l]> (harts s) |> = at_hart n (bound_hart n l) s') as ->
      by (unfold at_hart; by rewrite Eh).
    assert (harts s' !! n = Some l) as Hl' by (by rewrite Eh).
    do 2 (apply wp_bind, (wp_at_mod n _ l); [done|]). apply IH; [|lia|done|done|done].
    eapply join_ends; try done. lia.
Qed.

(** ** The initial task *)

Context (Hmapped : forall i, (i < kMaxTasks)%nat -> is_mapped (stack_bottom e i) vm = true).
Abbreviation init_context := (first_context (user_init_task (e_syms e)) (stack_bottom e count + kTaskStackSize)).

(** The boot hart runs the initial task, in slot [count]; the others wait for
    their start. *)
Record Up (s : KState) : Prop := {
  up_live : exists F l, Live e count l s quiet F /\ 0 <= timeslice_ticks l <= kIdleTimesliceTicks;
  up_task : exists t, tasks s !! count = Some t /\ t_idle t = false /\ t_context t = init_context /\ t_tid t = initial_task_id s;
  up_vmm : vmm s = vm;
  up_harts : forall h, (0 < h < count)%nat -> exists l, harts s !! h = Some l /\ registered h l /\ joined h l /\ current_task l = None;
  up_idle : forall h, (h < count)%nat -> exists t, tasks s !! h = Some t /\ idle_of h t;
}.

(** What creation of the initial task leads to. *)
Lemma create_init_spec s (Q : option nat -> KState -> Prop) :
  Joining count s ->
  (is_boot_user_entry (user_init_task (e_syms e)) vm = false -> forall s', Q None s') ->
  (is_boot_user_entry (user_init_task (e_syms e)) vm = true -> forall s' F' t, Sound s' quiet F' -> harts s' = harts s ->
     held s' = held s -> csrs s' = csrs s -> time_initialized s' = time_initialized s -> vmm s' = vm ->
     task_slots_used s' = taken (S count) -> tasks s' = <[count := t]> (tasks s) -> (forall k, flag_of k t = false) ->
     t_idle t = false -> t_state t = TaskState.ready -> t_context t = init_context -> Q (Some count) s') ->
  wp False (create_task (user_init_task (e_syms e)) 0 space 0 true) Q e s.
Proof.
  intros HJ HQn HQs. pose proof HJ as [[F Hso] Hhd Hti Htm Hvm Hcs Hsl Hks Hlen _ _].
  assert (count < kMaxTasks)%nat as Hct by (unfold kMaxHarts, kMaxTasks in *; lia).
  unfold create_task. apply wp_with_lock; [rewrite Hhd; constructor|].
  match goal with |- wp _ _ _ _ ?x => set (s1 := x) end.
  assert (Sound s1 quiet F) as Hso1 by (apply Sound_locks; [done|]; constructor; [rewrite Hhd; constructor|apply Hso]).
  destruct (lookup_lt_is_Some_2 (harts s1) (e_hart e)) as [l0 Hl0]; [rewrite He; change (harts s1) with (harts s); unfold kMaxHarts in *; lia|].
  assert (creatable e (user_init_task (e_syms e)) space true s1 = is_boot_user_entry (user_init_task (e_syms e)) vm) as Ecr.
  { unfold creatable. change (tm_initialized s1) with (tm_initialized s). change (vmm s1) with (vmm s).
    change (task_slots_used s1) with (task_slots_used s). change (tracker_slots_used s1) with (tracker_slots_used s).
    rewrite Htm, Hvm, Hspace, Hsl, Hks, first_free_taken, is_mapped_spec by auto. cbn. by rewrite andb_true_r. }
  apply (create_task_locked_spec False e l0 (mkCsr 0 0 0 0 0 0 0) _ _ _ _ _ _ _ s1 quiet F Hso1 Hl0).
  { change (csrs s1) with (csrs s). rewrite Hcs, He. done. }
  - intros s2 Hc Hrf. split; [apply (rf_frame _ _ _ _ Hrf)|]. apply HQn. by rewrite <- Ecr.
  - intros i k s2 Hc [C1 [C2 C2'] [C3 C4] C6 [C7 C8] C9 C10 C11 C12]. split; [apply C12|].
    change (task_slots_used s1) with (task_slots_used s) in *. change (tracker_slots_used s1) with (tracker_slots_used s) in *.
    rewrite Hsl, first_free_taken in C2 by done. injection C2 as <-.
    change (vmm s1) with (vmm s) in C4. rewrite Hvm, is_mapped_spec in C4 by auto. injection C4 as C4 _.
    eapply HQs; [congruence|by apply Sound_held|apply C12|done|apply C12|apply C12|done| |exact C9|by intros []|done|done|done].
    rproj. rewrite C7, Hsl. by apply taken_insert.
Qed.

Lemma init_task_spec s (Q : bool -> KState -> Prop) :
  Joining count s -> (is_boot_user_entry (user_init_task (e_syms e)) vm = false -> forall s', Q false s') ->
  (is_boot_user_entry (user_init_task (e_syms e)) vm = true -> forall s', Up s' -> Q true s') ->
  wp False init_task_bootstrap Q e s.
Proof.
  intros HJ HQn HQs. unfold init_task_bootstrap. apply wp_bind, wp_gets, wp_bind, wp_ask, wp_bind. rewrite (jo_vmm _ _ HJ).
  apply create_init_spec; [done|intros Hno s'; apply wp_ret; by apply HQn|].
  intros Hyes s1 F t Hso Eh Ehd Ecs Eti Evm Esl Ets Hf Hid Hst Hctx.
  pose proof HJ as [_ Hhd Hti _ _ Hcs _ _ Hlen Hhs Hidle]. pose proof Hso as [HI Hei HR HL].
  assert (tasks s1 !! count = Some t) as Ht.
  { rewrite Ets. apply list_lookup_insert_eq. pose proof (inv_tasks _ _ HI) as E. rewrite Ets, length_insert in E.
    rewrite E. unfold kMaxHarts, kMaxTasks in *. lia. }
  unfold set_initial_task. apply wp_bind, wp_bind. eapply wp_get_task; [exact Ht|]. apply wp_modify.
  set (s2 := s1 <| initial_task_id := t_tid t |>).
  assert (Sound s2 quiet F) as Hso2.
  { by apply (Sound_same s1). }
  destruct (lookup_lt_is_Some_2 (harts s) 0) as [l Hl]; [rewrite Hlen; unfold kMaxHarts; lia|].
  destruct (Hhs 0%nat l Hl) as (Hc0&_&Hj). rewrite decide_True in Hj by lia. destruct Hj as (Hsc&_&_&_&Htk).
  assert (harts s2 !! e_hart e = Some l) as Hl2 by (rewrite He; change (harts s2) with (harts s1); by rewrite Eh).
  apply wp_bind, wp_keeps; [apply keeps_set_current_task|].
  apply (set_current_task_spec count t l quiet); try done; [apply Hso2|apply Running_weaken, Hso2|by rewrite Hst| | | | |].
  - change (task_slots_used s2) with (task_slots_used s1). rewrite Esl. apply taken_used. unfold kMaxHarts, kMaxTasks in *. lia.
  - by rewrite Hid.
  - intros h lh _ Hh. change (harts s2) with (harts s1) in Hh. rewrite Eh in Hh. by rewrite (proj1 (Hhs h lh Hh)).
  - rewrite Htk. unfold task_timeslice_ticks, kIdleTimesliceTicks. lia.
  - intros s3 HI3 HR3 [(t3&Ht3&_&_&Hk3) (l3&Hl3&Hcl3&Htk3) [Hlt3 Hot3]] Hsf _ Hsta. apply wp_ret, HQs; [done|].
    destruct (Hk3 t Ht) as (Ec3&Etid3&Eid3&_). pose proof (st_harts _ _ Hsta) as Ehs. pose proof (st_tables _ _ Hsta) as E.
    unfold tables in E. injection E as _ _ _ _ _ Ein _ Eti3 Evm3 _.
    split.
    + exists F, l3. split; [|done]. split; try done.
      * split; try done. apply (joiners_Lineage _ _ s2); [apply Hso2|done|]. apply (joiners_only count); [by split|].
        intros t0 Ht0 [Hw _]. change (tasks s2) with (tasks s1) in Ht0. rewrite Ht in Ht0. injection Ht0 as <-. congruence.
      * rewrite (sf_held _ _ _ Hsf). change (held s2) with (held s1). by rewrite Ehd.
      * rewrite Eti3. change (time_initialized s2) with (time_initialized s1). by rewrite Eti.
      * intros h lh Hh. apply lookup_lt_is_Some_2. rewrite (st_csrs _ _ Hsta). change (csrs s2) with (csrs s1).
        rewrite Ecs, Hcs, length_replicate. specialize (Ehs h). rewrite Hh in Ehs. symmetry in Ehs.
        apply fmap_Some in Ehs as (lh1&Hlh1&_). change (harts s2) with (harts s1) in Hlh1. rewrite Eh in Hlh1.
        apply lookup_lt_Some in Hlh1. by rewrite <- Hlen.
      * specialize (Ehs (e_hart e)). rewrite Hl3, Hl2 in Ehs. apply (inj Some) in Ehs. unfold hart_kin in Ehs. congruence.
    + exists t3. split_and!; congruence.
    + rewrite Evm3. exact Evm.
    + intros h Hh. destruct (lookup_lt_is_Some_2 (harts s) h) as [lh Hlh]; [unfold kMaxHarts in *; lia|].
      destruct (Hhs h lh Hlh) as (?&Hreg&Hj). rewrite decide_True in Hj by lia. exists lh. split_and!; try done; [|apply Hreg; lia].
      rewrite (sf_other _ _ _ Hsf) by (rewrite He; lia). change (harts s2) with (harts s1). by rewrite Eh.
    + intros h Hh. destruct (Hidle h Hh) as (th&Hth&Hih). assert (h <> count) as Hne by lia.
      specialize (Hot3 h Hne). change (tasks s2) with (tasks s1) in Hot3. rewrite Ets, list_lookup_insert_ne, Hth in Hot3 by done.
      apply fmap_Some in Hot3 as (th3&Hth3&Ecore). exists th3. split; [done|]. symmetry in Ecore.
      apply core_inv in Ecore as (E1&E2&E3&_&E5&_). unfold idle_of in *. by rewrite E1, E2, E3, E5.
Qed.
End bringup.

(** ** The bootstrap sequence *)

(** Everything before the initial task: it succeeds if the memory fits and the
    idle code is in place, and then every hart has joined. *)
Lemma groundwork_spec ids e g m count hs okm vm ms (pk : Prop) :
  e_hart e = 0%nat -> (1 <= count <= kMaxHarts)%nat -> length hs = kMaxHarts ->
  (forall h l, hs !! h = Some l -> offline l /\ ((h < count)%nat -> registered ids h l)) ->
  boot_memory e VmmManager_new (mkMemSys g (replicate kMaxRanges empty_range) 0 m) = (okm, vm, ms) ->
  wp pk (b ← boot_data_bootstrap;
         if negb b then mret false
         else m ← memory_bootstrap; if negb m then mret false else cpu_bootstrap (Z.of_nat count))
    (fun b s' => b = okm && is_boot_user_entry (user_idle_task (e_syms e)) vm /\ (b = true -> Joining ids e count vm count s'))
    e ((power_on g m) <| harts := hs |> <| cpp_ready := true |>).
Proof.
  intros He Hcount Hlen Hhs Em. unfold boot_data_bootstrap. apply wp_bind, wp_ret. cbn [negb]. apply wp_bind.
  unfold wp at 1, memory_bootstrap. match goal with |- context [reset (memsys ?x)] => change (memsys x) with (mkMemSys g (replicate kMaxRanges empty_range) 0 m) end.
  pose proof Em as Em'. unfold boot_memory in Em.
  destruct (add_contained_bootstrap_pool _ _ _) as [[] ms1]; cbn [negb] in Em |- *; [|injection Em as <- <- <-; by apply wp_ret].
  match goal with |- context [vmm_initialize _ _ (vmm ?x) _] => change (vmm x) with VmmManager_new end.
  destruct (vmm_initialize _ _ _ _) as [[[] vm1] ms2]; cbn [negb] in Em |- *; [|injection Em as <- <- <-; by apply wp_ret].
  match goal with |- wp _ _ _ _ ?x => change x with (begun g m hs vm1 ms2) end. unfold cpu_bootstrap.
  apply wp_bind. unfold wp at 1. rewrite time_run. apply wp_bind. unfold wp at 1. rewrite scheduler_run.
  apply wp_bind, wp_any. eapply (TaskManager_initialize_spec e g m hs); [exact Em| |].
  2: { intros -> s'. cbn [negb]. apply wp_ret. done. }
  intros ->. destruct (boot_memory_ok e g m vm ms Em') as [Ha Hm]. cbn [negb]. unfold CpuManager_initialize.
  unfold kMaxHarts in *. rewrite (proj2 (Z.eqb_neq _ _)), (proj2 (Z.ltb_ge _ _)), Nat2Z.id by lia. cbn [orb].
  apply wp_bind, wp_any. apply (initialize_cpus_spec ids e He count) with (vm := vm); try done.
  - by apply prepared_joining.
  - intros Hyes s' HJ. cbn [negb]. apply wp_bind, wp_modify, wp_ret. split; [by rewrite Hyes|]. intros _.
    destruct HJ as [[F Hso] J1 J2 J3 J4 J5 J6 J7 J8 J9 J10]. split; try done. exists F. by apply (Sound_same s').
  - lia.
Qed.

Lemma bootstrap_spec ids e g m count hs :
  e_hart e = 0%nat -> (1 <= count <= kMaxHarts)%nat -> length hs = kMaxHarts ->
  (forall h l, hs !! h = Some l -> offline l /\ ((h < count)%nat -> registered ids h l)) ->
  wp (boot_fits e g m = false) (bootstrap (Z.of_nat count)) (fun r s' => boot_fits e g m = true /\ exists vm, Up ids e count vm s' /\
    r = (restore_to_trap (first_context e vm (user_init_task (e_syms e)) (stack_bottom e count + kTaskStackSize)) zero_frame,
         satp_value (boot_address_space vm))) e ((power_on g m) <| harts := hs |>).
Proof.
  intros He Hcount Hlen Hhs. unfold boot_fits.
  destruct (boot_memory _ _ _) as [[okm vm] ms] eqn:Em. unfold bootstrap. apply wp_bind, wp_current_hart. rewrite He.
  destruct (lookup_lt_is_Some_2 hs 0) as [l Hl]; [unfold kMaxHarts in *; lia|].
  apply wp_bind, wp_mod_hart; [by exists l|]. set (hs' := alter (<| current_task := None |>) 0%nat hs).
  apply wp_bind. unfold cpp_bootstrap. apply wp_modify, wp_bind, wp_gets.
  match goal with |- wp _ _ _ _ ?x => change x with ((power_on g m) <| harts := hs' |> <| cpp_ready := true |>) end.
  cbv beta. match goal with |- wp _ (mbind _ (if negb ?b then _ else _)) _ _ _ => change b with true end. cbn [negb].
  apply wp_bind. eapply wp_mono; [apply (groundwork_spec ids e g m count hs' okm vm ms _ He Hcount); [|..|exact Em]|done|].
  { unfold hs'. by rewrite length_alter. }
  { intros h lh. unfold hs'. rewrite lookup_alter_if. intros (l1&Hl1&->)%fmap_Some. destruct (Hhs h l1 Hl1) as [(?&?&?) Hreg].
    case_decide; [|done]. split; [done|]. intros Hh. by apply Hreg in Hh. }
  intros b s1 [-> HJ]. destruct okm; cbn [andb negb].
  2: { apply wp_bind, wp_any, kprintk_spec; [by vm_compute|]. intros c. by apply wp_park. }
  destruct (boot_memory_ok _ _ _ _ _ Em) as [Ha Hm].
  destruct (is_boot_user_entry (user_idle_task (e_syms e)) vm); cbn [andb negb].
  2: { apply wp_bind, wp_any, kprintk_spec; [by vm_compute|]. intros c. by apply wp_park. }
  specialize (HJ eq_refl). apply wp_bind, wp_any, (init_task_spec ids e He count Hcount vm Ha Hm); [done| |].
  { intros Hno s2. cbn [negb]. apply wp_bind, wp_any, kprintk_spec; [by vm_compute|]. intros c. by apply wp_park. }
  intros Hyes s2 [(F&lh&HL&Htk) (t&Ht&Hid&Hctx&Htid) Hvm Hh2 Hid2]. cbn [negb].
  apply wp_bind, wp_keeps; [apply keeps_kprintk|]. apply wp_any, kprintk_spec; [by vm_compute|]. intros c Hst.
  set (s3 := s2 <| console := c |>). assert (Live e count lh s3 quiet F) as HL3 by (by eapply live_same).
  apply wp_keeps; [apply keeps_dispatch_task|].
  apply wp_any, (dispatch_task_enters e count lh t s3 quiet F); [done|done|done|]. intros s4 HL4 Et4 Eh4 Hst4.
  split; [done|]. exists vm. split; [|by rewrite Hctx].
  pose proof (st_tables _ _ Hst4) as E. unfold tables in E. injection E as _ _ _ _ _ Ein _ _ Evm _.
  split; rewrite ?Et4, ?Eh4; try done; [by exists F, lh| |congruence].
  exists t. split_and!; try done. by rewrite Ein.
Qed.

(** ** Properties *)

Lemma first_context_enters e vm entry_point top :
  let frame := restore_to_trap (first_context e vm entry_point top) zero_frame in
  fr_mepc frame = entry_point /\ Z.land (fr_mstatus frame) kMstatusMppMask = 0 /\
  fr_x frame !! 2%nat = Some top /\ fr_x frame !! 1%nat = Some (user_task_end_stub (e_syms e)).
Proof. done. Qed.

Lemma machine_boot_spec ids e g m count :
  e_hart e = 0%nat -> (1 <= count <= kMaxHarts)%nat ->
  wp (boot_fits e g m = false) (machine_boot ids count) (fun r s' => boot_fits e g m = true /\ exists vm, Up ids e count vm s' /\
    r = (restore_to_trap (first_context e vm (user_init_task (e_syms e)) (stack_bottom e count + kTaskStackSize)) zero_frame,
         satp_value (boot_address_space vm))) e (power_on g m).
Proof.
  intros He Hcount. unfold machine_boot. apply wp_bind. unfold wp at 1.
  destruct (register_harts_run ids e He count 0 (power_on g m)) as (hs&->&Hlen&Hin&Hout); [unfold kMaxHarts in *; lia|done|].
  apply bootstrap_spec; try done. intros h l Hh. destruct (decide (h < count)%nat) as [Hlt|Hge].
  - destruct (Hin h l Hh) as [? ?]; [lia|]. by split.
  - rewrite Hout in Hh by lia. change (replicate kMaxHarts zero_hart !! h = Some l) in Hh. apply lookup_replicate in Hh as [-> _].
    split; [done|]. intros ?. lia.
Qed.

(** A machine that has booted is ready. *)
Lemma boot_ready ids count e g m r s :
  (1 <= count <= kMaxHarts)%nat -> e_hart e = 0%nat -> machine_boot ids count e (power_on g m) = Done r s -> Ready s.
Proof.
  intros Hcount He Hb. pose proof (machine_boot_spec ids e g m count He Hcount) as Hw. unfold wp in Hw. rewrite Hb in Hw.
  destruct Hw as (_&vm&[(F&l&HL&_) _ _ _ _]&_). by eapply live_ready.
Qed.


(** The layout of the demonstration fits, whatever the memory holds. *)
Lemma demo_fits m : boot_fits (demo_env 0) (initialize_contained (2 ^ 31) initial_state) m = true.
Proof. vm_compute. reflexivity. Qed.

