(* ===== verification/Affinity.v ===== *)
(** * No task is pinned

    The field [affinity_pinned] of a task sends it to the queue of its own hart.
    The source writes it once, with zero, in [TaskManager::create_task_locked]:
    no operation of the kernel, from the bring-up on, ever pins a task. *)
From Stdlib Require Import ZArith Lia Relations.
From stdpp Require Import base tactics sets functions gmap list.
From S2P Require Import Prelude DList Memory Lifecycle PageManager Sv39 Vmm KernelTypes KernelInv Demo RunQueue DelayQueue Scheduler TaskContext TimeManager Ipc TaskManager Arch Syscall Frame Lifetime SyscallProps System Boot Traps Bringup.
Local Open Scope Z_scope.

(** ** The calculus *)

(** A run of [m] that returns pins no task. *)
Definition frees {A} (m : K A) : Prop :=
  forall e s, unpinned s -> match m e s with Done _ s' => unpinned s' | _ => True end.

Lemma frees_run {A} (m : K A) e s a s' : frees m -> unpinned s -> m e s = Done a s' -> unpinned s'.
Proof. intros Hm Hs E. specialize (Hm e s Hs). by rewrite E in Hm. Qed.

(** What keeps the identity of tasks pins none. *)
Lemma frees_keeps {A} (m : K A) : keeps m -> frees m.
Proof.
  intros Hm e s Hs. specialize (Hm e s). destruct (m e s) as [a s'| | |]; try done. intros j t Hj.
  pose proof (st_tasks _ _ Hm j) as E. rewrite Hj in E. symmetry in E. apply fmap_Some in E as (t0&Ht0&E).
  unfold kin in E. injection E as _ _ _ -> _ _ _. by eapply Hs.
Qed.

Lemma frees_bind {A B} (m : K A) (k : A -> K B) : frees m -> (forall a, frees (k a)) -> frees (mbind k m).
Proof.
  intros Hm Hk e s Hs. specialize (Hm e s Hs). unfold mbind, M_bind. destruct (m e s) as [a s1| | |]; try done.
  by apply Hk.
Qed.
Lemma frees_modify f : (forall s, unpinned s -> unpinned (f s)) -> frees (modify f).
Proof. intros Hf e s Hs. by apply Hf. Qed.
Lemma frees_mod_task i f : (forall t, t_affinity_pinned t = 0 -> t_affinity_pinned (f t) = 0) -> frees (mod_task i f).
Proof.
  intros Hf. apply frees_bind; [apply frees_keeps, keeps_get_task|]. intros _. apply frees_modify. intros s Hs j t. rproj.
  rewrite lookup_alter_if. intros (t0&Ht0&->)%fmap_Some. specialize (Hs j t0 Ht0). case_decide; auto.
Qed.
Lemma frees_when b (m : K unit) : frees m -> frees (when b m).
Proof. destruct b; [done|]. intros _. apply frees_keeps, keeps_ret. Qed.
Lemma frees_with_lock {A} l (m : K A) : frees m -> frees (with_lock l m).
Proof.
  intros Hm. unfold with_lock, lock, unlock. apply frees_bind.
  - apply frees_bind; [apply frees_keeps, keeps_gets|]. intros hs. case_bool_decide; [done|]. by apply frees_modify.
  - intros _. apply frees_bind; [done|]. intros a. apply frees_bind; [by apply frees_modify|]. intros _. by apply frees_keeps, keeps_ret.
Qed.
Lemma frees_get_tracker i : frees (get_tracker i).
Proof. apply frees_bind; [apply frees_keeps, keeps_gets|]. intros. apply frees_keeps, keeps_deref. Qed.
Lemma frees_mod_tracker i f : frees (mod_tracker i f).
Proof. apply frees_bind; [apply frees_get_tracker|]. intros _. by apply frees_modify. Qed.
Lemma frees_mod_hart i f : frees (mod_hart i f).
Proof. apply frees_bind; [apply frees_keeps, keeps_get_hart|]. intros _. by apply frees_modify. Qed.
Lemma frees_kmap base size : frees (kmap_boot_task_stack base size).
Proof. intros e s Hs. unfold kmap_boot_task_stack. by destruct (map_boot_task_stack _ _ _ _) as [[ok vm] ms]. Qed.

Create HintDb frees.
#[export] Hint Resolve frees_get_tracker frees_mod_tracker frees_mod_hart frees_kmap : frees.

(** Takes an operation apart; what is in [Frame] keeps identities anyway. *)
Ltac frees_step :=
  lazymatch goal with
  | |- frees (mbind _ _) => apply frees_bind; [|intros ?]
  | |- frees (with_lock _ _) => apply frees_with_lock
  | |- frees (when _ _) => apply frees_when
  | |- frees (mod_task _ _) => apply frees_mod_task; by intros ?
  | |- frees (modify _) => apply frees_modify; by intros ?
  | |- frees (let _ := _ in _) => cbv zeta
  | |- frees (match ?x with _ => _ end) => destruct x
  | |- frees (if ?x then _ else _) => destruct x
  end.
Ltac frees := repeat first [solve [eauto with frees nocore]|solve [apply frees_keeps; eauto with frame nocore]|frees_step].

(** ** The task manager *)

Lemma frees_kclear_bytes a n : frees (kclear_bytes a n).
Proof. unfold kclear_bytes. frees. Qed.
Lemma frees_get_children_head p : frees (get_children_head p).
Proof. unfold get_children_head. frees. Qed.
Lemma frees_set_children_head p v : frees (set_children_head p v).
Proof. unfold set_children_head. frees. Qed.
#[export] Hint Resolve frees_kclear_bytes frees_get_children_head frees_set_children_head : frees.
Lemma frees_link_tracker_locked k p : frees (link_tracker_locked k p).
Proof. unfold link_tracker_locked. frees. Qed.
Lemma frees_unlink_tracker_locked k : frees (unlink_tracker_locked k).
Proof. unfold unlink_tracker_locked. frees. Qed.
Lemma frees_release_task_locked i : frees (release_task_locked i).
Proof. unfold release_task_locked. frees. Qed.
Lemma frees_release_tracker_locked i : frees (release_tracker_locked i).
Proof. unfold release_tracker_locked. frees. Qed.
#[export] Hint Resolve frees_link_tracker_locked frees_unlink_tracker_locked frees_release_task_locked
  frees_release_tracker_locked : frees.
Lemma frees_remove_children fuel k p : frees (remove_children fuel k p).
Proof. revert k p. induction fuel; intros k p; cbn [remove_children]; frees. Qed.
#[export] Hint Resolve frees_remove_children : frees.
Lemma frees_remove_tracker_locked k : frees (remove_tracker_locked k).
Proof. unfold remove_tracker_locked. frees. Qed.
Lemma frees_find_sibling fuel p c : frees (find_sibling fuel p c).
Proof. revert c. induction fuel; intros c; cbn [find_sibling]; frees. Qed.
#[export] Hint Resolve frees_remove_tracker_locked frees_find_sibling : frees.
Lemma frees_find_child_locked k tid : frees (find_child_locked k tid).
Proof. unfold find_child_locked. frees. Qed.
#[export] Hint Resolve frees_find_child_locked : frees.
Lemma frees_create_task_locked en arg asp owner kp idle ws : frees (create_task_locked en arg asp owner kp idle ws).
Proof.
  unfold create_task_locked, allocate_task_locked, allocate_tracker_locked, task_stack, initialize_user, read_mstatus. frees.
Qed.
#[export] Hint Resolve frees_create_task_locked : frees.
Lemma frees_create_task en arg asp owner kp : frees (create_task en arg asp owner kp).
Proof. unfold create_task. frees. Qed.
Lemma frees_create_idle_task owner : frees (create_idle_task owner).
Proof. unfold create_idle_task. frees. Qed.
Lemma frees_end_task i v st : frees (end_task i v st).
Proof. unfold end_task, end_task_locked. frees. Qed.
Lemma frees_wait_task i tid : frees (wait_task i tid).
Proof. unfold wait_task. frees. Qed.
#[export] Hint Resolve frees_create_task frees_create_idle_task frees_end_task frees_wait_task : frees.

(** ** Kernel entries *)

Lemma frees_syscall_switch number i : frees (syscall_switch number i).
Proof.
  unfold syscall_switch, sys_yield, sys_create, sys_end, sys_wait, sys_detach, sys_sleep, sys_endpoint_create,
    sys_endpoint_destroy, sys_send, sys_reserved, sys_recv, sys_try_recv, sys_invalid. frees.
Qed.
#[export] Hint Resolve frees_syscall_switch : frees.
Lemma frees_dispatch a frame : frees (dispatch a frame).
Proof.
  unfold dispatch, try_handle, try_handle_machine_timer_interrupt, try_recover_breakpoint, fatal. frees.
Qed.
Lemma frees_dispatch_task : frees dispatch_task.
Proof. apply frees_keeps, keeps_dispatch_task. Qed.
#[export] Hint Resolve frees_dispatch_task : frees.
Lemma frees_secondary_bootstrap : frees secondary_bootstrap.
Proof. unfold secondary_bootstrap. frees. Qed.

Lemma steps_unpinned s s' : unpinned s -> rtc machine_step s s' -> unpinned s'.
Proof.
  intros Hs Hr. induction Hr as [|s s1 s' Hst _ IH]; [done|]. apply IH.
  destruct Hst as [e a frame frame' s1 s2 _ Hd|e hl frame sp s1 s2 _ _ Hd]; (eapply frees_run; [|exact Hs|exact Hd]).
  - apply frees_dispatch.
  - apply frees_secondary_bootstrap.
Qed.

(** ** The bring-up *)

Lemma unpinned_zero s : tasks s = replicate kMaxTasks zero_task -> unpinned s.
Proof. intros E j t. rewrite E. by intros [-> _]%lookup_replicate. Qed.

Lemma frees_hart_initialize id index role : frees (hart_initialize id index role).
Proof. unfold hart_initialize. frees. Qed.
#[export] Hint Resolve frees_hart_initialize : frees.
Lemma frees_register_harts ids index n : frees (register_harts ids index n).
Proof. revert index. induction n; intros index; cbn [register_harts]; frees. Qed.
Lemma frees_memory_bootstrap : frees memory_bootstrap.
Proof.
  intros e s Hs. unfold memory_bootstrap. destruct (add_contained_bootstrap_pool _ _ _) as [[] ms1]; [|done]. cbn [negb].
  by destruct (vmm_initialize _ _ _ _) as [[[] vm] ms2].
Qed.
#[export] Hint Resolve frees_register_harts frees_memory_bootstrap : frees.

Lemma frees_reset_delay_queues index n : frees (reset_delay_queues index n).
Proof. revert index. induction n; intros index; cbn [reset_delay_queues]; unfold DelayQueue_reset; frees. Qed.
Lemma frees_RunQueue_reset q : frees (RunQueue_reset q).
Proof. unfold RunQueue_reset. frees. Qed.
#[export] Hint Resolve frees_reset_delay_queues frees_RunQueue_reset : frees.
Lemma frees_reset_local_queues index n : frees (reset_local_queues index n).
Proof. revert index. induction n; intros index; cbn [reset_local_queues]; frees. Qed.
Lemma frees_map_task_stacks index n : frees (map_task_stacks index n).
Proof. revert index. induction n; intros index; cbn [map_task_stacks]; unfold task_stack; frees. Qed.
#[export] Hint Resolve frees_reset_local_queues frees_map_task_stacks : frees.
Lemma frees_TaskManager_initialize : frees TaskManager_initialize.
Proof.
  unfold TaskManager_initialize. apply frees_with_lock, frees_bind; [frees|]. intros b. destruct b; [frees|].
  apply frees_bind; [apply frees_modify; intros s _; by apply unpinned_zero|]. intros _. unfold task_stack. frees.
Qed.
Lemma frees_initialize_cpus index n : frees (initialize_cpus index n).
Proof. revert index. induction n; intros index; cbn [initialize_cpus]; unfold bind_hart, initialize_hart; frees. Qed.
#[export] Hint Resolve frees_TaskManager_initialize frees_initialize_cpus : frees.
Lemma frees_machine_boot ids count : frees (machine_boot ids count).
Proof.
  unfold machine_boot, bootstrap, cpp_bootstrap, boot_data_bootstrap, cpu_bootstrap, TimeManager_initialize,
    Scheduler_initialize, CpuManager_initialize, init_task_bootstrap, set_initial_task. frees.
Qed.

(** In no state that a booted machine can reach is a task pinned. *)
Lemma machine_unpinned ids count e g m r s0 s :
  machine_boot ids count e (power_on g m) = Done r s0 -> rtc machine_step s0 s -> unpinned s.
Proof.
  intros Hb Hr. eapply steps_unpinned; [|exact Hr]. eapply frees_run; [apply frees_machine_boot| |exact Hb]. by apply unpinned_zero.
Qed.
