(* ===== verification/Guarantees.v ===== *)
(** * What the kernel guarantees

    The properties of the task manager, of the system calls and of the machine
    as a whole that rest on the specifications of the previous files, each with
    the booted machine of [Boot] as an instance. *)
From Stdlib Require Import ZArith Lia Ascii.
From stdpp Require Import base tactics sets functions gmap list strings.
From S2P Require Import Prelude DList Memory Lifecycle PageManager Sv39 Vmm Format Console KernelTypes KernelInv Demo RunQueue DelayQueue Scheduler TaskContext TimeManager Ipc IpcProps TaskManager Trackers Arch Syscall Frame Lifetime SyscallProps System Boot Traps Bringup Affinity.
Local Open Scope Z_scope.

(** ** The machine *)

(** C1: The kernel invariant holds whenever a hart is outside the kernel.  Boot a
    machine of one to four harts, with any numbering, linker layout, clock and
    memory contents with which the bring-up fits, and let its harts start and
    trap in any order and any number: the state between kernel entries always
    satisfies [Ready] (queues, endpoints, current tasks, tracker forest and its
    tie to the task table; no lock held), and whatever trap comes next is
    answered, or the hart stops for one of the reasons [may_park] lists: an
    uncollected crash, an invalid system call, or a trap the kernel does not
    serve.  No entry dereferences null, takes a lock out of order or loops. *)
Theorem machine_stays_ready ids count e0 g m :
  (1 <= count <= kMaxHarts)%nat -> e_hart e0 = 0%nat -> boot_fits e0 g m = true ->
  exists frame sp s0, machine_boot ids count e0 (power_on g m) = Done (frame, sp) s0 /\
    forall s, rtc machine_step s0 s -> Ready s /\
      forall e a trap, user_entry e trap s ->
        (exists trap' s', dispatch a trap e s = Done trap' s' /\ answered e trap s trap' s') \/
        dispatch a trap e s = Parked /\ may_park s trap.
Proof.
  intros Hc He Hfit. destruct (wp_cases _ _ _ _ _ (machine_boot_spec ids e0 g m count He Hc)) as [([frame sp]&s0&Hb&_)|[_ Hno]]; [|congruence].
  exists frame, sp, s0. split; [done|]. intros s Hs. assert (Ready s) as Hr.
  { eapply steps_ready; [|exact Hs]. by eapply boot_ready. }
  split; [done|]. intros e a trap Hue. by apply wp_cases, dispatch_spec.
Qed.

Lemma machine_stays_ready_witness :
  exists frame sp s0, machine_boot Z.of_nat 2 (demo_env 0) (cold (fun _ => 0)) = Done (frame, sp) s0 /\ Ready s0.
Proof.
  destruct (machine_stays_ready Z.of_nat 2 (demo_env 0) (initialize_contained (2 ^ 31) initial_state) (fun _ => 0))
    as (frame&sp&s0&Hb&Hr).
  - unfold kMaxHarts. lia.
  - reflexivity.
  - apply demo_fits.
  - exists frame, sp, s0. split; [exact Hb|]. apply (Hr s0). apply rtc_refl.
Defined.

(** C2: A trap is dispatched to its handler.  From a [Ready] state, with a user
    task on the hart: a system call, or a timer interrupt of user mode, returns
    with the trap frame loaded from the saved context of the task that is then
    current on the hart; a timer interrupt of machine mode returns to where it
    came from; a recognised breakpoint is skipped by its length and nothing else
    changes; the state is [Ready] again.  Otherwise the hart stops, and only for
    a reason of [may_park]. *)
Theorem dispatch_correct e a frame s :
  Ready s -> user_entry e frame s ->
  (exists frame' s', dispatch a frame e s = Done frame' s' /\ answered e frame s frame' s') \/
  dispatch a frame e s = Parked /\ may_park s frame.
Proof. intros Hr Hue. by apply wp_cases, dispatch_spec. Qed.

(** The frame of a system call of the running task. *)
Definition call_frame (number a0 a1 a2 : Z) : TrapFrame :=
  zero_frame <| fr_x := <[17%nat := number]> (<[12%nat := a2]> (<[11%nat := a1]> (<[10%nat := a0]> (replicate 32 0)))) |>
    <| fr_mcause := 8 |> <| fr_mepc := 0x80011000 |>.

Lemma calling_entry e i it hl t s frame : calling e i it hl t s -> length (fr_x frame) = 32%nat -> user_entry e frame s.
Proof. intros [Hh Hs Hc Hit Ht Hu] Hl. split; [done|]. exists hl, i, t. split_and!; try done. by rewrite Hu. Qed.

Lemma booted_entry number a0 a1 a2 : user_entry (demo_env 0) (call_frame number a0 a1 a2) booted.
Proof. destruct booted_calling as (i&k&it&hl&t&Hca&_). eapply calling_entry; [exact Hca|reflexivity]. Qed.

Lemma dispatch_correct_witness :
  (exists frame' s', dispatch 0 (call_frame Num.WAIT (-1) 0 0) (demo_env 0) booted = Done frame' s' /\
     answered (demo_env 0) (call_frame Num.WAIT (-1) 0 0) booted frame' s') \/
  dispatch 0 (call_frame Num.WAIT (-1) 0 0) (demo_env 0) booted = Parked /\ may_park booted (call_frame Num.WAIT (-1) 0 0).
Proof. exact (dispatch_correct (demo_env 0) 0 (call_frame Num.WAIT (-1) 0 0) booted booted_ready (booted_entry _ _ _ _)). Defined.

(** C7: Every system call keeps the kernel well formed.  Whatever number and
    arguments the running task passes (the idle task only yields), the handler
    ends with the hart on a task, the well-formedness of queues, endpoints, task
    table and tracker forest intact and no lock held, and reports a timeslice
    in range when it rescheduled; it parks the hart only for a crash: an invalid
    number, or a crashed task that nobody has collected. *)
Theorem syscall_keeps_wellformed number e i hl t s C F :
  Live e i hl s C F -> tasks s !! i = Some t -> (t_idle t = true -> number = Num.YIELD) ->
  (exists rescheduled s' C' F' l j, syscall_switch number i e s = Done rescheduled s' /\ Live e j l s' C' F' /\
     csrs s' = csrs s /\ (rescheduled = true -> 0 <= timeslice_ticks l <= kIdleTimesliceTicks)) \/
  syscall_switch number i e s = Parked /\ (crash_pending s \/ valid_number number = false).
Proof.
  intros HL Ht Hy. destruct (wp_cases (crash_pending s \/ valid_number number = false) (syscall_switch number i) (called e s) e s)
    as [(b&s'&Hr&C'&F'&l&j&?&?&?)|]; [by eapply syscall_spec| |by right].
  left. by exists b, s', C', F', l, j.
Qed.

Lemma syscall_keeps_wellformed_witness : exists i,
  (exists rescheduled s' C' F' l j, syscall_switch Num.CREATE i (demo_env 0) booted = Done rescheduled s' /\
     Live (demo_env 0) j l s' C' F' /\ csrs s' = csrs booted /\
     (rescheduled = true -> 0 <= timeslice_ticks l <= kIdleTimesliceTicks)) \/
  syscall_switch Num.CREATE i (demo_env 0) booted = Parked /\ (crash_pending booted \/ valid_number Num.CREATE = false).
Proof.
  destruct booted_calling as (i&k&it&hl&t&[Hh Hs Hc Hit Ht Hu]&_). exists i.
  destruct (ready_live (demo_env 0) i hl booted booted_ready Hh Hs Hc) as (C&F&HL).
  apply (syscall_keeps_wellformed Num.CREATE (demo_env 0) i hl t booted C F HL Ht). rewrite Hu. discriminate.
Defined.

(** ** The task manager *)

(** C10: Removing a tracker keeps the forest.  [remove_tracker_locked] returns,
    whatever the shape of the forest: the tracker is gone and zeroed.  Below a
    parent its children take its place in the parent's list, in reverse order,
    and nothing else moves; at the root its live children become roots and its
    completed ones are freed with their completed descendants.  Every other
    tracker keeps its contents, and the result is again a forest without cycles.
    The hart parks only for a root that may hold a crashed orphan. *)
Theorem remove_tracker_correct x p l1 l2 F e s :
  tree s F ∅ -> acyclic F -> F p = l1 ++ x :: l2 ->
  (exists ks' root' used' F', remove_tracker_locked x e s = Done tt (with_forest ks' root' used' s) /\
     forest ks' root' used' F' ∅ /\ acyclic F' /\ pruned (trackers s) (tracker_slots_used s) F x ks' used' F' /\
     family_after p (trackers s) (tracker_slots_used s) F x (l1 ++ l2) ks' used' F') \/
  remove_tracker_locked x e s = Parked /\ p = None /\ crash_pending s.
Proof.
  intros HF Ha Hp.
  destruct (wp_cases (p = None /\ crash_pending s) (remove_tracker_locked x) (fun _ s' => exists ks' root' used' F',
    s' = with_forest ks' root' used' s /\ forest ks' root' used' F' ∅ /\ acyclic F' /\
    pruned (trackers s) (tracker_slots_used s) F x ks' used' F' /\
    family_after p (trackers s) (tracker_slots_used s) F x (l1 ++ l2) ks' used' F') e s)
    as [([]&s'&Hr&ks'&root'&used'&F'&->&?)|]; [|left; by exists ks', root', used', F'|by right].
  apply (remove_tracker_spec x p l1 l2 F); try done.
  - intros Hn j k Hj Hk. split; [done|]. by exists j, k.
  - intros ks' root' used' F' ? ? ? ?. by exists ks', root', used', F'.
Qed.

Lemma remove_tracker_correct_witness : exists x l,
  roots booted = x :: l /\
  ((exists ks' root' used' F', remove_tracker_locked x (demo_env 0) booted = Done tt (with_forest ks' root' used' booted) /\
     forest ks' root' used' F' ∅ /\ acyclic F' /\
     pruned (trackers booted) (tracker_slots_used booted) (flat (roots booted)) x ks' used' F' /\
     family_after None (trackers booted) (tracker_slots_used booted) (flat (roots booted)) x ([] ++ l) ks' used' F') \/
   remove_tracker_locked x (demo_env 0) booted = Parked /\ (None : option nat) = None /\ crash_pending booted).
Proof.
  destruct (roots booted) as [|x l] eqn:E; [vm_compute in E; discriminate E|]. exists x, l. split; [reflexivity|].
  pose proof (so_lineage _ _ _ booted_sound) as HL. rewrite E in HL.
  apply (remove_tracker_correct x None [] l (flat (x :: l)) (demo_env 0) booted (li_tree _ _ _ _ HL) (li_acyclic _ _ _ _ HL)).
  reflexivity.
Defined.

(** C4: Ending a task.  [end_task] of the running task frees its slot and zeroes
    its record, puts the hart on another task and keeps the kernel invariant and
    the lineage.  A parent that waits for it is made ready with the task id in
    [a0]; a parent that does not wait finds its status and return value in the
    tracker, which stays; in every other case the tracker is removed.  The hart
    parks only when a crash is involved. *)
Theorem end_task_correct i k it hl t rv status s C F e :
  Sound s C F -> calling e i it hl t s -> held s = [] -> t_tracker t = Some k ->
  (exists s', end_task i rv status e s = Done tt s' /\ departed e i k t rv status s s') \/
  end_task i rv status e s = Parked /\ (crash_pending s \/ status = ExitStatus.crashed).
Proof.
  intros Hso Hca Hhd Hk.
  destruct (wp_cases (crash_pending s \/ status = ExitStatus.crashed) (end_task i rv status)
    (fun _ s' => departed e i k t rv status s s') e s) as [([]&s'&?&?)|]; [|left; by exists s'|by right].
  eapply end_task_spec; try done. rewrite Hhd. constructor.
Qed.

Lemma end_task_correct_witness : exists i k t,
  (exists s', end_task i 7 ExitStatus.exited_clean (demo_env 0) booted = Done tt s' /\
     departed (demo_env 0) i k t 7 ExitStatus.exited_clean booted s') \/
  end_task i 7 ExitStatus.exited_clean (demo_env 0) booted = Parked /\
    (crash_pending booted \/ ExitStatus.exited_clean = ExitStatus.crashed).
Proof.
  destruct booted_calling as (i&k&it&hl&t&Hca&Hk). exists i, k, t.
  exact (end_task_correct i k it hl t 7 ExitStatus.exited_clean booted quiet _ (demo_env 0) booted_sound Hca
    (rd_held _ booted_ready) Hk).
Defined.

(** C8: Waiting for a child.  [wait_task] never stops the hart: without a child
    that fits it reports that; a child that has ended is collected, its task id
    goes to the caller's [a0] and its tracker is freed; otherwise the caller is
    blocked, its wait is recorded in its own tracker and the hart takes another
    task.  The invariant and the lineage hold afterwards. *)
Theorem wait_task_correct i k it hl t tid s C F e :
  Sound s C F -> calling e i it hl t s -> held s = [] -> t_tracker t = Some k ->
  exists r s', wait_task i tid e s = Done r s' /\ waited e i k t tid s C F r s'.
Proof.
  intros Hso Hca Hhd Hk. apply (wp_done (wait_task i tid) (fun r s' => waited e i k t tid s C F r s')).
  eapply wait_task_spec; try done. rewrite Hhd. constructor.
Qed.

Lemma wait_task_correct_witness : exists i k t r s',
  wait_task i (-1) (demo_env 0) booted = Done r s' /\ waited (demo_env 0) i k t (-1) booted quiet (flat (roots booted)) r s'.
Proof.
  destruct booted_calling as (i&k&it&hl&t&Hca&Hk). exists i, k, t.
  exact (wait_task_correct i k it hl t (-1) booted quiet _ (demo_env 0) booted_sound Hca (rd_held _ booted_ready) Hk).
Defined.



(** ** Frame *)

(** C29: Scheduling, time and messages never touch memory or identity.  Whatever
    the state, a run of a system call that neither creates, ends nor waits, or
    of the timer interrupt handler, leaves memory, page tables, the tracker
    tree and the allocation of the task tables as they were, and every task its
    id, address space, stack and tracker. *)
Theorem served_calls_keep_identity number i frame e s :
  served number = true ->
  (forall b s', syscall_switch number i e s = Done b s' -> static s s') /\
  (forall frame' s', handle_timer_interrupt frame e s = Done frame' s' -> static s s').
Proof.
  intros Hn. split.
  - intros b s'. apply keeps_run, keeps_served, Hn.
  - intros frame' s'. apply keeps_run, keeps_handle_timer_interrupt.
Qed.

Definition is_done {A} (o : outcome KState A) : bool := match o with Done _ _ => true | _ => false end.

Lemma served_calls_keep_identity_witness :
  exists b s', syscall_switch Num.SEND 2 (demo_env 0) booted = Done b s' /\ static booted s'.
Proof.
  assert (is_done (syscall_switch Num.SEND 2 (demo_env 0) booted) = true) as Hd by (vm_compute; reflexivity).
  destruct (syscall_switch Num.SEND 2 (demo_env 0) booted) as [b s'| | |] eqn:E; try discriminate Hd.
  exists b, s'. split; [reflexivity|].
  exact (proj1 (served_calls_keep_identity Num.SEND 2 zero_frame (demo_env 0) booted ltac:(reflexivity)) b s' E).
Defined.

(** ** Progress *)

(** C39: Every ready task is served in bounded time.  Take any state that a machine
    reaches after its bring-up, by starting harts and serving traps in any order,
    and a hart in it that runs a task.  A task with [n] tasks before it in the
    hart's order of service, its own queue followed by the shared one, is the
    running task after [n + 1] consecutive reschedules of that hart. *)
Theorem ready_task_bounded_wait ids count e0 g m r s0 s C hl e before x after :
  (1 <= count <= kMaxHarts)%nat -> e_hart e0 = 0%nat ->
  machine_boot ids count e0 (power_on g m) = Done r s0 -> rtc machine_step s0 s ->
  Inv s C -> harts s !! e_hart e = Some hl -> h_scheduler hl = true -> is_Some (current_task hl) ->
  service_order (e_hart e) C = before ++ x :: after ->
  exists s' l', reschedules (S (length before)) e s = Done tt s' /\
    harts s' !! e_hart e = Some l' /\ current_task l' = Some x.
Proof.
  intros Hcount He Hb Hr HI Hh Hs Hc Hord.
  assert (Ready s) as [(C'&F&Hso) Hhd _ _].
  { eapply steps_ready; [|exact Hr]. by eapply boot_ready. }
  destruct (wp_done _ _ e s (reschedules_reach before x after hl C e s HI (so_running _ _ _ Hso) Hh Hs Hc
    (machine_unpinned _ _ _ _ _ _ _ _ Hb Hr) ltac:(rewrite Hhd; constructor) Hord)) as ([]&s'&Hrun&l'&?&?). by exists s', l'.
Qed.

Lemma is_done_after {A} (op : K A) e s : is_done (op e s) = true -> exists r, op e s = Done r (state_after op e s).
Proof. unfold is_done, state_after. destruct (op e s); eauto; done. Qed.

Lemma booted_run : exists r, machine_boot Z.of_nat 2 (demo_env 0) (cold (fun _ => 0)) = Done r booted.
Proof.
  unfold booted. generalize (is_done_after (machine_boot Z.of_nat 2) (demo_env 0) (cold (fun _ => 0))). intros H. apply H.
  vm_compute. reflexivity.
Qed.

(** The machine of [booted] after its initial task has created a child. *)
Definition with_child : KState := state_after (dispatch 0 (call_frame Num.CREATE 0x80011000 5 0)) (demo_env 0) booted.

Lemma with_child_step : machine_step booted with_child.
Proof.
  unfold with_child. pose proof (is_done_after (dispatch 0 (call_frame Num.CREATE 0x80011000 5 0)) (demo_env 0) booted) as H.
  destruct H as [f Hf]; [vm_compute; reflexivity|].
  eapply step_trap; [apply booted_entry|exact Hf].
Qed.

(** The abstract queue, read off the header of the concrete one. *)
Lemma run_contents s C q hd tl n :
  Inv s C -> valid_q (QRun q) -> get_rq q s = Some (mkRunQueue hd tl n) ->
  Z.of_nat (length (C (QRun q))) = n /\ head (C (QRun q)) = hd.
Proof.
  intros HI Hv Hq. destruct (qs_rep _ _ (inv_q _ _ HI) (QRun q) Hv) as (hd'&tl'&Hh&Hd). simpl in Hh.
  rewrite Hq in Hh. injection Hh as <- <- ->. split; [done|]. by destruct Hd as (->&_).
Qed.

Lemma ready_task_bounded_wait_witness : exists child s' l',
  reschedules 1 (demo_env 0) with_child = Done tt s' /\ harts s' !! 0%nat = Some l' /\ current_task l' = Some child.
Proof.
  destruct booted_run as [r Hb]. pose proof (rtc_once _ _ with_child_step) as Hr.
  destruct (check_calling_spec (demo_env 0) with_child) as (i&k&it&hl&t&[Hh Hs Hc _ _ _]&_); [vm_compute; reflexivity|].
  assert (Ready with_child) as [(C&F&Hso) _ _ _] by (eapply steps_ready; [apply booted_ready|exact Hr]).
  pose proof (so_inv _ _ _ Hso) as HI.
  destruct (run_contents with_child C (Local 0) None None 0 HI) as [Hl _]; [vm_compute; lia|vm_compute; reflexivity|].
  destruct (run_contents with_child C Global (Some 3%nat) (Some 3%nat) 1 HI) as [Hg Hgh]; [done|vm_compute; reflexivity|].
  destruct (C (QRun (Local 0))) as [|] eqn:El; [|discriminate Hl].
  destruct (C (QRun Global)) as [|c [|]] eqn:Eg; [discriminate Hg| |simpl in Hg; lia].
  exists c. apply (ready_task_bounded_wait Z.of_nat 2 (demo_env 0) (initialize_contained (2 ^ 31) initial_state) (fun _ => 0) r booted
    with_child C hl (demo_env 0) [] c []).
  - unfold kMaxHarts. lia.
  - reflexivity.
  - exact Hb.
  - exact Hr.
  - exact HI.
  - exact Hh.
  - exact Hs.
  - rewrite Hc. by eexists.
  - unfold service_order. cbn [e_hart demo_env]. rewrite El, Eg. reflexivity.
Defined.

(** ** A life of a task *)

(** The initial task creates a child and waits for it; the child runs on the
    hart and ends; the idle task, which the hart takes next, yields, and the
    initial task resumes with the child's id in [a0]. *)
Definition a0_of (f : TrapFrame) : Z := nth 10 (fr_x f) 0.
Definition life : K (Z * Z * Z) :=
  f1 ← dispatch 0 (call_frame Num.CREATE 0x80011000 5 0);
  let child := a0_of f1 in
  f2 ← dispatch 0 (call_frame Num.WAIT child 0 0);
  _ ← dispatch 0 (call_frame Num.END 42 0 0);
  f4 ← dispatch 0 (call_frame Num.YIELD 0 0 0);
  mret (child, a0_of f2, a0_of f4).

Example life_runs : match life (demo_env 0) booted with
  | Done (child, argument, collected) s => (child =? 4) && (argument =? 5) && (collected =? child) && healthy_state s
  | _ => false end = true.
Proof. vm_compute. reflexivity. Qed.
