(* ===== verification/HostIpc.v ===== *)
(** * Hosted IPC torture lane: its calls and its threads

    Models the helpers of [verification/host/ipc_torture.cpp] and its sequential
    case [run_generation_churn]; [HostFifo], [HostOnce] and [HostRace] model the
    threaded cases.  The lane runs the production endpoint manager under several
    threads.  A thread is a program counter with its live locals; one action of a
    thread makes at most one access to what the threads share.  A call of the
    endpoint manager is one such access: its body runs under the lock of the
    endpoint it names. *)
From Stdlib Require Import ZArith Lia.
From stdpp Require Import base tactics sets functions gmap list relations.
From S2P Require Import Prelude DList KernelTypes KernelInv Demo RunQueue DelayQueue Scheduler Ipc IpcProps.
Local Open Scope Z_scope.

Definition kOwner : Z := 1.
Definition kProducerCount : nat := 4.
Definition kConsumerCount : nat := 4.

(** ** Delays *)

Definition xorshift64 (state : Z) : Z :=
  let state := Z.lxor state (u64 (Z.shiftl state 13)) in
  let state := Z.lxor state (Z.shiftr state 7) in
  Z.lxor state (u64 (Z.shiftl state 17)).

(** The new random state; whether the thread then yields or spins is invisible. *)
Definition perturb (state : Z) : Z := xorshift64 state.

(** ** Calls *)

(** [create_endpoint] of the lane: the handle, or nothing for [false]. *)
Definition host_create : K (option Z) :=
  r ← create_endpoint kOwner true;
  let handle := default 0 r.2 in
  mret (if negb (r.1 =? 0) || (handle =? 0) then None else Some handle).

Definition host_destroy (handle : Z) : K bool :=
  result ← destroy_endpoint kOwner handle; mret (result =? 0).

(** *** run_generation_churn *)

Section churn.
Context (seed iterations : Z).

Fixpoint churn (fuel : nat) (iteration oldest_handle : Z) : K bool :=
  match fuel with
  | O => diverge
  | S fuel' =>
      if negb (iteration <? iterations) then mret true
      else
        created ← host_create;
        match created with
        | None => mret false
        | Some handle =>
            let oldest := if iteration =? 0 then handle else oldest_handle in
            ok ← (if iteration =? 0 then mret true
                  else
                    r ← send 777 oldest [iteration; seed; handle; oldest];
                    if negb (r =? kErrorInvalidArgument) then mret false
                    else
                      r ← try_recv oldest true;
                      mret (negb (negb (r.1 =? kErrorInvalidArgument))));
            if negb ok then mret false
            else
              destroyed ← host_destroy handle;
              if negb destroyed then mret false else churn fuel' (u32 (iteration + 1)) oldest
        end
  end.

Definition run_generation_churn : K bool := churn (S (Z.to_nat iterations)) 0 0.
End churn.

(** ** Threads *)

(** What the threads share, and where each of them is. *)
Record Machine (X Pc : Type) := mkMachine { shared : X; threads : list Pc }.
Arguments mkMachine {X Pc} _ _.
Arguments shared {X Pc} _.
Arguments threads {X Pc} _.

(** Where every state that is not final has a successor of smaller measure, a
    final state is reached. *)
Lemma descends {S} (R : S -> S -> Prop) (I final : S -> Prop) (measure : S -> nat) `{!forall m, Decision (final m)} :
  (forall m, I m -> ~ final m -> exists m', R m m' /\ I m' /\ (measure m' < measure m)%nat) ->
  forall m, I m -> exists m', rtc R m m' /\ final m'.
Proof.
  intros Hp m. remember (measure m) as k eqn:Ek. revert m Ek. induction (lt_wf k) as [k _ IH]. intros m -> HI.
  destruct (decide (final m)) as [Hf|Hf]; [by exists m|]. destruct (Hp m HI Hf) as (m1&Hs&HI1&Hlt).
  destruct (IH _ Hlt m1 eq_refl HI1) as (m2&Hr&?). exists m2. split; [by eapply rtc_l|done].
Qed.

Section threads.
Context {X Pc : Type}.
(** The action of thread [i] at a program counter; the first argument is what
    [deadline_expired] answers if the action asks. *)
Context (exec : bool -> nat -> list Pc -> Pc -> M Env X Pc) (e : Env).

Definition fire (expired : bool) (i : nat) (m : Machine X Pc) : option (Machine X Pc) :=
  match threads m !! i with
  | None => None
  | Some pc =>
      match exec expired i (threads m) pc e (shared m) with
      | Done pc' x => Some (mkMachine x (<[i := pc']> (threads m)))
      | Parked | Undefined | Diverged => None
      end
  end.

(** Any thread acts next.  [late]: whether the deadline may pass. *)
Definition step (late : bool) (m m' : Machine X Pc) : Prop :=
  exists expired i, (expired = true -> late = true) /\ fire expired i m = Some m'.

(** A schedule: who acts, and what the clock says. *)
Fixpoint play (l : list (bool * nat)) (m : Machine X Pc) : option (Machine X Pc) :=
  match l with
  | [] => Some m
  | (expired, i) :: l' => match fire expired i m with Some m' => play l' m' | None => None end
  end.

Lemma play_steps late l m m' : Forall (fun a => a.1 = true -> late = true) l -> play l m = Some m' -> rtc (step late) m m'.
Proof.
  revert m. induction l as [|[x i] l IH]; intros m Hl H; [injection H as ->; constructor|].
  apply Forall_cons in Hl as [Hx Hl]. simpl in H. destruct (fire x i m) as [m1|] eqn:E; [|done].
  eapply rtc_l; [by exists x, i|by apply IH].
Qed.

Section invariant.
Context (late : bool) (I : Machine X Pc -> Prop).
Hypothesis actions : forall expired i x pcs pc, I (mkMachine x pcs) -> pcs !! i = Some pc -> (expired = true -> late = true) ->
  wp False (exec expired i pcs pc) (fun pc' x' => I (mkMachine x' (<[i := pc']> pcs))) e x.

(** No thread is ever stuck, and the invariant holds throughout. *)
Lemma fire_defined expired i m pc : I m -> threads m !! i = Some pc -> (expired = true -> late = true) ->
  exists m', fire expired i m = Some m' /\ I m'.
Proof.
  destruct m as [x pcs]. intros HI Hpc Hx. destruct (wp_done _ _ e x (actions expired i x pcs pc HI Hpc Hx)) as (pc'&x'&E&HI').
  eexists. split; [|exact HI']. unfold fire. cbn [threads shared] in *. by rewrite Hpc, E.
Qed.

Lemma step_keeps m m' : step late m m' -> I m -> I m'.
Proof.
  intros (x&i&Hx&Hf) HI. destruct (threads m !! i) as [pc|] eqn:Hpc; [|unfold fire in Hf; by rewrite Hpc in Hf].
  destruct (fire_defined x i m pc HI Hpc Hx) as (m1&E&?). by simplify_eq.
Qed.

Lemma steps_keep m m' : rtc (step late) m m' -> I m -> I m'.
Proof. induction 1; eauto using step_keeps. Qed.

(** While the machine is not through, some action brings it nearer to the end. *)
Lemma can_finish (final : Machine X Pc -> Prop) (measure : Machine X Pc -> nat) `{!forall m, Decision (final m)} :
  (forall m, I m -> ~ final m -> exists m', step late m m' /\ (measure m' < measure m)%nat) ->
  forall m, I m -> exists m', rtc (step late) m m' /\ final m'.
Proof.
  intros Hp. apply (descends _ I final measure). intros m HI Hf. destruct (Hp m HI Hf) as (m'&Hs&Hlt).
  exists m'. split_and!; [done|by eapply step_keeps|done].
Qed.
End invariant.
End threads.

(** One entry of a table changes: how many satisfy [P]. *)
Lemma filter_insert_length {A} (P : A -> Prop) `{!forall a, Decision (P a)} (l : list A) i a b :
  l !! i = Some a ->
  (length (filter P (<[i := b]> l)) + (if decide (P a) then 1 else 0) = length (filter P l) + (if decide (P b) then 1 else 0))%nat.
Proof.
  revert i. induction l as [|c l IH]; intros [|i] Hl; simplify_eq/=; rewrite !filter_cons.
  - repeat case_decide; simpl; lia.
  - specialize (IH i Hl). repeat case_decide; simpl; lia.
Qed.

(** A count for each of the four producers, and their sum. *)
Definition sum4 (f : nat -> Z) : Z := f 0%nat + f 1%nat + f 2%nat + f 3%nat.

Lemma sum4_insert f p v : (p < 4)%nat -> sum4 (<[p := v]> f) = sum4 f - f p + v.
Proof.
  intros Hp. unfold sum4. do 4 (destruct p as [|p]; [rewrite fn_lookup_insert, !fn_lookup_insert_ne by done; lia|]). lia.
Qed.

Lemma fn_insert_same (f : nat -> Z) p q : (<[p := f p]> f) q = f q.
Proof. destruct (decide (p = q)) as [->|]; [by rewrite fn_lookup_insert|by rewrite fn_lookup_insert_ne]. Qed.

Lemma sum4_bound n f : (forall p, (p < 4)%nat -> 0 <= f p <= n) -> 0 <= sum4 f <= 4 * n.
Proof. intros H. pose proof (H 0%nat). pose proof (H 1%nat). pose proof (H 2%nat). pose proof (H 3%nat). unfold sum4. lia. Qed.

Lemma below_total n f : sum4 f < 4 * n -> exists p, (p < 4)%nat /\ f p < n.
Proof.
  intros H. unfold sum4 in H. destruct (decide (f 0%nat < n)); [by exists 0%nat; split; [lia|]|].
  destruct (decide (f 1%nat < n)); [by exists 1%nat; split; [lia|]|]. destruct (decide (f 2%nat < n)); [by exists 2%nat; split; [lia|]|].
  exists 3%nat. lia.
Qed.

Lemma full_total n f p : (forall q, (q < 4)%nat -> f q <= n) -> (p < 4)%nat -> sum4 f = 4 * n -> f p = n.
Proof.
  intros H Hp E. pose proof (H 0%nat). pose proof (H 1%nat). pose proof (H 2%nat). pose proof (H 3%nat). unfold sum4 in E.
  do 4 (destruct p as [|p]; [lia|]). lia.
Qed.

(** ** The state of the endpoint under test *)

Definition slot_of (handle : Z) : nat := Z.to_nat (eh_index (from_raw handle)).

(** Every slot before [i] is taken. *)
Definition taken_below (s : KState) (i : nat) : Prop :=
  forall j p, (j < i)%nat -> endpoints s !! j = Some p -> active p || retired p = true.

(** A slot is free that can change generation [k] more times. *)
Definition room (k : Z) (s : KState) : Prop :=
  exists C i p, healthy s C /\ (i < kMaxEndpoints)%nat /\ endpoints s !! i = Some p /\ active p || retired p = false /\
    taken_below s i /\ generation p + k <= kMaxGeneration.

(** The lane owns the open endpoint that [handle] names; it holds [q]. *)
Definition owned (k handle : Z) (q : list Message) (s : KState) : Prop :=
  exists C p, healthy s C /\ handle_well_formed (from_raw handle) = true /\
    endpoints s !! slot_of handle = Some p /\ live p (from_raw handle) = true /\ owner p = kOwner /\ pending p = q /\
    C (QWait (slot_of handle)) = [] /\ taken_below s (slot_of handle) /\ generation p + k <= kMaxGeneration.

(** The endpoint that [handle] named was destroyed. *)
Definition dead (handle : Z) (s : KState) : Prop :=
  exists C p, healthy s C /\ handle_well_formed (from_raw handle) = true /\ endpoints s !! slot_of handle = Some p /\
    gone (from_raw handle) p.

Lemma taken_identities s s' i : identities_kept s s' -> taken_below s i -> taken_below s' i.
Proof.
  intros Hk Ht j p' Hj Hp'. specialize (Hk j). rewrite Hp' in Hk. symmetry in Hk. apply fmap_Some in Hk as (p&Hp&E).
  injection E as E1 E2 _ _. rewrite E1, E2. by eapply Ht.
Qed.

Lemma EpIdle_identities s s' C : identities_kept s s' -> EpIdle s C -> EpIdle s' C.
Proof.
  intros Hk Hid j p' Hp' Ha. specialize (Hk j). rewrite Hp' in Hk. symmetry in Hk. apply fmap_Some in Hk as (p&Hp&E).
  injection E as E1 _ _ _. apply (Hid j p Hp). congruence.
Qed.

Lemma healthy_locks s C l : healthy s C -> lock_fits l (held s).
Proof. intros (_&_&_&->). constructor. Qed.

(** A request leaves the endpoint owned. *)
Lemma owned_request k handle o q e s :
  owned k handle q s -> (forall m, o = Some m -> message_ok m) ->
  wp False (request handle o) (fun r s' => r = (fifo_step q o).2 /\ owned k handle (fifo_step q o).1 s') e s.
Proof.
  intros (C&p&Hh&Hwf&Hp&Hl&Ho&Hq&HC&Ht&Hg) Hm. pose proof Hh as (HI&Hid&HR&Hhd).
  apply (request_spec handle o q C); try done; [by intros; eapply healthy_locks|by exists p|].
  intros s' HI' HR' Ehd Hk (p'&Hp'&Hl'&Hq'&HC'). split; [done|]. exists C, p'.
  pose proof (Hk (slot_of handle)) as E. unfold slot_of in E, Hp. rewrite Hp, Hp' in E. injection E as E1 E2 E3 E4.
  split_and!; try done; [|by rewrite E4|by apply (taken_identities s)|by rewrite E3].
  split_and!; [done|by apply (EpIdle_identities s)|done|by rewrite Ehd].
Qed.

Lemma owned_send k handle sd payload q e s :
  owned k handle q s -> length payload = 4%nat ->
  wp False (send sd handle payload) (fun r s' =>
    if bool_decide (length q < 16)%nat then r = 0 /\ owned k handle (q ++ [mkMessage sd payload]) s'
    else r = kErrorAgain /\ owned k handle q s') e s.
Proof.
  intros Ho Hlen. pose proof (owned_request k handle (Some (mkMessage sd payload)) q e s Ho ltac:(by intros ? [= <-])) as H.
  unfold request in H. apply wp_bind_inv in H. eapply wp_mono; [exact H|done|]. cbn [fifo_step].
  intros r s' H'. unfold wp, mret, M_ret in H'. case_bool_decide; destruct H' as [[= ->] ?]; done.
Qed.

Lemma owned_recv k handle q e s :
  owned k handle q s ->
  wp False (try_recv handle true) (fun r s' =>
    match q with [] => r = (kErrorAgain, None) /\ owned k handle [] s' | m :: q' => r = (0, Some m) /\ owned k handle q' s' end) e s.
Proof.
  intros Ho. eapply wp_mono; [apply (owned_request k handle None q e s Ho); done|done|].
  intros r s' [-> ?]. by destruct q.
Qed.

Lemma allocated_slot s C j p : Inv s C -> endpoints s !! j = Some p -> slot_allocated s !! j = Some (active p || retired p).
Proof. intros HI Hp. destruct (inv_ep _ _ HI j p Hp) as (a&Ha&Hok). by rewrite Ha, (ep_allocated _ _ _ Hok). Qed.

(** The slot of the endpoint that [create_endpoint] opens. *)
Lemma opened_handle s C i p :
  Inv s C -> EpIdle s C -> endpoints s !! i = Some p -> active p = false -> (i < kMaxEndpoints)%nat ->
  let h := mkHandle (Z.of_nat i) (generation (opened kOwner p)) in
  from_raw (raw h) = h /\ handle_well_formed h = true /\ raw h <> 0 /\ generation p <= generation (opened kOwner p) <= generation p + 1.
Proof.
  intros HI Hid Hp Hact Hi h. destruct (inv_ep _ _ HI i p Hp) as (a&_&Hok). rewrite (Hid i p Hp Hact) in Hok.
  pose proof (opened_ok kOwner _ _ Hok) as Hok'. pose proof (ep_generation _ _ _ Hok') as Hg.
  pose proof (ep_active _ _ _ Hok' eq_refl) as Hg1. pose proof (ep_generation _ _ _ Hok) as Hg0. unfold kMaxEndpoints, kMaxGeneration in *.
  assert (from_raw (raw h) = h) as Er by (apply from_raw_raw; unfold is_u32; cbn [h eh_index eh_generation]; lia).
  split_and!; [done| | | |].
  - unfold handle_well_formed, kMaxEndpoints, kMaxGeneration. cbn [h eh_index eh_generation].
    rewrite (proj2 (Z.ltb_lt _ _)), (proj2 (Z.eqb_neq _ _)), (proj2 (Z.leb_le _ _)) by lia. done.
  - intros E. rewrite E in Er. apply (f_equal eh_generation) in Er. cbn [h eh_generation] in Er.
    change (eh_generation (from_raw 0)) with 0 in Er. lia.
  - unfold opened. cbn [generation]. case_match; lia.
  - unfold opened. cbn [generation]. destruct (Z.eqb_spec (generation p) 0); lia.
Qed.

Lemma create_owned k e s :
  room (k + 1) s -> 0 <= k ->
  wp False host_create (fun r s' => exists handle, r = Some handle /\ owned k handle [] s' /\ ages s s') e s.
Proof.
  intros (C&i&p&Hh&Hi&Hp&Hfree&Ht&Hg) Hk. pose proof Hh as (HI&Hid&HR&Hhd). apply orb_false_iff in Hfree as [Hact Hret].
  unfold host_create. apply wp_bind, (create_endpoint_spec kOwner None C); try done; [by eapply healthy_locks|].
  intros r s' HI' HR' Hfr Hpost. destruct (create_ages _ _ _ _ _ Hid Hpost) as [Hid' Hag]. apply wp_ret.
  pose proof (allocated_slot s C i p HI Hp) as Ha. rewrite Hact, Hret in Ha.
  destruct Hpost as [(_&_&Hfull)|(i'&p'&[Hf1 Hf2]&Hp'&_&Hact'&Hret'&->&He&_)]; [by rewrite Hfull in Ha|].
  assert (i' = i) as ->.
  { destruct (Nat.lt_trichotomy i i') as [Hlt|[|Hlt]]; [|done|].
    - rewrite (Hf2 i Hlt) in Ha. done.
    - pose proof (Ht i' p' Hlt Hp') as E. rewrite Hact', Hret' in E. done. }
  rewrite Hp in Hp'. injection Hp' as <-. destruct (opened_handle s C i p HI Hid Hp Hact Hi) as (Er&Hwf&Hnz&Hgo).
  set (h := mkHandle (Z.of_nat i) (generation (opened kOwner p))) in *. cbn [fst snd default]. exists (raw h).
  unfold id. rewrite (proj2 (Z.eqb_neq _ _) Hnz). split_and!; [done| |done]. exists C, (opened kOwner p). unfold slot_of. rewrite Er. cbn [h eh_index].
  rewrite Nat2Z.id, He, list_lookup_insert_eq by (by eapply lookup_lt_Some). fold h. split_and!; try done.
  - split_and!; [done|done|done|]. by rewrite (if_held _ _ Hfr).
  - unfold live. cbn. by rewrite Z.eqb_refl.
  - by apply (Hid i p).
  - intros j q Hj Hq. rewrite He, list_lookup_insert_ne in Hq by lia. by eapply Ht.
  - lia.
Qed.

Lemma destroy_owned k handle q e s :
  owned (k + 1) handle q s -> 0 <= k ->
  wp False (host_destroy handle) (fun r s' => r = true /\ room k s' /\ dead handle s' /\ ages s s') e s.
Proof.
  intros (C&p&Hh&Hwf&Hp&Hl&Ho&_&_&Ht&Hg) Hk. pose proof Hh as (HI&Hid&HR&Hhd).
  unfold host_destroy. apply wp_bind, (destroy_endpoint_spec kOwner handle None C); try done; [by eapply healthy_locks|congruence|].
  intros _ r s' C' HI' HR' Hfr Hpost. destruct (destroy_ages _ _ _ _ _ _ _ _ HI Hid Hpost) as [Hid' Hag]. apply wp_ret.
  destruct Hpost as (p0&Hp0&H). fold (slot_of handle) in *. rewrite Hp in Hp0. injection Hp0 as <-.
  rewrite Hl, Ho in H. cbn [negb Z.eqb kOwner Pos.eqb] in H. destruct H as (->&_&_&p'&He&Hv).
  assert (healthy s' C') as Hh' by (split_and!; try done; by rewrite (if_held _ _ Hfr)).
  assert (endpoints s' !! slot_of handle = Some p') as Hp' by (rewrite He; apply list_lookup_insert_eq; by eapply lookup_lt_Some).
  destruct (inv_ep _ _ HI _ p Hp) as (a&_&Hok). split_and!; try done.
  - exists C', (slot_of handle), p'. apply view_identity in Hv. unfold ep_identity in Hv. injection Hv as E1 E2 E3 _.
    assert (retired p = false) as Hret.
    { apply live_active in Hl. destruct (retired p) eqn:E; [|done]. destruct (ep_retired _ _ _ Hok E). congruence. }
    pose proof (ep_generation _ _ _ Hok). rewrite E1, E2, E3. unfold buried, clear_queue.
    rewrite (proj2 (Z.leb_gt _ _)) by lia. rproj. rewrite u32_small by (unfold is_u32, kMaxGeneration in *; lia).
    split_and!; try done; [by apply well_formed_index| |lia]. intros j x Hj Hx. rewrite He, list_lookup_insert_ne in Hx by lia. by eapply Ht.
  - exists C', p'. split_and!; try done. by eapply destroyed_gone.
Qed.

Lemma dead_ages handle s s' C' : dead handle s -> ages s s' -> healthy s' C' -> dead handle s'.
Proof.
  intros (C&p&_&Hwf&Hp&Hg) Hag Hh. destruct (Hag _ p Hp) as (p'&Hp'&Ho). exists C', p'. split_and!; try done. by eapply gone_older.
Qed.

(** A dead endpoint refuses every call and changes nothing. *)
Lemma dead_send handle sd payload e s :
  dead handle s -> length payload = 4%nat ->
  wp False (send sd handle payload) (fun r s' => r = kErrorInvalidArgument /\ endpoints s' = endpoints s /\ exists C', healthy s' C') e s.
Proof.
  intros (C&p&Hh&Hwf&Hp&Hg) Hlen. pose proof Hh as (HI&Hid&HR&Hhd). destruct (inv_ep _ _ HI _ p Hp) as (a&_&Hok).
  apply (send_spec sd handle payload None C); try done; [by eapply healthy_locks|congruence|].
  intros _ r s' C' HI' HR' Hfr (p0&Hp0&H). fold (slot_of handle) in *. rewrite Hp in Hp0. injection Hp0 as <-.
  rewrite (gone_dead _ _ _ _ Hok Hg) in H. destruct H as (->&->&[_ He _]).
  assert (healthy s' C) as Hh' by (split_and!; try done; [by eapply EpIdle_same|by rewrite (if_held _ _ Hfr)]).
  split_and!; [done|done|by exists C].
Qed.

Lemma dead_recv handle e s :
  dead handle s ->
  wp False (try_recv handle true) (fun r s' => r = (kErrorInvalidArgument, None) /\ endpoints s' = endpoints s /\ exists C', healthy s' C') e s.
Proof.
  intros (C&p&Hh&Hwf&Hp&Hg). pose proof Hh as (HI&Hid&HR&Hhd). destruct (inv_ep _ _ HI _ p Hp) as (a&_&Hok).
  apply (try_recv_spec handle None C); try done; [by eapply healthy_locks|congruence|].
  intros _ r s' HI' HR' Hfr (p0&Hp0&H). fold (slot_of handle) in *. rewrite Hp in Hp0. injection Hp0 as <-.
  rewrite (gone_dead _ _ _ _ Hok Hg) in H. destruct H as (->&[_ He _]).
  assert (healthy s' C) as Hh' by (split_and!; try done; [by eapply EpIdle_same|by rewrite (if_held _ _ Hfr)]).
  split_and!; [done|done|by exists C].
Qed.

(** What holds of the endpoints is kept by a call that leaves them alone. *)
Lemma owned_same k handle q s s' C' : owned k handle q s -> endpoints s' = endpoints s -> healthy s' C' -> owned k handle q s'.
Proof.
  intros (C&p&(HI&_)&Hwf&Hp&Hl&Ho&Hq&HC&Ht&Hg) He Hh. exists C', p. unfold taken_below. rewrite He. split_and!; try done.
  pose proof (well_formed_index _ Hwf) as Hw. destruct (endpoint_exists s C _ HI Hw) as (p0&Hp0&E0&_).
  destruct (endpoint_exists s' C' _ (proj1 Hh) Hw) as (p1&Hp1&E1&_). rewrite He in Hp1. fold (slot_of handle) in *.
  rewrite Hp in Hp0, Hp1. injection Hp0 as <-. injection Hp1 as <-. rewrite E0, HC in E1.
  by destruct (C' (QWait (slot_of handle))).
Qed.

Lemma room_same k s s' C' : room k s -> endpoints s' = endpoints s -> healthy s' C' -> room k s'.
Proof. intros (C&i&p&_&Hi&Hp&Hf&Ht&Hg) He Hh. exists C', i, p. unfold taken_below. rewrite He. by split_and!. Qed.

Lemma dead_same handle s s' C' : dead handle s -> endpoints s' = endpoints s -> healthy s' C' -> dead handle s'.
Proof. intros Hd He Hh. eapply dead_ages; [exact Hd|by apply ages_same|exact Hh]. Qed.

Lemma owned_healthy k handle q s : owned k handle q s -> exists C, healthy s C.
Proof. intros (C&p&?&_). by exists C. Qed.

(** ** The churn *)

(** Every iteration succeeds, and the oldest handle stays dead. *)
Lemma churn_spec seed iterations k fuel it oldest e s :
  is_u32 iterations -> 0 <= k -> 0 <= it <= iterations -> iterations - it < Z.of_nat fuel ->
  room (k + 2 * (iterations - it)) s -> (it = 0 \/ dead oldest s) ->
  wp False (churn seed iterations fuel it oldest) (fun r s' => r = true /\ room k s') e s.
Proof.
  intros Hu Hk. revert it oldest s. induction fuel as [|fuel IH]; intros it oldest s Hit Hfuel Hr Hd; [lia|]. cbn [churn].
  destruct (Z.ltb_spec it iterations) as [Hlt|Hge]; cbn [negb].
  2: { apply wp_ret. split; [done|]. by replace (k + 2 * (iterations - it)) with k in Hr by lia. }
  replace (k + 2 * (iterations - it)) with (k + 2 * (iterations - it) - 1 + 1) in Hr by lia.
  apply wp_bind. eapply wp_mono; [apply create_owned; [exact Hr|lia]|done|].
  intros r s1 (handle&->&Ho&Hag). cbv zeta. apply wp_bind.
  assert (forall s2 oldest', owned (k + 2 * (iterations - it) - 1) handle [] s2 -> oldest' = handle \/ dead oldest' s2 ->
    wp False (destroyed ← host_destroy handle; if negb destroyed then mret false else churn seed iterations fuel (u32 (it + 1)) oldest')
      (fun r s' => r = true /\ room k s') e s2) as Hrest.
  { intros s2 oldest' Ho2 Hd2. replace (k + 2 * (iterations - it) - 1) with (k + 2 * (iterations - (it + 1)) + 1) in Ho2 by lia.
    apply wp_bind. eapply wp_mono; [apply (destroy_owned _ _ _ _ _ Ho2); lia|done|].
    intros r s3 (->&Hr3&Hd3&Hag3). cbn [negb]. rewrite u32_small by (unfold is_u32 in *; lia). apply IH; [lia|lia|done|right].
    destruct Hd2 as [->|Hd2]; [done|]. destruct Hd3 as (C3&p3&Hh3&_). by eapply dead_ages. }
  destruct (Z.eqb_spec it 0) as [E0|Hne]. { apply wp_ret. cbn [negb]. apply Hrest; [done|by left]. }
  destruct Hd as [?|Hd]; [done|]. destruct (owned_healthy _ _ _ _ Ho) as [C1 Hh1].
  pose proof (dead_ages _ _ _ _ Hd Hag Hh1) as Hd1. apply wp_bind. eapply wp_mono; [by apply dead_send|done|].
  intros r s2 (->&He2&C2&Hh2). cbn [negb Z.eqb kErrorInvalidArgument Pos.eqb].
  pose proof (dead_same _ _ _ _ Hd1 He2 Hh2) as Hd2. apply wp_bind. eapply wp_mono; [by apply dead_recv|done|].
  intros r s3 (->&He3&C3&Hh3). apply wp_ret. cbn [fst negb Z.eqb kErrorInvalidArgument Pos.eqb]. apply Hrest.
  - eapply owned_same; [|exact He3|exact Hh3]. by eapply owned_same.
  - right. by eapply dead_same.
Qed.

(** *** A concrete state *)

Lemma demo_room : room (2 ^ 30) demo.
Proof.
  exists quiet, 0%nat, zero_endpoint. split_and!; try done.
  - split_and!; [exact demo_inv|exact demo_idle|exact demo_running|done].
  - unfold kMaxEndpoints. lia.
  - intros j p Hj. lia.
Qed.

Lemma room_weaken k k' s : room k s -> k' <= k -> room k' s.
Proof. intros (C&i&p&Hh&Hi&Hp&Hf&Ht&Hg) Hk. exists C, i, p. split_and!; try done. lia. Qed.
