(* ===== verification/HostFifo.v ===== *)
(** * Hosted IPC torture lane: many producers, one consumer

    Models [run_mpsc_fifo] of [verification/host/ipc_torture.cpp]: four producer
    threads send numbered messages to one endpoint, retrying while it is full, and
    the main thread receives them and checks that each producer's numbers arrive
    in order.  Threads 0 to 3 are the producers, thread 4 is the main thread after
    the endpoint was created. *)
From Stdlib Require Import ZArith Lia.
From stdpp Require Import base tactics sets functions gmap list relations.
From S2P Require Import Prelude DList KernelTypes KernelInv Demo RunQueue DelayQueue Scheduler Ipc IpcProps HostIpc.
Local Open Scope Z_scope.

(** ** State *)

Record Shared := mkShared { kernel : KState; start : bool; failed : bool; producers_done : Z }.
#[export] Instance Shared_eta : Eta Shared := fun x => mkShared (kernel x) (start x) (failed x) (producers_done x).

Definition on_kernel {A} : K A -> M Env Shared A := zoom kernel (fun k x => x <| kernel := k |>).

(** A producer spins until [start], runs its loop from [next], sends at [try_send]
    and ends at [abort] or [count].  The main thread starts the producers at
    [launch], receives at [poll], asks for the time at [late], gives up at
    [reject], and joins. *)
Inductive Pc :=
  | spin (random : Z) | next (sequence random : Z) | try_send (sequence random : Z) | abort | count | exited
  | launch | loop (expected : list Z) (received random : Z) | poll (expected : list Z) (received random : Z)
  | late (expected : list Z) (received random : Z) | reject (received : Z)
  | join (received : Z) (index : nat) | conclude (received : Z) | returned (passed : bool).
#[export] Instance Pc_eq_dec : EqDecision Pc.
Proof. solve_decision. Defined.

Section program.
Context (seed messages_per_producer handle : Z).

Definition total : Z := u64 (Z.of_nat kProducerCount * messages_per_producer).
Definition checksum (producer sequence : Z) : Z := Z.lxor (Z.lxor seed (u64 (Z.shiftl producer 32))) sequence.
Definition payload (producer sequence : Z) : list Z := [producer; sequence; seed; checksum producer sequence].

(** ** Threads *)

Definition produce (producer : Z) (pc : Pc) : M Env Shared Pc :=
  match pc with
  | spin random => go ← gets start; mret (if go : bool then next 0 random else spin random)
  | next sequence random =>
      if negb (sequence <? messages_per_producer) then mret count
      else f ← gets failed; mret (if f : bool then count else try_send sequence random)
  | try_send sequence random =>
      result ← on_kernel (send (100 + producer) handle (payload producer sequence));
      if result =? 0 then mret (next (u32 (sequence + 1)) (perturb random))
      else if negb (result =? kErrorAgain) then mret abort
      else mret (try_send sequence (perturb random))
  | abort => modify (fun x => x <| failed := true |>);; mret exited
  | count => modify (fun x => x <| producers_done := u32 (producers_done x + 1) |>);; mret exited
  | _ => mret pc
  end.

(** The checks on a received message, and the loop's next round. *)
Definition examine (expected : list Z) (received random : Z) (message : Message) : M Env Shared Pc :=
  let word i := nth i (words message) 0 in
  if Z.of_nat kProducerCount <=? word 0%nat then mret (reject received)
  else
    let producer := u32 (word 0%nat) in
    let sequence := u32 (word 1%nat) in
    wanted ← deref (expected !! Z.to_nat producer);
    if negb (sender message =? 100 + producer) || negb (sequence =? wanted) || negb (word 2%nat =? seed)
       || negb (word 3%nat =? checksum producer sequence)
    then mret (reject received)
    else mret (loop (<[Z.to_nat producer := u32 (wanted + 1)]> expected) (u64 (received + 1)) (perturb random)).

Definition consume (expired : bool) (pcs : list Pc) (pc : Pc) : M Env Shared Pc :=
  match pc with
  | launch =>
      modify (fun x => x <| start := true |>);;
      mret (loop (replicate kProducerCount 0) 0 (Z.lxor seed 0xD1B54A32D192ED03))
  | loop expected received random =>
      if negb (received <? total) then mret (join received 0)
      else f ← gets failed; mret (if f : bool then join received 0 else poll expected received random)
  | poll expected received random =>
      r ← on_kernel (try_recv handle true);
      if r.1 =? kErrorAgain then mret (late expected received random)
      else if negb (r.1 =? 0) then mret (reject received)
      else examine expected received random (default zero_message r.2)
  | late expected received random =>
      mret (if expired then reject received else loop expected received (perturb random))
  | reject received => modify (fun x => x <| failed := true |>);; mret (join received 0)
  | join received index =>
      if (index <? kProducerCount)%nat
      then mret (if bool_decide (pcs !! index = Some exited) then join received (S index) else join received index)
      else mret (conclude received)
  | conclude received =>
      x ← gets id;
      let complete := (producers_done x =? Z.of_nat kProducerCount) && (received =? total) && negb (failed x) in
      ok ← on_kernel (host_destroy handle);
      mret (returned (ok && complete))
  | _ => mret pc
  end.

Definition exec (expired : bool) (i : nat) (pcs : list Pc) (pc : Pc) : M Env Shared Pc :=
  if (i <? kProducerCount)%nat then produce (Z.of_nat i) pc else consume expired pcs pc.

(** The threads as the main thread has created them. *)
Definition producer_start (producer : nat) : Pc :=
  spin (Z.lxor seed (u64 (0x9E3779B97F4A7C15 * (Z.of_nat producer + 1)))).
Definition launched (k : KState) : Machine Shared Pc :=
  mkMachine (mkShared k false false 0) (map producer_start (seq 0 kProducerCount) ++ [launch]).
End program.

Abbreviation runs seed n handle e late := (rtc (step (exec seed n handle) e late)).

(** [run_mpsc_fifo]: the endpoint is created, then the threads run. *)
Definition run_mpsc_fifo (seed messages_per_producer : Z) : K (option (Z * Machine Shared Pc)) :=
  created ← host_create;
  match created with
  | None => mret None
  | Some handle => k ← gets id; mret (Some (handle, launched seed k))
  end.

(** ** What the threads keep *)

(** A message is named by its producer and its number. *)
Definition lane (p : nat) (tags : list (nat * Z)) : list Z := snd <$> filter (fun t => t.1 = p) tags.

Lemma lane_cons q p s tags : lane q ((p, s) :: tags) = (if decide (p = q) then [s] else []) ++ lane q tags.
Proof. unfold lane. rewrite filter_cons. cbn [fst]. by destruct (decide (p = q)). Qed.

Lemma lane_push q p s tags : lane q (tags ++ [(p, s)]) = lane q tags ++ (if decide (p = q) then [s] else []).
Proof.
  induction tags as [|[p' s'] tags IH]; [cbn [app]; by rewrite lane_cons, app_nil_r|].
  cbn [app]. by rewrite !lane_cons, IH, app_assoc.
Qed.

Section proof.
Context (seed n handle k : Z) (is_late : bool) (e : Env).
Context (Hn : is_u32 n) (Hk : 0 <= k).

Definition tag_message (t : nat * Z) : Message :=
  mkMessage (100 + Z.of_nat t.1) (payload seed (Z.of_nat t.1) t.2).

Definition producer_ok (x : Shared) (sent : Z) (pc : Pc) : Prop :=
  match pc with
  | spin _ => sent = 0
  | next s _ => sent = s
  | try_send s _ => sent = s /\ s < n
  | count | exited => failed x = true \/ sent = n
  | _ => False
  end.

Definition counts (got : nat -> Z) (expected : list Z) (received : Z) : Prop :=
  expected = got <$> seq 0 4 /\ received = sum4 got.

Definition all_exited (pcs : list Pc) (j : nat) : Prop := forall p, (p < j)%nat -> pcs !! p = Some exited.

Definition consumer_ok (x : Shared) (pcs : list Pc) (got : nat -> Z) (pc : Pc) : Prop :=
  match pc with
  | launch => forall p, got p = 0
  | loop expected received _ | late expected received _ => start x = true /\ counts got expected received
  | poll expected received _ => start x = true /\ counts got expected received /\ received < 4 * n
  | reject received => start x = true /\ is_late = true /\ received = sum4 got
  | join received j => start x = true /\ received = sum4 got /\ (failed x = true \/ received = 4 * n) /\
      (j <= 4)%nat /\ all_exited pcs j
  | conclude received => start x = true /\ received = sum4 got /\ (failed x = true \/ received = 4 * n) /\ all_exited pcs 4
  | returned passed => passed = negb (failed x) /\ all_exited pcs 4
  | _ => False
  end.

Definition is_returned (pc : Pc) : bool := match pc with returned _ => true | _ => false end.

(** [sent] and [got] count each producer's messages; [tags] are those in between. *)
Record fifo_ok (sent got : nat -> Z) (tags : list (nat * Z)) (m : Machine Shared Pc) : Prop := {
  fo_threads : length (threads m) = 5%nat;
  fo_queue : forall pc, threads m !! 4%nat = Some pc ->
    if is_returned pc then room k (kernel (shared m)) else owned (k + 1) handle (tag_message <$> tags) (kernel (shared m));
  fo_tags : Forall (fun t => (t.1 < 4)%nat) tags;
  fo_lane : forall p, (p < 4)%nat -> lane p tags = seqZ (got p) (sent p - got p);
  fo_range : forall p, (p < 4)%nat -> 0 <= got p <= sent p /\ sent p <= n;
  fo_producer : forall p pc, (p < 4)%nat -> threads m !! p = Some pc -> producer_ok (shared m) (sent p) pc;
  fo_consumer : forall pc, threads m !! 4%nat = Some pc -> consumer_ok (shared m) (threads m) got pc;
  fo_done : producers_done (shared m) = Z.of_nat (length (filter (eq exited) (threads m)));
  fo_failed : failed (shared m) = true -> is_late = true;
}.
Definition ok (m : Machine Shared Pc) : Prop := exists sent got tags, fifo_ok sent got tags m.

Lemma fifo_exited_insert pcs p pc' j : (j <= p)%nat -> all_exited pcs j -> all_exited (<[p := pc']> pcs) j.
Proof. intros Hj H q Hq. rewrite list_lookup_insert_ne by lia. by apply H. Qed.

(** The main thread's knowledge survives an action of a producer. *)
Lemma consumer_other x x' pcs got p pc pc' pm :
  consumer_ok x pcs got pm -> pcs !! p = Some pc -> pc <> exited -> start x' = start x -> failed x' = failed x ->
  consumer_ok x' (<[p := pc']> pcs) got pm.
Proof.
  intros H Hp Hne Es Ef. assert (forall j, all_exited pcs j -> all_exited (<[p := pc']> pcs) j) as Hex.
  { intros j Ha. apply fifo_exited_insert; [|done]. destruct (decide (j <= p)%nat); [done|]. rewrite (Ha p) in Hp by lia. congruence. }
  unfold consumer_ok. rewrite Es, Ef. destruct pm; cbn [consumer_ok] in H; try done; naive_solver.
Qed.

Lemma producer_step x x' pcs sent got tags p pc pc' v tags' :
  fifo_ok sent got tags (mkMachine x pcs) -> (p < 4)%nat -> pcs !! p = Some pc -> pc <> exited ->
  start x' = start x -> failed x' = failed x ->
  producers_done x' = producers_done x + (if decide (exited = pc') then 1 else 0) ->
  owned (k + 1) handle (tag_message <$> tags') (kernel x') -> Forall (fun t => (t.1 < 4)%nat) tags' ->
  (forall q, (q < 4)%nat -> lane q tags' = seqZ (got q) (<[p := v]> sent q - got q)) -> got p <= v <= n ->
  producer_ok x' v pc' -> ok (mkMachine x' (<[p := pc']> pcs)).
Proof.
  intros [F1 F2 F3 F4 F5 F6 F7 F8 F9] Hp Hpc Hne Es Ef Ed Ho Ht Hl Hv Hok. cbn [shared threads] in *.
  exists (<[p := v]> sent), got, tags'. split; cbn [shared threads]; try done.
  - by rewrite length_insert.
  - intros pm Hpm. rewrite list_lookup_insert_ne in Hpm by lia. specialize (F7 pm Hpm).
    destruct pm; try done. destruct F7 as [_ Hex]. rewrite (Hex p Hp) in Hpc. congruence.
  - intros q Hq. destruct (decide (q = p)) as [->|Hqp]; [rewrite fn_lookup_insert; specialize (F5 p Hp); lia|].
    rewrite fn_lookup_insert_ne by done. by apply F5.
  - intros q pq Hq [[-> ->]|[Hqp Hpq]]%insert_cases; [by rewrite fn_lookup_insert|]. rewrite fn_lookup_insert_ne by done.
    specialize (F6 q pq Hq Hpq). unfold producer_ok. by rewrite Ef.
  - intros pm Hpm. rewrite list_lookup_insert_ne in Hpm by lia. by eapply consumer_other; eauto.
  - pose proof (filter_insert_length (eq exited) pcs p pc pc' Hpc) as Hc. rewrite decide_False in Hc by done.
    rewrite Ed, F8. destruct (decide (exited = pc')); lia.
  - by rewrite Ef.
Qed.

Lemma consumer_step x x' pcs sent got tags pc pc' got' tags' :
  fifo_ok sent got tags (mkMachine x pcs) -> pcs !! 4%nat = Some pc ->
  (failed x = true -> failed x' = true) -> producers_done x' = producers_done x -> (failed x' = true -> is_late = true) ->
  (if is_returned pc' then room k (kernel x') else owned (k + 1) handle (tag_message <$> tags') (kernel x')) ->
  Forall (fun t => (t.1 < 4)%nat) tags' ->
  (forall q, (q < 4)%nat -> lane q tags' = seqZ (got' q) (sent q - got' q)) ->
  (forall q, (q < 4)%nat -> 0 <= got' q <= sent q) ->
  consumer_ok x' pcs got' pc' -> ok (mkMachine x' (<[4%nat := pc']> pcs)).
Proof.
  intros [F1 F2 F3 F4 F5 F6 F7 F8 F9] Hpc Ef Ed Hf Hq Ht Hl Hr Hok. cbn [shared threads] in *.
  exists sent, got', tags'. split; cbn [shared threads]; try done.
  - by rewrite length_insert.
  - intros pm [[_ ->]|[Hne _]]%insert_cases; done.
  - intros q Hq'. specialize (F5 q Hq'). specialize (Hr q Hq'). lia.
  - intros q pq Hq' [[-> ->]|[Hqp Hpq]]%insert_cases; [lia|].
    specialize (F6 q pq Hq' Hpq). destruct pq; cbn [producer_ok] in *; naive_solver.
  - intros pm [[_ ->]|[Hne _]]%insert_cases; [|done]. pose proof (fun j => fifo_exited_insert pcs 4 pc' j) as He.
    destruct pc'; cbn [consumer_ok] in *; naive_solver.
  - pose proof (filter_insert_length (eq exited) pcs 4 pc pc' Hpc) as Hc. rewrite !decide_False in Hc; [lia|..].
    + intros <-. done.
    + intros <-. by specialize (F7 _ Hpc).
Qed.
(** While a producer runs, the endpoint is open. *)
Lemma fifo_queue_open x pcs sent got tags p pc :
  fifo_ok sent got tags (mkMachine x pcs) -> (p < 4)%nat -> pcs !! p = Some pc -> pc <> exited ->
  owned (k + 1) handle (tag_message <$> tags) (kernel x).
Proof.
  intros [F1 F2 _ _ _ _ F7 _ _] Hp Hpc Hne. cbn [shared threads] in *.
  destruct (lookup_lt_is_Some_2 pcs 4) as [pm Hpm]; [lia|]. specialize (F2 pm Hpm). specialize (F7 pm Hpm).
  destruct pm; try done. destruct F7 as [_ Hex]. rewrite (Hex p Hp) in Hpc. congruence.
Qed.

(** A message is accepted. *)
Lemma lanes_push sent got tags p q :
  (forall q, (q < 4)%nat -> lane q tags = seqZ (got q) (sent q - got q)) -> got p <= sent p -> (q < 4)%nat ->
  lane q (tags ++ [(p, sent p)]) = seqZ (got q) (<[p := sent p + 1]> sent q - got q).
Proof.
  intros Hl Hr Hq. rewrite lane_push, Hl by done. destruct (decide (p = q)) as [->|Hne].
  - rewrite fn_lookup_insert. replace (sent q + 1 - got q) with ((sent q - got q) + 1) by lia.
    rewrite seqZ_app by lia. f_equal. replace (got q + (sent q - got q)) with (sent q) by lia. done.
  - rewrite fn_lookup_insert_ne, app_nil_r by done. done.
Qed.

Lemma fifo_produce_ok x pcs p pc : ok (mkMachine x pcs) -> (p < 4)%nat -> pcs !! p = Some pc ->
  wp False (produce seed n handle (Z.of_nat p) pc) (fun pc' x' => ok (mkMachine x' (<[p := pc']> pcs))) e x.
Proof.
  intros (sent&got&tags&HF) Hp Hpc. pose proof (fo_producer _ _ _ _ HF p pc Hp Hpc) as Hok. cbn [shared] in Hok.
  pose proof HF as [F1 F2 F3 F4 F5 F6 F7 F8 F9]. cbn [shared threads] in *. specialize (F5 p Hp) as Hr.
  destruct (decide (pc = exited)) as [->|Hne]; [apply wp_ret; rewrite list_insert_id by done; by exists sent, got, tags|].
  pose proof (fifo_queue_open _ _ _ _ _ _ _ HF Hp Hpc Hne) as Ho.
  assert (forall x' pc', kernel x' = kernel x -> start x' = start x -> failed x' = failed x ->
    producers_done x' = producers_done x + (if decide (exited = pc') then 1 else 0) -> producer_ok x' (sent p) pc' ->
    ok (mkMachine x' (<[p := pc']> pcs))) as Hstay.
  { intros x' pc' Ek Es Ef Ed Hok'. eapply (producer_step x x' pcs sent got tags p pc pc' (sent p) tags); try done.
    - by rewrite Ek. - intros q Hq. rewrite fn_insert_same. by apply F4. - lia. }
  destruct pc; cbn [producer_ok produce] in *; try done.
  - apply wp_bind, wp_gets, wp_ret. destruct (start x) eqn:Es; apply Hstay; try done; rewrite decide_False by done; lia.
  - destruct (Z.ltb_spec sequence n); cbn [negb].
    + apply wp_bind, wp_gets, wp_ret. destruct (failed x) eqn:Ef; apply Hstay; try done; try (rewrite decide_False by done; lia); by left.
    + apply wp_ret, Hstay; try done; [rewrite decide_False by done; lia|]. right. lia.
  - destruct Hok as [<- Hlt]. apply wp_bind, wp_zoom. eapply wp_mono; [by apply owned_send|done|].
    intros r s' H. rewrite length_fmap in H. case_bool_decide as Hroom; destruct H as [-> Ho']; cbn [Z.eqb kErrorAgain negb Pos.eqb].
    + apply wp_ret. rewrite u32_small by (unfold is_u32 in *; lia).
      eapply (producer_step x _ pcs sent got tags p _ _ (sent p + 1) (tags ++ [(p, sent p)])); try done; cbn.
      * rewrite decide_False by done. lia.
      * by rewrite fmap_app.
      * apply Forall_app. split; [done|]. by constructor.
      * intros q Hq. apply lanes_push; [done|lia|done].
      * lia.
    + apply wp_ret. eapply (producer_step x _ pcs sent got tags p _ _ (sent p) tags); try done; cbn.
      * rewrite decide_False by done. lia.
      * intros q Hq. rewrite fn_insert_same. by apply F4.
      * lia.
  - apply wp_bind, wp_modify, wp_ret. apply Hstay; try done. cbn. rewrite decide_True by done.
    rewrite u32_small; [done|]. rewrite F8. pose proof (length_filter (eq exited) pcs). unfold is_u32. lia.
Qed.
Lemma fifo_total_small : total n = 4 * n.
Proof. unfold total, kProducerCount. apply u64_small. unfold is_u64, is_u32 in *. lia. Qed.

Lemma got_insert (got : nat -> Z) p v : (p < 4)%nat -> <[p := v]> (got <$> seq 0 4) = (<[p := v]> got) <$> seq 0 4.
Proof.
  intros Hp. pose proof (fn_lookup_insert got p v) as E1. pose proof (fun q => fn_lookup_insert_ne got p q v) as E2.
  do 4 (destruct p as [|p]; [cbn [seq fmap list_fmap]; by rewrite E1, !E2|]). lia.
Qed.

(** The oldest message is the next one its producer owes. *)
Lemma lanes_pop sent got tags p v q :
  (forall q, (q < 4)%nat -> lane q ((p, v) :: tags) = seqZ (got q) (sent q - got q)) -> (p < 4)%nat ->
  v = got p /\ got p < sent p /\ ((q < 4)%nat -> lane q tags = seqZ (<[p := got p + 1]> got q) (sent q - <[p := got p + 1]> got q)).
Proof.
  intros Hl Hp. pose proof (Hl p Hp) as E. rewrite lane_cons, decide_True in E by done.
  assert (got p < sent p) as Hlt.
  { apply (f_equal length) in E. rewrite length_app, length_seqZ in E. simpl in E. lia. }
  rewrite seqZ_cons in E by lia. injection E as Ev E. split_and!; [done|done|]. intros Hq. destruct (decide (p = q)) as [->|Hne].
  - rewrite fn_lookup_insert, E. f_equal; lia.
  - rewrite fn_lookup_insert_ne by done. rewrite <- Hl by done. by rewrite lane_cons, decide_False.
Qed.

(** The message passes every check of the consumer. *)
Lemma fifo_examine_ok (got : nat -> Z) random p (Q : Pc -> Shared -> Prop) y :
  (p < 4)%nat -> 0 <= got p < n -> 0 <= sum4 got <= 4 * n ->
  Q (loop ((<[p := got p + 1]> got) <$> seq 0 4) (sum4 (<[p := got p + 1]> got)) (perturb random)) y ->
  wp False (examine seed (got <$> seq 0 4) (sum4 got) random (tag_message (p, got p))) Q e y.
Proof.
  intros Hp Hr Hs HQ. unfold examine, tag_message, payload. cbn [words sender nth fst snd]. unfold kProducerCount, is_u32 in *.
  rewrite (proj2 (Z.leb_gt _ _)) by lia. rewrite !u32_small by (unfold is_u32; lia). rewrite Nat2Z.id.
  apply wp_bind. eapply wp_deref; [rewrite list_lookup_fmap, lookup_seq_lt by done; reflexivity|].
  cbn [Nat.add]. rewrite !Z.eqb_refl. cbn [negb orb]. apply wp_ret. rewrite u32_small, u64_small, got_insert by (unfold is_u32, is_u64; lia || done).
  rewrite sum4_insert in HQ by done. by replace (sum4 got + 1) with (sum4 got - got p + (got p + 1)) by lia.
Qed.

Lemma exited_count pcs pc : pcs !! 4%nat = Some pc -> pc <> exited -> length pcs = 5%nat -> all_exited pcs 4 ->
  length (filter (eq exited) pcs) = 4%nat.
Proof.
  intros Hpc Hne Hl Ha. pose proof (Ha 0%nat) as H0. pose proof (Ha 1%nat) as H1. pose proof (Ha 2%nat) as H2. pose proof (Ha 3%nat) as H3.
  destruct pcs as [|p0 [|p1 [|p2 [|p3 [|p4 [|]]]]]]; try done. cbn in H0, H1, H2, H3, Hpc.
  injection H0 as ->; [|lia]. injection H1 as ->; [|lia]. injection H2 as ->; [|lia]. injection H3 as ->; [|lia]. injection Hpc as ->.
  rewrite !filter_cons, !decide_True, decide_False by done. done.
Qed.

Lemma fifo_consume_ok expired x pcs pc : ok (mkMachine x pcs) -> pcs !! 4%nat = Some pc -> (expired = true -> is_late = true) ->
  wp False (consume seed n handle expired pcs pc) (fun pc' x' => ok (mkMachine x' (<[4%nat := pc']> pcs))) e x.
Proof.
  intros (sent&got&tags&HF) Hpc Hex. pose proof (fo_consumer _ _ _ _ HF pc Hpc) as Hok. cbn [shared threads] in Hok.
  pose proof HF as [F1 F2 F3 F4 F5 F6 F7 F8 F9]. cbn [shared threads] in *. specialize (F2 pc Hpc).
  assert (0 <= sum4 got <= 4 * n) as Hsum by (apply sum4_bound; intros p Hp; specialize (F5 p Hp); lia).
  assert (forall x' pc', kernel x' = kernel x -> is_returned pc' = is_returned pc -> (failed x = true -> failed x' = true) ->
    producers_done x' = producers_done x -> (failed x' = true -> is_late = true) -> consumer_ok x' pcs got pc' ->
    ok (mkMachine x' (<[4%nat := pc']> pcs))) as Hstay.
  { intros x' pc' Ek Er Ef Ed Hf Hok'. eapply (consumer_step x x' pcs sent got tags pc pc' got tags); try done.
    - by rewrite Ek, Er. - intros q Hq. by apply F5. }
  destruct pc; cbn [consumer_ok consume is_returned] in *; try done.
  - apply wp_bind, wp_modify, wp_ret. apply Hstay; try done. split; [done|]. unfold counts, sum4. cbn. by rewrite !Hok.
  - destruct Hok as (Hst&Hc&Er). rewrite fifo_total_small. destruct (Z.ltb_spec received (4 * n)); cbn [negb].
    + apply wp_bind, wp_gets, wp_ret. destruct (failed x) eqn:Ef; apply Hstay; rewrite ?Ef; try done.
      split_and!; [done|done|by left|lia|]. intros p Hp. lia.
    + apply wp_ret, Hstay; try done. split_and!; [done|done|right; lia|lia|]. intros p Hp. lia.
  - destruct Hok as (Hst&[-> ->]&Hlt). apply wp_bind, wp_zoom. eapply wp_mono; [by apply owned_recv|done|].
    intros r s' H. destruct tags as [|[p v] tags]; cbn [fmap list_fmap] in H; destruct H as [-> Ho].
    + cbn [fst Z.eqb kErrorAgain Pos.eqb]. apply wp_ret.
      eapply (consumer_step x _ pcs sent got [] _ _ got []); try done. intros q Hq. by apply F5.
    + cbn [fst snd Z.eqb kErrorAgain negb default]. unfold id. pose proof (Forall_cons_1 _ _ _ F3) as [Hp F3']. cbn [fst] in Hp.
      destruct (lanes_pop _ _ _ _ _ 0 F4 Hp) as (->&Hlt'&_). specialize (F5 p Hp) as Hr.
      apply fifo_examine_ok; [done|lia|done|]. eapply (consumer_step x _ pcs sent got _ _ _ (<[p := got p + 1]> got) tags); try done.
      * intros q Hq. by apply (lanes_pop _ _ _ _ _ q F4 Hp).
      * intros q Hq. destruct (decide (p = q)) as [->|Hne]; [rewrite fn_lookup_insert; lia|].
        rewrite fn_lookup_insert_ne by done. by apply F5.
  - destruct Hok as (Hst&Hc). apply wp_ret. destruct expired; apply Hstay; try done. split_and!; [done|auto|apply Hc].
  - destruct Hok as (Hst&Hl&Hr). apply wp_bind, wp_modify, wp_ret. apply Hstay; try done.
    split_and!; [done|done|by left|lia|]. intros p Hp. lia.
  - destruct Hok as (Hst&Hr&Hd&Hj&Ha). unfold kProducerCount. destruct (Nat.ltb_spec index 4).
    + apply wp_ret. case_bool_decide as Hx; apply Hstay; try done. split_and!; try done. intros p Hp.
      destruct (decide (p = index)) as [->|]; [done|]. apply Ha. lia.
    + apply wp_ret, Hstay; try done. assert (index = 4%nat) as -> by lia. by split_and!.
  - destruct Hok as (Hst&Hr&Hd&Ha). apply wp_bind, wp_gets. cbv zeta. apply wp_bind, wp_zoom.
    eapply wp_mono; [by eapply (destroy_owned k)|done|]. intros r s' (->&Hroom&_). apply wp_ret. cbn [andb].
    eapply (consumer_step x _ pcs sent got tags _ _ got tags); try done; [intros q Hq; by apply F5|].
    split; [|done]. cbn [set_field failed]. unfold id. rewrite F8, (exited_count pcs _ Hpc), fifo_total_small by done.
    destruct Hd as [->|E]; [by rewrite !andb_false_r|]. by rewrite (proj2 (Z.eqb_eq _ _) E).
  - apply wp_ret. rewrite list_insert_id by done. by exists sent, got, tags.
Qed.
Lemma fifo_exec_ok expired i x pcs pc : ok (mkMachine x pcs) -> pcs !! i = Some pc -> (expired = true -> is_late = true) ->
  wp False (exec seed n handle expired i pcs pc) (fun pc' x' => ok (mkMachine x' (<[i := pc']> pcs))) e x.
Proof.
  intros Hok Hpc Hx. unfold exec, kProducerCount. destruct (Nat.ltb_spec i 4); [by apply fifo_produce_ok|].
  assert (i = 4%nat) as ->; [|by apply fifo_consume_ok]. destruct Hok as (sent&got&tags&[F1 _]). cbn in F1. apply lookup_lt_Some in Hpc. lia.
Qed.

Lemma fifo_launched_ok s : owned (k + 1) handle [] s -> ok (launched seed s).
Proof.
  intros Ho. exists (fun _ => 0), (fun _ => 0), []. unfold is_u32 in Hn. split; cbn; try done; try lia.
  - by intros pc [= <-].
  - intros p pc Hp Hpc. do 4 (destruct p as [|p]; [by injection Hpc as <-|]). lia.
  - by intros pc [= <-].
Qed.

(** *** Completion *)

Definition rank (pc : Pc) : nat :=
  match pc with
  | spin _ => 2 * Z.to_nat n + 3
  | next s _ => 2 * Z.to_nat (n - s) + 2
  | try_send s _ => 2 * Z.to_nat (n - s) + 1
  | count => 1
  | launch => 3 * Z.to_nat (4 * n) + 20
  | late _ r _ => 3 * Z.to_nat (4 * n - r) + 13
  | loop _ r _ => 3 * Z.to_nat (4 * n - r) + 12
  | poll _ r _ => 3 * Z.to_nat (4 * n - r) + 11
  | reject _ => 10
  | join _ j => 9 - j
  | conclude _ => 2
  | abort | exited | returned _ => 0
  end.
Definition measure (m : Machine Shared Pc) : nat := sum_list (imap (fun _ => rank) (threads m)).

Lemma fifo_move x pcs i pc : pcs !! i = Some pc ->
  wp False (exec seed n handle false i pcs pc) (fun pc' _ => (rank pc' < rank pc)%nat) e x ->
  exists m', step (exec seed n handle) e is_late (mkMachine x pcs) m' /\ (measure m' < measure (mkMachine x pcs))%nat.
Proof.
  intros Hpc (pc'&x'&E&Hlt)%wp_done. exists (mkMachine x' (<[i := pc']> pcs)). split.
  - exists false, i. split; [done|]. unfold fire. cbn [threads shared]. by rewrite Hpc, E.
  - by eapply sum_imap_update.
Qed.

(** A producer moves on unless it waits for [start] or for room. *)
Lemma fifo_produce_moves x pcs sent got tags p pc :
  fifo_ok sent got tags (mkMachine x pcs) -> (p < 4)%nat -> pcs !! p = Some pc -> pc <> exited -> start x = true ->
  (sent p < n -> (length tags < 16)%nat) ->
  wp False (produce seed n handle (Z.of_nat p) pc) (fun pc' _ => (rank pc' < rank pc)%nat) e x.
Proof.
  intros HF Hp Hpc Hne Hst Hroom. pose proof (fifo_queue_open _ _ _ _ _ _ _ HF Hp Hpc Hne) as Ho.
  pose proof (fo_producer _ _ _ _ HF p pc Hp Hpc) as Hok. pose proof (fo_range _ _ _ _ HF p Hp) as Hr. unfold is_u32 in Hn.
  destruct pc; cbn [produce producer_ok] in *; try done.
  - apply wp_bind, wp_gets, wp_ret. rewrite Hst. cbn [rank]. lia.
  - destruct (Z.ltb_spec sequence n); cbn [negb]; [apply wp_bind, wp_gets|]; apply wp_ret; [case_match|]; cbn [rank]; lia.
  - destruct Hok as [<- Hlt]. specialize (Hroom Hlt). apply wp_bind, wp_zoom. eapply wp_mono; [by apply owned_send|done|].
    intros r s' H. rewrite length_fmap, bool_decide_true in H by done. destruct H as [-> _]. cbn [Z.eqb]. apply wp_ret.
    rewrite u32_small by (unfold is_u32; lia). cbn [rank]. lia.
  - apply wp_bind, wp_modify, wp_ret. cbn [rank]. lia.
Qed.

(** The main thread moves on unless it waits for a message or for a producer. *)
Lemma fifo_consume_moves x pcs sent got tags pc :
  fifo_ok sent got tags (mkMachine x pcs) -> pcs !! 4%nat = Some pc -> is_returned pc = false ->
  (forall ex r rn, pc = poll ex r rn -> tags <> []) -> (forall r j, pc = join r j -> (j < 4)%nat -> pcs !! j = Some exited) ->
  wp False (consume seed n handle false pcs pc) (fun pc' _ => (rank pc' < rank pc)%nat) e x.
Proof.
  intros HF Hpc Hret Hpoll Hjoin. pose proof HF as [_ F2 F3 F4 F5 _ F7 _ _]. cbn [shared threads] in *.
  specialize (F2 pc Hpc). specialize (F7 pc Hpc). rewrite Hret in F2. unfold is_u32 in Hn.
  assert (0 <= sum4 got <= 4 * n) as Hsum by (apply sum4_bound; intros p Hp; specialize (F5 p Hp); lia).
  destruct pc; cbn [consume consumer_ok] in *; try done.
  - apply wp_bind, wp_modify, wp_ret. cbn [rank]. lia.
  - rewrite fifo_total_small. destruct (Z.ltb_spec received (4 * n)); cbn [negb]; [apply wp_bind, wp_gets|]; apply wp_ret; [case_match|]; cbn [rank]; lia.
  - destruct F7 as (_&[-> ->]&Hlt). apply wp_bind, wp_zoom. eapply wp_mono; [by apply owned_recv|done|]. intros r s' H.
    destruct tags as [|[p v] tags]; [by edestruct Hpoll|]. destruct H as [-> _]. cbn [fst snd Z.eqb kErrorAgain negb default]. unfold id.
    apply Forall_cons in F3 as [Hp _]. cbn [fst] in Hp. destruct (lanes_pop _ _ _ _ _ 0 F4 Hp) as (->&Hlt'&_).
    specialize (F5 p Hp). apply fifo_examine_ok; [done|lia|done|]. cbn [rank]. rewrite sum4_insert by done. lia.
  - apply wp_ret. cbn [rank]. lia.
  - apply wp_bind, wp_modify, wp_ret. cbn [rank]. lia.
  - unfold kProducerCount. destruct (Nat.ltb_spec index 4); apply wp_ret; [|cbn [rank]; lia].
    rewrite bool_decide_true by (by eapply Hjoin). cbn [rank]. lia.
  - apply wp_bind, wp_gets, wp_bind, wp_zoom. eapply wp_mono; [by eapply (destroy_owned k)|done|]. intros r s' _. apply wp_ret. cbn [rank]. lia.
Qed.

Lemma lanes_empty sent got : (forall q, (q < 4)%nat -> lane q [] = seqZ (got q) (sent q - got q)) ->
  (forall q, (q < 4)%nat -> got q <= sent q) -> forall q, (q < 4)%nat -> got q = sent q.
Proof.
  intros Hl Hr q Hq. specialize (Hr q Hq). specialize (Hl q Hq). apply (f_equal length) in Hl. rewrite length_seqZ in Hl. cbn in Hl. lia.
Qed.

(** While the main thread has not returned, somebody can fifo_move. *)
Lemma fifo_progress m : is_late = false -> ok m -> threads m !! 4%nat <> Some (returned true) ->
  exists m', step (exec seed n handle) e is_late m m' /\ (measure m' < measure m)%nat.
Proof.
  destruct m as [x pcs]. intros Hlate (sent&got&tags&HF) Hend. pose proof HF as [F1 F2 F3 F4 F5 F6 F7 F8 F9]. cbn [shared threads] in *.
  assert (failed x = false) as Hf by (destruct (failed x); [by rewrite F9 in Hlate|done]).
  destruct (lookup_lt_is_Some_2 pcs 4) as [pm Hpm]; [lia|]. specialize (F7 pm Hpm).
  assert (forall p pc, (p < 4)%nat -> pcs !! p = Some pc -> pc <> exited -> start x = true -> (sent p < n -> (length tags < 16)%nat) ->
    exists m', step (exec seed n handle) e is_late (mkMachine x pcs) m' /\ (measure m' < measure (mkMachine x pcs))%nat) as Hprod.
  { intros p pc Hp Hpc Hne Hst Hroom. eapply (fifo_move x pcs p pc); [done|]. unfold exec, kProducerCount.
    rewrite (proj2 (Nat.ltb_lt p 4)) by done. by eapply fifo_produce_moves. }
  assert (is_returned pm = false) as Hret.
  { destruct pm; try done. cbn in F7. destruct F7 as [-> _]. rewrite Hf in Hpm. by destruct Hend. }
  assert ((forall ex r rn, pm = poll ex r rn -> tags <> []) -> (forall r j, pm = join r j -> (j < 4)%nat -> pcs !! j = Some exited) ->
    exists m', step (exec seed n handle) e is_late (mkMachine x pcs) m' /\ (measure m' < measure (mkMachine x pcs))%nat) as Hcons.
  { intros H1 H2. eapply (fifo_move x pcs 4 pm); [done|]. by eapply fifo_consume_moves. }
  destruct pm; try (apply Hcons; done).
  - destruct tags as [|t tags]; [|by apply Hcons]. cbn in F7. destruct F7 as (Hst&[_ ->]&Hlt).
    pose proof (lanes_empty sent got F4 ltac:(intros q Hq; specialize (F5 q Hq); lia)) as Heq.
    destruct (below_total n sent) as (p&Hp&Hs); [unfold sum4 in *; rewrite <- !Heq by lia; done|].
    destruct (lookup_lt_is_Some_2 pcs p) as [pc Hpc]; [lia|]. pose proof (F6 p pc Hp Hpc) as Hok.
    apply (Hprod p pc); try done; [|cbn; lia]. intros ->. destruct Hok as [?|?]; [congruence|lia].
  - cbn in F7. destruct F7 as (Hst&->&[Hd|Hd]&Hj&_); [congruence|].
    destruct (decide (index < 4)%nat) as [Hi|Hi]; [|apply Hcons; [done|]; intros r j [= <- <-]; lia].
    destruct (lookup_lt_is_Some_2 pcs index) as [pc Hpc]; [lia|].
    destruct (decide (pc = exited)) as [->|Hne]; [apply Hcons; [done|]; by intros r j [= <- <-]|].
    apply (Hprod index pc); try done. pose proof (full_total n got index ltac:(intros q Hq; specialize (F5 q Hq); lia) Hi Hd).
    specialize (F5 index Hi). lia.
Qed.
End proof.

(** ** A producer that never returns *)

(** The main thread waits for producer 0, which retries on a full endpoint. *)
Definition hung (handle : Z) (m : Machine Shared Pc) : Prop :=
  length (threads m) = 5%nat /\ (exists r, threads m !! 4%nat = Some (join r 0)) /\ (exists v rn, threads m !! 0%nat = Some (try_send v rn)) /\
  exists k q, owned k handle q (kernel (shared m)) /\ (16 <= length q)%nat.

Lemma hung_actions seed n handle e expired i x pcs pc : hung handle (mkMachine x pcs) -> pcs !! i = Some pc ->
  wp False (exec seed n handle expired i pcs pc) (fun pc' x' => hung handle (mkMachine x' (<[i := pc']> pcs))) e x.
Proof.
  intros (Hlen&(r&H4)&(v&rn&H0)&k&q&Ho&Hq) Hpc. cbn [threads shared] in *. unfold exec, kProducerCount.
  assert (forall pc' x', owned k handle q (kernel x') -> (i = 4%nat -> pc' = join r 0) -> (i = 0%nat -> exists rn, pc' = try_send v rn) ->
    hung handle (mkMachine x' (<[i := pc']> pcs))) as Hkeep.
  { intros pc' x' Ho' E4 E0. pose proof (lookup_lt_Some _ _ _ Hpc). split_and!; cbn [threads shared]; [by rewrite length_insert| | |by exists k, q].
    - exists r. destruct (decide (i = 4%nat)) as [->|]; [rewrite list_lookup_insert_eq by done; by rewrite E4|by rewrite list_lookup_insert_ne].
    - exists v. destruct (decide (i = 0%nat)) as [->|]; [|exists rn; by rewrite list_lookup_insert_ne].
      destruct E0 as [rn' ->]; [done|]. exists rn'. by rewrite list_lookup_insert_eq. }
  destruct (Nat.ltb_spec i 4).
  - assert (i = 0%nat -> pc = try_send v rn) as E0 by (intros ->; congruence).
    destruct pc; cbn [produce]; try (apply wp_ret, Hkeep; [done|lia|by intros ?%E0]).
    + apply wp_bind, wp_gets, wp_ret, Hkeep; [done|lia|by intros ?%E0].
    + destruct (_ <? _); cbn [negb]; [apply wp_bind, wp_gets|]; apply wp_ret, Hkeep; try done; try lia; by intros ?%E0.
    + apply wp_bind, wp_zoom. eapply wp_mono; [by apply owned_send|done|]. intros res s' H1. rewrite bool_decide_false in H1 by lia.
      destruct H1 as [-> Ho']. cbn [Z.eqb kErrorAgain negb Pos.eqb]. apply wp_ret, Hkeep; [done|lia|].
      intros E. specialize (E0 E). injection E0 as -> ->. by eexists.
    + apply wp_bind, wp_modify, wp_ret, Hkeep; [done|lia|by intros ?%E0].
    + apply wp_bind, wp_modify, wp_ret, Hkeep; [done|lia|by intros ?%E0].
  - destruct (decide (i = 4%nat)) as [->|Hne].
    + rewrite H4 in Hpc. injection Hpc as <-. cbn [consume Nat.ltb Nat.leb kProducerCount].
      rewrite H0, bool_decide_false by done. apply wp_ret, Hkeep; try done; lia.
    + apply lookup_lt_Some in Hpc. lia.
Qed.

(** ** Properties *)

(** C22: The fan-in test fails only by its deadline.  It creates its endpoint;
    then, whatever order the five threads act in, no thread is ever stuck in an
    undefined or aborting call and no check of a received message fails: every
    producer's messages arrive complete, in order and once, so only the deadline
    can set [failed].  When the main thread returns, its result is [true] unless
    the deadline passed, and the endpoint is released.  As long as the deadline has
    not passed, from every state on the way the test can still return [true];
    after it the test may never return ([mpsc_fifo_can_hang]). *)
Theorem mpsc_fifo_passes seed n k is_late e s :
  is_u32 n -> 0 <= k -> room (k + 2) s ->
  exists handle m s1, run_mpsc_fifo seed n e s = Done (Some (handle, m)) s1 /\
    forall m', runs seed n handle e is_late m m' ->
    (forall expired i, (i < 5)%nat -> (expired = true -> is_late = true) -> is_Some (fire (exec seed n handle) e expired i m')) /\
    (failed (shared m') = true -> is_late = true) /\
    (forall b, threads m' !! 4%nat = Some (returned b) -> b = negb (failed (shared m')) /\ room k (kernel (shared m'))) /\
    (is_late = false -> exists m'', runs seed n handle e is_late m' m'' /\ threads m'' !! 4%nat = Some (returned true)).
Proof.
  intros Hn Hk Hr. replace (k + 2) with (k + 1 + 1) in Hr by lia.
  destruct (wp_done _ _ e s (create_owned (k + 1) e s Hr ltac:(lia))) as (r&s1&Hc&handle&->&Ho&_).
  exists handle, (launched seed s1), s1. split; [unfold run_mpsc_fifo, mbind, M_bind; by rewrite Hc|].
  intros m' Hrun. pose proof (fifo_exec_ok seed n handle k is_late e Hn Hk) as Hact.
  pose proof (steps_keep _ e is_late _ Hact _ _ Hrun (fifo_launched_ok seed n handle k is_late Hn s1 Ho)) as Hok.
  pose proof Hok as (sent&got&tags&[F1 F2 _ _ _ _ F7 _ F9]). split_and!; [|done| |].
  - intros x i Hi Hx. destruct (lookup_lt_is_Some_2 (threads m') i) as [pc Hpc]; [lia|].
    destruct (fire_defined _ e is_late _ Hact x i m' pc Hok Hpc Hx) as (m1&->&_). done.
  - intros b Hb. split; [apply (F7 _ Hb)|apply (F2 _ Hb)].
  - intros Hl. apply (can_finish _ e is_late _ Hact (fun m => threads m !! 4%nat = Some (returned true)) (measure n)); [|done].
    intros m1 Hok1 Hf. by apply (fifo_progress seed n handle k is_late e Hn Hk).
Qed.

Lemma mpsc_fifo_passes_witness :
  exists handle m s1 m'', run_mpsc_fifo 1 2000 (demo_env 0) demo = Done (Some (handle, m)) s1 /\
    runs 1 2000 handle (demo_env 0) false m m'' /\ threads m'' !! 4%nat = Some (returned true).
Proof.
  destruct (mpsc_fifo_passes 1 2000 0 false (demo_env 0) demo) as (handle&m&s1&Hrun&H).
  - unfold is_u32. lia.
  - lia.
  - apply (room_weaken (2 ^ 30)); [exact demo_room|lia].
  - destruct (proj2 (proj2 (proj2 (H m (rtc_refl _ _)))) eq_refl) as (m''&H1&H2).
    exists handle, m, s1, m''. split; [exact Hrun|]. split; [exact H1|exact H2].
Defined.

(** A schedule: the consumer finds the endpoint empty, producer
    0 fills it, then the deadline passes. *)
Definition hanging_schedule : list (bool * nat) :=
  [(false, 4%nat); (false, 4%nat); (false, 4%nat)] ++ replicate 34 (false, 0%nat) ++ [(true, 4%nat); (true, 4%nat)].

Definition host_open : KState := state_after host_create (demo_env 0) demo.
Abbreviation demo_hung := (play (exec 1 17 demo_handle) (demo_env 0) hanging_schedule (launched 1 host_open)).

Lemma demo_hung_threads : threads <$> demo_hung =
  Some [try_send 16 786844039213255812; spin 4354685564936845355; spin 15755400384260043838; spin 8709371129873690709; join 0 0].
Proof. vm_compute. reflexivity. Qed.

Lemma host_open_owned : owned 1 demo_handle [] host_open.
Proof.
  assert (room (1 + 1) demo) as Hr by (apply (room_weaken (2 ^ 30)); [exact demo_room|lia]).
  destruct (wp_done _ _ _ _ (create_owned 1 (demo_env 0) demo Hr ltac:(lia))) as (r&s1&Hc&handle&Er&Ho&_).
  unfold host_open, state_after. rewrite Hc. assert (Some handle = Some demo_handle) as [= <-]; [|exact Ho]. rewrite <- Er.
  assert (match host_create (demo_env 0) demo with Done r _ => r | _ => None end = Some demo_handle) as E by (vm_compute; reflexivity).
  rewrite Hc in E. exact E.
Qed.

(** A schedule that fills the endpoint and then times out leaves the test hung. *)
Lemma hung_after e handle s l m v rn p1 p2 p3 :
  owned 1 handle [] s -> play (exec 1 17 handle) e l (launched 1 s) = Some m ->
  Forall (fun a => a.1 = true -> true = true) l -> threads m = [try_send v rn; p1; p2; p3; join 0 0] -> 16 <= v ->
  runs 1 17 handle e true (launched 1 s) m /\ hung handle m.
Proof.
  intros Ho Hplay Hl Et Hv. pose proof (play_steps _ e true l _ m Hl Hplay) as Hrun. split; [exact Hrun|].
  pose proof (fifo_exec_ok 1 17 handle 0 true e ltac:(unfold is_u32; lia) ltac:(lia)) as Hact.
  pose proof (steps_keep _ _ _ _ Hact _ _ Hrun (fifo_launched_ok 1 17 handle 0 true ltac:(unfold is_u32; lia) _ Ho)) as (sent&got&tags&HF).
  destruct HF as [F1 F2 F3 F4 F5 F6 F7 _ _]. unfold hung. rewrite Et in *.
  specialize (F2 (join 0 0) eq_refl). destruct (F7 (join 0 0) eq_refl) as (_&Hs&_). specialize (F6 0%nat (try_send v rn) ltac:(lia) eq_refl).
  cbn [producer_ok is_returned] in F2, F6. split_and!; [done|by exists 0|by exists v, rn|]. exists (0 + 1), (tag_message 1 <$> tags).
  split; [exact F2|]. rewrite length_fmap.
  pose proof (F5 0%nat ltac:(lia)). pose proof (F5 1%nat ltac:(lia)). pose proof (F5 2%nat ltac:(lia)). pose proof (F5 3%nat ltac:(lia)).
  specialize (F4 0%nat ltac:(lia)). apply (f_equal length) in F4. unfold lane, sum4 in *. rewrite length_fmap, length_seqZ in F4.
  pose proof (length_filter (fun t => t.1 = 0%nat) tags). lia.
Qed.

Lemma hung_forever seed n handle e m m' b : hung handle m -> runs seed n handle e true m m' -> threads m' !! 4%nat <> Some (returned b).
Proof.
  intros Hh Hrun Hb.
  destruct (steps_keep _ _ _ _ (fun x i y pcs pc H Hpc _ => hung_actions seed n handle e x i y pcs pc H Hpc) _ _ Hrun Hh) as (_&(r&Hr)&_).
  congruence.
Qed.

(** The fan-in test can hang.  A producer's retry loop looks at neither the
    deadline nor [failed]: in the run that [hanging_schedule] describes, the main
    thread times out on an empty endpoint just before producer 0 fills it, stops
    receiving and joins, and from then on no schedule lets it return. *)
Lemma mpsc_fifo_can_hang :
  exists m, runs 1 17 demo_handle (demo_env 0) true (launched 1 host_open) m /\
    forall m' b, runs 1 17 demo_handle (demo_env 0) true m m' -> threads m' !! 4%nat <> Some (returned b).
Proof.
  pose proof demo_hung_threads as (m&Hm&Et)%fmap_Some. symmetry in Et.
  assert (Forall (fun a : bool * nat => a.1 = true -> true = true) hanging_schedule) as Hs by (apply Forall_true; auto).
  destruct (hung_after _ _ _ _ _ _ _ _ _ _ host_open_owned Hm Hs Et ltac:(lia)) as [Hrun Hh].
  exists m. split; [exact Hrun|]. intros m' b Hrun'. exact (hung_forever _ _ _ _ _ _ b Hh Hrun').
Qed.
