(* ===== verification/HostOnce.v ===== *)
(** * Hosted IPC torture lane: many producers, many consumers

    Models [run_mpmc_exactly_once] of [verification/host/ipc_torture.cpp]: four
    producers send messages with distinct numbers to one endpoint, four consumers
    receive them and count each number in a shared table, and the main thread
    checks that every number was counted once.  Threads 0 to 3 are the producers,
    4 to 7 the consumers, 8 is the main thread after the endpoint was created. *)
From Stdlib Require Import ZArith Lia.
From stdpp Require Import base tactics sets functions gmap list relations.
From S2P Require Import Prelude DList KernelTypes KernelInv Demo RunQueue DelayQueue Scheduler Ipc IpcProps HostIpc.
Local Open Scope Z_scope.

(** ** State *)

Record Shared := mkShared { kernel : KState; start : bool; failed : bool; consumed : Z; seen : list Z }.
#[export] Instance Shared_eta : Eta Shared :=
  fun x => mkShared (kernel x) (start x) (failed x) (consumed x) (seen x).

Definition on_kernel {A} : K A -> M Env Shared A := zoom kernel (fun k x => x <| kernel := k |>).

(** Both kinds of worker begin at [spin] and end at [abort] or [exited].  A consumer
    reads [consumed] at [head] and [failed] at [test], receives at [poll], asks for
    the time at [late], counts the number at [mark] and the message at [tally]. *)
Inductive Pc :=
  | spin (random : Z) | next (sequence random : Z) | try_send (sequence random : Z)
  | head (random : Z) | test (random : Z) | poll (random : Z) | late (random : Z) | mark (id random : Z) | tally (random : Z)
  | abort | exited
  | launch | join (index : nat) | conclude | returned (passed : bool).
#[export] Instance Pc_eq_dec : EqDecision Pc.
Proof. solve_decision. Defined.

Section program.
Context (seed messages_per_producer handle : Z).

Definition total : Z := u64 (Z.of_nat kProducerCount * messages_per_producer).
Definition complement (id : Z) : Z := u64 (Z.lnot id).
Definition payload (id : Z) : list Z := [id; complement id; seed; Z.lxor (Z.lxor id seed) 0xC0DEC0DE].

(** ** Threads *)

Definition produce (expired : bool) (producer : Z) (pc : Pc) : M Env Shared Pc :=
  match pc with
  | spin random => go ← gets start; mret (if go : bool then next 0 random else spin random)
  | next sequence random =>
      if negb (sequence <? messages_per_producer) then mret exited
      else f ← gets failed; mret (if f : bool then exited else try_send sequence random)
  | try_send sequence random =>
      let id := u64 (u64 (producer * messages_per_producer) + sequence) in
      result ← on_kernel (send (200 + producer) handle (payload id));
      if result =? 0 then mret (next (u32 (sequence + 1)) (perturb random))
      else if negb (result =? kErrorAgain) || expired then mret abort
      else mret (try_send sequence (perturb random))
  | abort => modify (fun x => x <| failed := true |>);; mret exited
  | _ => mret pc
  end.

(** The checks on a received message. *)
Definition examine (random : Z) (message : Message) : Pc :=
  let word i := nth i (words message) 0 in
  let id := word 0%nat in
  if (total <=? id) || negb (word 1%nat =? complement id) || negb (word 2%nat =? seed)
     || negb (word 3%nat =? Z.lxor (Z.lxor id seed) 0xC0DEC0DE)
  then abort
  else
    let producer := u32 (id / messages_per_producer) in
    if negb (sender message =? 200 + producer) then abort else mark id random.

Definition consume (expired : bool) (pc : Pc) : M Env Shared Pc :=
  match pc with
  | spin random => go ← gets start; mret (if go : bool then head random else spin random)
  | head random => c ← gets consumed; mret (if c <? total then test random else exited)
  | test random => f ← gets failed; mret (if f : bool then exited else poll random)
  | poll random =>
      r ← on_kernel (try_recv handle true);
      mret (if r.1 =? kErrorAgain then late random
            else if negb (r.1 =? 0) then abort
            else examine random (default zero_message r.2))
  | late random => mret (if expired then abort else head (perturb random))
  | mark id random =>
      counts ← gets seen;
      old ← deref (counts !! Z.to_nat id);
      modify (fun x => x <| seen := <[Z.to_nat id := u32 (old + 1)]> (seen x) |>);;
      mret (if negb (old =? 0) then abort else tally random)
  | tally random => modify (fun x => x <| consumed := u64 (consumed x + 1) |>);; mret (head (perturb random))
  | abort => modify (fun x => x <| failed := true |>);; mret exited
  | _ => mret pc
  end.

Definition workers : nat := kProducerCount + kConsumerCount.

Definition finish (pcs : list Pc) (pc : Pc) : M Env Shared Pc :=
  match pc with
  | launch => modify (fun x => x <| start := true |>);; mret (join 0)
  | join index =>
      if (index <? workers)%nat
      then mret (if bool_decide (pcs !! index = Some exited) then join (S index) else join index)
      else mret conclude
  | conclude =>
      x ← gets id;
      let complete := forallb (fun c => c =? 1) (seen x) && ((consumed x =? total) && negb (failed x)) in
      ok ← on_kernel (host_destroy handle);
      mret (returned (ok && complete))
  | _ => mret pc
  end.

Definition exec (expired : bool) (i : nat) (pcs : list Pc) (pc : Pc) : M Env Shared Pc :=
  if (i <? kProducerCount)%nat then produce expired (Z.of_nat i) pc
  else if (i <? workers)%nat then consume expired pc else finish pcs pc.

(** The threads as the main thread has created them. *)
Definition producer_start (producer : nat) : Pc :=
  spin (Z.lxor seed (u64 (0xA0761D6478BD642F * (Z.of_nat producer + 1)))).
Definition consumer_start (consumer : nat) : Pc :=
  spin (Z.lxor seed (u64 (0xE7037ED1A0B428DB * (Z.of_nat consumer + 1)))).
Definition launched (k : KState) : Machine Shared Pc :=
  mkMachine (mkShared k false false 0 (replicate (Z.to_nat total) 0))
    (map producer_start (seq 0 kProducerCount) ++ map consumer_start (seq 0 kConsumerCount) ++ [launch]).
End program.

Abbreviation runs seed n handle e late := (rtc (step (exec seed n handle) e late)).

(** [run_mpmc_exactly_once]: the endpoint is created, then the threads run. *)
Definition run_mpmc_exactly_once (seed messages_per_producer : Z) : K (option (Z * Machine Shared Pc)) :=
  created ← host_create;
  match created with
  | None => mret None
  | Some handle => k ← gets id; mret (Some (handle, launched seed messages_per_producer k))
  end.

(** ** What the threads keep *)

(** The number a consumer holds but has not counted, and whether it has counted a
    number but not the message. *)
Definition held_id (pc : Pc) : list Z := match pc with mark id _ => [id] | _ => [] end.
Definition held_ids (pcs : list Pc) : list Z := pcs ≫= held_id.
Definition counting (pc : Pc) : bool := match pc with tally _ => true | _ => false end.
Definition counters (pcs : list Pc) : nat := length (filter (fun pc => counting pc = true) pcs).

Lemma held_split pcs i pc : pcs !! i = Some pc -> exists l,
  held_ids pcs ≡ₚ held_id pc ++ l /\ forall pc', held_ids (<[i := pc']> pcs) ≡ₚ held_id pc' ++ l.
Proof.
  intros Hi. exists (held_ids (take i pcs) ++ held_ids (drop (S i) pcs)). unfold held_ids. split.
  - rewrite <- (take_drop_middle pcs i pc Hi) at 1. rewrite bind_app, bind_cons. solve_Permutation.
  - intros pc'. rewrite insert_take_drop by (by eapply lookup_lt_Some). rewrite bind_app, bind_cons. solve_Permutation.
Qed.

Section proof.
Context (seed n handle k : Z) (is_late : bool) (e : Env).
Context (Hn : is_u32 n) (Hk : 0 <= k).

(** The numbers sent so far. *)
Definition issued (sent : nat -> Z) : list Z :=
  seqZ 0 (sent 0%nat) ++ seqZ n (sent 1%nat) ++ seqZ (2 * n) (sent 2%nat) ++ seqZ (3 * n) (sent 3%nat).

Definition id_message (id : Z) : Message := mkMessage (200 + id / n) (payload seed id).

Definition seen_of (done : list Z) : list Z := (fun id => if decide (id ∈ done) then 1 else 0) <$> seqZ 0 (4 * n).

Definition producer_ok (x : Shared) (sent : Z) (pc : Pc) : Prop :=
  match pc with
  | spin _ => sent = 0
  | next s _ => sent = s
  | try_send s _ => sent = s /\ s < n
  | abort => is_late = true
  | exited => failed x = true \/ sent = n
  | _ => False
  end.

Definition consumer_ok (x : Shared) (pc : Pc) : Prop :=
  match pc with
  | spin _ | head _ | test _ | poll _ | late _ | mark _ _ | tally _ => True
  | abort => is_late = true
  | exited => failed x = true \/ consumed x = 4 * n
  | _ => False
  end.

Definition all_exited (pcs : list Pc) (j : nat) : Prop := forall p, (p < j)%nat -> pcs !! p = Some exited.

Definition main_ok (x : Shared) (pcs : list Pc) (pc : Pc) : Prop :=
  match pc with
  | launch => True
  | join j => start x = true /\ (j <= 8)%nat /\ all_exited pcs j
  | conclude => start x = true /\ all_exited pcs 8
  | returned passed => passed = negb (failed x) /\ all_exited pcs 8
  | _ => False
  end.

Definition role_ok (x : Shared) (pcs : list Pc) (sent : nat -> Z) (i : nat) (pc : Pc) : Prop :=
  if (i <? 4)%nat then producer_ok x (sent i) pc else if (i <? 8)%nat then consumer_ok x pc else main_ok x pcs pc.

Definition is_returned (pc : Pc) : bool := match pc with returned _ => true | _ => false end.

(** Every number sent is in the endpoint, in the hands of a consumer, or counted. *)
Record once_ok (sent : nat -> Z) (ids done : list Z) (m : Machine Shared Pc) : Prop := {
  oo_threads : length (threads m) = 9%nat;
  oo_queue : forall pc, threads m !! 8%nat = Some pc ->
    if is_returned pc then room k (kernel (shared m)) else owned (k + 1) handle (id_message <$> ids) (kernel (shared m));
  oo_ids : ids ++ held_ids (threads m) ++ done ≡ₚ issued sent;
  oo_range : forall p, (p < 4)%nat -> 0 <= sent p <= n;
  oo_seen : seen (shared m) = seen_of done;
  oo_consumed : 0 <= consumed (shared m) /\ consumed (shared m) + Z.of_nat (counters (threads m)) = Z.of_nat (length done);
  oo_role : forall i pc, threads m !! i = Some pc -> role_ok (shared m) (threads m) sent i pc;
  oo_failed : failed (shared m) = true -> is_late = true;
}.
Definition ok (m : Machine Shared Pc) : Prop := exists sent ids done, once_ok sent ids done m.

(** *** Numbers *)

Lemma issued_nodup sent : (forall p, (p < 4)%nat -> 0 <= sent p <= n) -> NoDup (issued sent).
Proof.
  intros H. pose proof (H 0%nat). pose proof (H 1%nat). pose proof (H 2%nat). pose proof (H 3%nat). unfold issued.
  rewrite !NoDup_app. split_and!; try apply NoDup_seqZ; intros id; rewrite ?elem_of_app, !elem_of_seqZ; lia.
Qed.

Lemma issued_range sent id : (forall p, (p < 4)%nat -> 0 <= sent p <= n) -> id ∈ issued sent -> 0 <= id < 4 * n.
Proof.
  intros H. pose proof (H 0%nat). pose proof (H 1%nat). pose proof (H 2%nat). pose proof (H 3%nat). unfold issued.
  rewrite !elem_of_app, !elem_of_seqZ. unfold is_u32 in Hn. lia.
Qed.

Lemma issued_length sent : (forall p, (p < 4)%nat -> 0 <= sent p <= n) -> Z.of_nat (length (issued sent)) = sum4 sent.
Proof.
  intros H. pose proof (H 0%nat). pose proof (H 1%nat). pose proof (H 2%nat). pose proof (H 3%nat). unfold issued, sum4.
  rewrite !length_app, !length_seqZ. lia.
Qed.

Lemma seqZ_next m l : 0 <= l -> seqZ m (l + 1) = seqZ m l ++ [m + l].
Proof. intros Hl. by rewrite seqZ_app. Qed.

Lemma issued_send sent p : (p < 4)%nat -> 0 <= sent p ->
  issued (<[p := sent p + 1]> sent) ≡ₚ (Z.of_nat p * n + sent p) :: issued sent.
Proof.
  intros Hp Hs. unfold issued. pose proof (fn_lookup_insert sent p (sent p + 1)) as E1.
  pose proof (fun q => fn_lookup_insert_ne sent p q (sent p + 1)) as E2.
  do 4 (destruct p as [|p]; [rewrite E1, !E2, seqZ_next by done; try (replace (Z.of_nat 0 * n) with 0 by lia);
    try (replace (Z.of_nat 1 * n) with n by lia); solve_Permutation|]). lia.
Qed.
(** *** Steps *)

Lemma once_exited_insert pcs p pc pc' j : pcs !! p = Some pc -> pc <> exited -> all_exited pcs j -> all_exited (<[p := pc']> pcs) j.
Proof.
  intros Hp Hne H q Hq. rewrite list_lookup_insert_ne; [by apply H|]. intros ->. rewrite (H q Hq) in Hp. congruence.
Qed.

(** What the other threads know survives an action. *)
Lemma role_other x x' pcs sent sent' i j pc pc' pj :
  role_ok x pcs sent j pj -> pcs !! i = Some pc -> pc <> exited -> j <> i ->
  (start x = true -> start x' = true) -> (failed x = true -> failed x' = true) -> (consumed x = 4 * n -> consumed x' = 4 * n) ->
  sent' j = sent j -> (is_returned pj = true -> (i < 8)%nat) -> role_ok x' (<[i := pc']> pcs) sent' j pj.
Proof.
  intros H Hi Hne Hji Hs Hf Hc Es Hret. pose proof (fun l => once_exited_insert pcs i pc pc' l Hi Hne) as He. unfold role_ok in *. rewrite Es.
  destruct (j <? 4)%nat; [destruct pj; cbn [producer_ok] in *; tauto|].
  destruct (j <? 8)%nat; [destruct pj; cbn [consumer_ok] in *; tauto|].
  destruct pj; cbn [main_ok] in *; try done; [destruct H as (?&?&?); auto|destruct H; auto|].
  destruct H as [_ Ha]. rewrite (Ha i) in Hi by auto. congruence.
Qed.

(** The main thread has not returned while a worker runs. *)
Lemma once_queue_open x pcs sent ids done i pc :
  once_ok sent ids done (mkMachine x pcs) -> (i < 8)%nat -> pcs !! i = Some pc -> pc <> exited ->
  (forall pm, pcs !! 8%nat = Some pm -> is_returned pm = false) /\ owned (k + 1) handle (id_message <$> ids) (kernel x).
Proof.
  intros [F1 F2 _ _ _ _ F7 _] Hi Hpc Hne. cbn [shared threads] in *.
  assert (forall pm, pcs !! 8%nat = Some pm -> is_returned pm = false) as Hr.
  { intros pm Hpm. specialize (F7 8%nat pm Hpm). destruct pm; try done. destruct F7 as [_ Ha]. rewrite (Ha i Hi) in Hpc. congruence. }
  split; [done|]. destruct (lookup_lt_is_Some_2 pcs 8) as [pm Hpm]; [lia|]. specialize (F2 pm Hpm). by rewrite (Hr pm Hpm) in F2.
Qed.

Lemma once_worker_step x x' pcs sent ids done i pc pc' sent' ids' done' :
  once_ok sent ids done (mkMachine x pcs) -> (i < 8)%nat -> pcs !! i = Some pc -> pc <> exited ->
  start x' = start x -> (failed x = true -> failed x' = true) -> (failed x' = true -> is_late = true) ->
  consumed x <= consumed x' -> (consumed x = 4 * n -> consumed x' = 4 * n) ->
  owned (k + 1) handle (id_message <$> ids') (kernel x') ->
  (forall l, ids ++ (held_id pc ++ l) ++ done ≡ₚ issued sent -> ids' ++ (held_id pc' ++ l) ++ done' ≡ₚ issued sent') ->
  (forall p, (p < 4)%nat -> 0 <= sent' p <= n) -> (forall p, p <> i -> sent' p = sent p) ->
  seen x' = seen_of done' ->
  consumed x' + Z.b2z (counting pc') - Z.of_nat (length done') = consumed x + Z.b2z (counting pc) - Z.of_nat (length done) ->
  role_ok x' pcs sent' i pc' -> ok (mkMachine x' (<[i := pc']> pcs)).
Proof.
  intros HF Hi Hpc Hne Es Hf Hf' Hle Hc Ho Hids Hr Hsent Hseen Hcount Hrole.
  destruct (once_queue_open _ _ _ _ _ _ _ HF Hi Hpc Hne) as [Hret _]. destruct HF as [F1 F2 F3 F4 F5 F6 F7 F8]. cbn [shared threads] in *.
  exists sent', ids', done'. destruct (held_split pcs i pc Hpc) as (l&E1&E2). split; cbn [shared threads]; try done.
  - by rewrite length_insert.
  - intros pm Hpm. rewrite list_lookup_insert_ne in Hpm by lia. by rewrite (Hret pm Hpm).
  - rewrite E2. apply Hids. by rewrite <- E1.
  - destruct F6 as [F6 F6']. split; [lia|]. unfold counters in *. pose proof (filter_insert_length (fun pc => counting pc = true) pcs i pc pc' Hpc) as Hl. 
    repeat case_decide; destruct (counting pc), (counting pc'); try done; cbn [Z.b2z] in Hcount; lia.
  - intros j pj [[-> ->]|[Hj Hpj]]%insert_cases.
    + unfold role_ok in *. destruct (i <? 4)%nat; [done|]. rewrite (proj2 (Nat.ltb_lt i 8)) in * by done. done.
    + eapply (role_other x x' pcs sent sent' i j pc pc' pj); try done; [by apply F7|by rewrite Es|by apply Hsent].
Qed.

(** An action of a worker that moves no message. *)
Lemma worker_stay x x' pcs sent ids done i pc pc' :
  once_ok sent ids done (mkMachine x pcs) -> (i < 8)%nat -> pcs !! i = Some pc -> pc <> exited ->
  held_id pc' = held_id pc -> counting pc' = counting pc -> start x' = start x -> kernel x' = kernel x -> seen x' = seen x ->
  consumed x' = consumed x -> (failed x = true -> failed x' = true) -> (failed x' = true -> is_late = true) ->
  role_ok x' pcs sent i pc' -> ok (mkMachine x' (<[i := pc']> pcs)).
Proof.
  intros HF Hi Hpc Hne Eh Et Es Ek Ese Ec Hf Hf' Hrole. destruct (once_queue_open _ _ _ _ _ _ _ HF Hi Hpc Hne) as [_ Ho].
  pose proof HF as [F1 F2 F3 F4 F5 F6 F7 F8]. cbn [shared threads] in *.
  eapply (once_worker_step x x' pcs sent ids done i pc pc' sent ids done); try done.
  - lia. - by rewrite Ec. - by rewrite Ek. - by rewrite Eh. - by rewrite Ese. - by rewrite Et, Ec.
Qed.

Lemma producer_id p s : (p < 4)%nat -> 0 <= s < n ->
  u64 (u64 (Z.of_nat p * n) + s) = Z.of_nat p * n + s /\ (Z.of_nat p * n + s) / n = Z.of_nat p.
Proof.
  intros Hp Hs. unfold is_u32 in Hn. assert (0 <= Z.of_nat p * n <= 3 * n) by nia. split.
  - rewrite (u64_small (Z.of_nat p * n)) by (unfold is_u64; lia). apply u64_small. unfold is_u64. lia.
  - rewrite Z.div_add_l, Z.div_small by lia. lia.
Qed.

Lemma once_produce_ok expired x pcs i pc : ok (mkMachine x pcs) -> (i < 4)%nat -> pcs !! i = Some pc -> (expired = true -> is_late = true) ->
  wp False (produce seed n handle expired (Z.of_nat i) pc) (fun pc' x' => ok (mkMachine x' (<[i := pc']> pcs))) e x.
Proof.
  intros (sent&ids&done&HF) Hi Hpc Hex. pose proof (oo_role _ _ _ _ HF i pc Hpc) as Hok. unfold role_ok in Hok.
  rewrite (proj2 (Nat.ltb_lt i 4) Hi) in Hok. pose proof HF as [F1 F2 F3 F4 F5 F6 F7 F8]. cbn [shared threads] in *.
  destruct (decide (pc = exited)) as [->|Hne]; [apply wp_ret; rewrite list_insert_id by done; by exists sent, ids, done|].
  assert (i < 8)%nat as Hi8 by lia. destruct (once_queue_open _ _ _ _ _ _ _ HF Hi8 Hpc Hne) as [_ Ho]. pose proof (F4 i Hi) as Hr.
  assert (forall x' pc', held_id pc' = held_id pc -> counting pc' = counting pc -> start x' = start x -> kernel x' = kernel x -> seen x' = seen x ->
    consumed x' = consumed x -> (failed x = true -> failed x' = true) -> (failed x' = true -> is_late = true) ->
    producer_ok x' (sent i) pc' -> ok (mkMachine x' (<[i := pc']> pcs))) as Hstay.
  { intros x' pc' ?????????. eapply (worker_stay x x' pcs sent ids done i pc pc'); try done.
    unfold role_ok. by rewrite (proj2 (Nat.ltb_lt i 4) Hi). }
  destruct pc; cbn [producer_ok produce] in *; try done.
  - apply wp_bind, wp_gets, wp_ret. destruct (start x) eqn:Es; by apply Hstay.
  - destruct (Z.ltb_spec sequence n); cbn [negb].
    + apply wp_bind, wp_gets, wp_ret. destruct (failed x) eqn:Ef; apply Hstay; rewrite ?Ef; try done. by left.
    + apply wp_ret, Hstay; try done. right. lia.
  - destruct Hok as [<- Hlt]. destruct (producer_id i (sent i) Hi ltac:(lia)) as [Eid Ediv]. cbv zeta. rewrite Eid.
    apply wp_bind, wp_zoom. eapply wp_mono; [by apply owned_send|done|]. intros r s' H. rewrite length_fmap in H.
    case_bool_decide as Hroom; destruct H as [-> Ho']; cbn [Z.eqb kErrorAgain negb Pos.eqb orb].
    + apply wp_ret. rewrite u32_small by (unfold is_u32 in *; lia).
      eapply (once_worker_step x _ pcs sent ids done i _ _ (<[i := sent i + 1]> sent) (ids ++ [Z.of_nat i * n + sent i]) done); try done; try lia.
      * rewrite fmap_app. cbn [fmap list_fmap]. unfold id_message at 2. by rewrite Ediv.
      * intros l Hl. rewrite (issued_send sent i), <- Hl by (done || lia). solve_Permutation.
      * intros p Hp. destruct (decide (p = i)) as [->|]; [rewrite fn_lookup_insert; lia|]. rewrite fn_lookup_insert_ne by done. by apply F4.
      * intros p Hp. by rewrite fn_lookup_insert_ne.
      * unfold role_ok. rewrite (proj2 (Nat.ltb_lt i 4) Hi). cbn. by rewrite fn_lookup_insert.
    + assert (forall pc', held_id pc' = [] -> counting pc' = false -> producer_ok x (sent i) pc' ->
        ok (mkMachine (x <| kernel := s' |>) (<[i := pc']> pcs))) as Hagain.
      { intros pc' Eh Ec Hok'. eapply (once_worker_step x _ pcs sent ids done i _ _ sent ids done); try done; try lia; cbn.
        - by rewrite Eh. - by rewrite Ec. - unfold role_ok. by rewrite (proj2 (Nat.ltb_lt i 4) Hi). }
      destruct expired; apply wp_ret, Hagain; try done. by apply Hex.
  - apply wp_bind, wp_modify, wp_ret. apply Hstay; try done. by left.
Qed.
Lemma once_total_small : total n = 4 * n.
Proof. unfold total, kProducerCount. apply u64_small. unfold is_u64, is_u32 in *. lia. Qed.

Lemma once_examine_ok id random : 0 <= id < 4 * n -> examine seed n random (id_message id) = mark id random.
Proof.
  intros Hid. unfold examine, id_message, payload. cbn [words sender nth]. rewrite once_total_small, (proj2 (Z.leb_gt _ _)), !Z.eqb_refl by lia.
  cbn [orb negb]. assert (0 <= id / n < 4) by (split; [apply Z.div_pos; lia|apply Z.div_lt_upper_bound; lia]).
  rewrite u32_small by (unfold is_u32; lia). by rewrite Z.eqb_refl.
Qed.

Lemma seen_lookup done id : 0 <= id < 4 * n -> id ∉ done -> seen_of done !! Z.to_nat id = Some 0.
Proof.
  intros Hid Hno. unfold seen_of. rewrite list_lookup_fmap, lookup_seqZ_lt by lia. simpl. rewrite decide_False; [done|].
  by replace (0 + Z.of_nat (Z.to_nat id)) with id by lia.
Qed.

Lemma seen_mark done id : 0 <= id < 4 * n -> <[Z.to_nat id := 1]> (seen_of done) = seen_of (id :: done).
Proof.
  intros Hid. unfold seen_of. apply list_eq. intros j. rewrite list_lookup_fmap.
  destruct (decide (j < Z.to_nat (4 * n))%nat) as [Hj|Hj].
  - rewrite lookup_seqZ_lt by lia. simpl. destruct (decide (j = Z.to_nat id)) as [->|Hne].
    + rewrite list_lookup_insert_eq by (rewrite length_fmap, length_seqZ; lia). rewrite decide_True; [done|].
      replace (0 + Z.of_nat (Z.to_nat id)) with id by lia. left.
    + rewrite list_lookup_insert_ne, list_lookup_fmap, lookup_seqZ_lt by lia. simpl. f_equal.
      apply decide_ext. rewrite elem_of_cons. split; [auto|intros [?|?]; [lia|done]].
  - rewrite lookup_seqZ_ge by lia. apply lookup_ge_None. rewrite length_insert, length_fmap, length_seqZ. lia.
Qed.

Lemma done_bound sent ids l done : ids ++ l ++ done ≡ₚ issued sent -> (forall p, (p < 4)%nat -> 0 <= sent p <= n) ->
  Z.of_nat (length ids + length l + length done) = sum4 sent /\ sum4 sent <= 4 * n.
Proof.
  intros Hp Hr. split; [|apply sum4_bound; done]. rewrite <- (issued_length sent Hr), <- Hp, !length_app. lia.
Qed.

(** The number at [mark] has not been counted yet. *)
Lemma held_fresh sent ids done pcs i id random :
  ids ++ held_ids pcs ++ done ≡ₚ issued sent -> (forall p, (p < 4)%nat -> 0 <= sent p <= n) -> pcs !! i = Some (mark id random) ->
  0 <= id < 4 * n /\ id ∉ done.
Proof.
  intros Hp Hr Hpc. destruct (held_split pcs i _ Hpc) as (l&E&_). cbn [held_id app] in E. rewrite E in Hp.
  pose proof (issued_nodup sent Hr) as Hnd. rewrite <- Hp in Hnd. split.
  - apply (issued_range sent); [done|]. rewrite <- Hp. set_solver.
  - apply NoDup_app in Hnd as (_&_&Hnd). cbn [app] in Hnd. apply NoDup_cons in Hnd as [Hno _]. set_solver.
Qed.

Lemma once_consume_ok expired x pcs i pc : ok (mkMachine x pcs) -> (4 <= i < 8)%nat -> pcs !! i = Some pc -> (expired = true -> is_late = true) ->
  wp False (consume seed n handle expired pc) (fun pc' x' => ok (mkMachine x' (<[i := pc']> pcs))) e x.
Proof.
  intros (sent&ids&done&HF) Hi Hpc Hex. pose proof HF as [F1 F2 F3 F4 F5 F6 F7 F8]. cbn [shared threads] in *.
  assert (forall x' sent' pc', role_ok x' pcs sent' i pc' = consumer_ok x' pc') as Erole.
  { intros. unfold role_ok. by rewrite (proj2 (Nat.ltb_ge i 4)), (proj2 (Nat.ltb_lt i 8)) by lia. }
  pose proof (F7 i pc Hpc) as Hok. rewrite Erole in Hok. assert (i < 8)%nat as Hi8 by lia.
  destruct (decide (pc = exited)) as [->|Hne]; [apply wp_ret; rewrite list_insert_id by done; by exists sent, ids, done|].
  destruct (once_queue_open _ _ _ _ _ _ _ HF Hi8 Hpc Hne) as [_ Ho].
  assert (forall x' pc', held_id pc' = held_id pc -> counting pc' = counting pc -> start x' = start x -> kernel x' = kernel x -> seen x' = seen x ->
    consumed x' = consumed x -> (failed x = true -> failed x' = true) -> (failed x' = true -> is_late = true) ->
    consumer_ok x' pc' -> ok (mkMachine x' (<[i := pc']> pcs))) as Hstay.
  { intros x' pc' ?????????. eapply (worker_stay x x' pcs sent ids done i pc pc'); try done. by rewrite Erole. }
  destruct (done_bound _ _ _ _ F3 F4) as [Hlen Hmax].
  destruct pc; cbn [consumer_ok consume] in *; try done.
  - apply wp_bind, wp_gets, wp_ret. destruct (start x) eqn:Es; by apply Hstay.
  - apply wp_bind, wp_gets, wp_ret. rewrite once_total_small. destruct (Z.ltb_spec (consumed x) (4 * n)); apply Hstay; try done. right. lia.
  - apply wp_bind, wp_gets, wp_ret. destruct (failed x) eqn:Ef; apply Hstay; rewrite ?Ef; try done. by left.
  - apply wp_bind, wp_zoom. eapply wp_mono; [by apply owned_recv|done|]. intros r s' H. apply wp_ret.
    destruct ids as [|id ids]; cbn [fmap list_fmap] in H; destruct H as [-> Ho']; cbn [fst snd Z.eqb kErrorAgain negb Pos.eqb default].
    + eapply (once_worker_step x _ pcs sent [] done i _ _ sent [] done); try done. by rewrite Erole.
    + unfold Datatypes.id. rewrite once_examine_ok by (apply (issued_range sent); [done|]; rewrite <- F3; left).
      eapply (once_worker_step x _ pcs sent (id :: ids) done i _ _ sent ids done); try done; [|by rewrite Erole].
      intros l <-. cbn [held_id]. solve_Permutation.
  - apply wp_ret. destruct expired; apply Hstay; try done. by apply Hex.
  - destruct (held_fresh _ _ _ _ _ _ _ F3 F4 Hpc) as [Hid Hno].
    apply wp_bind, wp_gets, wp_bind. eapply wp_deref; [rewrite F5; by apply seen_lookup|]. apply wp_bind, wp_modify, wp_ret.
    cbn [Z.eqb negb]. change (u32 (0 + 1)) with 1.
    eapply (once_worker_step x _ pcs sent ids done i _ _ sent ids (id :: done)); try done; cbn.
    + intros l <-. solve_Permutation.
    + by rewrite F5, seen_mark.
    + lia.
    + by rewrite Erole.
  - pose proof (filter_insert_length (fun pc => counting pc = true) pcs i _ exited Hpc) as Hl. rewrite decide_True, decide_False in Hl by done.
    unfold counters in F6. destruct F6 as [Hc0 F6]. unfold is_u32 in Hn. apply wp_bind, wp_modify, wp_ret.
    eapply (once_worker_step x _ pcs sent ids done i _ _ sent ids done); try done; cbn [consumed set_field]; rewrite ?u64_small by (unfold is_u64; lia); cbn; try lia.
    by rewrite Erole.
  - apply wp_bind, wp_modify, wp_ret. apply Hstay; try done. by left.
Qed.
Lemma once_main_step x x' pcs sent ids done pc pc' :
  once_ok sent ids done (mkMachine x pcs) -> pcs !! 8%nat = Some pc ->
  (start x = true -> start x' = true) -> failed x' = failed x -> consumed x' = consumed x -> seen x' = seen x ->
  (if is_returned pc' then room k (kernel x') else owned (k + 1) handle (id_message <$> ids) (kernel x')) ->
  main_ok x' pcs pc' -> ok (mkMachine x' (<[8%nat := pc']> pcs)).
Proof.
  intros [F1 F2 F3 F4 F5 F6 F7 F8] Hpc Hs Ef Ec Es Hq Hok. cbn [shared threads] in *. pose proof (F7 8%nat pc Hpc) as Hold.
  change (main_ok x pcs pc) in Hold. exists sent, ids, done. destruct (held_split pcs 8 pc Hpc) as (l&E1&E2).
  assert (forall y pm, main_ok y pcs pm -> held_id pm = [] /\ counting pm = false /\ pm <> exited) as Hmain by (by intros y []).
  destruct (Hmain _ _ Hold) as (Eh&Et&Hne), (Hmain _ _ Hok) as (Eh'&Et'&_). split; cbn [shared threads]; try done.
  - by rewrite length_insert.
  - intros pm [[_ ->]|[? _]]%insert_cases; done.
  - rewrite E2, Eh', <- Eh, <- E1. done.
  - by rewrite Es.
  - rewrite Ec. destruct F6 as [? F6]. split; [done|]. unfold counters in *.
    pose proof (filter_insert_length (fun pc => counting pc = true) pcs 8 pc pc' Hpc) as Hl. repeat case_decide; try congruence. lia.
  - intros j pj [[-> ->]|[Hj Hpj]]%insert_cases.
    + change (main_ok x' (<[8%nat := pc']> pcs) pc'). pose proof (fun l => once_exited_insert pcs 8 pc pc' l Hpc Hne) as He.
      destruct pc'; cbn [main_ok] in *; try done; [destruct Hok as (?&?&?); auto|destruct Hok; auto|destruct Hok; auto].
    + eapply (role_other x x' pcs sent sent 8 j pc pc' pj); try done; [by apply F7|by rewrite Ef|by rewrite Ec|].
      intros Hret. exfalso. apply lookup_lt_Some in Hpj as Hlt. specialize (F7 j pj Hpj). unfold role_ok in F7.
      destruct (Nat.ltb_spec j 4); [by destruct pj|]. destruct (Nat.ltb_spec j 8); [by destruct pj|]. lia.
  - by rewrite Ef.
Qed.

(** Once [consumed] has reached the total, every number was counted once. *)
Lemma all_seen sent ids done l : ids ++ l ++ done ≡ₚ issued sent -> (forall p, (p < 4)%nat -> 0 <= sent p <= n) ->
  4 * n <= Z.of_nat (length done) -> forallb (fun c => c =? 1) (seen_of done) = true.
Proof.
  intros Hp Hr Hlen. destruct (done_bound _ _ _ _ Hp Hr) as [Hl Hmax].
  destruct ids; [|simpl in Hl; lia]. destruct l; [|simpl in Hl; lia]. simpl in Hp, Hl.
  assert (forall p, (p < 4)%nat -> sent p = n) as Hall.
  { intros p Hp'. apply (full_total n sent p); [|done|lia]. intros q Hq. by apply Hr. }
  apply forallb_forall. intros c Hc. apply list_elem_of_In in Hc. unfold seen_of in Hc. apply list_elem_of_fmap in Hc as (id&->&Hid%elem_of_seqZ).
  rewrite decide_True; [done|]. rewrite Hp. unfold issued. rewrite !elem_of_app, !elem_of_seqZ, !Hall by lia. lia.
Qed.

Lemma finish_ok x pcs pc : ok (mkMachine x pcs) -> pcs !! 8%nat = Some pc ->
  wp False (finish n handle pcs pc) (fun pc' x' => ok (mkMachine x' (<[8%nat := pc']> pcs))) e x.
Proof.
  intros (sent&ids&done&HF) Hpc. pose proof HF as [F1 F2 F3 F4 F5 F6 F7 F8]. cbn [shared threads] in *.
  pose proof (F7 8%nat pc Hpc) as Hok. change (main_ok x pcs pc) in Hok. specialize (F2 pc Hpc).
  destruct pc; cbn [main_ok finish is_returned] in *; try done.
  - apply wp_bind, wp_modify, wp_ret. eapply (once_main_step x _ pcs sent ids done _ _ HF Hpc); try done. split_and!; [done|lia|]. intros p Hp. lia.
  - destruct Hok as (Hs&Hj&Ha). unfold workers, kProducerCount, kConsumerCount. cbn [Nat.add]. destruct (Nat.ltb_spec index 8); apply wp_ret.
    + case_bool_decide as Hx; eapply (once_main_step x _ pcs sent ids done _ _ HF Hpc); try done. split_and!; [done|lia|].
      intros p Hp. destruct (decide (p = index)) as [->|]; [done|]. apply Ha. lia.
    + eapply (once_main_step x _ pcs sent ids done _ _ HF Hpc); try done. assert (index = 8%nat) as -> by lia. done.
  - destruct Hok as (Hs&Ha). apply wp_bind, wp_gets. cbv zeta. apply wp_bind, wp_zoom.
    eapply wp_mono; [by eapply (destroy_owned k)|done|]. intros r s' (->&Hroom&_). apply wp_ret. cbn [andb].
    eapply (once_main_step x _ pcs sent ids done _ _ HF Hpc); try done. split; [|done]. cbn [failed set_field]. unfold Datatypes.id.
    destruct (failed x) eqn:Ef; [by rewrite !andb_false_r|].
    destruct (F7 4%nat exited (Ha 4%nat ltac:(lia))) as [?|Hc]; [congruence|].
    rewrite F5, (all_seen _ _ _ _ F3 F4), once_total_small, (proj2 (Z.eqb_eq _ _) Hc) by lia. done.
  - apply wp_ret. rewrite list_insert_id by done. by exists sent, ids, done.
Qed.

Lemma once_exec_ok expired i x pcs pc : ok (mkMachine x pcs) -> pcs !! i = Some pc -> (expired = true -> is_late = true) ->
  wp False (exec seed n handle expired i pcs pc) (fun pc' x' => ok (mkMachine x' (<[i := pc']> pcs))) e x.
Proof.
  intros Hok Hpc Hx. unfold exec, workers, kProducerCount, kConsumerCount. cbn [Nat.add].
  destruct (Nat.ltb_spec i 4); [by apply once_produce_ok|]. destruct (Nat.ltb_spec i 8); [by apply once_consume_ok|].
  assert (i = 8%nat) as ->; [|by apply finish_ok]. destruct Hok as (sent&ids&done&[F1 _]). cbn in F1. apply lookup_lt_Some in Hpc. lia.
Qed.

Lemma once_launched_ok s : owned (k + 1) handle [] s -> ok (launched seed n s).
Proof.
  intros Ho. exists (fun _ => 0), [], []. unfold is_u32 in Hn. split; cbn [launched threads shared]; try done; try lia.
  - by intros pc [= <-].
  - unfold seen_of, launched. cbn [seen]. rewrite once_total_small. apply list_eq. intros j. rewrite list_lookup_fmap.
    destruct (decide (j < Z.to_nat (4 * n))%nat).
    + rewrite lookup_replicate_2, lookup_seqZ_lt by lia. done.
    + rewrite lookup_seqZ_ge by lia. apply lookup_ge_None. rewrite length_replicate. lia.
  - intros i pc Hpc. do 9 (destruct i as [|i]; [by injection Hpc as <-|]). done.
Qed.
(** *** Completion *)

Definition rank (x : Shared) (pc : Pc) : nat :=
  match pc with
  | spin _ => 2 * Z.to_nat n + 21
  | next s _ => 2 * Z.to_nat (n - s) + 2
  | try_send s _ => 2 * Z.to_nat (n - s) + 1
  | late _ => if consumed x =? 4 * n then 14 else 18
  | head _ => if consumed x =? 4 * n then 13 else 17
  | test _ => 16 | poll _ => 15 | mark _ _ => 10 | tally _ => 9
  | launch => 12 | join j => 10 - j | conclude => 1
  | abort | exited | returned _ => 0
  end.
Definition left_over (x : Shared) : nat := 10 * Z.to_nat (4 * n - consumed x).
Definition measure (m : Machine Shared Pc) : nat :=
  left_over (shared m) + sum_list (imap (fun _ => rank (shared m)) (threads m)).

(** The action brings its thread nearer to its end, or the count to the total. *)
Definition nearer (x : Shared) (pc pc' : Pc) (x' : Shared) : Prop :=
  (left_over x' + rank x' pc' < left_over x + rank x pc)%nat /\ (consumed x = 4 * n -> consumed x' = 4 * n).

Lemma once_move x pcs i pc : pcs !! i = Some pc ->
  wp False (exec seed n handle false i pcs pc) (nearer x pc) e x ->
  exists m', step (exec seed n handle) e is_late (mkMachine x pcs) m' /\ (measure m' < measure (mkMachine x pcs))%nat.
Proof.
  intros Hpc (pc'&x'&E&Hlt&Hc)%wp_done. exists (mkMachine x' (<[i := pc']> pcs)). split.
  - exists false, i. split; [done|]. unfold fire. cbn [threads shared]. by rewrite Hpc, E.
  - unfold measure. cbn [threads shared].
    pose proof (sum_imap_change (fun _ => rank x) (fun _ => rank x') pcs i pc pc' Hpc) as H. cbv beta in H.
    assert (forall q, (rank x' q <= rank x q)%nat) as Hle; [|specialize (H ltac:(auto)); lia].
    intros q. destruct q; cbn [rank]; try lia;
      (destruct (Z.eqb_spec (consumed x) (4 * n)) as [E4|]; [rewrite (proj2 (Z.eqb_eq _ _) (Hc E4)); lia|case_match; lia]).
Qed.

(** Closes [nearer] for an action that leaves [consumed] alone. *)
Ltac nearer := split; [unfold left_over; cbn [consumed set_field rank]; repeat case_match; lia|done].

Lemma once_produce_moves x pcs sent ids done i pc :
  once_ok sent ids done (mkMachine x pcs) -> (i < 4)%nat -> pcs !! i = Some pc -> pc <> exited -> start x = true ->
  (sent i < n -> (length ids < 16)%nat) -> is_late = false ->
  wp False (produce seed n handle false (Z.of_nat i) pc) (nearer x pc) e x.
Proof.
  intros HF Hi Hpc Hne Hst Hroom Hlate. assert (i < 8)%nat as Hi8 by lia. destruct (once_queue_open _ _ _ _ _ _ _ HF Hi8 Hpc Hne) as [_ Ho].
  pose proof (oo_role _ _ _ _ HF i pc Hpc) as Hok. unfold role_ok in Hok. rewrite (proj2 (Nat.ltb_lt i 4) Hi) in Hok.
  pose proof (oo_range _ _ _ _ HF i Hi) as Hr. unfold is_u32 in Hn.
  destruct pc; cbn [produce producer_ok] in *; try done; try congruence.
  - apply wp_bind, wp_gets, wp_ret. rewrite Hst. nearer.
  - destruct (Z.ltb_spec sequence n); cbn [negb]; [apply wp_bind, wp_gets|]; apply wp_ret; [case_match|]; nearer.
  - destruct Hok as [<- Hlt]. specialize (Hroom Hlt). cbv zeta. apply wp_bind, wp_zoom. eapply wp_mono; [by apply owned_send|done|].
    intros r s' H. rewrite length_fmap, bool_decide_true in H by done. destruct H as [-> _]. cbn [Z.eqb]. apply wp_ret.
    rewrite u32_small by (unfold is_u32; lia). nearer.
Qed.

Lemma once_consume_moves x pcs sent ids done i pc :
  once_ok sent ids done (mkMachine x pcs) -> (4 <= i < 8)%nat -> pcs !! i = Some pc -> pc <> exited -> start x = true ->
  (consumed x < 4 * n -> forall r, pc = poll r -> ids <> []) -> is_late = false ->
  wp False (consume seed n handle false pc) (nearer x pc) e x.
Proof.
  intros HF Hi Hpc Hne Hst Hpoll Hlate. assert (i < 8)%nat as Hi8 by lia. destruct (once_queue_open _ _ _ _ _ _ _ HF Hi8 Hpc Hne) as [_ Ho].
  pose proof HF as [F1 F2 F3 F4 F5 [F6 F6'] F7 F8]. cbn [shared threads] in *. destruct (done_bound _ _ _ _ F3 F4) as [Hlen Hmax].
  pose proof (F7 i pc Hpc) as Hok. unfold role_ok in Hok. rewrite (proj2 (Nat.ltb_ge i 4)), (proj2 (Nat.ltb_lt i 8)) in Hok by lia.
  unfold is_u32 in Hn. destruct pc; cbn [consume consumer_ok] in *; try done; try congruence.
  - apply wp_bind, wp_gets, wp_ret. rewrite Hst. nearer.
  - apply wp_bind, wp_gets, wp_ret. rewrite once_total_small. destruct (Z.ltb_spec (consumed x) (4 * n)); nearer.
  - apply wp_bind, wp_gets, wp_ret. case_match; nearer.
  - apply wp_bind, wp_zoom. eapply wp_mono; [by apply owned_recv|done|]. intros r s' H. apply wp_ret.
    destruct ids as [|id ids]; cbn [fmap list_fmap] in H; destruct H as [-> _]; cbn [fst snd Z.eqb kErrorAgain negb Pos.eqb default].
    + split; [|done]. unfold left_over. cbn [consumed set_field rank]. rewrite (proj2 (Z.eqb_eq _ _)); [lia|].
      destruct (decide (consumed x < 4 * n)) as [Hlt|]; [by edestruct (Hpoll Hlt)|lia].
    + unfold Datatypes.id. rewrite once_examine_ok by (apply (issued_range sent); [done|]; rewrite <- F3; left). nearer.
  - apply wp_ret. nearer.
  - destruct (held_fresh _ _ _ _ _ _ _ F3 F4 Hpc) as [Hid Hno]. apply wp_bind, wp_gets, wp_bind.
    eapply wp_deref; [rewrite F5; by apply seen_lookup|]. apply wp_bind, wp_modify, wp_ret. cbn [Z.eqb negb]. nearer.
  - pose proof (filter_insert_length (fun pc => counting pc = true) pcs i _ exited Hpc) as Hl. rewrite decide_True, decide_False in Hl by done.
    unfold counters in F6'. apply wp_bind, wp_modify, wp_ret. unfold nearer, left_over. cbn [consumed set_field rank].
    rewrite u64_small by (unfold is_u64; lia). split; [case_match; lia|lia].
Qed.
Lemma held_thread pcs : held_ids pcs <> [] -> exists i id r, pcs !! i = Some (mark id r).
Proof.
  unfold held_ids. induction pcs as [|pc pcs IH]; [done|]. rewrite bind_cons. intros H.
  destruct (held_id pc) as [|id l] eqn:E; [destruct (IH H) as (i&id&r&Hi); by exists (S i), id, r|].
  destruct pc; try done. by exists 0%nat, id0, random.
Qed.

Lemma counting_thread pcs : (0 < counters pcs)%nat -> exists i r, pcs !! i = Some (tally r).
Proof.
  unfold counters. intros H. destruct (filter (fun pc => counting pc = true) pcs) as [|pc l] eqn:E; [simpl in H; lia|].
  assert (pc ∈ filter (fun pc => counting pc = true) pcs) as [Hc [i Hi]%list_elem_of_lookup]%list_elem_of_filter by (rewrite E; left).
  exists i. destruct pc; try done. by eexists.
Qed.

Section once_progress.
Context (Hlate : is_late = false) (x : Shared) (pcs : list Pc) (sent : nat -> Z) (ids done : list Z).
Context (HF : once_ok sent ids done (mkMachine x pcs)) (Hst : start x = true).
Abbreviation advances := (exists m', step (exec seed n handle) e is_late (mkMachine x pcs) m' /\ (measure m' < measure (mkMachine x pcs))%nat).

Lemma not_failed : failed x = false.
Proof. destruct (failed x) eqn:E; [|done]. pose proof (oo_failed _ _ _ _ HF E). congruence. Qed.

Lemma producer_advances i pc : (i < 4)%nat -> pcs !! i = Some pc -> pc <> exited -> (sent i < n -> (length ids < 16)%nat) -> advances.
Proof.
  intros Hi Hpc Hne Hroom. apply (once_move x pcs i pc Hpc). unfold exec, kProducerCount. rewrite (proj2 (Nat.ltb_lt i 4)) by done.
  by eapply once_produce_moves.
Qed.

Lemma consumer_advances i pc : (4 <= i < 8)%nat -> pcs !! i = Some pc -> pc <> exited ->
  (consumed x < 4 * n -> forall r, pc = poll r -> ids <> []) -> advances.
Proof.
  intros Hi Hpc Hne Hpoll. apply (once_move x pcs i pc Hpc). unfold exec, workers, kProducerCount, kConsumerCount. cbn [Nat.add].
  rewrite (proj2 (Nat.ltb_ge i 4)), (proj2 (Nat.ltb_lt i 8)) by lia. by eapply once_consume_moves.
Qed.

(** Which threads can stand at [mark] or [tally]. *)
Lemma consumer_index i pc : pcs !! i = Some pc -> held_id pc <> [] \/ counting pc = true -> (4 <= i < 8)%nat.
Proof.
  intros Hpc Hp. pose proof (oo_role _ _ _ _ HF i pc Hpc) as Hr. unfold role_ok in Hr.
  destruct (Nat.ltb_spec i 4); [destruct pc; try done; destruct Hp; done|]. destruct (Nat.ltb_spec i 8); [lia|].
  destruct pc; try done; destruct Hp; done.
Qed.

(** All numbers are sent and none waits: they are being counted. *)
Lemma counting_advances : ids = [] -> sum4 sent = 4 * n -> consumed x < 4 * n -> advances.
Proof.
  intros Hnil Hsum Hc. pose proof HF as [F1 F2 F3 F4 F5 [F6 F6'] F7 F8]. cbn [shared threads] in *.
  destruct (done_bound _ _ _ _ F3 F4) as [Hlen _]. rewrite Hnil in Hlen. cbn [length Nat.add] in Hlen.
  destruct (decide (held_ids pcs = [])) as [E|Hh].
  - rewrite E in Hlen. destruct (counting_thread pcs) as (i&r&Hi); [cbn in Hlen; lia|].
    apply (consumer_advances i (tally r)); try done. by eapply consumer_index; [|right].
  - destruct (held_thread pcs Hh) as (i&id&r&Hi). apply (consumer_advances i (mark id r)); try done. by eapply consumer_index; [|left].
Qed.

Lemma worker_advances j pc : (j < 8)%nat -> pcs !! j = Some pc -> pc <> exited -> advances.
Proof.
  intros Hj Hpc Hne. pose proof HF as [F1 F2 F3 F4 F5 [F6 F6'] F7 F8]. cbn [shared threads] in *.
  destruct (done_bound _ _ _ _ F3 F4) as [Hlen Hmax]. destruct (decide (ids = [])) as [Hnil|Hids].
  2: { assert (consumed x < 4 * n) as Hc by (destruct ids; [done|]; cbn in Hlen; lia).
       destruct (lookup_lt_is_Some_2 pcs 4) as [pc4 H4]; [lia|]. apply (consumer_advances 4 pc4); [lia|done| |done].
       intros ->. destruct (F7 4%nat _ H4) as [Hf|]; [rewrite not_failed in Hf; done|lia]. }
  destruct (decide (Forall (fun pc => pc = exited) (take 4 pcs))) as [Hall|Hsome].
  - assert (forall p, (p < 4)%nat -> sent p = n) as Hsent.
    { intros p Hp. destruct (lookup_lt_is_Some_2 pcs p) as [q Hq]; [lia|].
      assert (q = exited) as -> by (apply (Forall_lookup_1 _ _ p q Hall); by rewrite lookup_take_lt).
      pose proof (F7 p _ Hq) as Hr. unfold role_ok in Hr. rewrite (proj2 (Nat.ltb_lt p 4)) in Hr by done.
      destruct Hr as [Hf|]; [rewrite not_failed in Hf; done|done]. }
    destruct (decide (consumed x < 4 * n)) as [Hc|Hc]; [apply counting_advances; [done| |done]; unfold sum4; rewrite !Hsent by lia; lia|].
    apply (consumer_advances j pc); try done. split; [|done]. destruct (decide (j < 4)%nat) as [Hlt|]; [|lia]. exfalso. apply Hne.
    apply (Forall_lookup_1 _ _ j pc Hall). by rewrite lookup_take_lt.
  - apply not_Forall_Exists in Hsome; [|apply _]. apply Exists_exists in Hsome as (q&[p Hp]%list_elem_of_lookup&Hq).
    apply lookup_take_Some in Hp as [Hp Hlt]. apply (producer_advances p q); try done. rewrite Hnil. cbn. lia.
Qed.
End once_progress.

Lemma once_progress m : is_late = false -> ok m -> threads m !! 8%nat <> Some (returned true) ->
  exists m', step (exec seed n handle) e is_late m m' /\ (measure m' < measure m)%nat.
Proof.
  destruct m as [x pcs]. intros Hlate (sent&ids&done&HF) Hend. pose proof HF as [F1 F2 F3 F4 F5 F6 F7 F8]. cbn [shared threads] in *.
  destruct (lookup_lt_is_Some_2 pcs 8) as [pm Hpm]; [lia|]. pose proof (F7 8%nat pm Hpm) as Hok. change (main_ok x pcs pm) in Hok.
  specialize (F2 pm Hpm).
  assert (wp False (finish n handle pcs pm) (nearer x pm) e x ->
    exists m', step (exec seed n handle) e is_late (mkMachine x pcs) m' /\ (measure m' < measure (mkMachine x pcs))%nat) as Hmain
    by (apply (once_move x pcs 8 pm Hpm)).
  destruct pm; cbn [main_ok finish is_returned] in *; try done.
  - apply Hmain. apply wp_bind, wp_modify, wp_ret. nearer.
  - destruct Hok as (Hst&Hj&Ha). unfold workers, kProducerCount, kConsumerCount in Hmain. cbn [Nat.add] in Hmain.
    destruct (Nat.ltb_spec index 8) as [Hlt|]; [|apply Hmain, wp_ret; nearer].
    destruct (lookup_lt_is_Some_2 pcs index) as [q Hq]; [lia|]. destruct (decide (q = exited)) as [->|Hne].
    + apply Hmain, wp_ret. rewrite bool_decide_true by done. nearer.
    + by eapply worker_advances.
  - apply Hmain. apply wp_bind, wp_gets. cbv zeta. apply wp_bind, wp_zoom. eapply wp_mono; [by eapply (destroy_owned k)|done|].
    intros r s' _. apply wp_ret. nearer.
  - destruct Hok as [-> _]. destruct (failed x); [by rewrite F8 in Hlate|by destruct Hend].
Qed.
End proof.

(** ** Properties *)


