(* ===== verification/HostRace.v ===== *)
(** * Hosted IPC torture lane: destruction under load, churn, and the program

    Models [run_destroy_race] of [verification/host/ipc_torture.cpp]: four workers
    send to and receive from an endpoint while the main thread destroys it; every
    call that starts after the destruction must be refused, and a new endpoint must
    be isolated from the old handle.  Threads 0 to 3 are the workers, thread 4 is
    the main thread after the endpoint was created.  [run_generation_churn] is
    proved here too. *)
From Stdlib Require Import ZArith Lia.
From stdpp Require Import base tactics sets functions gmap list relations.
From S2P Require Import Prelude DList KernelTypes KernelInv Demo RunQueue DelayQueue Scheduler Ipc IpcProps HostIpc.
Local Open Scope Z_scope.

(** ** State *)

Record Shared := mkShared { kernel : KState; phase : Z; operations : Z; failed : bool }.
#[export] Instance Shared_eta : Eta Shared := fun x => mkShared (kernel x) (phase x) (operations x) (failed x).

Definition on_kernel {A} : K A -> M Env Shared A := zoom kernel (fun k x => x <| kernel := k |>).

(** A worker contends at [enter] to [count], then checks the dead handle at [drain]
    and [probe].  The main thread waits at [watch], destroys at [close], joins and
    verifies. *)
Inductive Pc :=
  | enter (random : Z) | guard (random : Z) | sample (random : Z) | hit (word random : Z) | count (random : Z)
  | drain (attempt random : Z) | probe (attempt random : Z) | abort | exited
  | watch | recheck | time_out | close | spoil | publish | join (index : nat) | verify | returned (passed : bool).
#[export] Instance Pc_eq_dec : EqDecision Pc.
Proof. solve_decision. Defined.

Section program.
Context (seed stale : Z).

(** ** Threads *)

(** The call of worker [w]: even workers send, odd ones receive. *)
Definition call (w word random : Z) : K Z :=
  if Z.land w 1 =? 0 then send (300 + w) stale [w; word; seed; random]
  else r ← try_recv stale true; mret r.1.

Definition contend (w : Z) (pc : Pc) : M Env Shared Pc :=
  match pc with
  | enter random => p ← gets phase; mret (if p =? 0 then guard random else drain 0 random)
  | guard random =>
      f ← gets failed;
      mret (if f : bool then drain 0 random else if Z.land w 1 =? 0 then sample random else hit 0 random)
  | sample random => ops ← gets operations; mret (hit ops random)
  | hit word random =>
      result ← on_kernel (call w word random);
      mret (if negb (result =? 0) && negb (result =? kErrorAgain) && negb (result =? kErrorInvalidArgument) then abort else count random)
  | count random => modify (fun x => x <| operations := u64 (operations x + 1) |>);; mret (enter (perturb random))
  | drain attempt random =>
      if negb (attempt <? 1000) then mret exited
      else f ← gets failed; mret (if f : bool then exited else probe attempt random)
  | probe attempt random =>
      result ← on_kernel (call w attempt random);
      mret (if negb (result =? kErrorInvalidArgument) then abort else drain (u32 (attempt + 1)) (perturb random))
  | abort => modify (fun x => x <| failed := true |>);; mret exited
  | _ => mret pc
  end.

(** The end of the test, when no other thread runs. *)
Definition isolation : K bool :=
  created ← host_create;
  match created with
  | None => mret false
  | Some live =>
      let payload := [0xDEAD; 0xBEEF; seed; live] in
      isolated ←
        (if live =? stale then mret false
         else
           r1 ← send 999 stale payload;
           if negb (r1 =? kErrorInvalidArgument) then mret false
           else
             r2 ← try_recv stale true;
             if negb (r2.1 =? kErrorInvalidArgument) then mret false
             else
               r3 ← send 999 live payload;
               if negb (r3 =? 0) then mret false
               else
                 r4 ← try_recv live true;
                 if negb (r4.1 =? 0) then mret false
                 else
                   let message := default zero_message r4.2 in
                   mret ((sender message =? 999) && (nth 0 (words message) 0 =? 0xDEAD)));
      ok ← host_destroy live;
      mret (ok && isolated)
  end.

Definition supervise (expired : bool) (pcs : list Pc) (pc : Pc) : M Env Shared Pc :=
  match pc with
  | watch => ops ← gets operations; mret (if (ops <? 4000) && negb expired then watch else recheck)
  | recheck => ops ← gets operations; mret (if ops <? 4000 then time_out else close)
  | time_out => modify (fun x => x <| failed := true |>);; mret close
  | close => ok ← on_kernel (host_destroy stale); mret (if negb ok then spoil else publish)
  | spoil => modify (fun x => x <| failed := true |>);; mret publish
  | publish => modify (fun x => x <| phase := 1 |>);; mret (join 0)
  | join index =>
      if (index <? 4)%nat then mret (if bool_decide (pcs !! index = Some exited) then join (S index) else join index)
      else mret verify
  | verify =>
      f ← gets failed;
      if f : bool then mret (returned false) else b ← on_kernel isolation; mret (returned b)
  | _ => mret pc
  end.

Definition exec (expired : bool) (i : nat) (pcs : list Pc) (pc : Pc) : M Env Shared Pc :=
  if (i <? 4)%nat then contend (Z.of_nat i) pc else supervise expired pcs pc.

(** The threads as the main thread has created them. *)
Definition worker_start (worker : nat) : Pc :=
  enter (Z.lxor seed (u64 (0x8EBC6AF09C88C6E3 * (Z.of_nat worker + 1)))).
Definition launched (k : KState) : Machine Shared Pc :=
  mkMachine (mkShared k 0 0 false) (map worker_start (seq 0 4) ++ [watch]).
End program.

(** [run_destroy_race]: the endpoint is created, then the threads run. *)
Definition run_destroy_race (seed : Z) : K (option (Z * Machine Shared Pc)) :=
  created ← host_create;
  match created with
  | None => mret None
  | Some stale => k ← gets id; mret (Some (stale, launched seed k))
  end.

(** The runs considered: the 64-bit [operations] counter does not wrap between the
    main thread's two reads of it. *)
Definition sane_step (seed stale : Z) (e : Env) (late : bool) (m m' : Machine Shared Pc) : Prop :=
  step (exec seed stale) e late m m' /\ (threads m !! 4%nat = Some recheck -> operations (shared m) <= operations (shared m')).

(** ** What the threads keep *)

Section proof.
Context (seed stale k : Z) (is_late : bool) (e : Env).
Context (Hk : 0 <= k).

(** Where the main thread has destroyed the endpoint, and where it has said so. *)
Definition destroyed (pm : Pc) : bool := match pm with publish | join _ | verify | returned _ => true | _ => false end.
Definition announced (pm : Pc) : bool := match pm with join _ | verify | returned _ => true | _ => false end.
Definition is_returned (pm : Pc) : bool := match pm with returned _ => true | _ => false end.

Definition endpoint_ok (pm : Pc) (s : KState) : Prop :=
  if is_returned pm then room k s
  else if destroyed pm then dead stale s /\ room (k + 2) s else exists q, owned (k + 3) stale q s.

Definition all_exited (pcs : list Pc) (j : nat) : Prop := forall p, (p < j)%nat -> pcs !! p = Some exited.

Definition main_ok (x : Shared) (pcs : list Pc) (pc : Pc) : Prop :=
  match pc with
  | watch | close | publish => True
  | recheck => is_late = true \/ 4000 <= operations x
  | time_out => is_late = true
  | join j => (j <= 4)%nat /\ all_exited pcs j
  | verify => all_exited pcs 4
  | returned passed => passed = negb (failed x) /\ all_exited pcs 4
  | _ => False
  end.

Definition worker_ok (x : Shared) (pc : Pc) : Prop :=
  match pc with
  | enter _ | guard _ | sample _ | hit _ _ | count _ => True
  | drain a _ => 0 <= a <= 1000 /\ (phase x = 1 \/ failed x = true)
  | probe a _ => 0 <= a < 1000 /\ phase x = 1
  | exited => phase x = 1 \/ failed x = true
  | _ => False
  end.

Record race_ok (m : Machine Shared Pc) : Prop := {
  ro_threads : length (threads m) = 5%nat;
  ro_worker : forall i pc, (i < 4)%nat -> threads m !! i = Some pc -> worker_ok (shared m) pc;
  ro_main : forall pm, threads m !! 4%nat = Some pm ->
    main_ok (shared m) (threads m) pm /\ endpoint_ok pm (kernel (shared m)) /\ phase (shared m) = if announced pm then 1 else 0;
  ro_failed : failed (shared m) = true -> is_late = true;
}.

Lemma race_exited_insert pcs p pc pc' j : pcs !! p = Some pc -> pc <> exited -> all_exited pcs j -> all_exited (<[p := pc']> pcs) j.
Proof.
  intros Hp Hne H q Hq. rewrite list_lookup_insert_ne; [by apply H|]. intros ->. rewrite (H q Hq) in Hp. congruence.
Qed.

Lemma race_worker_step x x' pcs i pc pc' pm :
  race_ok (mkMachine x pcs) -> (i < 4)%nat -> pcs !! i = Some pc -> pc <> exited -> pcs !! 4%nat = Some pm ->
  phase x' = phase x -> failed x' = failed x -> (pm = recheck -> operations x <= operations x') ->
  endpoint_ok pm (kernel x') -> worker_ok x' pc' -> race_ok (mkMachine x' (<[i := pc']> pcs)).
Proof.
  intros [F1 F2 F3 F4] Hi Hpc Hne Hpm Ep Ef Hops Hep Hok. cbn [shared threads] in *. split; cbn [shared threads].
  - by rewrite length_insert.
  - intros j pj Hj [[-> ->]|[Hji Hpj]]%insert_cases; [done|]. specialize (F2 j pj Hj Hpj). unfold worker_ok. by rewrite Ep, Ef.
  - intros q Hq. rewrite list_lookup_insert_ne in Hq by lia. rewrite Hpm in Hq. injection Hq as <-. rewrite Ep.
    destruct (F3 pm Hpm) as (Hm&_&Hph). split_and!; [|done|done].
    pose proof (fun l => race_exited_insert pcs i pc pc' l Hpc Hne) as He. unfold main_ok. rewrite Ef.
    destruct pm; cbn [main_ok] in *; try done; [|destruct Hm; auto|auto|destruct Hm; auto].
    specialize (Hops eq_refl). destruct Hm; [by left|right; lia].
  - by rewrite Ef.
Qed.

Lemma race_main_step x x' pcs pm pm' :
  race_ok (mkMachine x pcs) -> pcs !! 4%nat = Some pm -> (phase x = 1 -> phase x' = 1) -> (failed x = true -> failed x' = true) ->
  (failed x' = true -> is_late = true) -> main_ok x' pcs pm' -> endpoint_ok pm' (kernel x') ->
  phase x' = (if announced pm' then 1 else 0) -> race_ok (mkMachine x' (<[4%nat := pm']> pcs)).
Proof.
  intros [F1 F2 F3 F4] Hpm Hp Hf Hf' Hm Hep Hph. cbn [shared threads] in *. split; cbn [shared threads]; [by rewrite length_insert| | |done].
  - intros j pj Hj [[-> _]|[Hji Hpj]]%insert_cases; [lia|]. specialize (F2 j pj Hj Hpj). destruct pj; cbn [worker_ok] in *; tauto.
  - intros q [[_ ->]|[? _]]%insert_cases; [|done]. split_and!; [|done|done].
    assert (pm <> exited) as Hne by (intros ->; by destruct (F3 _ Hpm)).
    pose proof (fun l => race_exited_insert pcs 4 pm pm' l Hpm Hne) as He.
    destruct pm'; cbn [main_ok] in *; try done; [destruct Hm; auto|auto|destruct Hm; auto].
Qed.

(** *** Calls *)

(** A worker's call is refused with [EAGAIN] or [EINVAL] or accepted; once the
    endpoint is destroyed, it is refused with [EINVAL]. *)
Lemma call_ok w word random pm s : endpoint_ok pm s -> is_returned pm = false ->
  wp False (call seed stale w word random) (fun r s' => endpoint_ok pm s' /\
    (r = 0 \/ r = kErrorAgain \/ r = kErrorInvalidArgument) /\ (destroyed pm = true -> r = kErrorInvalidArgument)) e s.
Proof.
  intros Hep Hr. unfold endpoint_ok in *. rewrite Hr in *. unfold call. destruct (destroyed pm).
  - destruct Hep as [Hd Hroom]. assert (forall s' C', endpoints s' = endpoints s -> healthy s' C' -> dead stale s' /\ room (k + 2) s') as Hsame
      by (intros s' C' He Hh; split; [by eapply dead_same|by eapply room_same]).
    destruct (_ =? 0).
    + eapply wp_mono; [by apply dead_send|done|]. intros r s' (->&He&C'&Hh). split; [by apply (Hsame s' C')|auto].
    + apply wp_bind. eapply wp_mono; [by apply dead_recv|done|]. intros r s' (->&He&C'&Hh). apply wp_ret. split; [by apply (Hsame s' C')|auto].
  - destruct Hep as [q Ho]. destruct (_ =? 0).
    + eapply wp_mono; [by apply owned_send|done|]. intros r s' H. case_bool_decide; destruct H as [-> ?]; (split_and!; [by eexists|auto|done]).
    + apply wp_bind. eapply wp_mono; [by apply owned_recv|done|]. intros r s' H. apply wp_ret.
      destruct q; destruct H as [-> ?]; (split_and!; [by eexists|auto|done]).
Qed.

Lemma isolation_ok s : dead stale s -> room (k + 2) s -> wp False (isolation seed stale) (fun r s' => r = true /\ room k s') e s.
Proof.
  intros Hd Hroom. unfold isolation. replace (k + 2) with (k + 1 + 1) in Hroom by lia.
  apply wp_bind. eapply wp_mono; [apply create_owned; [exact Hroom|lia]|done|]. intros r s1 (live&->&Ho&Hag). cbv zeta.
  destruct (owned_healthy _ _ _ _ Ho) as [C1 Hh1]. pose proof (dead_ages _ _ _ _ Hd Hag Hh1) as Hd1.
  assert (live <> stale) as Hne.
  { intros ->. destruct Ho as (C&p&(HI&_)&_&Hp&Hl&_). destruct Hd1 as (C'&p'&_&_&Hp'&Hg). rewrite Hp in Hp'. injection Hp' as <-.
    destruct (inv_ep _ _ HI _ p Hp) as (a&_&Hok). rewrite (gone_dead _ _ _ _ Hok Hg) in Hl. done. }
  apply wp_bind. rewrite (proj2 (Z.eqb_neq _ _) Hne). apply wp_bind. eapply wp_mono; [by apply dead_send|done|].
  intros r s2 (->&He2&C2&Hh2). cbn [negb Z.eqb kErrorInvalidArgument Pos.eqb]. pose proof (dead_same _ _ _ _ Hd1 He2 Hh2) as Hd2.
  apply wp_bind. eapply wp_mono; [by apply dead_recv|done|]. intros r s3 (->&He3&C3&Hh3). cbn [fst negb Z.eqb kErrorInvalidArgument Pos.eqb].
  assert (owned (k + 1) live [] s3) as Ho3 by (eapply owned_same; [|exact He3|exact Hh3]; by eapply owned_same).
  apply wp_bind. eapply wp_mono; [by apply owned_send|done|]. intros r s4 H4. cbn in H4. destruct H4 as [-> Ho4]. cbn [negb Z.eqb].
  apply wp_bind. eapply wp_mono; [by apply owned_recv|done|]. intros r s5 [-> Ho5]. cbn [fst snd negb Z.eqb default]. apply wp_ret.
  apply wp_bind. eapply wp_mono; [by apply (destroy_owned _ _ _ _ _ Ho5)|done|]. intros r s6 (->&Hr6&_). by apply wp_ret.
Qed.
(** *** Actions *)

Lemma running_worker x pcs i pc : race_ok (mkMachine x pcs) -> (i < 4)%nat -> pcs !! i = Some pc -> pc <> exited ->
  exists pm, pcs !! 4%nat = Some pm /\ main_ok x pcs pm /\ endpoint_ok pm (kernel x) /\ phase x = (if announced pm then 1 else 0) /\
    is_returned pm = false.
Proof.
  intros [F1 _ F3 _] Hi Hpc Hne. cbn [shared threads] in *. destruct (lookup_lt_is_Some_2 pcs 4) as [pm Hpm]; [lia|].
  destruct (F3 pm Hpm) as (Hm&He&Hp). exists pm. split_and!; try done. destruct pm; try done. destruct Hm as [_ Ha].
  rewrite (Ha i Hi) in Hpc. congruence.
Qed.

Lemma contend_ok x pcs i pc : race_ok (mkMachine x pcs) -> (i < 4)%nat -> pcs !! i = Some pc ->
  wp False (contend seed stale (Z.of_nat i) pc) (fun pc' x' =>
    (pcs !! 4%nat = Some recheck -> operations x <= operations x') -> race_ok (mkMachine x' (<[i := pc']> pcs))) e x.
Proof.
  intros HF Hi Hpc. pose proof (ro_worker _ HF i pc Hi Hpc) as Hok. cbn [shared] in Hok.
  destruct (decide (pc = exited)) as [->|Hne]; [apply wp_ret; intros _; by rewrite list_insert_id|].
  destruct (running_worker _ _ _ _ HF Hi Hpc Hne) as (pm&Hpm&Hm&Hep&Hph&Hret).
  assert (forall x' pc', phase x' = phase x -> failed x' = failed x -> endpoint_ok pm (kernel x') -> worker_ok x' pc' ->
    (pcs !! 4%nat = Some recheck -> operations x <= operations x') -> race_ok (mkMachine x' (<[i := pc']> pcs))) as Hstep.
  { intros x' pc' ???? Hops. eapply (race_worker_step x x' pcs i pc pc' pm); try done. intros ->. by apply Hops. }
  destruct pc; cbn [contend worker_ok] in *; try done.
  - apply wp_bind, wp_gets, wp_ret. apply Hstep; try done. destruct (Z.eqb_spec (phase x) 0); [done|]. split; [lia|left].
    destruct (announced pm); congruence.
  - apply wp_bind, wp_gets, wp_ret. apply Hstep; try done. destruct (failed x) eqn:Ef; [split; [lia|by right]|by destruct (Z.land _ _ =? 0)].
  - apply wp_bind, wp_gets, wp_ret. by apply Hstep.
  - apply wp_bind, wp_zoom. eapply wp_mono; [by apply (call_ok _ _ _ pm)|done|]. intros r s' (Hep'&Hr&_). apply wp_ret. apply Hstep; try done.
    by destruct Hr as [->|[->| ->]].
  - apply wp_bind, wp_modify, wp_ret. by apply Hstep.
  - destruct (Z.ltb_spec attempt 1000); cbn [negb]; [apply wp_bind, wp_gets|]; apply wp_ret, Hstep; try done; [|apply Hok].
    destruct (failed x) eqn:Ef; [by right|]. split; [lia|]. destruct Hok as [_ [?|?]]; [done|congruence].
  - destruct Hok as [Ha Hp]. assert (destroyed pm = true) as Hd by (rewrite Hp in Hph; by destruct pm).
    apply wp_bind, wp_zoom. eapply wp_mono; [by apply (call_ok _ _ _ pm)|done|]. intros r s' (Hep'&_&Hr). rewrite (Hr Hd). apply wp_ret.
    cbn [negb Z.eqb kErrorInvalidArgument Pos.eqb]. apply Hstep; try done. rewrite u32_small by (unfold is_u32; lia). split; [lia|by left].
Qed.

Lemma supervise_ok expired x pcs pm : race_ok (mkMachine x pcs) -> pcs !! 4%nat = Some pm -> (expired = true -> is_late = true) ->
  wp False (supervise seed stale expired pcs pm) (fun pm' x' =>
    operations x' = operations x /\ race_ok (mkMachine x' (<[4%nat := pm']> pcs))) e x.
Proof.
  intros HF Hpm Hx. destruct (ro_main _ HF pm Hpm) as (Hm&Hep&Hph). pose proof (ro_failed _ HF) as Hfl. cbn [shared threads] in *.
  pose proof (fun x' pm' => race_main_step x x' pcs pm pm' HF Hpm) as Hstep.
  destruct pm; cbn [supervise main_ok announced] in *; try done.
  - apply wp_bind, wp_gets, wp_ret. split; [done|]. apply Hstep; try done; destruct (Z.ltb_spec (operations x) 4000), expired; try done; cbn; auto.
  - apply wp_bind, wp_gets, wp_ret. split; [done|]. destruct (Z.ltb_spec (operations x) 4000); apply Hstep; try done. destruct Hm; [done|lia].
  - apply wp_bind, wp_modify, wp_ret. split; [done|]. by apply Hstep.
  - destruct Hep as [q Ho]. replace (k + 3) with (k + 2 + 1) in Ho by lia. apply wp_bind, wp_zoom.
    eapply wp_mono; [by apply (destroy_owned _ _ _ _ _ Ho); lia|done|]. intros r s' (->&Hroom&Hd&_). apply wp_ret. split; [done|]. by apply Hstep.
  - apply wp_bind, wp_modify, wp_ret. split; [done|]. apply Hstep; try done. split; [lia|]. intros p Hp. lia.
  - destruct Hm as [Hj Ha]. destruct (Nat.ltb_spec index 4); apply wp_ret; (split; [done|]).
    + case_bool_decide as Hb; apply Hstep; try done. split; [lia|]. intros p Hp. destruct (decide (p = index)) as [->|]; [done|]. apply Ha. lia.
    + apply Hstep; try done. assert (index = 4%nat) as -> by lia. done.
  - apply wp_bind, wp_gets. destruct Hep as [Hd Hroom]. destruct (failed x) eqn:Ef.
    + apply wp_ret. split; [done|]. apply Hstep; rewrite ?Ef; try done; [split; [by rewrite Ef|done]|]. eapply room_weaken; [exact Hroom|lia].
    + apply wp_bind, wp_zoom. eapply wp_mono; [by apply isolation_ok|done|]. intros r s' [-> Hr]. apply wp_ret. split; [done|].
      apply Hstep; try done; cbn; rewrite ?Ef; done.
  - apply wp_ret. split; [done|]. by rewrite list_insert_id.
Qed.

Lemma sane_keeps m m' : sane_step seed stale e is_late m m' -> race_ok m -> race_ok m'.
Proof.
  intros [(x&i&Hx&Hf) Hsane] HF. destruct m as [y pcs]. unfold fire in Hf. cbn [threads shared] in *.
  destruct (pcs !! i) as [pc|] eqn:Hpc; [|done]. unfold exec in Hf. destruct (Nat.ltb_spec i 4) as [Hi|Hi].
  - pose proof (contend_ok y pcs i pc HF Hi Hpc) as H. unfold wp in H. destruct (contend seed stale (Z.of_nat i) pc e y); try done.
    injection Hf as <-. by apply H.
  - assert (i = 4%nat) as -> by (apply lookup_lt_Some in Hpc; pose proof (ro_threads _ HF) as Hl; cbn in Hl; lia).
    pose proof (supervise_ok x y pcs pc HF Hpc Hx) as H. unfold wp in H. destruct (supervise seed stale x pcs pc e y); try done.
    injection Hf as <-. apply H.
Qed.

Lemma never_stuck expired i m pc : race_ok m -> threads m !! i = Some pc -> (expired = true -> is_late = true) ->
  is_Some (fire (exec seed stale) e expired i m).
Proof.
  destruct m as [x pcs]. cbn [threads]. intros HF Hpc Hx. unfold fire, exec. cbn [threads shared]. rewrite Hpc.
  destruct (Nat.ltb_spec i 4) as [Hi|Hi].
  - destruct (wp_done _ _ _ _ (contend_ok x pcs i pc HF Hi Hpc)) as (?&?&->&_). done.
  - assert (i = 4%nat) as -> by (apply lookup_lt_Some in Hpc; pose proof (ro_threads _ HF) as Hl; cbn in Hl; lia).
    destruct (wp_done _ _ _ _ (supervise_ok expired x pcs pc HF Hpc Hx)) as (?&?&->&_). done.
Qed.

Lemma race_launched_ok s : owned (k + 3) stale [] s -> race_ok (launched seed s).
Proof.
  intros Ho. split; cbn; try done.
  - intros i pc Hi Hpc. do 4 (destruct i as [|i]; [by injection Hpc as <-|]). lia.
  - intros pm [= <-]. split_and!; try done. by exists [].
Qed.
(** *** Completion *)

(** Rounds of contention cost more before the destruction is announced. *)
Definition rank (x : Shared) (pc : Pc) : nat :=
  let after := phase x =? 1 in
  match pc with
  | enter _ => if after then 2003 else 2020
  | guard _ => if after then 2007 else 2019
  | sample _ => if after then 2006 else 2018
  | hit _ _ => if after then 2005 else 2017
  | count _ => if after then 2004 else 2016
  | drain a _ => 2 * Z.to_nat (1000 - a) + 2
  | probe a _ => 2 * Z.to_nat (1000 - a) + 1
  | watch => 19 | recheck => 18 | time_out => 17 | close => 16 | publish => 15
  | join j => 10 - j | verify => 2
  | abort | exited | spoil | returned _ => 0
  end.
Definition left_over (x : Shared) : nat := if phase x =? 1 then 0 else 10 * Z.to_nat (4000 - operations x).
Definition measure (m : Machine Shared Pc) : nat :=
  left_over (shared m) + sum_list (imap (fun _ => rank (shared m)) (threads m)).

Definition nearer (x : Shared) (pcs : list Pc) (pc pc' : Pc) (x' : Shared) : Prop :=
  (left_over x' + rank x' pc' < left_over x + rank x pc)%nat /\ (phase x = 1 -> phase x' = 1) /\
  (pcs !! 4%nat = Some recheck -> operations x <= operations x').

Lemma race_move x pcs i pc : race_ok (mkMachine x pcs) -> pcs !! i = Some pc ->
  wp False (exec seed stale false i pcs pc) (nearer x pcs pc) e x ->
  exists m', sane_step seed stale e is_late (mkMachine x pcs) m' /\ race_ok m' /\ (measure m' < measure (mkMachine x pcs))%nat.
Proof.
  intros HF Hpc (pc'&x'&E&Hlt&Hp&Hops)%wp_done.
  assert (sane_step seed stale e is_late (mkMachine x pcs) (mkMachine x' (<[i := pc']> pcs))) as Hs.
  { split; [|done]. exists false, i. split; [done|]. unfold fire. cbn [threads shared]. by rewrite Hpc, E. }
  exists (mkMachine x' (<[i := pc']> pcs)). split_and!; [done|by eapply sane_keeps|]. unfold measure. cbn [threads shared].
  pose proof (sum_imap_change (fun _ => rank x) (fun _ => rank x') pcs i pc pc' Hpc) as H. cbv beta in H.
  assert (forall q, (rank x' q <= rank x q)%nat) as Hle; [|specialize (H ltac:(auto)); lia].
  intros q. destruct q; cbn [rank]; try lia;
    (destruct (Z.eqb_spec (phase x) 1) as [E1|]; [rewrite (proj2 (Z.eqb_eq _ _) (Hp E1)); lia|case_match; lia]).
Qed.

(** Closes [nearer] for an action that leaves phase and counter alone. *)
Ltac nearer := split_and!; [unfold left_over; cbn [phase operations set_field rank]; repeat case_match; lia|done|done].

Lemma contend_moves x pcs i pc : race_ok (mkMachine x pcs) -> (i < 4)%nat -> pcs !! i = Some pc -> pc <> exited -> failed x = false ->
  pcs !! 4%nat <> Some recheck -> phase x = 1 \/ operations x < 4000 ->
  wp False (contend seed stale (Z.of_nat i) pc) (nearer x pcs pc) e x.
Proof.
  intros HF Hi Hpc Hne Hf Hrc Hops. pose proof (ro_worker _ HF i pc Hi Hpc) as Hok. cbn [shared] in Hok.
  destruct (running_worker _ _ _ _ HF Hi Hpc Hne) as (pm&Hpm&Hm&Hep&Hph&Hret).
  destruct pc; cbn [contend worker_ok] in *; try done.
  - apply wp_bind, wp_gets, wp_ret. destruct (Z.eqb_spec (phase x) 0) as [E|E]; [split_and!; [|done|done]|].
    + unfold left_over. cbn [rank]. rewrite E. cbn. lia.
    + assert (phase x = 1) as E1 by (destruct (announced pm); congruence). split_and!; [|done|done]. unfold left_over. cbn [rank]. rewrite E1. cbn. lia.
  - apply wp_bind, wp_gets, wp_ret. rewrite Hf. destruct (Z.land _ _ =? 0); nearer.
  - apply wp_bind, wp_gets, wp_ret. nearer.
  - apply wp_bind, wp_zoom. eapply wp_mono; [by apply (call_ok _ _ _ pm)|done|]. intros r s' (_&Hr&_). apply wp_ret.
    destruct Hr as [->|[->| ->]]; cbn [negb andb Z.eqb kErrorAgain kErrorInvalidArgument Pos.eqb]; nearer.
  - apply wp_bind, wp_modify, wp_ret. split_and!; [|done|done]. unfold left_over. cbn [phase operations set_field rank].
    destruct (Z.eqb_spec (phase x) 1); [lia|]. destruct Hops as [?|Hops]; [done|].
    assert (operations x + 1 <= u64 (operations x + 1)) by (unfold u64; word_lia). lia.
  - destruct (Z.ltb_spec attempt 1000); cbn [negb]; [apply wp_bind, wp_gets|]; apply wp_ret; rewrite ?Hf; nearer.
  - destruct Hok as [Ha Hp]. assert (destroyed pm = true) as Hd by (rewrite Hp in Hph; by destruct pm).
    apply wp_bind, wp_zoom. eapply wp_mono; [by apply (call_ok _ _ _ pm)|done|]. intros r s' (_&_&Hr). rewrite (Hr Hd). apply wp_ret.
    cbn [negb Z.eqb kErrorInvalidArgument Pos.eqb]. rewrite u32_small by (unfold is_u32; lia). nearer.
Qed.

Lemma race_progress m : is_late = false -> race_ok m -> threads m !! 4%nat <> Some (returned true) ->
  exists m', sane_step seed stale e is_late m m' /\ race_ok m' /\ (measure m' < measure m)%nat.
Proof.
  destruct m as [x pcs]. intros Hlate HF Hend. pose proof HF as [F1 F2 F3 F4]. cbn [shared threads] in *.
  assert (failed x = false) as Hf by (destruct (failed x); [by rewrite F4 in Hlate|done]).
  destruct (lookup_lt_is_Some_2 pcs 4) as [pm Hpm]; [lia|]. destruct (F3 pm Hpm) as (Hm&Hep&Hph).
  assert (wp False (supervise seed stale false pcs pm) (nearer x pcs pm) e x -> exists m', sane_step seed stale e is_late (mkMachine x pcs) m' /\
    race_ok m' /\ (measure m' < measure (mkMachine x pcs))%nat) as Hmain by (apply (race_move x pcs 4 pm HF Hpm)).
  assert (forall i pc, (i < 4)%nat -> pcs !! i = Some pc -> pc <> exited -> pm <> recheck -> phase x = 1 \/ operations x < 4000 ->
    exists m', sane_step seed stale e is_late (mkMachine x pcs) m' /\ race_ok m' /\ (measure m' < measure (mkMachine x pcs))%nat) as Hwork.
  { intros i pc Hi Hpc Hne Hrc Hops. apply (race_move x pcs i pc HF Hpc). unfold exec. rewrite (proj2 (Nat.ltb_lt i 4)) by done.
    apply contend_moves; try done. congruence. }
  destruct pm; cbn [main_ok supervise announced] in *; try done.
  - destruct (Z.ltb_spec (operations x) 4000) as [Hlt|]; [|apply Hmain; apply wp_bind, wp_gets, wp_ret; rewrite (proj2 (Z.ltb_ge _ _)) by done; cbn [andb]; nearer].
    destruct (lookup_lt_is_Some_2 pcs 0) as [pc Hpc]; [lia|]. apply (Hwork 0%nat pc); try done; [lia| |by right].
    intros ->. destruct (F2 0%nat _ ltac:(lia) Hpc); congruence.
  - destruct Hm as [?|Hm]; [congruence|]. apply Hmain. apply wp_bind, wp_gets, wp_ret. rewrite (proj2 (Z.ltb_ge _ _)) by done.
    split_and!; [unfold left_over; cbn [rank]; lia|done|done].
  - apply Hmain. apply wp_bind, wp_modify, wp_ret. nearer.
  - apply Hmain. destruct Hep as [q Ho]. replace (k + 3) with (k + 2 + 1) in Ho by lia. apply wp_bind, wp_zoom.
    eapply wp_mono; [by apply (destroy_owned _ _ _ _ _ Ho); lia|done|]. intros r s' (->&_). apply wp_ret. cbn [negb]. nearer.
  - apply Hmain. apply wp_bind, wp_modify, wp_ret. split_and!; [|done|done]. unfold left_over. cbn [phase set_field rank Z.eqb Pos.eqb]. lia.
  - destruct Hm as [Hj Ha]. destruct (Nat.ltb_spec index 4) as [Hlt|]; [|apply Hmain, wp_ret; nearer].
    destruct (lookup_lt_is_Some_2 pcs index) as [q Hq]; [lia|]. destruct (decide (q = exited)) as [->|Hne].
    + apply Hmain, wp_ret. rewrite bool_decide_true by done. nearer.
    + apply (Hwork index q); try done. by left.
  - apply Hmain. apply wp_bind, wp_gets. rewrite Hf. destruct Hep as [Hd Hroom]. apply wp_bind, wp_zoom.
    eapply wp_mono; [by apply isolation_ok|done|]. intros r s' _. apply wp_ret. nearer.
  - destruct Hm as [-> _]. rewrite Hf in Hpm. by destruct Hend.
Qed.
End proof.

(** ** Properties *)

(** C24: The destruction test fails only by its deadline.  It creates its
    endpoint; then, whatever order the five threads act in (while the 64-bit counter
    does not wrap between two reads), no thread is ever stuck and only the deadline can set [failed]: while the
    endpoint is open every call succeeds or is refused with a listed error, and every
    call that starts after the destruction was announced is refused with [EINVAL].
    When the main thread returns, its result is [true] unless the deadline passed:
    the new endpoint is isolated from the old handle, and is released.  As long as the
    deadline has not passed, from every state on the way the test can still return
    [true]. *)
Theorem destroy_race_passes seed k is_late e s :
  0 <= k -> room (k + 4) s ->
  exists stale m s1, run_destroy_race seed e s = Done (Some (stale, m)) s1 /\
    forall m', rtc (sane_step seed stale e is_late) m m' ->
    (forall expired i, (i < 5)%nat -> (expired = true -> is_late = true) -> is_Some (fire (exec seed stale) e expired i m')) /\
    (failed (shared m') = true -> is_late = true) /\ abort ∉ threads m' /\ spoil ∉ threads m' /\
    (phase (shared m') = 1 -> (forall b, threads m' !! 4%nat <> Some (returned b)) -> forall w word random,
       exists s', call seed stale w word random e (kernel (shared m')) = Done kErrorInvalidArgument s') /\
    (forall b, threads m' !! 4%nat = Some (returned b) -> b = negb (failed (shared m')) /\ room k (kernel (shared m'))) /\
    (is_late = false -> exists m'', rtc (sane_step seed stale e is_late) m' m'' /\ threads m'' !! 4%nat = Some (returned true)).
Proof.
  intros Hk Hr. replace (k + 4) with (k + 3 + 1) in Hr by lia.
  destruct (wp_done _ _ e s (create_owned (k + 3) e s Hr ltac:(lia))) as (r&s1&Hc&stale&->&Ho&_).
  exists stale, (launched seed s1), s1. split; [unfold run_destroy_race, mbind, M_bind; by rewrite Hc|].
  intros m' Hrun. assert (race_ok stale k is_late m') as HF.
  { pose proof (race_launched_ok seed stale k is_late s1 Ho) as H0. induction Hrun as [|m1 m2 m3 Hs _ IH]; [done|].
    apply IH. by eapply sane_keeps. }
  pose proof HF as [F1 F2 F3 F4]. destruct (lookup_lt_is_Some_2 (threads m') 4) as [pm Hpm]; [lia|].
  assert (forall q, (forall y, ~ worker_ok y q) -> (forall y pcs, ~ main_ok is_late y pcs q) -> q ∉ threads m') as Hnever.
  { intros q H1 H2 [i Hi]%list_elem_of_lookup. pose proof (lookup_lt_Some _ _ _ Hi).
    destruct (decide (i < 4)%nat) as [Hlt|]; [by apply (H1 (shared m')), (F2 i q)|].
    assert (i = 4%nat) as -> by lia. destruct (F3 q Hi) as [Hm _]. by apply H2 in Hm. }
  split_and!; [|done|apply Hnever; intros; by intros []|apply Hnever; intros; by intros []| | |].
  - intros x i Hi Hx. destruct (lookup_lt_is_Some_2 (threads m') i) as [pc Hpc]; [lia|]. by eapply never_stuck.
  - intros Hp Hne w word random. destruct (F3 pm Hpm) as (Hm&Hep&Hph). rewrite Hp in Hph.
    assert (destroyed pm = true /\ is_returned pm = false) as [Hd Hret] by (destruct pm; try done; by destruct (Hne passed)).
    destruct (wp_done _ _ e _ (call_ok seed stale k e w word random pm _ Hep Hret)) as (r&s'&Hcall&_&_&Hr'). exists s'. by rewrite <- Hr'.
  - intros b Hb. destruct (F3 _ Hb) as ([? _]&?&_). done.
  - intros Hl. apply (descends _ (race_ok stale k is_late) (fun m => threads m !! 4%nat = Some (returned true)) measure); [|done].
    intros m1 Hok1 Hf. by apply (race_progress seed stale k is_late e Hk).
Qed.

Lemma destroy_race_passes_witness :
  exists stale m s1 m'', run_destroy_race 3 (demo_env 0) demo = Done (Some (stale, m)) s1 /\
    rtc (sane_step 3 stale (demo_env 0) false) m m'' /\ threads m'' !! 4%nat = Some (returned true).
Proof.
  destruct (destroy_race_passes 3 0 false (demo_env 0) demo) as (stale&m&s1&Hrun&H).
  - lia.
  - apply (room_weaken (2 ^ 30)); [exact demo_room|lia].
  - destruct (H m (rtc_refl _ _)) as (_&_&_&_&_&_&Hlive). destruct (Hlive eq_refl) as (m''&H1&H2).
    exists stale, m, s1, m''. split; [exact Hrun|]. split; [exact H1|exact H2].
Defined.

(** The generation churn passes.  For any number of iterations that the
    generations of the free slot leave room for, every creation and destruction
    succeeds, and the first handle, once destroyed, is refused with [EINVAL] by every
    later [send] and [try_recv] although its slot is reused each time. *)
Lemma generation_churn_passes seed iterations k e s :
  is_u32 iterations -> 0 <= k -> room (k + 2 * iterations) s ->
  exists s', run_generation_churn seed iterations e s = Done true s' /\ room k s'.
Proof.
  intros Hu Hk Hr. destruct (wp_done (run_generation_churn seed iterations) (fun r s' => r = true /\ room k s') e s) as (r&s'&E&->&?); [|by exists s'].
  unfold run_generation_churn. unfold is_u32 in Hu. apply churn_spec; try done; [lia|lia| |by left].
  by replace (iterations - 0) with iterations by lia.
Qed.

Lemma generation_churn_passes_witness :
  exists s', run_generation_churn 1 2000 (demo_env 0) demo = Done true s' /\ room 0 s'.
Proof.
  apply (generation_churn_passes 1 2000 0 (demo_env 0) demo).
  - unfold is_u32. lia.
  - lia.
  - apply (room_weaken (2 ^ 30)); [exact demo_room|lia].
Defined.
